(** * Airplane boarding simulation: a shallow embedding of [final.py]

    The engine of the simulation (the overhead-bin model of [Plane], the
    per-passenger state machine [Passenger.propose_action], the sub-step
    conflict resolution [Simulation.do_substep], the tick driver
    [Simulation.update_in_parallel]) and the late-arrival scheduler
    [apply_late_arrivals] are embedded as executable functions.

    Conventions of the embedding:
    - Python integers are [Z];
    - a Python exception is a [Raise] result of the small error monad below;
    - a [Passenger] object is a reference (its position in the store, a
      [nat]) together with its fields; the store is the list
      [passengers_queue], and every other container of passengers
      ([passengers_in_aisle], [moved_this_tick], [passed_occupants], the keys
      of the plan dictionaries) holds references;
    - a dictionary whose iteration order the code relies on is an
      association list with Python's insertion-order semantics;
    - the module-level random generator is an explicit argument. *)

From Stdlib Require Import ZArith Lia Ascii String.
From stdpp Require Import base decidable option list gmap sets sorting.

#[local] Open Scope Z_scope.

(** ** Exceptions *)

(** [Diverges] is not a Python exception: it is the answer of the model for a
    [while True] loop that has not returned within the fuel it was given. *)
Inductive exn : Type := IndexError | KeyError | ValueError | Diverges.

Inductive result (A : Type) : Type :=
| Ok (a : A)
| Raise (e : exn).
Arguments Ok {A} a.
Arguments Raise {A} e.

Definition rbind {A B : Type} (m : result A) (k : A → result B) : result B :=
  match m with
  | Ok a => k a
  | Raise e => Raise e
  end.

Notation "x ←! m ; k" := (rbind m (λ x, k))
  (at level 20, m at level 100, k at level 200, right associativity,
   format "x  ←!  m ;  '/' k").
Notation "' p ←! m ; k" := (rbind m (λ p, k))
  (at level 20, p pattern, m at level 100, k at level 200,
   right associativity).

Definition is_ok {A : Type} (m : result A) : Prop := ∃ a, m = Ok a.

(** ** Python list indexing

    [l[i]] accepts [-len(l) <= i < len(l)], a negative index counting from
    the end, and raises [IndexError] otherwise. *)

Definition py_norm {A : Type} (l : list A) (i : Z) : option nat :=
  let n := Z.of_nat (length l) in
  if bool_decide (0 ≤ i < n) then Some (Z.to_nat i)
  else if bool_decide (- n ≤ i < 0) then Some (Z.to_nat (n + i))
  else None.

Definition py_get {A : Type} (l : list A) (i : Z) : result A :=
  match py_norm l i with
  | Some k => match l !! k with Some a => Ok a | None => Raise IndexError end
  | None => Raise IndexError
  end.

Definition py_set {A : Type} (l : list A) (i : Z) (a : A) : result (list A) :=
  match py_norm l i with
  | Some k => Ok (<[k := a]> l)
  | None => Raise IndexError
  end.

(** ** Global parameters *)

Definition COLS : Z := 7.
Definition AISLE_COL : Z := 3.
Definition OVERHEAD_BIN_CAPACITY : Z := 2.
Definition MAX_BAGS : Z := 3.
Definition TICKS_FOR_OVERHEAD : Z := 2.
Definition ENTRANCE_ROW : Z := -1.

(** ** The plane and its overhead bins *)

Record Plane : Type := mkPlane {
  num_rows : Z;
  overhead : list (list Z)
}.

(** [Plane.__init__]: [overhead = [[0] * COLS for _ in range(num_rows)]]. *)
Definition Plane_init (n : Z) : Plane :=
  {| num_rows := n;
     overhead := replicate (Z.to_nat n) (replicate (Z.to_nat COLS) 0) |}.

(** [sum(self.overhead[row][c] for c in range(COLS) if c != AISLE_COL)] *)
Fixpoint sum_non_aisle (ov : list (list Z)) (row : Z) (cols : list Z)
  : result Z :=
  match cols with
  | [] => Ok 0
  | c :: cols' =>
      if bool_decide (c ≠ AISLE_COL) then
        r ←! py_get ov row;
        v ←! py_get r c;
        rest ←! sum_non_aisle ov row cols';
        Ok (v + rest)
      else sum_non_aisle ov row cols'
  end.

Definition can_stow_bag (pl : Plane) (row bags_needed : Z) : result bool :=
  total_in_row ←! sum_non_aisle (overhead pl) row (seqZ 0 COLS);
  if bool_decide (total_in_row + bags_needed ≤ 6 * OVERHEAD_BIN_CAPACITY)
  then Ok true
  else Ok false.

(** The loop of [place_bags_in_bin]; the result carries the bins and the
    local [bags_left] at the point where the loop is left. *)
Fixpoint place_bags_loop (cols : list Z) (ov : list (list Z)) (row : Z)
    (bags_left : Z) : result (list (list Z) * Z) :=
  match cols with
  | [] => Ok (ov, bags_left)
  | c :: cols' =>
      if bool_decide (c = AISLE_COL) then place_bags_loop cols' ov row bags_left
      else
        r ←! py_get ov row;
        cur ←! py_get r c;
        let can_add := OVERHEAD_BIN_CAPACITY - cur in
        if bool_decide (can_add > 0) then
          let put_now := Z.min can_add bags_left in
          r' ←! py_set r c (cur + put_now);
          ov' ←! py_set ov row r';
          let bags_left' := bags_left - put_now in
          if bool_decide (bags_left' = 0) then Ok (ov', bags_left')
          else place_bags_loop cols' ov' row bags_left'
        else place_bags_loop cols' ov row bags_left
  end.

Definition place_bags_in_bin (pl : Plane) (row bags : Z) : result Plane :=
  '(ov, _) ←! place_bags_loop (seqZ 0 COLS) (overhead pl) row bags;
  Ok {| num_rows := num_rows pl; overhead := ov |}.

(** Bags left over when [place_bags_in_bin] returns (they are dropped). *)
Definition bags_not_placed (pl : Plane) (row bags : Z) : result Z :=
  '(_, rest) ←! place_bags_loop (seqZ 0 COLS) (overhead pl) row bags;
  Ok rest.

(** ** Passengers *)

Inductive PState : Type :=
| Queue | Walking | Stowing | LookingBin | MoveToSeat | Done.

#[global] Instance PState_eq_dec : EqDecision PState.
Proof. solve_decision. Defined.

(** References to [Passenger] objects: positions in [passengers_queue]. *)
Abbreviation pref := nat (only parsing).

Module Passenger.
Record t : Type := mk {
  seat_row : Z;
  seat_letter : ascii;
  bags_count : Z;
  overhead_bags : Z;
  x : Z;
  y : Z;
  state : PState;
  ticks_stowing : Z;
  delay_counter : Z;
  passed_occupants : gset pref;
  target_col : Z;
  queue_index : Z;
  is_late : bool
}.

Definition set_overhead_bags (p : t) (v : Z) : t :=
  mk (seat_row p) (seat_letter p) (bags_count p) v (x p) (y p) (state p)
     (ticks_stowing p) (delay_counter p) (passed_occupants p)
     (target_col p) (queue_index p) (is_late p).

Definition set_queue_index (p : t) (v : Z) : t :=
  mk (seat_row p) (seat_letter p) (bags_count p) (overhead_bags p) (x p)
     (y p) (state p) (ticks_stowing p) (delay_counter p)
     (passed_occupants p) (target_col p) v (is_late p).

Definition set_is_late (p : t) (v : bool) : t :=
  mk (seat_row p) (seat_letter p) (bags_count p) (overhead_bags p) (x p)
     (y p) (state p) (ticks_stowing p) (delay_counter p)
     (passed_occupants p) (target_col p) (queue_index p) v.
End Passenger.

(** [letter_to_col]: a dictionary lookup, [KeyError] outside ['A'..'F']. *)
Definition letter_to_col (letter : ascii) : result Z :=
  if Ascii.eqb letter "A" then Ok 0
  else if Ascii.eqb letter "B" then Ok 1
  else if Ascii.eqb letter "C" then Ok 2
  else if Ascii.eqb letter "D" then Ok 4
  else if Ascii.eqb letter "E" then Ok 5
  else if Ascii.eqb letter "F" then Ok 6
  else Raise KeyError.

(** [Passenger.__init__] *)
Definition Passenger_init (seat_row : Z) (seat_letter : ascii) (bags_count : Z)
    (queue_index : Z) (is_late : bool) : result Passenger.t :=
  target_col ←! letter_to_col seat_letter;
  Ok (Passenger.mk seat_row seat_letter bags_count (Z.max 0 (bags_count - 1))
        AISLE_COL ENTRANCE_ROW Queue 0 0 ∅ target_col queue_index is_late).

(** A list of passenger objects as the code sees it: each reference with the
    current fields of the object it points to. *)
Definition deref (store : list Passenger.t) (refs : list pref)
  : list (pref * Passenger.t) :=
  omap (λ i, (λ p, (i, p)) <$> store !! i) refs.

(** ** [find_passenger_at] and [is_tile_occupied] *)

Fixpoint find_passenger_at (row col : Z) (passengers : list (pref * Passenger.t))
  : option (pref * Passenger.t) :=
  match passengers with
  | [] => None
  | p :: rest =>
      if bool_decide (Passenger.y p.2 = row ∧ Passenger.x p.2 = col) then
        if bool_decide (Passenger.state p.2 ≠ Done) then Some p
        else if bool_decide (Passenger.state p.2 = Done ∧ col = AISLE_COL)
        then Some p
        else find_passenger_at row col rest
      else find_passenger_at row col rest
  end.

Definition is_tile_occupied (row col : Z) (passengers : list (pref * Passenger.t))
  : bool :=
  match find_passenger_at row col passengers with
  | Some _ => true
  | None => false
  end.

(** ** [Passenger.propose_action] *)

Module Plan.
Record t : Type := mk {
  x : Z;
  y : Z;
  state : PState;
  ticks_stowing : Z;
  delay_counter : Z;
  passed_occupants : gset pref
}.

Definition set_x (pl : t) (v : Z) : t :=
  mk v (y pl) (state pl) (ticks_stowing pl) (delay_counter pl)
     (passed_occupants pl).
Definition set_y (pl : t) (v : Z) : t :=
  mk (x pl) v (state pl) (ticks_stowing pl) (delay_counter pl)
     (passed_occupants pl).
Definition set_state (pl : t) (v : PState) : t :=
  mk (x pl) (y pl) v (ticks_stowing pl) (delay_counter pl)
     (passed_occupants pl).
Definition set_ticks_stowing (pl : t) (v : Z) : t :=
  mk (x pl) (y pl) (state pl) v (delay_counter pl) (passed_occupants pl).
Definition set_delay_counter (pl : t) (v : Z) : t :=
  mk (x pl) (y pl) (state pl) (ticks_stowing pl) v (passed_occupants pl).
Definition set_passed_occupants (pl : t) (v : gset pref) : t :=
  mk (x pl) (y pl) (state pl) (ticks_stowing pl) (delay_counter pl) v.
End Plan.

(** The plan that keeps every mutable field of [p] as it is. *)
Definition plan_of (p : Passenger.t) : Plan.t :=
  Plan.mk (Passenger.x p) (Passenger.y p) (Passenger.state p)
    (Passenger.ticks_stowing p) (Passenger.delay_counter p)
    (Passenger.passed_occupants p).

(** [leaving_map.get(pos, False)] *)
Definition lm_get (leaving_map : gmap (Z * Z) bool) (pos : Z * Z) : bool :=
  default false (leaving_map !! pos).

(** The result is the returned plan together with the plane and the
    passenger itself after the call: the [stowing] branch writes to both. *)
Definition propose_action (plane : Plane) (self : Passenger.t)
    (passengers_in_aisle : list (pref * Passenger.t))
    (leaving_map : gmap (Z * Z) bool) (current_tick : Z)
  : result (Plan.t * Plane * Passenger.t) :=
  let plan := plan_of self in
  match Passenger.state self with
  | Done => Ok (plan, plane, self)
  | Queue =>
      if existsb (λ other,
            bool_decide (Passenger.state other.2 = Queue) &&
            bool_decide (Passenger.queue_index other.2
                         < Passenger.queue_index self))
           passengers_in_aisle
      then Ok (plan, plane, self)
      else if negb (is_tile_occupied 0 AISLE_COL passengers_in_aisle) then
        Ok (Plan.set_state (Plan.set_y plan 0) Walking, plane, self)
      else if lm_get leaving_map (0, AISLE_COL) then
        Ok (Plan.set_state (Plan.set_y plan 0) Walking, plane, self)
      else Ok (plan, plane, self)
  | Walking =>
      if bool_decide (Passenger.y self < Passenger.seat_row self) then
        let next_y := Passenger.y self + 1 in
        match find_passenger_at next_y AISLE_COL passengers_in_aisle with
        | None => Ok (Plan.set_y plan next_y, plane, self)
        | Some _ =>
            if lm_get leaving_map (next_y, AISLE_COL)
            then Ok (Plan.set_y plan next_y, plane, self)
            else Ok (plan, plane, self)
        end
      else if bool_decide (Passenger.overhead_bags self > 0) then
        fits ←! can_stow_bag plane (Passenger.y self)
                  (Passenger.overhead_bags self);
        if fits : bool then
          Ok (Plan.set_ticks_stowing (Plan.set_state plan Stowing)
                TICKS_FOR_OVERHEAD, plane, self)
        else Ok (Plan.set_state plan LookingBin, plane, self)
      else Ok (Plan.set_state plan MoveToSeat, plane, self)
  | Stowing =>
      if bool_decide (Passenger.ticks_stowing self > 0) then
        let plan := Plan.set_ticks_stowing plan
                      (Passenger.ticks_stowing self - 1) in
        if bool_decide (Plan.ticks_stowing plan = 0) then
          plane' ←! place_bags_in_bin plane (Passenger.y self)
                      (Passenger.overhead_bags self);
          Ok (Plan.set_state plan MoveToSeat, plane',
              Passenger.set_overhead_bags self 0)
        else Ok (plan, plane, self)
      else Ok (plan, plane, self)
  | LookingBin =>
      if bool_decide (Passenger.y self < num_rows plane - 1) then
        let next_y := Passenger.y self + 1 in
        let advance :=
          let plan := Plan.set_y plan next_y in
          fits ←! can_stow_bag plane next_y (Passenger.overhead_bags self);
          if fits : bool then
            Ok (Plan.set_ticks_stowing (Plan.set_state plan Stowing)
                  TICKS_FOR_OVERHEAD, plane, self)
          else Ok (plan, plane, self) in
        match find_passenger_at next_y AISLE_COL passengers_in_aisle with
        | None => advance
        | Some _ =>
            if lm_get leaving_map (next_y, AISLE_COL) then advance
            else Ok (plan, plane, self)
        end
      else Ok (Plan.set_state plan MoveToSeat, plane, self)
  | MoveToSeat =>
      if bool_decide (Passenger.delay_counter self > 0) then
        Ok (Plan.set_delay_counter plan (Passenger.delay_counter self - 1),
            plane, self)
      else if bool_decide (Passenger.x self = Passenger.target_col self) then
        Ok (Plan.set_state plan Done, plane, self)
      else
        let step := if bool_decide (Passenger.x self < Passenger.target_col self)
                    then 1 else -1 in
        let next_x := Passenger.x self + step in
        match find_passenger_at (Passenger.y self) next_x passengers_in_aisle with
        | Some occ =>
            if bool_decide (Passenger.state occ.2 = Done) then
              if bool_decide (occ.1 ∉ Passenger.passed_occupants self) then
                Ok (Plan.set_passed_occupants (Plan.set_delay_counter plan 1)
                      ({[occ.1]} ∪ Passenger.passed_occupants self),
                    plane, self)
              else if lm_get leaving_map (Passenger.y self, next_x)
              then Ok (Plan.set_x plan next_x, plane, self)
              else Ok (plan, plane, self)
            else if lm_get leaving_map (Passenger.y self, next_x)
            then Ok (Plan.set_x plan next_x, plane, self)
            else Ok (plan, plane, self)
        | None => Ok (Plan.set_x plan next_x, plane, self)
        end
  end.

(** ** Dictionaries in insertion order and the stable sort *)

Section Dict.
Context {K V : Type} `{EqDecision K}.

(** [d[k] = v]: overwrite in place, or append a new key. *)
Fixpoint dict_set (k : K) (v : V) (d : list (K * V)) : list (K * V) :=
  match d with
  | [] => [(k, v)]
  | kv :: d' =>
      if decide (k = kv.1) then (k, v) :: d' else kv :: dict_set k v d'
  end.

Fixpoint dict_find (k : K) (d : list (K * V)) : option V :=
  match d with
  | [] => None
  | kv :: d' => if decide (k = kv.1) then Some kv.2 else dict_find k d'
  end.

(** [d[k]] *)
Definition dict_get (k : K) (d : list (K * V)) : result V :=
  match dict_find k d with
  | Some v => Ok v
  | None => Raise KeyError
  end.
End Dict.

(** [sorted(l, key=key)]: Python's sort is stable; so is this insertion
    sort, and a stable sort has one result. *)
Section Sorted.
Context {A : Type} (key : A → Z).

Fixpoint insert_by (a : A) (l : list A) : list A :=
  match l with
  | [] => [a]
  | b :: l' =>
      if bool_decide (key a ≤ key b) then a :: b :: l'
      else b :: insert_by a l'
  end.

Definition sorted_by (l : list A) : list A := foldr insert_by [] l.
End Sorted.

(** ** The [random] module

    The generator is an explicit state [rng]; the three functions the code
    calls return their outcome and the next state. [RandomOk] is what the
    library promises of every outcome. *)

Record Random : Type := mkRandom {
  rng : Type;
  random_sample : rng → list nat → nat → list nat * rng;
  random_shuffle : ∀ A : Type, rng → list A → list A * rng;
  random_randint : rng → Z → Z → Z * rng
}.
Arguments random_shuffle _ {A} _ _.

Record RandomOk (R : Random) : Prop := mkRandomOk {
  sample_ok : ∀ (g : rng R) (population : list nat) (k : nat),
    (k ≤ length population)%nat → NoDup population →
    length (random_sample R g population k).1 = k ∧
    NoDup (random_sample R g population k).1 ∧
    (random_sample R g population k).1 ⊆ population;
  shuffle_ok : ∀ (A : Type) (g : rng R) (l : list A),
    (random_shuffle R g l).1 ≡ₚ l;
  randint_ok : ∀ (g : rng R) (a b : Z),
    a ≤ b → a ≤ (random_randint R g a b).1 ≤ b
}.

(** ** The boarding methods *)

Definition letters : list ascii :=
  ["A"; "B"; "C"; "D"; "E"; "F"]%char.

(** [range(n)] and [range(n - 1, -1, -1)] *)
Definition py_range (n : Z) : list Z := seqZ 0 n.
Definition py_range_down (n : Z) : list Z := reverse (seqZ 0 n).

(** [l[:n]]: a negative [n] counts from the end. *)
Definition py_slice_to {A : Type} (l : list A) (n : Z) : list A :=
  if bool_decide (0 ≤ n) then take (Z.to_nat n) l
  else take (length l - Z.to_nat (- n)) l.

(** [for l in ls: all_seats.append((r, l))] *)
Definition row_seats (ls : list ascii) (r : Z) : list (Z * ascii) :=
  (λ l, (r, l)) <$> ls.

Section Boarding.
Context (R : Random).

(** The loop shared by the six methods:
    [for i, (r, l) in enumerate(all_seats)], drawing the bags of each
    passenger and building it. *)
Fixpoint board (g : rng R) (i : Z) (seats : list (Z * ascii))
  : result (list Passenger.t * rng R) :=
  match seats with
  | [] => Ok ([], g)
  | s :: seats' =>
      let bg := random_randint R g 1 MAX_BAGS in
      p ←! Passenger_init s.1 s.2 bg.1 i false;
      '(ps, g') ←! board bg.2 (i + 1) seats';
      Ok (p :: ps, g')
  end.

Definition generate_unique_seats (g : rng R) (num_rows num_people : Z)
  : list (Z * ascii) * rng R :=
  let all_seats := concat (row_seats letters <$> py_range num_rows) in
  let sg := random_shuffle R g all_seats in
  (py_slice_to sg.1 num_people, sg.2).

Definition generate_boarding_0_random (g : rng R) (plane : Plane) (n : Z)
  : result (list Passenger.t * rng R) :=
  let sg := generate_unique_seats g (num_rows plane) n in
  board sg.2 0 sg.1.

(** [for r in rows: row_letters = ls[:]; random.shuffle(row_letters);
    for l in row_letters: all_seats.append((r, l))] *)
Fixpoint shuffled_rows (g : rng R) (rows : list Z) (ls : list ascii)
  : list (Z * ascii) * rng R :=
  match rows with
  | [] => ([], g)
  | r :: rows' =>
      let sg := random_shuffle R g ls in
      let rg := shuffled_rows sg.2 rows' ls in
      (row_seats sg.1 r ++ rg.1, rg.2)
  end.

Definition generate_boarding_1_back_to_front (g : rng R) (plane : Plane)
    (n : Z) : result (list Passenger.t * rng R) :=
  let sg := shuffled_rows g (py_range_down (num_rows plane)) letters in
  board sg.2 0 (py_slice_to sg.1 n).

Definition generate_boarding_2_back_to_front_window_to_aisle (g : rng R)
    (plane : Plane) (n : Z) : result (list Passenger.t * rng R) :=
  let seat_order := ["A"; "F"; "B"; "E"; "C"; "D"]%char in
  let all_seats :=
    concat (row_seats seat_order <$> py_range_down (num_rows plane)) in
  board g 0 (py_slice_to all_seats n).

Definition generate_boarding_3_skip_rows (g : rng R) (plane : Plane) (n : Z)
  : result (list Passenger.t * rng R) :=
  let rows_desc := py_range_down (num_rows plane) in
  let odd_rows_desc := filter (λ r, r `mod` 2 = 1) rows_desc in
  let even_rows_desc := filter (λ r, r `mod` 2 ≠ 1) rows_desc in
  let og := shuffled_rows g odd_rows_desc letters in
  let eg := shuffled_rows og.2 even_rows_desc letters in
  board eg.2 0 (py_slice_to (og.1 ++ eg.1) n).

Definition generate_boarding_4_zones (g : rng R) (plane : Plane) (n : Z)
  : result (list Passenger.t * rng R) :=
  let row_desc := sorted_by Z.opp (py_range (num_rows plane)) in
  let zone_size := (length row_desc / 3)%nat in
  let zone1_rows := take zone_size row_desc in
  let zone2_rows := drop zone_size (take (2 * zone_size) row_desc) in
  let zone3_rows := drop (2 * zone_size) row_desc in
  let z1 := random_shuffle R g (concat (row_seats letters <$> zone1_rows)) in
  let z2 := random_shuffle R z1.2 (concat (row_seats letters <$> zone2_rows)) in
  let z3 := random_shuffle R z2.2 (concat (row_seats letters <$> zone3_rows)) in
  board z3.2 0 (py_slice_to (z1.1 ++ z2.1 ++ z3.1) n).

(** [build_group_seats]: the loop [while row >= 0] runs at most [row + 1]
    times; [fuel] bounds its runs. *)
Fixpoint build_group_seats (fuel : nat) (g : rng R) (row : Z) (left_first : bool)
  : list (Z * ascii) * rng R :=
  match fuel with
  | O => ([], g)
  | S fuel' =>
      if bool_decide (0 ≤ row) then
        let seats3 := if left_first then ["A"; "B"; "C"]%char
                      else ["D"; "E"; "F"]%char in
        let sg := random_shuffle R g seats3 in
        let rg := build_group_seats fuel' sg.2 (row - 2) (negb left_first) in
        (row_seats sg.1 row ++ rg.1, rg.2)
      else ([], g)
  end.

Definition generate_boarding_5_4groups (g : rng R) (plane : Plane) (n : Z)
  : result (list Passenger.t * rng R) :=
  let last_row := num_rows plane - 1 in
  let fuel := Z.to_nat (last_row + 1) in
  let g1 := build_group_seats fuel g last_row true in
  let g2 := build_group_seats fuel g1.2 last_row false in
  let g3 := build_group_seats fuel g2.2 (last_row - 1) true in
  let g4 := build_group_seats fuel g3.2 (last_row - 1) false in
  board g4.2 0 (py_slice_to (g1.1 ++ g2.1 ++ g3.1 ++ g4.1) n).

(** The choice of [Simulation.__init__]. *)
Definition generate_boarding (boarding_method : Z) (g : rng R)
    (plane : Plane) (people_count : Z) : result (list Passenger.t * rng R) :=
  if bool_decide (boarding_method = 0)
  then generate_boarding_0_random g plane people_count
  else if bool_decide (boarding_method = 1)
  then generate_boarding_1_back_to_front g plane people_count
  else if bool_decide (boarding_method = 2)
  then generate_boarding_2_back_to_front_window_to_aisle g plane people_count
  else if bool_decide (boarding_method = 3)
  then generate_boarding_3_skip_rows g plane people_count
  else if bool_decide (boarding_method = 4)
  then generate_boarding_4_zones g plane people_count
  else generate_boarding_5_4groups g plane people_count.
End Boarding.

(** ** Late arrivals *)

(** [int(n * late_percent / 100.0)] for a percentage that is an integer.
    While [n], [late_percent] and their product stay below [2^53] in
    absolute value, the product is exact in double precision, the quotient
    is the double nearest to [n * late_percent / 100], less than [1/100]
    away from it, and truncating it gives the integer quotient.  Beyond
    that range the doubles round and [int] raises [OverflowError] on an
    infinite quotient; that and the percentages with a fraction are not
    part of this model. *)
Definition late_count_of (n : nat) (late_percent : Z) : Z :=
  Z.quot (Z.of_nat n * late_percent) 100.

(** [for i in late_indices: base_passengers[i].is_late = True] *)
Fixpoint mark_late (late_indices : list nat) (ps : list Passenger.t)
  : result (list Passenger.t) :=
  match late_indices with
  | [] => Ok ps
  | i :: rest =>
      match ps !! i with
      | Some p => mark_late rest (<[i := Passenger.set_is_late p true]> ps)
      | None => Raise IndexError
      end
  end.

(** [for i, p in enumerate(new_list): p.queue_index = i] *)
Definition renumber (new_list : list Passenger.t) : list Passenger.t :=
  imap (λ i p, Passenger.set_queue_index p (Z.of_nat i)) new_list.

Section LateArrivals.
Context (R : Random).

(** [get_unique_delay]: draws until the outcome is not in [used_delays]. *)
Fixpoint get_unique_delay (fuel : nat) (g : rng R) (used_delays : gset Z)
    (max_delay : Z) : result (Z * rng R * gset Z) :=
  match fuel with
  | O => Raise Diverges
  | S fuel' =>
      let dg := random_randint R g 0 max_delay in
      if bool_decide (dg.1 ∉ used_delays)
      then Ok (dg.1, dg.2, {[dg.1]} ∪ used_delays)
      else get_unique_delay fuel' dg.2 used_delays max_delay
  end.

(** The loop that builds [passenger_arr]: triples of the queue index, the
    offset and the passenger. *)
Fixpoint assign_delays (fuel : nat) (g : rng R) (used_delays : gset Z)
    (max_delay : Z) (ps : list Passenger.t)
  : result (list (Z * Z * Passenger.t) * rng R) :=
  match ps with
  | [] => Ok ([], g)
  | p :: ps' =>
      if Passenger.is_late p then
        '(extra, g', used') ←! get_unique_delay fuel g used_delays max_delay;
        '(arr, g'') ←! assign_delays fuel g' used' max_delay ps';
        Ok ((Passenger.queue_index p, extra, p) :: arr, g'')
      else
        '(arr, g'') ←! assign_delays fuel g used_delays max_delay ps';
        Ok ((Passenger.queue_index p, 0, p) :: arr, g'')
  end.

(** The sort key of [passenger_arr]: [x[0] + x[1]]. *)
Definition arr_key (x : Z * Z * Passenger.t) : Z := x.1.1 + x.1.2.

Definition apply_late_arrivals (fuel : nat) (g : rng R)
    (base_passengers : list Passenger.t) (late_percent : Z)
    (late_immediate : bool) : result (list Passenger.t * rng R) :=
  let n := length base_passengers in
  let late_count := late_count_of n late_percent in
  if bool_decide (late_count ≤ 0) then Ok (base_passengers, g)
  else if bool_decide (Z.of_nat n < late_count) then Raise ValueError
  else
    let sg := random_sample R g (seq 0 n) (Z.to_nat late_count) in
    marked ←! mark_late sg.1 base_passengers;
    if negb late_immediate then
      let normal_pass := filter (λ p, Passenger.is_late p = false) marked in
      let late_pass := filter (λ p, Passenger.is_late p = true) marked in
      let lg := random_shuffle R sg.2 late_pass in
      Ok (renumber (normal_pass ++ lg.1), lg.2)
    else
      let max_delay := Z.of_nat n + 10 in
      '(passenger_arr, g') ←! assign_delays fuel sg.2 ∅ max_delay marked;
      Ok (renumber (sorted_by arr_key passenger_arr).*2, g').
End LateArrivals.

(** ** The simulation state *)

Module Simulation.
Record t : Type := mk {
  plane : Plane;
  passengers_queue : list Passenger.t;
  passengers_in_aisle : list pref;
  tick_count : Z;
  final_tick_count : option Z
}.
End Simulation.

(** [pp.queue_index] read through a reference. *)
Definition qidx (store : list Passenger.t) (p : pref) : Z :=
  match store !! p with
  | Some q => Passenger.queue_index q
  | None => 0
  end.

(** [pp.state] read through a reference. *)
Definition qstate (store : list Passenger.t) (p : pref) : option PState :=
  Passenger.state <$> store !! p.

(** The assignments at the end of [do_substep]. *)
Definition apply_update (q : Passenger.t) (upd : Plan.t) : Passenger.t :=
  Passenger.mk (Passenger.seat_row q) (Passenger.seat_letter q)
    (Passenger.bags_count q) (Passenger.overhead_bags q)
    (Plan.x upd) (Plan.y upd) (Plan.state upd) (Plan.ticks_stowing upd)
    (Plan.delay_counter upd) (Plan.passed_occupants upd)
    (Passenger.target_col q) (Passenger.queue_index q) (Passenger.is_late q).

(** One pass of proposals over [cand_sorted], filling a plan dictionary; the
    plane and the store are threaded through because [propose_action]
    writes to them. *)
Fixpoint propose_pass (cands : list pref) (plane : Plane)
    (store : list Passenger.t) (aisle : list pref)
    (leaving_map : gmap (Z * Z) bool) (tick : Z) (plans : list (pref * Plan.t))
  : result (list (pref * Plan.t) * Plane * list Passenger.t) :=
  match cands with
  | [] => Ok (plans, plane, store)
  | p :: rest =>
      match store !! p with
      | None => propose_pass rest plane store aisle leaving_map tick plans
      | Some self =>
          '(plan, plane', self') ←!
             propose_action plane self (deref store aisle) leaving_map tick;
          propose_pass rest plane' (<[p := self']> store) aisle leaving_map
            tick (dict_set p plan plans)
      end
  end.

Definition build_leaving_map (store : list Passenger.t)
    (draft_plans : list (pref * Plan.t)) : gmap (Z * Z) bool :=
  foldl (λ (lm : gmap (Z * Z) bool) (pp : pref * Plan.t),
           match store !! pp.1 with
           | Some q =>
               let oldpos := (Passenger.y q, Passenger.x q) in
               let newpos := (Plan.y pp.2, Plan.x pp.2) in
               if bool_decide (oldpos ≠ newpos) then <[oldpos := true]> lm
               else lm
           | None => lm
           end) ∅ draft_plans.

(** [desired_positions.setdefault(np, []).append(p)] *)
Definition setdefault_append (np : Z * Z) (p : pref)
    (d : list (Z * Z * list pref)) : list (Z * Z * list pref) :=
  match dict_find np d with
  | Some l => dict_set np (l ++ [p]) d
  | None => dict_set np [p] d
  end.

Definition build_desired_positions (final_plans : list (pref * Plan.t))
  : list (Z * Z * list pref) :=
  foldl (λ d (pp : pref * Plan.t),
           setdefault_append (Plan.y pp.2, Plan.x pp.2) pp.1 d) [] final_plans.

(** The forced hold of a loser: its current fields. *)
Definition hold_loser (store : list Passenger.t)
    (fu : list (pref * Plan.t)) (loser : pref) : list (pref * Plan.t) :=
  match store !! loser with
  | Some q => dict_set loser (plan_of q) fu
  | None => fu
  end.

Fixpoint resolve_collisions (groups : list (Z * Z * list pref))
    (store : list Passenger.t) (final_plans final_updates : list (pref * Plan.t))
  : result (list (pref * Plan.t)) :=
  match groups with
  | [] => Ok final_updates
  | g :: rest =>
      let p_list := g.2 in
      if bool_decide (length p_list = 1%nat) then
        p0 ←! py_get p_list 0;
        plan ←! dict_get p0 final_plans;
        resolve_collisions rest store final_plans (dict_set p0 plan final_updates)
      else
        let srt := sorted_by (qidx store) p_list in
        winner ←! py_get srt 0;
        plan ←! dict_get winner final_plans;
        let fu := dict_set winner plan final_updates in
        let fu := foldl (hold_loser store) fu (drop 1 srt) in
        resolve_collisions rest store final_plans fu
  end.

Fixpoint apply_updates (cands : list pref) (final_updates : list (pref * Plan.t))
    (store : list Passenger.t) (moved_anyone : bool) (moved_this_tick : gset pref)
  : result (list Passenger.t * bool * gset pref) :=
  match cands with
  | [] => Ok (store, moved_anyone, moved_this_tick)
  | p :: rest =>
      upd ←! dict_get p final_updates;
      match store !! p with
      | None => apply_updates rest final_updates store moved_anyone moved_this_tick
      | Some q =>
          let old_xy := (Passenger.x q, Passenger.y q) in
          let q' := apply_update q upd in
          if bool_decide ((Passenger.x q', Passenger.y q') ≠ old_xy) then
            apply_updates rest final_updates (<[p := q']> store) true
              ({[p]} ∪ moved_this_tick)
          else
            apply_updates rest final_updates (<[p := q']> store) moved_anyone
              moved_this_tick
      end
  end.

(** [candidates] of [do_substep]. *)
Definition candidates (sim : Simulation.t) (moved_this_tick : gset pref)
  : list pref :=
  filter (λ p, p ∉ moved_this_tick)
    (deref (Simulation.passengers_queue sim)
           (Simulation.passengers_in_aisle sim)).*1.

(** The first half of [do_substep]: the draft pass with an empty
    [leaving_map], the [leaving_map] built from the drafts, and the final
    pass. The result is [cand_sorted], [leaving_map], [final_plans], and the
    plane and the store after the two passes. *)
Definition final_proposals (sim : Simulation.t) (moved_this_tick : gset pref)
  : result (list pref * gmap (Z * Z) bool * list (pref * Plan.t)
            * Plane * list Passenger.t) :=
  let aisle := Simulation.passengers_in_aisle sim in
  let store := Simulation.passengers_queue sim in
  let tick := Simulation.tick_count sim in
  let cand_sorted := sorted_by (qidx store) (candidates sim moved_this_tick) in
  '(draft_plans, plane1, store1) ←!
     propose_pass cand_sorted (Simulation.plane sim) store aisle ∅ tick [];
  let leaving_map := build_leaving_map store1 draft_plans in
  '(final_plans, plane2, store2) ←!
     propose_pass cand_sorted plane1 store1 aisle leaving_map tick [];
  Ok (cand_sorted, leaving_map, final_plans, plane2, store2).

(** [Simulation.do_substep]: returns [moved_anyone], the simulation and the
    set [moved_this_tick] (which the code updates in place). *)
Definition do_substep (sim : Simulation.t) (moved_this_tick : gset pref)
  : result (bool * Simulation.t * gset pref) :=
  if bool_decide (candidates sim moved_this_tick = [])
  then Ok (false, sim, moved_this_tick)
  else
    '(cand_sorted, _, final_plans, plane2, store2) ←!
       final_proposals sim moved_this_tick;
    let desired_positions := build_desired_positions final_plans in
    final_updates ←!
       resolve_collisions desired_positions store2 final_plans [];
    '(store3, moved_anyone, moved') ←!
       apply_updates cand_sorted final_updates store2 false moved_this_tick;
    Ok (moved_anyone,
        Simulation.mk plane2 store3 (Simulation.passengers_in_aisle sim)
          (Simulation.tick_count sim) (Simulation.final_tick_count sim),
        moved').

(** The loop [for _ in range(max_substeps)] of [update_in_parallel]. *)
Fixpoint run_substeps (n : nat) (sim : Simulation.t) (moved_this_tick : gset pref)
  : result Simulation.t :=
  match n with
  | O => Ok sim
  | S n' =>
      '(any_move, sim', moved') ←! do_substep sim moved_this_tick;
      if any_move : bool then run_substeps n' sim' moved' else Ok sim'
  end.

Definition all_done (store : list Passenger.t) : bool :=
  forallb (λ p, bool_decide (Passenger.state p = Done)) store.

(** The first loop of [update_in_parallel]: every passenger of the queue that is not done and
    not yet in the aisle list is appended to it. *)
Definition join_aisle (store : list Passenger.t) (aisle : list pref) : list pref :=
  foldl (λ (acc : list pref) (ip : pref * Passenger.t),
           if bool_decide (Passenger.state ip.2 ≠ Done)
              && bool_decide (ip.1 ∉ acc)
           then acc ++ [ip.1] else acc)
        aisle (imap (λ i p, (i, p)) store).

Definition max_substeps : nat := 10.

(** [Simulation.update_in_parallel] *)
Definition update_in_parallel (sim : Simulation.t) : result Simulation.t :=
  let store := Simulation.passengers_queue sim in
  let done_all := all_done store in
  let final :=
    if done_all && bool_decide (Simulation.final_tick_count sim = None)
    then Some (Simulation.tick_count sim)
    else Simulation.final_tick_count sim in
  let tick := if negb done_all then Simulation.tick_count sim + 1
              else Simulation.tick_count sim in
  let aisle := join_aisle store (Simulation.passengers_in_aisle sim) in
  let sim1 := Simulation.mk (Simulation.plane sim) store aisle tick final in
  sim2 ←! run_substeps max_substeps sim1 ∅;
  let store2 := Simulation.passengers_queue sim2 in
  Ok (Simulation.mk (Simulation.plane sim2) store2
        (filter (λ p, qstate store2 p ≠ Some Done)
                (Simulation.passengers_in_aisle sim2))
        (Simulation.tick_count sim2) (Simulation.final_tick_count sim2)).

(** [Simulation.__init__], without the window: the answers read from the
    console (the number of rows, the percentage of late passengers, the
    late-arrival mode and the boarding method) are arguments. *)
Definition Simulation__init__ (R : Random) (fuel : nat) (g : rng R)
    (num_rows late_percent : Z) (late_immediate : bool) (boarding_method : Z)
  : result (Simulation.t * rng R) :=
  let people_count := num_rows * 6 in
  let plane := Plane_init num_rows in
  '(base_pass, g1) ←!
     generate_boarding R boarding_method g plane people_count;
  '(passengers_queue, g2) ←!
     apply_late_arrivals R fuel g1 base_pass late_percent late_immediate;
  Ok (Simulation.mk plane passengers_queue [] 0 None, g2).

(** * Auxiliary definitions used in the statements *)

(** ** Overhead bins *)

(** What one column takes: the new count and the bags still to place. *)
Definition fill_col (cur bags_left : Z) : Z * Z :=
  let can_add := OVERHEAD_BIN_CAPACITY - cur in
  if bool_decide (can_add > 0) then
    let put_now := Z.min can_add bags_left in
    (cur + put_now, bags_left - put_now)
  else (cur, bags_left).

(** What the loop of [place_bags_in_bin] does to the row it fills, as a
    function of that row alone (leaving the loop early when no bag is left
    changes nothing: the remaining columns would take no bag). *)
Fixpoint fill_cols (cols : list Z) (r : list Z) (bags_left : Z) : list Z * Z :=
  match cols with
  | [] => (r, bags_left)
  | c :: cols' =>
      if bool_decide (c = AISLE_COL) then fill_cols cols' r bags_left
      else
        let vn := fill_col (default 0 (r !! Z.to_nat c)) bags_left in
        fill_cols cols' (<[Z.to_nat c := vn.1]> r) vn.2
  end.

(** [total_in_row] of [can_stow_bag]. *)
Definition total_in_row (pl : Plane) (row : Z) : result Z :=
  sum_non_aisle (overhead pl) row (seqZ 0 COLS).

(** A sequence of calls [plane.place_bags_in_bin(row, bags)]. *)
Fixpoint place_all (calls : list (Z * Z)) (pl : Plane) : result Plane :=
  match calls with
  | [] => Ok pl
  | c :: calls' => pl' ←! place_bags_in_bin pl c.1 c.2; place_all calls' pl'
  end.

(** The row a Python index denotes in a list of [n] rows. *)
Definition row_of (n row : Z) : Z := if bool_decide (row < 0) then n + row else row.

(** The number of bags the calls ask to place in row [k] of [n] rows. *)
Fixpoint bags_sent (n : Z) (calls : list (Z * Z)) (k : Z) : Z :=
  match calls with
  | [] => 0
  | c :: calls' =>
      (if bool_decide (row_of n c.1 = k) then c.2 else 0) + bags_sent n calls' k
  end.

(** The shape and the bounds of the bins: [n] rows of [COLS] counters, each
    between 0 and the capacity. *)
Definition bins_ok (n : Z) (pl : Plane) : Prop :=
  num_rows pl = n ∧
  length (overhead pl) = Z.to_nat n ∧
  Forall (λ r, length r = Z.to_nat COLS ∧
               Forall (λ v, 0 ≤ v ≤ OVERHEAD_BIN_CAPACITY) r) (overhead pl).

(** The contract of [place_bags_in_bin] as the specification words it: a
    call that [can_stow_bag] does not allow is surfaced as an exception. *)
Definition stow_contract_asserted (pl : Plane) (row bags : Z) : Prop :=
  can_stow_bag pl row bags = Ok false →
  ∃ e, place_bags_in_bin pl row bags = Raise e.

(** ** Passengers and runs *)

(** The tail shared by the six boarding generators:
    [for i, (r, l) in enumerate(all_seats): Passenger(r, l, bags, i)], with
    the bag counts drawn for the passengers given in order. *)
Fixpoint make_passengers (i : Z) (seats : list (Z * ascii)) (bags : list Z)
  : result (list Passenger.t) :=
  match seats, bags with
  | s :: seats', b :: bags' =>
      p ←! Passenger_init s.1 s.2 b i false;
      ps ←! make_passengers (i + 1) seats' bags';
      Ok (p :: ps)
  | _, _ => Ok []
  end.

(** The engine part of [Simulation.__init__]. *)
Definition Simulation_init (rows : Z) (queue : list Passenger.t) : Simulation.t :=
  Simulation.mk (Plane_init rows) queue [] 0 None.

(** [n] calls of [update_in_parallel]. *)
Fixpoint run_ticks (n : nat) (sim : Simulation.t) : result Simulation.t :=
  match n with
  | O => Ok sim
  | S n' => sim' ←! update_in_parallel sim; run_ticks n' sim'
  end.

(** A boarding of [rows] rows by the passengers of the given seats and bag
    counts, after [n] ticks. *)
Definition boarding_after (n : nat) (rows : Z) (seats : list (Z * ascii))
    (bags : list Z) : result Simulation.t :=
  queue ←! make_passengers 0 seats bags;
  run_ticks n (Simulation_init rows queue).

(** The cell, the state and the stow countdown of passenger [i]. *)
Definition where_is (sim : result Simulation.t) (i : pref)
  : option (Z * Z * PState * Z) :=
  match sim with
  | Ok s =>
      (λ p, (Passenger.y p, Passenger.x p, Passenger.state p,
             Passenger.ticks_stowing p))
        <$> Simulation.passengers_queue s !! i
  | Raise _ => None
  end.

(** The passengers [find_passenger_at] can return for a cell: those on the
    cell that are not done, or done in the aisle column. *)
Definition visible_at (row col : Z) (p : pref * Passenger.t) : Prop :=
  Passenger.y p.2 = row ∧ Passenger.x p.2 = col ∧
  (Passenger.state p.2 ≠ Done ∨ col = AISLE_COL).

#[global] Instance visible_at_dec row col p : Decision (visible_at row col p).
Proof. unfold visible_at. apply _. Defined.

(** The column next to [self] on its way to its seat. *)
Definition next_x (self : Passenger.t) : Z :=
  Passenger.x self
  + (if bool_decide (Passenger.x self < Passenger.target_col self) then 1 else -1).

(** The wording of the specification for a seated occupant of the next cell:
    whenever a done passenger not yet negotiated stands on the next cell, the
    proposal holds the position, waits one tick and records the occupant. *)
Definition squeezes_past_seated (plane : Plane) (self : Passenger.t)
    (passengers : list (pref * Passenger.t)) (leaving_map : gmap (Z * Z) bool)
    (tick : Z) : Prop :=
  ∀ occ, occ ∈ passengers →
    Passenger.y occ.2 = Passenger.y self → Passenger.x occ.2 = next_x self →
    Passenger.state occ.2 = Done → occ.1 ∉ Passenger.passed_occupants self →
    ∃ plan plane' self',
      propose_action plane self passengers leaving_map tick
        = Ok (plan, plane', self') ∧
      Plan.x plan = Passenger.x self ∧
      Plan.delay_counter plan = 1 ∧
      Plan.passed_occupants plan = {[occ.1]} ∪ Passenger.passed_occupants self.

(** ** Sub-steps *)

(** The head of a list has the least key. *)
Definition head_least {A : Type} (key : A → Z) (l : list A) : Prop :=
  match l with
  | [] => True
  | w :: _ => ∀ q, q ∈ l → key w ≤ key q
  end.

(** A passenger up to the one field [propose_action] writes. *)
Definition frame (p : Passenger.t) : Passenger.t :=
  Passenger.set_overhead_bags p 0.

(** The cell of a passenger and the cell a plan asks for. *)
Definition pos_of (p : Passenger.t) : Z * Z := (Passenger.y p, Passenger.x p).
Definition target (plan : Plan.t) : Z * Z := (Plan.y plan, Plan.x plan).

(** The passengers whose final plan asks for the cell [pos], in the order of
    [final_plans]: the list [desired_positions[pos]]. *)
Definition contenders (pos : Z * Z) (final_plans : list (pref * Plan.t))
  : list pref :=
  (filter (λ ip, target ip.2 = pos) final_plans).*1.

(** [sorted(p_list, key=queue_index)[0]] *)
Definition winner_of (store : list Passenger.t) (p_list : list pref)
  : option pref :=
  head (sorted_by (qidx store) p_list).

(** [final_updates[i]]: the final plan of [i] when it is the winner (or the
    only contender) of the cell it asks for, its current fields otherwise. *)
Definition final_update (store : list Passenger.t)
    (final_plans : list (pref * Plan.t)) (i : pref) : option Plan.t :=
  plan ← dict_find i final_plans;
  if decide (winner_of store (contenders (target plan) final_plans) = Some i)
  then Some plan
  else plan_of <$> store !! i.

(** [plan] is the plan of a call of [propose_action] for passenger [i], made
    on a plane and a store with the property [I]. *)
Definition proposed (aisle : list pref) (lm : gmap (Z * Z) bool) (tick : Z)
    (I : Plane → list Passenger.t → Prop) (i : pref) (plan : Plan.t) : Prop :=
  ∃ plane_i store_i self plane' self',
    I plane_i store_i ∧ store_i !! i = Some self ∧
    propose_action plane_i self (deref store_i aisle) lm tick
      = Ok (plan, plane', self').

(** The test of [do_substep] for a passenger that changes its cell. *)
Definition moves (q : Passenger.t) (upd : Plan.t) : Prop :=
  (Plan.x upd, Plan.y upd) ≠ (Passenger.x q, Passenger.y q).

#[global] Instance moves_dec q upd : Decision (moves q upd).
Proof. unfold moves. apply _. Defined.

(** The passenger [i] after a sub-step whose final plans are [final_plans],
    computed over the store [store] (the store after the two passes). *)
Definition updated (store : list Passenger.t)
    (final_plans : list (pref * Plan.t)) (i : pref) : option Passenger.t :=
  q ← store !! i;
  match final_update store final_plans i with
  | Some upd => Some (apply_update q upd)
  | None => Some q
  end.

(** The property of the store that every pass keeps: nothing but
    [overhead_bags] differs from the store before the sub-step. *)
Definition framed (store0 : list Passenger.t) (_ : Plane)
    (store : list Passenger.t) : Prop :=
  frame <$> store = frame <$> store0.

(** A state in which two final plans ask for the same cell: passenger 0
    walks down the aisle from (0, 3), passenger 1 stands at (1, 4) with its
    seat on the other side of the aisle; both ask for (1, 3). *)
Definition crossing_sim : Simulation.t :=
  Simulation.mk (Plane_init 2)
    [Passenger.mk 1 "F" 1 0 3 0 Walking 0 0 ∅ 6 0 false;
     Passenger.mk 1 "A" 1 0 4 1 MoveToSeat 0 0 ∅ 0 1 false]
    [0%nat; 1%nat] 3 None.



(** ** Late arrivals *)

(** [passenger_arr] of the immediate mode, before it is sorted. *)
Definition immediate_passenger_arr (R : Random) (fuel : nat) (g : rng R)
    (base_passengers : list Passenger.t) (late_percent : Z)
  : result (list (Z * Z * Passenger.t) * rng R) :=
  let n := length base_passengers in
  let sg := random_sample R g (seq 0 n)
              (Z.to_nat (late_count_of n late_percent)) in
  marked ←! mark_late sg.1 base_passengers;
  assign_delays R fuel sg.2 ∅ (Z.of_nat n + 10) marked.

(** The offsets given to the late passengers. *)
Definition late_offsets (arr : list (Z * Z * Passenger.t)) : list Z :=
  (λ x : Z * Z * Passenger.t, x.1.2)
    <$> filter (λ x, Passenger.is_late x.2 = true) arr.

(** A generator that replays a tape: [randint] answers with the next number
    of the tape (cut to the range), [sample] takes the first [k] elements
    and [shuffle] leaves the list as it is. *)
Definition replay : Random :=
  {| rng := list Z;
     random_sample g population k := (take k population, g);
     random_shuffle A g l := (l, g);
     random_randint g a b :=
       match g with
       | [] => (a, [])
       | d :: g' => (Z.max a (Z.min b d), g')
       end |}.

(** The wording of the specification for the immediate mode: the sort keys
    of all the passengers are pairwise distinct. *)
Definition distinct_sort_keys (arr : list (Z * Z * Passenger.t)) : Prop :=
  NoDup (arr_key <$> arr).

(** Two passengers of row 0, seats A and B, one bag each. *)
Definition two_passengers : list Passenger.t :=
  match make_passengers 0 [(0, "A"%char); (0, "B"%char)] [1; 1] with
  | Ok ps => ps
  | Raise _ => []
  end.

(** ** Progress of a boarding *)

(** What holds of every passenger of a boarding of a plane of [rows] rows,
    state by state: where it stands and what its counters are. *)
Definition local_ok (rows : Z) (p : Passenger.t) : Prop :=
  0 ≤ Passenger.seat_row p < rows ∧
  0 ≤ Passenger.target_col p ≤ 6 ∧ Passenger.target_col p ≠ AISLE_COL ∧
  0 ≤ Passenger.overhead_bags p ∧
  Passenger.delay_counter p = 0 ∧
  match Passenger.state p with
  | Queue => Passenger.x p = AISLE_COL ∧ Passenger.y p = ENTRANCE_ROW
  | Walking =>
      Passenger.x p = AISLE_COL ∧ 0 ≤ Passenger.y p ≤ Passenger.seat_row p
  | Stowing =>
      Passenger.x p = AISLE_COL ∧ 0 ≤ Passenger.y p < rows ∧
      1 ≤ Passenger.ticks_stowing p ≤ TICKS_FOR_OVERHEAD
  | LookingBin => Passenger.x p = AISLE_COL ∧ 0 ≤ Passenger.y p < rows
  | MoveToSeat =>
      0 ≤ Passenger.y p < rows ∧
      Z.min AISLE_COL (Passenger.target_col p) ≤ Passenger.x p
        ≤ Z.max AISLE_COL (Passenger.target_col p)
  | Done => Passenger.x p = Passenger.target_col p ∧ 0 ≤ Passenger.y p < rows
  end.

(** An upper bound of the number of changes a passenger still goes through
    before it is done. *)
Definition steps_left (rows : Z) (p : Passenger.t) : Z :=
  match Passenger.state p with
  | Done => 0
  | MoveToSeat => 1 + Z.abs (Passenger.x p - Passenger.target_col p)
  | Stowing => 5 + Passenger.ticks_stowing p
  | LookingBin => 8 + (rows - 1 - Passenger.y p)
  | Walking => 8 + rows + (Passenger.seat_row p - Passenger.y p)
  | Queue => 9 + rows + Passenger.seat_row p
  end.

Definition total_steps_left (rows : Z) (store : list Passenger.t) : Z :=
  foldr (λ p acc, steps_left rows p + acc) 0 store.

(** How far into the plane a passenger stands: rows walked plus columns
    away from the aisle. Whoever blocks a passenger stands one deeper. *)
Definition depth (p : Passenger.t) : Z :=
  Passenger.y p + Z.abs (Passenger.x p - AISLE_COL).

(** The cell a passenger asks [find_passenger_at] about before it moves. *)
Definition next_cell (rows : Z) (p : Passenger.t) : option (Z * Z) :=
  match Passenger.state p with
  | Queue => Some (0, AISLE_COL)
  | Walking =>
      if bool_decide (Passenger.y p < Passenger.seat_row p)
      then Some (Passenger.y p + 1, AISLE_COL) else None
  | LookingBin =>
      if bool_decide (Passenger.y p < rows - 1)
      then Some (Passenger.y p + 1, AISLE_COL) else None
  | MoveToSeat =>
      if bool_decide (Passenger.x p = Passenger.target_col p) then None
      else Some (Passenger.y p, next_x p)
  | Stowing | Done => None
  end.

(** Nothing holds the passenger back: nobody is reported on its next cell,
    and in the queue nobody with a smaller index is waiting. *)
Definition unblocked (rows : Z) (self : Passenger.t)
    (ps : list (pref * Passenger.t)) : Prop :=
  (∀ c, next_cell rows self = Some c → find_passenger_at c.1 c.2 ps = None) ∧
  (Passenger.state self = Queue →
   ∀ other, other ∈ ps → Passenger.state other.2 = Queue →
            Passenger.queue_index self ≤ Passenger.queue_index other.2).

(** The property of the plane and the store kept by the passes of a
    sub-step of a boarding. *)
Definition pass_ok (rows : Z) (store0 : list Passenger.t) (plane : Plane)
    (store : list Passenger.t) : Prop :=
  frame <$> store = frame <$> store0 ∧
  bins_ok rows plane ∧ Forall (local_ok rows) store.

(** The invariant of a boarding between sub-steps. *)
Definition substep_ok (rows : Z) (sim : Simulation.t) : Prop :=
  bins_ok rows (Simulation.plane sim) ∧
  Forall (local_ok rows) (Simulation.passengers_queue sim) ∧
  NoDup (Simulation.passengers_in_aisle sim).

(** The invariant of a boarding between ticks: moreover the aisle list
    holds passengers of the queue that are not done. *)
Definition tick_ok (rows : Z) (sim : Simulation.t) : Prop :=
  substep_ok rows sim ∧
  ∀ i, i ∈ Simulation.passengers_in_aisle sim →
       ∃ p, Simulation.passengers_queue sim !! i = Some p ∧
            Passenger.state p ≠ Done.

(** The plans [propose_action] can return for a passenger, other than the
    hold, each with the tests that lead to it. *)
Inductive plan_step (rows : Z) (self : Passenger.t)
    (ps : list (pref * Passenger.t)) : Plan.t → Prop :=
| step_enter :
    Passenger.state self = Queue →
    plan_step rows self ps
      (Plan.set_state (Plan.set_y (plan_of self) 0) Walking)
| step_walk :
    Passenger.state self = Walking →
    Passenger.y self < Passenger.seat_row self →
    plan_step rows self ps (Plan.set_y (plan_of self) (Passenger.y self + 1))
| step_stow :
    Passenger.state self = Walking →
    ¬ Passenger.y self < Passenger.seat_row self →
    plan_step rows self ps
      (Plan.set_ticks_stowing (Plan.set_state (plan_of self) Stowing)
         TICKS_FOR_OVERHEAD)
| step_look :
    Passenger.state self = Walking →
    ¬ Passenger.y self < Passenger.seat_row self →
    plan_step rows self ps (Plan.set_state (plan_of self) LookingBin)
| step_no_bags :
    Passenger.state self = Walking →
    ¬ Passenger.y self < Passenger.seat_row self →
    plan_step rows self ps (Plan.set_state (plan_of self) MoveToSeat)
| step_count_down :
    Passenger.state self = Stowing →
    Passenger.ticks_stowing self > 0 →
    Passenger.ticks_stowing self - 1 ≠ 0 →
    plan_step rows self ps
      (Plan.set_ticks_stowing (plan_of self) (Passenger.ticks_stowing self - 1))
| step_stowed :
    Passenger.state self = Stowing →
    Passenger.ticks_stowing self > 0 →
    Passenger.ticks_stowing self - 1 = 0 →
    plan_step rows self ps
      (Plan.set_state
         (Plan.set_ticks_stowing (plan_of self)
            (Passenger.ticks_stowing self - 1)) MoveToSeat)
| step_look_on :
    Passenger.state self = LookingBin →
    Passenger.y self < rows - 1 →
    plan_step rows self ps (Plan.set_y (plan_of self) (Passenger.y self + 1))
| step_look_stow :
    Passenger.state self = LookingBin →
    Passenger.y self < rows - 1 →
    plan_step rows self ps
      (Plan.set_ticks_stowing
         (Plan.set_state (Plan.set_y (plan_of self) (Passenger.y self + 1))
            Stowing) TICKS_FOR_OVERHEAD)
| step_give_up :
    Passenger.state self = LookingBin →
    ¬ Passenger.y self < rows - 1 →
    plan_step rows self ps (Plan.set_state (plan_of self) MoveToSeat)
| step_wait :
    Passenger.state self = MoveToSeat →
    Passenger.delay_counter self > 0 →
    plan_step rows self ps
      (Plan.set_delay_counter (plan_of self) (Passenger.delay_counter self - 1))
| step_sit :
    Passenger.state self = MoveToSeat →
    ¬ Passenger.delay_counter self > 0 →
    Passenger.x self = Passenger.target_col self →
    plan_step rows self ps (Plan.set_state (plan_of self) Done)
| step_negotiate occ :
    Passenger.state self = MoveToSeat →
    Passenger.x self ≠ Passenger.target_col self →
    find_passenger_at (Passenger.y self) (next_x self) ps = Some occ →
    Passenger.state occ.2 = Done →
    plan_step rows self ps
      (Plan.set_passed_occupants (Plan.set_delay_counter (plan_of self) 1)
         ({[occ.1]} ∪ Passenger.passed_occupants self))
| step_seat :
    Passenger.state self = MoveToSeat →
    ¬ Passenger.delay_counter self > 0 →
    Passenger.x self ≠ Passenger.target_col self →
    plan_step rows self ps (Plan.set_x (plan_of self) (next_x self)).

(** ** Seats handed out by the boarding methods *)

(** A seat of a plane of [rows] rows. *)
Definition seat_ok (rows : Z) (s : Z * ascii) : Prop :=
  0 ≤ s.1 < rows ∧ s.2 ∈ letters.

(** A row of a plane of [rows] rows. *)
Definition row_ok (rows : Z) (r : Z) : Prop := 0 ≤ r < rows.

(** The bound of the number of ticks of a boarding of [rows] rows. *)
Definition ticks_bound (rows : Z) : Z := 6 * rows * (2 * rows + 8).

(** ** The seats and the fields of generated passengers *)

(** The seats of a list of passengers, in the order of the list. *)
Definition seats_of (ps : list Passenger.t) : list (Z * ascii) :=
  (λ p, (Passenger.seat_row p, Passenger.seat_letter p)) <$> ps.

(** All the seats of a plane of [rows] rows. *)
Definition plane_seats (rows : Z) : list (Z * ascii) :=
  concat (row_seats letters <$> py_range rows).

(** A passenger as [Passenger.__init__] leaves it when its bags were drawn
    by [random.randint(1, MAX_BAGS)]: in the queue in front of the plane,
    one bag kept at hand, the column of its seat letter as target. *)
Definition fresh_passenger (p : Passenger.t) : Prop :=
  1 ≤ Passenger.bags_count p ≤ MAX_BAGS ∧
  Passenger.overhead_bags p = Passenger.bags_count p - 1 ∧
  Passenger.x p = AISLE_COL ∧ Passenger.y p = ENTRANCE_ROW ∧
  Passenger.state p = Queue ∧
  Passenger.ticks_stowing p = 0 ∧ Passenger.delay_counter p = 0 ∧
  Passenger.passed_occupants p = ∅ ∧
  letter_to_col (Passenger.seat_letter p) = Ok (Passenger.target_col p).

(** The rows [row, row - 2, ...] down to 0 that one group of
    [generate_boarding_5_4groups] visits. *)
Fixpoint rows_down2 (fuel : nat) (row : Z) : list Z :=
  match fuel with
  | O => []
  | S fuel' =>
      if bool_decide (0 ≤ row) then row :: rows_down2 fuel' (row - 2) else []
  end.

(** The zone of a row in [generate_boarding_4_zones] for a plane of [rows]
    rows: 1 for the [rows // 3] rows at the back, 2 for the [rows // 3]
    rows before them, 3 for the rows at the front. *)
Definition zone_of (rows r : Z) : Z :=
  if bool_decide (rows - rows `div` 3 ≤ r) then 1
  else if bool_decide (rows - 2 * (rows `div` 3) ≤ r) then 2
  else 3.

(** A passenger without the two fields [apply_late_arrivals] writes. *)
Definition unranked (p : Passenger.t) : Passenger.t :=
  Passenger.set_is_late (Passenger.set_queue_index p 0) false.

(** The late passengers of a list, in order. *)
Definition late_of (ps : list Passenger.t) : list Passenger.t :=
  filter (λ p, Passenger.is_late p = true) ps.

(** ** Runs of a boarding *)

(** The order in which a passenger goes through its states. *)
Definition state_rank (s : PState) : Z :=
  match s with
  | Queue => 0
  | Walking => 1
  | LookingBin => 2
  | Stowing => 3
  | MoveToSeat => 4
  | Done => 5
  end.

(** [p'] is a later stage of the passenger [p]: the fields of
    [Passenger.__init__] that say who it is are the same, its state is the
    same or a later one, it stands in the same row or further into the
    plane and at most as far from its column; a done passenger stays where
    it is. *)
Definition advances (p p' : Passenger.t) : Prop :=
  Passenger.seat_row p' = Passenger.seat_row p ∧
  Passenger.seat_letter p' = Passenger.seat_letter p ∧
  Passenger.bags_count p' = Passenger.bags_count p ∧
  Passenger.target_col p' = Passenger.target_col p ∧
  Passenger.queue_index p' = Passenger.queue_index p ∧
  Passenger.is_late p' = Passenger.is_late p ∧
  state_rank (Passenger.state p) ≤ state_rank (Passenger.state p') ∧
  Passenger.y p ≤ Passenger.y p' ∧
  Z.abs (Passenger.x p' - Passenger.target_col p)
    ≤ Z.abs (Passenger.x p - Passenger.target_col p) ∧
  (Passenger.state p = Done →
   Passenger.state p' = Done ∧ pos_of p' = pos_of p).

(** The cells [a] and [b] are the same or next to each other. *)
Definition one_cell (a b : Z * Z) : Prop :=
  Z.abs (b.1 - a.1) + Z.abs (b.2 - a.2) ≤ 1.

(** The overhead bags the passengers of row [r] still carry. *)
Definition pending (r : Z) (store : list Passenger.t) : Z :=
  foldr (λ p acc,
           (if bool_decide (Passenger.seat_row p = r)
            then Passenger.overhead_bags p else 0) + acc) 0 store.

(** The overhead bags the passengers of row [r] came with. *)
Definition row_quota (r : Z) (store : list Passenger.t) : Z :=
  foldr (λ p acc,
           (if bool_decide (Passenger.seat_row p = r)
            then Z.max 0 (Passenger.bags_count p - 1) else 0) + acc) 0 store.

(** A passenger that stows in its own row and carries nothing overhead
    once it turns to its seat. *)
Definition settled (p : Passenger.t) : Prop :=
  Passenger.state p ≠ LookingBin ∧
  (Passenger.state p = Stowing → Passenger.y p = Passenger.seat_row p) ∧
  (Passenger.state p = MoveToSeat ∨ Passenger.state p = Done →
   Passenger.y p = Passenger.seat_row p ∧ Passenger.overhead_bags p = 0).

(** The bins and the passengers account for every overhead bag:
    what row [r] holds and what its passengers still carry add up to
    [quota r]. *)
Definition stowed_ok (rows : Z) (quota : Z → Z) (plane : Plane)
    (store : list Passenger.t) : Prop :=
  Forall settled store ∧
  ∀ r, 0 ≤ r < rows →
    ∃ t, total_in_row plane r = Ok t ∧ t + pending r store = quota r.

(** The queue at the start of a boarding of [rows] rows: fresh passengers
    on distinct seats of the plane, numbered in order. *)
Definition start_ok (rows : Z) (queue : list Passenger.t) : Prop :=
  Forall (local_ok rows) queue ∧
  (∀ (k : nat) p, queue !! k = Some p →
     Passenger.queue_index p = Z.of_nat k ∧ fresh_passenger p) ∧
  NoDup (seats_of queue).

(** The simulation with its tick counter frozen. *)
Definition freeze (sim : Simulation.t) : Simulation.t :=
  Simulation.mk (Simulation.plane sim) (Simulation.passengers_queue sim)
    (Simulation.passengers_in_aisle sim) (Simulation.tick_count sim)
    (match Simulation.final_tick_count sim with
     | None => Some (Simulation.tick_count sim)
     | Some t => Some t
     end).

(** Every passenger has its position in the queue as [queue_index]. *)
Definition indexed (store : list Passenger.t) : Prop :=
  ∀ (k : nat) p, store !! k = Some p → Passenger.queue_index p = Z.of_nat k.

(** Whoever has left the queue stood in front of everybody still in it. *)
Definition boards_in_order (store : list Passenger.t) : Prop :=
  ∀ (i j : nat) p q,
    store !! i = Some p → store !! j = Some q →
    Passenger.state p = Queue → Passenger.state q ≠ Queue → (j < i)%nat.

(** The property of the plane and of the store that the two passes of a
    sub-step keep in a boarding whose rows can take their bags. *)
Definition stow_pass (rows : Z) (quota : Z → Z) (store0 : list Passenger.t)
    (plane : Plane) (store : list Passenger.t) : Prop :=
  pass_ok rows store0 plane store ∧ stowed_ok rows quota plane store.

(** * Properties *)

(** ** Python indexing *)

Lemma py_norm_nonneg {A} (l : list A) (i : Z) :
  0 ≤ i < Z.of_nat (length l) → py_norm l i = Some (Z.to_nat i).
Proof. intros H. unfold py_norm. rewrite bool_decide_eq_true_2; done. Qed.

Lemma py_norm_row_of {A} (l : list A) (i : Z) :
  - Z.of_nat (length l) ≤ i < Z.of_nat (length l) →
  py_norm l i = Some (Z.to_nat (row_of (Z.of_nat (length l)) i)).
Proof.
  intros H. unfold py_norm, row_of.
  repeat case_bool_decide; try done; lia.
Qed.

Lemma py_norm_lt {A} (l : list A) i k :
  py_norm l i = Some k → (k < length l)%nat.
Proof. unfold py_norm. repeat case_bool_decide; intros [= <-]; lia. Qed.

Lemma py_norm_insert {A} (l : list A) i k a :
  py_norm (<[k := a]> l) i = py_norm l i.
Proof. unfold py_norm. by rewrite length_insert. Qed.

Lemma py_get_Some {A} (l : list A) i k a :
  py_norm l i = Some k → l !! k = Some a → py_get l i = Ok a.
Proof. intros H1 H2. unfold py_get. by rewrite H1, H2. Qed.

(** ** The overhead bins *)

Lemma fill_col_zero cur : fill_col cur 0 = (cur, 0).
Proof. unfold fill_col. case_bool_decide; [f_equal; lia | done]. Qed.

Lemma fill_col_spec cur bags v n :
  fill_col cur bags = (v, n) → 0 ≤ bags →
  0 ≤ n ≤ bags ∧ v = cur + bags - n ∧ cur ≤ v ≤ Z.max cur 2 ∧ (0 < n → 2 ≤ v).
Proof.
  unfold fill_col, OVERHEAD_BIN_CAPACITY.
  case_bool_decide; intros [= <- <-] ?; lia.
Qed.

Lemma insert_default_id (r : list Z) (j : nat) :
  <[j := default 0 (r !! j)]> r = r.
Proof.
  destruct (r !! j) as [v|] eqn:Hj; simpl.
  - by apply list_insert_id.
  - apply list_insert_ge. by apply lookup_ge_None.
Qed.

Lemma fill_cols_zero cols r : fill_cols cols r 0 = (r, 0).
Proof.
  revert r. induction cols as [|c cols IH]; intros r; simpl; [done|].
  case_bool_decide; [done|].
  rewrite fill_col_zero. simpl. by rewrite insert_default_id.
Qed.

Lemma place_bags_loop_row cols ov row k r bags :
  py_norm ov row = Some k → ov !! k = Some r →
  Forall (λ c, 0 ≤ c < Z.of_nat (length r)) cols →
  place_bags_loop cols ov row bags =
    Ok (<[k := (fill_cols cols r bags).1]> ov, (fill_cols cols r bags).2).
Proof.
  intros Hk. revert ov r bags Hk.
  induction cols as [|c cols IH]; intros ov r bags Hk Hr Hc; simpl.
  - by rewrite list_insert_id.
  - apply Forall_cons in Hc as [Hc Hcs].
    case_bool_decide; [by apply IH|].
    erewrite (py_get_Some ov) by done. simpl.
    destruct (lookup_lt_is_Some_2 r (Z.to_nat c)) as [v Hv]; [lia|].
    erewrite (py_get_Some r); [|by apply py_norm_nonneg|done]. simpl.
    rewrite Hv. simpl. unfold fill_col.
    case_bool_decide; simpl.
    + unfold py_set. rewrite py_norm_nonneg by done. simpl. rewrite Hk. simpl.
      case_bool_decide as Hz.
      * rewrite Hz, fill_cols_zero. done.
      * erewrite IH; [|by rewrite py_norm_insert| |].
        -- by rewrite list_insert_insert_eq.
        -- apply list_lookup_insert_eq. by eapply py_norm_lt.
        -- by rewrite length_insert.
    + rewrite (list_insert_id r) by done. by apply IH.
Qed.

Lemma length_7_inv (r : list Z) :
  length r = 7%nat → ∃ a b c d e f g, r = [a; b; c; d; e; f; g].
Proof.
  intros H. do 7 (destruct r as [|? r]; [done|]). destruct r; [|done].
  by repeat eexists.
Qed.

Lemma sum_non_aisle_row ov row k a b c d e f g :
  py_norm ov row = Some k → ov !! k = Some [a; b; c; d; e; f; g] →
  sum_non_aisle ov row (seqZ 0 COLS) = Ok (a + b + c + e + f + g).
Proof.
  intros Hk Hr. change (seqZ 0 COLS) with [0; 1; 2; 3; 4; 5; 6].
  simpl. rewrite !(py_get_Some ov row k _ Hk Hr). simpl. f_equal. lia.
Qed.

(** The filling of one row, column by column: nothing is removed, no column
    is raised above the capacity, the bags not placed are what is left, and
    bags are left only when every seat column is full. *)
Lemma fill_cols_spec a b c d e f g bags :
  0 ≤ bags →
  ∃ a' b' c' e' f' g' rest,
    fill_cols (seqZ 0 COLS) [a; b; c; d; e; f; g] bags
      = ([a'; b'; c'; d; e'; f'; g'], rest) ∧
    0 ≤ rest ≤ bags ∧
    a' + b' + c' + e' + f' + g' = a + b + c + e + f + g + bags - rest ∧
    (a ≤ a' ≤ Z.max a 2) ∧ (b ≤ b' ≤ Z.max b 2) ∧ (c ≤ c' ≤ Z.max c 2) ∧
    (e ≤ e' ≤ Z.max e 2) ∧ (f ≤ f' ≤ Z.max f 2) ∧ (g ≤ g' ≤ Z.max g 2) ∧
    (0 < rest → 2 ≤ a' ∧ 2 ≤ b' ∧ 2 ≤ c' ∧ 2 ≤ e' ∧ 2 ≤ f' ∧ 2 ≤ g').
Proof.
  intros Hb. change (seqZ 0 COLS) with [0; 1; 2; 3; 4; 5; 6].
  destruct (fill_col a bags) as [a' n1] eqn:E1.
  destruct (fill_col b n1) as [b' n2] eqn:E2.
  destruct (fill_col c n2) as [c' n3] eqn:E3.
  destruct (fill_col e n3) as [e' n4] eqn:E4.
  destruct (fill_col f n4) as [f' n5] eqn:E5.
  destruct (fill_col g n5) as [g' n6] eqn:E6.
  exists a', b', c', e', f', g', n6. split.
  - simpl. rewrite E1. simpl. rewrite E2. simpl. rewrite E3. simpl.
    rewrite E4. simpl. rewrite E5. simpl. rewrite E6. done.
  - apply fill_col_spec in E1; [|lia]. apply fill_col_spec in E2; [|lia].
    apply fill_col_spec in E3; [|lia]. apply fill_col_spec in E4; [|lia].
    apply fill_col_spec in E5; [|lia]. apply fill_col_spec in E6; [|lia].
    destruct E1 as (?&?&?&?), E2 as (?&?&?&?), E3 as (?&?&?&?),
             E4 as (?&?&?&?), E5 as (?&?&?&?), E6 as (?&?&?&?).
    split; [lia|]. split; [lia|]. do 6 (split; [done|]).
    intros Hn. lia.
Qed.

Lemma bins_ok_row n pl k :
  bins_ok n pl → 0 ≤ k < n →
  ∃ a b c d e f g,
    overhead pl !! Z.to_nat k = Some [a; b; c; d; e; f; g] ∧
    Forall (λ v, 0 ≤ v ≤ OVERHEAD_BIN_CAPACITY) [a; b; c; d; e; f; g].
Proof.
  intros (_ & Hlen & Hrows) Hk.
  destruct (lookup_lt_is_Some_2 (overhead pl) (Z.to_nat k)) as [r Hr]; [lia|].
  rewrite Forall_lookup in Hrows. destruct (Hrows _ _ Hr) as [Hl Hb].
  destruct (length_7_inv r Hl) as (a&b&c&d&e&f&g&->). by exists a, b, c, d, e, f, g.
Qed.

Lemma bins_ok_norm n pl row :
  bins_ok n pl → - n ≤ row < n →
  py_norm (overhead pl) row = Some (Z.to_nat (row_of n row)) ∧ 0 ≤ row_of n row < n.
Proof.
  intros (_ & Hlen & _) Hrow. split.
  - rewrite py_norm_row_of by lia. do 3 f_equal. lia.
  - unfold row_of. case_bool_decide; lia.
Qed.

Lemma total_in_row_ok n pl k :
  bins_ok n pl → 0 ≤ k < n →
  ∃ t, total_in_row pl k = Ok t ∧ 0 ≤ t ≤ 6 * OVERHEAD_BIN_CAPACITY.
Proof.
  intros Hok Hk. destruct (bins_ok_row n pl k Hok Hk) as (a&b&c&d&e&f&g&Hr&Hb).
  exists (a + b + c + e + f + g). split.
  - eapply sum_non_aisle_row; [|done]. destruct Hok as (_ & Hlen & _).
    apply py_norm_nonneg. lia.
  - unfold OVERHEAD_BIN_CAPACITY in *.
    repeat (apply Forall_cons in Hb as [? Hb]). lia.
Qed.

(** One call of [place_bags_in_bin] on bins within capacity: it returns,
    the bins stay within capacity, the row takes what fits, the other rows
    are as before, and what does not fit is left over. *)
Lemma place_bags_in_bin_spec n pl row bags :
  bins_ok n pl → - n ≤ row < n → 0 ≤ bags →
  ∃ pl' t,
    total_in_row pl (row_of n row) = Ok t ∧
    place_bags_in_bin pl row bags = Ok pl' ∧
    bins_ok n pl' ∧
    total_in_row pl' (row_of n row)
      = Ok (Z.min (t + bags) (6 * OVERHEAD_BIN_CAPACITY)) ∧
    (∀ k, 0 ≤ k < n → k ≠ row_of n row → total_in_row pl' k = total_in_row pl k) ∧
    bags_not_placed pl row bags
      = Ok (Z.max 0 (t + bags - 6 * OVERHEAD_BIN_CAPACITY)).
Proof.
  intros Hok Hrow Hbags.
  destruct (bins_ok_norm n pl row Hok Hrow) as [Hnorm Hk].
  destruct (bins_ok_row n pl _ Hok Hk) as (a&b&c&d&e&f&g&Hr&Hb).
  destruct (fill_cols_spec a b c d e f g bags Hbags)
    as (a'&b'&c'&e'&f'&g'&rest&Hfill&Hrest&Hsum&Ha&Hb'&Hc&He&Hf&Hg&Hfull).
  assert (Hcols : Forall (λ c0, 0 ≤ c0 < Z.of_nat (length [a; b; c; d; e; f; g]))
                         (seqZ 0 COLS)).
  { change (seqZ 0 COLS) with [0; 1; 2; 3; 4; 5; 6].
    repeat (apply Forall_cons; split; [simpl; lia|]). done. }
  pose proof (place_bags_loop_row (seqZ 0 COLS) (overhead pl) row _ _ bags
                Hnorm Hr Hcols) as Hloop.
  rewrite Hfill in Hloop. cbn [fst snd] in Hloop. clear Hcols.
  unfold OVERHEAD_BIN_CAPACITY in *.
  repeat (apply Forall_cons in Hb as [? Hb]).
  assert (Hnorm2 : py_norm (overhead pl) (row_of n row)
                   = Some (Z.to_nat (row_of n row))).
  { destruct Hok as (_ & Hlen & _). apply py_norm_nonneg. lia. }
  eexists _, (a + b + c + e + f + g). split_and!.
  - by eapply sum_non_aisle_row.
  - unfold place_bags_in_bin. rewrite Hloop. simpl. done.
  - destruct Hok as (Hn & Hlen & Hrows). split_and!; simpl; [done| |].
    + by rewrite length_insert.
    + apply Forall_insert; [done|]. split; [done|].
      unfold OVERHEAD_BIN_CAPACITY.
      repeat (apply Forall_cons; split; [lia|]). done.
  - unfold total_in_row. cbn [overhead].
    erewrite sum_non_aisle_row;
      [|by rewrite py_norm_insert
       |apply list_lookup_insert_eq; by eapply py_norm_lt].
    f_equal. lia.
  - intros k Hk' Hne.
    destruct (bins_ok_row n pl _ Hok Hk') as (a0&b0&c0&d0&e0&f0&g0&Hr0&_).
    assert (Hnk : py_norm (overhead pl) k = Some (Z.to_nat k)).
    { destruct Hok as (_ & Hlen & _). apply py_norm_nonneg. lia. }
    unfold total_in_row. cbn [overhead].
    erewrite (sum_non_aisle_row (overhead pl)) by done.
    erewrite sum_non_aisle_row; [done|by rewrite py_norm_insert|].
    rewrite list_lookup_insert_ne by lia. done.
  - unfold bags_not_placed. rewrite Hloop. simpl. f_equal. lia.
Qed.

Lemma bins_ok_init n : bins_ok n (Plane_init n).
Proof.
  unfold bins_ok, Plane_init. cbn [overhead num_rows].
  split_and!; [done|by rewrite length_replicate|].
  apply Forall_replicate. split; [by rewrite length_replicate|].
  apply Forall_replicate. unfold OVERHEAD_BIN_CAPACITY. lia.
Qed.

Lemma total_in_row_init n k : 0 ≤ k < n → total_in_row (Plane_init n) k = Ok 0.
Proof.
  intros Hk. unfold total_in_row.
  rewrite (sum_non_aisle_row _ _ (Z.to_nat k) 0 0 0 0 0 0 0); [done| |].
  - apply py_norm_nonneg. cbn [overhead Plane_init].
    rewrite length_replicate. lia.
  - cbn [overhead Plane_init]. apply lookup_replicate_2. lia.
Qed.

Lemma place_all_spec n calls : ∀ pl,
  bins_ok n pl → Forall (λ c, - n ≤ c.1 < n ∧ 0 ≤ c.2) calls →
  ∃ pl', place_all calls pl = Ok pl' ∧ bins_ok n pl' ∧
    ∀ k t, 0 ≤ k < n → total_in_row pl k = Ok t →
      total_in_row pl' k
        = Ok (Z.min (t + bags_sent n calls k) (6 * OVERHEAD_BIN_CAPACITY)).
Proof.
  induction calls as [|[row bags] calls IH]; intros pl Hok Hcalls; simpl.
  - exists pl. split_and!; [done..|]. intros k t Hk Ht.
    destruct (total_in_row_ok n pl k Hok Hk) as (t' & Ht' & Hb).
    rewrite Ht. f_equal. rewrite Ht in Ht'. injection Ht' as ->. lia.
  - apply Forall_cons in Hcalls as [[Hrow Hbags] Hcalls]. simpl in *.
    destruct (place_bags_in_bin_spec n pl row bags Hok Hrow Hbags)
      as (pl1 & t0 & Ht0 & Hplace & Hok1 & Hsame & Hother & _).
    rewrite Hplace. simpl.
    destruct (IH pl1 Hok1 Hcalls) as (pl' & Hall & Hok' & Htot).
    exists pl'. split_and!; [done..|]. intros k t Hk Ht.
    assert (Hs : 0 ≤ bags_sent n calls k).
    { clear -Hcalls. induction Hcalls as [|c l [_ ?] _ IHl]; simpl; [done|].
      case_bool_decide; lia. }
    case_bool_decide as Hrk.
    + subst k. rewrite Ht in Ht0. injection Ht0 as <-.
      rewrite (Htot _ _ Hk Hsame). f_equal. lia.
    + rewrite (Htot k t Hk); [f_equal; lia|]. rewrite Hother; done.
Qed.

(** C10. Starting from the empty bins of [Plane(n)], any sequence of calls
    [place_bags_in_bin(row, bags)] with rows of the plane and non-negative
    bag counts returns normally, whether or not [can_stow_bag] held; every
    counter stays between 0 and [OVERHEAD_BIN_CAPACITY], and the total of a
    row is what was sent to it, cut at [6 * OVERHEAD_BIN_CAPACITY]: the bags
    that do not fit are dropped. *)
Theorem place_bags_keeps_bins_within_capacity (n : Z) (calls : list (Z * Z)) :
  Forall (λ c, - n ≤ c.1 < n ∧ 0 ≤ c.2) calls →
  ∃ pl, place_all calls (Plane_init n) = Ok pl ∧
    bins_ok n pl ∧
    (∀ r v (i j : nat), overhead pl !! i = Some r → r !! j = Some v →
       0 ≤ v ≤ OVERHEAD_BIN_CAPACITY) ∧
    ∀ k, 0 ≤ k < n →
      total_in_row pl k
        = Ok (Z.min (bags_sent n calls k) (6 * OVERHEAD_BIN_CAPACITY)) ∧
      Z.min (bags_sent n calls k) (6 * OVERHEAD_BIN_CAPACITY)
        ≤ 6 * OVERHEAD_BIN_CAPACITY.
Proof.
  intros Hcalls.
  destruct (place_all_spec n calls (Plane_init n) (bins_ok_init n) Hcalls)
    as (pl & Hall & Hok & Htot).
  exists pl. split_and!; [done..| |].
  - intros r v i j Hr Hv. destruct Hok as (_ & _ & Hrows).
    rewrite Forall_lookup in Hrows. destruct (Hrows _ _ Hr) as [_ Hb].
    rewrite Forall_lookup in Hb. by eapply Hb.
  - intros k Hk. split; [|lia].
    rewrite (Htot k 0 Hk (total_in_row_init n k Hk)). f_equal.
Qed.

Lemma place_bags_keeps_bins_within_capacity_witness :
  ∃ pl, place_all [(0, 13); (-1, 5); (1, 3)] (Plane_init 2) = Ok pl ∧
    total_in_row pl 0 = Ok 12 ∧ total_in_row pl 1 = Ok 8.
Proof.
  destruct (place_bags_keeps_bins_within_capacity 2 [(0, 13); (-1, 5); (1, 3)])
    as (pl & Hall & _ & _ & Htot).
  - repeat (apply Forall_cons; split; [simpl; lia|]). apply Forall_nil_2.
  - exists pl. split; [exact Hall|].
    split; [exact (proj1 (Htot 0 ltac:(lia))) | exact (proj1 (Htot 1 ltac:(lia)))].
Defined.

Lemma can_stow_bag_total pl row bags t :
  total_in_row pl row = Ok t →
  can_stow_bag pl row bags
    = Ok (bool_decide (t + bags ≤ 6 * OVERHEAD_BIN_CAPACITY)).
Proof.
  unfold total_in_row, can_stow_bag. intros ->. simpl. by case_bool_decide.
Qed.

(** C7, as the code has it. [place_bags_in_bin] has no assertion: on bins
    within capacity, for a row of the plane and a non-negative bag count, it
    always returns normally and leaves the bins within capacity. When
    [can_stow_bag(row, bags)] holds all the bags are placed; when it does
    not, the row is filled to [6 * OVERHEAD_BIN_CAPACITY] and the excess is
    silently dropped. *)
Theorem place_bags_in_bin_never_asserts (n : Z) (pl : Plane) (row bags : Z) :
  bins_ok n pl → - n ≤ row < n → 0 ≤ bags →
  ∃ pl' t,
    total_in_row pl (row_of n row) = Ok t ∧
    place_bags_in_bin pl row bags = Ok pl' ∧
    bins_ok n pl' ∧
    (can_stow_bag pl row bags = Ok true →
       total_in_row pl' (row_of n row) = Ok (t + bags) ∧
       bags_not_placed pl row bags = Ok 0) ∧
    (can_stow_bag pl row bags = Ok false →
       total_in_row pl' (row_of n row) = Ok (6 * OVERHEAD_BIN_CAPACITY) ∧
       bags_not_placed pl row bags
         = Ok (t + bags - 6 * OVERHEAD_BIN_CAPACITY) ∧
       0 < t + bags - 6 * OVERHEAD_BIN_CAPACITY).
Proof.
  intros Hok Hrow Hbags.
  destruct (place_bags_in_bin_spec n pl row bags Hok Hrow Hbags)
    as (pl' & t & Ht & Hplace & Hok' & Htot & _ & Hleft).
  exists pl', t. split_and!; [done..| |].
  - intros Hcan. rewrite Htot, Hleft.
    assert (Hfit : t + bags ≤ 6 * OVERHEAD_BIN_CAPACITY).
    { destruct (bins_ok_norm n pl row Hok Hrow) as [Hnorm Hk].
      destruct (bins_ok_row n pl _ Hok Hk) as (a&b&c&d&e&f&g&Hr&_).
      unfold can_stow_bag in Hcan.
      erewrite (sum_non_aisle_row (overhead pl) row) in Hcan by done.
      unfold total_in_row in Ht.
      erewrite sum_non_aisle_row in Ht;
        [|apply py_norm_nonneg; destruct Hok as (_ & -> & _); lia|done].
      injection Ht as <-. simpl in Hcan. by case_bool_decide. }
    split; f_equal; lia.
  - intros Hcan. rewrite Htot, Hleft.
    assert (Hfit : ¬ t + bags ≤ 6 * OVERHEAD_BIN_CAPACITY).
    { destruct (bins_ok_norm n pl row Hok Hrow) as [Hnorm Hk].
      destruct (bins_ok_row n pl _ Hok Hk) as (a&b&c&d&e&f&g&Hr&_).
      unfold can_stow_bag in Hcan.
      erewrite (sum_non_aisle_row (overhead pl) row) in Hcan by done.
      unfold total_in_row in Ht.
      erewrite sum_non_aisle_row in Ht;
        [|apply py_norm_nonneg; destruct Hok as (_ & -> & _); lia|done].
      injection Ht as <-. simpl in Hcan. by case_bool_decide. }
    split_and!; [f_equal; lia..|lia].
Qed.

Lemma place_bags_in_bin_never_asserts_witness :
  ∃ pl', place_bags_in_bin (Plane_init 1) 0 13 = Ok pl' ∧
         bags_not_placed (Plane_init 1) 0 13 = Ok 1.
Proof.
  destruct (place_bags_in_bin_never_asserts 1 (Plane_init 1) 0 13)
    as (pl' & t & Ht & Hplace & _ & _ & Hover).
  - apply bins_ok_init.
  - lia.
  - lia.
  - exists pl'. split; [exact Hplace|].
    destruct (Hover eq_refl) as (_ & Hleft & _).
    rewrite Hleft. f_equal.
    change (total_in_row (Plane_init 1) 0) with (@Ok Z 0) in Ht.
    injection Ht as <-. reflexivity.
Defined.

(** C7, as the specification words it, fails: with 13 bags for an empty row
    of capacity 12, [can_stow_bag] says no, and [place_bags_in_bin] returns
    normally. *)
Lemma place_bags_in_bin_overflow_not_raised :
  ¬ stow_contract_asserted (Plane_init 1) 0 13.
Proof.
  intros H. destruct (H eq_refl) as [e He]. vm_compute in He. discriminate He.
Qed.

(** ** [find_passenger_at] *)

Lemma find_passenger_at_cons row col q l :
  find_passenger_at row col (q :: l)
  = if decide (visible_at row col q) then Some q
    else find_passenger_at row col l.
Proof.
  simpl. unfold visible_at.
  case_decide as Hv; repeat case_bool_decide; try done; exfalso; tauto.
Qed.

Lemma find_passenger_at_Some row col passengers p :
  find_passenger_at row col passengers = Some p →
  p ∈ passengers ∧ visible_at row col p.
Proof.
  induction passengers as [|q l IH]; [done|].
  rewrite find_passenger_at_cons. case_decide as Hv.
  - intros [= <-]. split; [left|done].
  - intros Hf. destruct (IH Hf). split; [by right|done].
Qed.

Lemma find_passenger_at_None row col passengers :
  find_passenger_at row col passengers = None ↔
  ∀ p, p ∈ passengers → ¬ visible_at row col p.
Proof.
  induction passengers as [|q l IH].
  - split; [|done]. intros _ p Hp. by apply elem_of_nil in Hp.
  - rewrite find_passenger_at_cons. case_decide as Hv.
    + split; [done|]. intros H. destruct (H q); [left|done].
    + rewrite IH. split.
      * intros H p [->|Hp]%elem_of_cons; [done|by apply H].
      * intros H p Hp. apply H. by right.
Qed.

Lemma find_passenger_at_filter row col passengers :
  col ≠ AISLE_COL →
  find_passenger_at row col passengers
  = find_passenger_at row col
      (filter (λ p, Passenger.state p.2 ≠ Done) passengers).
Proof.
  intros Hcol. induction passengers as [|q l IH]; [done|].
  rewrite filter_cons. case_decide as Hq.
  - rewrite !find_passenger_at_cons, IH. done.
  - rewrite find_passenger_at_cons, IH. case_decide as Hv; [|done].
    destruct Hv as (_ & _ & [?|?]); done.
Qed.

(** C9. [find_passenger_at] returns a done passenger only for the aisle
    column; for any other column the done passengers of the list are
    invisible to it (removing them does not change the answer), and
    [is_tile_occupied] reports a cell that holds only seated passengers as
    unoccupied. *)
Theorem find_passenger_at_ignores_seated (row col : Z)
    (passengers : list (pref * Passenger.t)) :
  (∀ p, find_passenger_at row col passengers = Some p →
        Passenger.state p.2 = Done → col = AISLE_COL) ∧
  (col ≠ AISLE_COL →
     find_passenger_at row col passengers
     = find_passenger_at row col
         (filter (λ p, Passenger.state p.2 ≠ Done) passengers)) ∧
  (col ≠ AISLE_COL →
     (∀ p, p ∈ passengers → Passenger.y p.2 = row → Passenger.x p.2 = col →
           Passenger.state p.2 = Done) →
     is_tile_occupied row col passengers = false).
Proof.
  split_and!.
  - intros p Hp Hd.
    apply find_passenger_at_Some in Hp as (_ & _ & _ & [?|?]); done.
  - apply find_passenger_at_filter.
  - intros Hcol Hall. unfold is_tile_occupied.
    rewrite (proj2 (find_passenger_at_None row col passengers)); [done|].
    intros p Hp (Hy & Hx & [Hs|Hc]); [|done]. by apply Hs, Hall.
Qed.

(** ** [propose_action] *)

(** C5, as the code has it. A passenger in [move_to_seat] with no pending
    wait and not at its target column asks [find_passenger_at] for the next
    cell towards its seat. If that reports nobody -- as it does for a cell
    that holds only seated passengers outside the aisle column -- the
    proposal moves into the cell. If it reports a done occupant, which it
    does for the aisle column only, not yet negotiated, the proposal holds,
    sets a wait of 1 and records the occupant. Otherwise the proposal moves
    exactly when the cell is in the yield map. Nothing else changes. *)
Theorem move_to_seat_proposal (plane : Plane) (self : Passenger.t)
    (passengers : list (pref * Passenger.t)) (leaving_map : gmap (Z * Z) bool)
    (tick : Z) :
  Passenger.state self = MoveToSeat →
  ¬ Passenger.delay_counter self > 0 →
  Passenger.x self ≠ Passenger.target_col self →
  ∃ plan,
    propose_action plane self passengers leaving_map tick
      = Ok (plan, plane, self) ∧
    match find_passenger_at (Passenger.y self) (next_x self) passengers with
    | None => plan = Plan.set_x (plan_of self) (next_x self)
    | Some occ =>
        if decide (Passenger.state occ.2 = Done
                   ∧ occ.1 ∉ Passenger.passed_occupants self)
        then next_x self = AISLE_COL ∧
             plan = Plan.set_passed_occupants
                      (Plan.set_delay_counter (plan_of self) 1)
                      ({[occ.1]} ∪ Passenger.passed_occupants self)
        else if lm_get leaving_map (Passenger.y self, next_x self)
        then plan = Plan.set_x (plan_of self) (next_x self)
        else plan = plan_of self
    end.
Proof.
  intros Hst Hdelay Hx. unfold propose_action. rewrite Hst.
  rewrite bool_decide_eq_false_2 by done.
  rewrite bool_decide_eq_false_2 by done.
  fold (next_x self).
  destruct (find_passenger_at (Passenger.y self) (next_x self) passengers)
    as [occ|] eqn:Hocc; [|by eexists].
  apply find_passenger_at_Some in Hocc as (_ & _ & _ & Hvis).
  case_decide as Hd.
  - destruct Hd as [Hd Hp].
    rewrite bool_decide_eq_true_2 by done.
    rewrite bool_decide_eq_true_2 by done.
    eexists. split; [done|]. split; [|done]. by destruct Hvis.
  - case_bool_decide as Hd'.
    + rewrite bool_decide_eq_false_2 by tauto.
      destruct (lm_get _ _); by eexists.
    + destruct (lm_get _ _); by eexists.
Qed.

Lemma move_to_seat_proposal_witness :
  ∃ plan,
    propose_action (Plane_init 1)
      (Passenger.mk 0 "A" 1 0 2 0 MoveToSeat 0 0 ∅ 0 1 false)
      [(0%nat, Passenger.mk 0 "B" 1 0 1 0 Done 0 0 ∅ 1 0 false)] ∅ 5
    = Ok (plan, Plane_init 1,
          Passenger.mk 0 "A" 1 0 2 0 MoveToSeat 0 0 ∅ 0 1 false) ∧
    Plan.x plan = 1.
Proof.
  destruct (move_to_seat_proposal (Plane_init 1)
              (Passenger.mk 0 "A" 1 0 2 0 MoveToSeat 0 0 ∅ 0 1 false)
              [(0%nat, Passenger.mk 0 "B" 1 0 1 0 Done 0 0 ∅ 1 0 false)] ∅ 5)
    as (plan & Hplan & Hcase).
  - reflexivity.
  - simpl. lia.
  - simpl. lia.
  - exists plan. split; [exact Hplan|].
    simpl in Hcase. rewrite Hcase. reflexivity.
Defined.

(** C5, as the specification words it, fails: a passenger at column 2 on its
    way to seat A, with the passenger of seat B seated next to it, does not
    wait; it proposes to step onto the occupied seat cell. *)
Lemma move_to_seat_walks_over_seated :
  ¬ squeezes_past_seated (Plane_init 1)
      (Passenger.mk 0 "A" 1 0 2 0 MoveToSeat 0 0 ∅ 0 1 false)
      [(0%nat, Passenger.mk 0 "B" 1 0 1 0 Done 0 0 ∅ 1 0 false)] ∅ 5.
Proof.
  intros H.
  destruct (H (0%nat, Passenger.mk 0 "B" 1 0 1 0 Done 0 0 ∅ 1 0 false))
    as (plan & plane' & self' & Hp & Hx & _); [by left|done..|].
  vm_compute in Hp. injection Hp as <- _ _. discriminate Hx.
Qed.

(** C3 fails on the code: [propose_action] on a passenger whose stow
    countdown is 1 writes to the bins of the plane and clears the
    passenger's [overhead_bags], although it only returns a plan. *)
Lemma propose_action_mutates_bins_and_self :
  propose_action (Plane_init 1)
    (Passenger.mk 0 "A" 3 2 3 0 Stowing 1 0 ∅ 0 0 false) [] ∅ 4
  = Ok (Plan.mk 3 0 MoveToSeat 0 0 ∅,
        mkPlane 1 [[2; 0; 0; 0; 0; 0; 0]],
        Passenger.mk 0 "A" 3 0 3 0 Stowing 1 0 ∅ 0 0 false).
Proof. vm_compute. reflexivity. Qed.

(** ** Runs that settle C3, C4 and C1 *)

(** C3, in a run: a single passenger with three bags for seat A of a plane
    of one row is in [stowing] with countdown 1 after three ticks. *)
Lemma lone_passenger_stowing :
  where_is (boarding_after 3 1 [(0, "A"%char)] [3]) 0 = Some (0, 3, Stowing, 1).
Proof. vm_compute. reflexivity. Qed.

(** C4 fails on the code: with a passenger ahead that keeps walking, the
    passenger of seat (0, A) with one overhead bag is [walking] after tick 2,
    has entered [stowing] and already counted down to 1 after tick 3, and
    after tick 4 it has left [stowing] and moved one column towards its
    seat: one tick after entering [stowing], not [TICKS_FOR_OVERHEAD]. *)
Lemma stow_countdown_runs_per_substep :
  let run n := boarding_after n 6 [(5, "A"%char); (0, "A"%char)] [1; 2] in
  where_is (run 2%nat) 1 = Some (0, 3, Walking, 0) ∧
  where_is (run 3%nat) 1 = Some (0, 3, Stowing, 1) ∧
  where_is (run 4%nat) 1 = Some (0, 2, MoveToSeat, 0).
Proof. vm_compute. done. Qed.

(** ** Dictionaries and the stable sort *)

Section DictFacts.
Context {K V : Type} `{EqDecision K}.
Implicit Types (k : K) (v : V) (d : list (K * V)).

Lemma dict_find_set k k' v d :
  dict_find k (dict_set k' v d)
  = if decide (k = k') then Some v else dict_find k d.
Proof.
  induction d as [|[k0 v0] d IH]; simpl.
  - repeat case_decide; done.
  - repeat (case_decide; simpl in *); subst; try done.
Qed.

Lemma dict_set_fresh k v d : k ∉ d.*1 → dict_set k v d = d ++ [(k, v)].
Proof.
  induction d as [|[k0 v0] d IH]; simpl; [done|].
  intros Hk. apply not_elem_of_cons in Hk as [Hne Hk].
  case_decide; [done|]. by rewrite IH.
Qed.

Lemma dict_set_keys_in k v d : k ∈ d.*1 → (dict_set k v d).*1 = d.*1.
Proof.
  induction d as [|[k0 v0] d IH]; simpl.
  - intros Hk. by apply elem_of_nil in Hk.
  - intros Hk. case_decide as Hd; simpl in *; [by subst|].
    f_equal. apply IH. apply elem_of_cons in Hk as [?|?]; done.
Qed.

Lemma dict_find_None k d : dict_find k d = None ↔ k ∉ d.*1.
Proof.
  induction d as [|[k0 v0] d IH]; simpl.
  - split; [|done]. intros _ H. by apply elem_of_nil in H.
  - case_decide as Hd; simpl in *.
    + subst. split; [done|]. intros H. destruct H. left.
    + rewrite IH. rewrite not_elem_of_cons. tauto.
Qed.

Lemma dict_find_Some_elem k v d : dict_find k d = Some v → (k, v) ∈ d.
Proof.
  induction d as [|[k0 v0] d IH]; simpl; [done|].
  case_decide as Hd; simpl in *.
  - intros [= <-]. subst. left.
  - intros H. right. by apply IH.
Qed.

Lemma dict_find_is_Some k d : is_Some (dict_find k d) ↔ k ∈ d.*1.
Proof.
  rewrite <-not_eq_None_Some, dict_find_None.
  split; [apply dec_stable|tauto].
Qed.

Lemma dict_find_elem_NoDup k v d :
  NoDup d.*1 → (k, v) ∈ d → dict_find k d = Some v.
Proof.
  induction d as [|[k0 v0] d IH]; simpl.
  - intros _ H. by apply elem_of_nil in H.
  - intros [Hk0 Hnd]%NoDup_cons [Heq|Hin]%elem_of_cons.
    + injection Heq as -> ->. by rewrite decide_True.
    + rewrite decide_False; [by apply IH|].
      intros ->. apply Hk0. apply list_elem_of_fmap. by exists (k0, v).
Qed.

Lemma dict_find_app k d1 d2 :
  dict_find k (d1 ++ d2)
  = match dict_find k d1 with Some v => Some v | None => dict_find k d2 end.
Proof.
  induction d1 as [|[k0 v0] d1 IH]; simpl; [done|]. by case_decide.
Qed.
End DictFacts.

Section SortedFacts.
Context {A : Type} (key : A → Z).

Lemma insert_by_perm a l : insert_by key a l ≡ₚ a :: l.
Proof.
  induction l as [|b l IH]; simpl; [done|].
  case_bool_decide; [done|]. rewrite IH. apply Permutation_swap.
Qed.

Lemma sorted_by_perm l : sorted_by key l ≡ₚ l.
Proof.
  induction l as [|a l IH]; simpl; [done|].
  rewrite insert_by_perm. by rewrite IH.
Qed.

Lemma elem_of_sorted_by a l : a ∈ sorted_by key l ↔ a ∈ l.
Proof. by rewrite sorted_by_perm. Qed.

Lemma NoDup_sorted_by l : NoDup l → NoDup (sorted_by key l).
Proof. by rewrite sorted_by_perm. Qed.

Lemma length_sorted_by l : length (sorted_by key l) = length l.
Proof. by rewrite sorted_by_perm. Qed.

Lemma insert_by_head_least a l :
  head_least key l → head_least key (insert_by key a l).
Proof.
  destruct l as [|b l]; simpl.
  - intros _ q Hq. apply list_elem_of_singleton in Hq as ->. lia.
  - intros Hb. case_bool_decide as Hab.
    + intros q [->|Hq]%elem_of_cons; [lia|]. specialize (Hb q Hq). lia.
    + intros q Hq. rewrite (insert_by_perm a l) in Hq.
      apply elem_of_cons in Hq as [->|Hq]; [lia|].
      apply elem_of_cons in Hq as [->|Hq]; [lia|].
      apply Hb. by right.
Qed.

Lemma sorted_by_head_least l : head_least key (sorted_by key l).
Proof.
  induction l as [|a l IH]; simpl; [done|]. by apply insert_by_head_least.
Qed.

Lemma sorted_by_head l :
  l ≠ [] →
  ∃ w rest, sorted_by key l = w :: rest ∧ w ∈ l ∧
            (∀ q, q ∈ l → key w ≤ key q) ∧ rest ++ [w] ≡ₚ l.
Proof.
  intros Hl. pose proof (sorted_by_head_least l) as Hh.
  pose proof (sorted_by_perm l) as Hp.
  destruct (sorted_by key l) as [|w rest] eqn:Hs.
  - apply Permutation_nil_l in Hp. by subst.
  - exists w, rest. split_and!; [done|..].
    + rewrite <-Hp. left.
    + intros q Hq. apply Hh. by rewrite Hp.
    + rewrite <-Hp. by rewrite Permutation_app_comm.
Qed.
End SortedFacts.

(** ** What [propose_action] leaves alone *)

Lemma place_bags_in_bin_num_rows pl row bags pl' :
  place_bags_in_bin pl row bags = Ok pl' → num_rows pl' = num_rows pl.
Proof.
  unfold place_bags_in_bin.
  destruct (place_bags_loop _ _ _ _) as [[ov rest]|e]; simpl; [|done].
  by intros [= <-].
Qed.

Lemma propose_action_frame plane self ps lm tick plan plane' self' :
  propose_action plane self ps lm tick = Ok (plan, plane', self') →
  frame self' = frame self ∧ num_rows plane' = num_rows plane.
Proof.
  unfold propose_action. intros H.
  destruct (Passenger.state self);
    repeat (case_bool_decide || case_match || simplify_eq/=); try done;
    repeat match goal with
    | H : rbind ?m _ = Ok _ |- _ =>
        let E := fresh "E" in destruct m eqn:E; simpl in H
    end;
    repeat (case_match || simplify_eq/=); try done.
  split; [done|]. by eapply place_bags_in_bin_num_rows.
Qed.

Lemma frame_insert (store : list Passenger.t) (i : nat) self self' :
  store !! i = Some self → frame self' = frame self →
  frame <$> (<[i := self']> store) = frame <$> store.
Proof.
  intros Hi Hf. rewrite list_fmap_insert, Hf.
  apply list_insert_id. by rewrite list_lookup_fmap, Hi.
Qed.

(** One pass of proposals. [I] is any property of the plane and the store
    that a call of [propose_action] keeps; every plan of the pass is then
    the plan of a call made on a plane and a store with [I]. *)
Section ProposePass.
Context (aisle : list pref) (lm : gmap (Z * Z) bool) (tick : Z).
Context (I : Plane → list Passenger.t → Prop).

Hypothesis I_step : ∀ plane store i self plan plane' self',
  I plane store → store !! i = Some self →
  propose_action plane self (deref store aisle) lm tick
    = Ok (plan, plane', self') →
  I plane' (<[i := self']> store).

Lemma propose_pass_spec cs : ∀ plane store plans plans' plane' store',
  I plane store → NoDup cs →
  Forall (λ i, (i ∉ plans.*1) ∧ (i < length store)%nat) cs →
  propose_pass cs plane store aisle lm tick plans = Ok (plans', plane', store') →
  I plane' store' ∧ frame <$> store' = frame <$> store ∧
  num_rows plane' = num_rows plane ∧
  ∃ new, plans' = plans ++ new ∧ new.*1 = cs ∧
         Forall (λ ip, proposed aisle lm tick I ip.1 ip.2) new.
Proof.
  induction cs as [|i cs IH]; intros plane store plans plans' plane' store'
    HI Hnd Hcs Hpass; simpl in Hpass.
  - injection Hpass as <- <- <-. split_and!; [done..|].
    exists []. by rewrite app_nil_r.
  - apply NoDup_cons in Hnd as [Hi Hnd].
    apply Forall_cons in Hcs as [[Hfresh Hlt] Hcs].
    destruct (lookup_lt_is_Some_2 store i Hlt) as [self Hself].
    rewrite Hself in Hpass.
    destruct (propose_action plane self (deref store aisle) lm tick)
      as [[[plan plane1] self1]|e] eqn:Hprop; simpl in Hpass; [|done].
    destruct (propose_action_frame _ _ _ _ _ _ _ _ Hprop) as [Hfr Hrows].
    apply IH in Hpass as (HI' & Hframe & Hrows' & new & -> & Hkeys & Hall).
    + split_and!; [done| | |].
      * rewrite Hframe. by eapply frame_insert.
      * congruence.
      * exists ((i, plan) :: new). rewrite (dict_set_fresh i plan plans Hfresh).
        rewrite <-app_assoc. split_and!; [done|simpl; by f_equal|].
        apply Forall_cons. split; [|done]. simpl.
        by exists plane, store, self, plane1, self1.
    + by eapply I_step.
    + done.
    + eapply Forall_impl; [apply Forall_forall; intros j Hj; exact Hj|].
      intros j. simpl. intros Hj.
      rewrite Forall_forall in Hcs. destruct (Hcs j Hj) as [Hjf Hjl].
      rewrite (dict_set_fresh i plan plans Hfresh), fmap_app.
      rewrite length_insert. split; [|done].
      rewrite elem_of_app. intros [?|Hji]; [done|].
      simpl in Hji. apply list_elem_of_singleton in Hji. by subst.
Qed.

(** The pass returns when every call of it does. *)
Hypothesis I_total : ∀ plane store i self,
  I plane store → store !! i = Some self →
  ∃ r, propose_action plane self (deref store aisle) lm tick = Ok r.

Lemma propose_pass_total cs : ∀ plane store plans,
  I plane store → Forall (λ i, (i < length store)%nat) cs →
  ∃ r, propose_pass cs plane store aisle lm tick plans = Ok r.
Proof.
  induction cs as [|i cs IH]; intros plane store plans HI Hcs; simpl.
  - by eexists.
  - apply Forall_cons in Hcs as [Hlt Hcs].
    destruct (lookup_lt_is_Some_2 store i Hlt) as [self Hself].
    rewrite Hself.
    destruct (I_total plane store i self HI Hself) as [[[plan plane1] self1] Hp].
    rewrite Hp. simpl. apply IH.
    + by eapply I_step.
    + by rewrite length_insert.
Qed.
End ProposePass.

(** ** Grouping the final plans by the cell they ask for *)

Lemma contenders_cons pos ip fps :
  contenders pos (ip :: fps)
  = if decide (target ip.2 = pos) then ip.1 :: contenders pos fps
    else contenders pos fps.
Proof. unfold contenders. rewrite filter_cons. by case_decide. Qed.

Lemma setdefault_append_find pos np p d :
  dict_find pos (setdefault_append np p d)
  = if decide (pos = np) then Some (default [] (dict_find np d) ++ [p])
    else dict_find pos d.
Proof.
  unfold setdefault_append.
  destruct (dict_find np d) as [l|] eqn:Hnp; rewrite dict_find_set;
    by case_decide.
Qed.

Lemma desired_positions_find fps : ∀ d pos,
  dict_find pos
    (foldl (λ d (pp : pref * Plan.t),
              setdefault_append (Plan.y pp.2, Plan.x pp.2) pp.1 d) d fps)
  = match dict_find pos d, contenders pos fps with
    | None, [] => None
    | o, g => Some (default [] o ++ g)
    end.
Proof.
  induction fps as [|ip fps IH]; intros d pos; simpl.
  - destruct (dict_find pos d); simpl; [by rewrite app_nil_r|done].
  - rewrite IH, setdefault_append_find, contenders_cons. unfold target.
    case_decide as Hpos; case_decide as Hpos'; try congruence.
    + subst pos. destruct (dict_find _ d); simpl;
        [by rewrite <-app_assoc|done].
    + done.
Qed.

Lemma build_desired_positions_find fps pos :
  dict_find pos (build_desired_positions fps)
  = match contenders pos fps with [] => None | g => Some g end.
Proof.
  unfold build_desired_positions. rewrite desired_positions_find. simpl.
  by destruct (contenders pos fps).
Qed.

Lemma setdefault_append_NoDup np p (d : list (Z * Z * list pref)) :
  NoDup d.*1 → NoDup (setdefault_append np p d).*1.
Proof.
  intros Hd. unfold setdefault_append.
  destruct (dict_find np d) as [l|] eqn:Hnp.
  - rewrite dict_set_keys_in; [done|].
    apply dict_find_is_Some. by eexists.
  - apply dict_find_None in Hnp. rewrite dict_set_fresh by done.
    rewrite fmap_app. apply NoDup_app. split_and!; [done| |apply NoDup_singleton].
    intros k Hk Hk'. apply list_elem_of_singleton in Hk'. by subst.
Qed.

Lemma build_desired_positions_NoDup fps :
  NoDup (build_desired_positions fps).*1.
Proof.
  unfold build_desired_positions.
  assert (H : ∀ d : list (Z * Z * list pref), NoDup d.*1 →
    NoDup (foldl (λ d (pp : pref * Plan.t),
              setdefault_append (Plan.y pp.2, Plan.x pp.2) pp.1 d) d fps).*1).
  { induction fps as [|ip fps IH]; intros d Hd; simpl; [done|].
    apply IH. by apply setdefault_append_NoDup. }
  apply H. simpl. apply NoDup_nil_2.
Qed.

(** Every group of [desired_positions] is the list of contenders of its
    cell, and is not empty. *)
Lemma build_desired_positions_elem fps pos g :
  (pos, g) ∈ build_desired_positions fps → g = contenders pos fps ∧ g ≠ [].
Proof.
  intros Hin.
  apply (dict_find_elem_NoDup pos g) in Hin;
    [|apply build_desired_positions_NoDup].
  rewrite build_desired_positions_find in Hin.
  destruct (contenders pos fps); [done|]. by injection Hin as <-.
Qed.

Lemma elem_of_contenders i pos fps :
  i ∈ contenders pos fps ↔ ∃ plan, (i, plan) ∈ fps ∧ target plan = pos.
Proof.
  unfold contenders. rewrite list_elem_of_fmap. split.
  - intros ([j plan] & -> & Hin). apply list_elem_of_filter in Hin as [? ?].
    by exists plan.
  - intros (plan & Hin & Ht). exists (i, plan). split; [done|].
    by apply list_elem_of_filter.
Qed.

Lemma NoDup_contenders pos fps : NoDup fps.*1 → NoDup (contenders pos fps).
Proof.
  unfold contenders. induction fps as [|ip fps IH]; simpl; [done|].
  intros [Hi Hnd]%NoDup_cons. rewrite filter_cons.
  case_decide; simpl; [|by apply IH].
  apply NoDup_cons. split; [|by apply IH].
  intros Hin. apply Hi. apply list_elem_of_fmap in Hin as (jp & -> & Hjp).
  apply list_elem_of_filter in Hjp as [_ Hjp].
  apply list_elem_of_fmap. by exists jp.
Qed.

(** ** Resolving the collisions *)

Lemma hold_loser_find store fu i j :
  dict_find i (hold_loser store fu j)
  = if decide (i = j)
    then match store !! i with
         | Some q => Some (plan_of q)
         | None => dict_find i fu
         end
    else dict_find i fu.
Proof.
  unfold hold_loser. case_decide as Hij.
  - subst j. destruct (store !! i); [|done].
    rewrite dict_find_set. by rewrite decide_True.
  - destruct (store !! j); [|done].
    rewrite dict_find_set. by rewrite decide_False.
Qed.

Lemma foldl_hold_loser_find store i rest : ∀ fu,
  dict_find i (foldl (hold_loser store) fu rest)
  = if decide (i ∈ rest)
    then match store !! i with
         | Some q => Some (plan_of q)
         | None => dict_find i fu
         end
    else dict_find i fu.
Proof.
  induction rest as [|j rest IH]; intros fu.
  - cbn [foldl]. case_decide as H; [by apply elem_of_nil in H|done].
  - cbn [foldl]. rewrite IH, hold_loser_find.
    destruct (decide (i ∈ rest)) as [Hin|Hin];
      destruct (decide (i = j)) as [Hij|Hij];
      destruct (decide (i ∈ j :: rest)) as [Hin'|Hin'];
      try done; try (by destruct (store !! i));
      exfalso; rewrite elem_of_cons in Hin'; tauto.
Qed.

Lemma py_get_head {A} (l : list A) (a : A) rest :
  l = a :: rest → py_get l 0 = Ok a.
Proof.
  intros ->. unfold py_get, py_norm.
  rewrite bool_decide_eq_true_2 by (simpl; lia). done.
Qed.

Lemma contenders_find (fps : list (pref * Plan.t)) i pos :
  NoDup fps.*1 →
  i ∈ contenders pos fps ↔ ∃ plan, dict_find i fps = Some plan ∧ target plan = pos.
Proof.
  intros Hnd. rewrite elem_of_contenders. split.
  - intros (plan & Hin & Ht). exists plan. split; [|done].
    by apply dict_find_elem_NoDup.
  - intros (plan & Hf & Ht). exists plan. split; [|done].
    by apply dict_find_Some_elem.
Qed.

(** One group of [desired_positions]. *)
Lemma resolve_group store (fps fu : list (pref * Plan.t)) pos rest_groups :
  NoDup fps.*1 → contenders pos fps ≠ [] →
  Forall (λ i, (i < length store)%nat) fps.*1 →
  ∃ fu1,
    resolve_collisions ((pos, contenders pos fps) :: rest_groups) store fps fu
      = resolve_collisions rest_groups store fps fu1 ∧
    ∀ i, dict_find i fu1
         = if decide (i ∈ contenders pos fps) then final_update store fps i
           else dict_find i fu.
Proof.
  intros Hnd Hne Hvalid. remember (contenders pos fps) as g eqn:Eg.
  destruct (sorted_by_head (qidx store) g Hne) as (w & rest & Hsrt & Hw & _ & Hperm).
  assert (Hwin : winner_of store g = Some w) by (unfold winner_of; by rewrite Hsrt).
  assert (Hgnd : NoDup g) by (subst g; by apply NoDup_contenders).
  assert (Hwrest : (w ∉ rest) ∧ ∀ i, i ∈ g ↔ i = w ∨ i ∈ rest).
  { rewrite <-Hperm in Hgnd. apply NoDup_app in Hgnd as (_ & Hdis & _).
    split.
    - intros Hin. apply (Hdis w Hin). left.
    - intros i. rewrite <-Hperm, elem_of_app, list_elem_of_singleton. tauto. }
  destruct Hwrest as [Hwr Hg].
  assert (Hmem : ∀ i, i ∈ g →
            ∃ plan, dict_find i fps = Some plan ∧ target plan = pos).
  { intros i Hi. apply contenders_find; [done|]. by rewrite <-Eg. }
  destruct (Hmem w Hw) as (planw & Hfw & Htw).
  assert (Hentry : ∀ i, i ∈ g → final_update store fps i
            = if decide (i = w) then Some planw else plan_of <$> store !! i).
  { intros i Hi. unfold final_update.
    destruct (Hmem i Hi) as (plani & Hfi & Hti).
    rewrite Hfi. simpl. rewrite Hti, <-Eg, Hwin.
    destruct (decide (i = w)) as [->|Hiw].
    - rewrite decide_True by done. congruence.
    - rewrite decide_False; [done|]. congruence. }
  assert (Hstore : ∀ i, i ∈ g → is_Some (store !! i)).
  { intros i Hi. apply lookup_lt_is_Some_2.
    destruct (Hmem i Hi) as (plani & Hfi & _).
    rewrite Forall_forall in Hvalid. apply Hvalid.
    apply dict_find_is_Some. by eexists. }
  simpl. case_bool_decide as Hlen.
  - (* a single contender *)
    destruct g as [|p0 [|? ?]]; simplify_eq/=.
    unfold dict_get. rewrite Hfw. simpl.
    eexists. split; [done|]. intros i. rewrite dict_find_set.
    destruct (decide (i = w)) as [->|Hiw].
    + rewrite decide_True by left. rewrite Hentry by left.
      by rewrite decide_True.
    + rewrite decide_False; [done|]. by rewrite list_elem_of_singleton.
  - rewrite Hsrt. rewrite (py_get_head (w :: rest) w rest) by done. simpl.
    unfold dict_get. rewrite Hfw. simpl.
    eexists. split; [done|]. intros i.
    rewrite foldl_hold_loser_find, dict_find_set.
    destruct (decide (i ∈ g)) as [Hi|Hi].
    + rewrite (Hentry i Hi). destruct (Hstore i Hi) as [q Hq]. rewrite Hq.
      destruct (decide (i = w)) as [->|Hiw].
      * by rewrite decide_False.
      * rewrite decide_True; [done|]. apply Hg in Hi as [?|?]; done.
    + rewrite decide_False; [|intros ?; apply Hi, Hg; by right].
      rewrite decide_False; [done|]. intros ->. by apply Hi.
Qed.

Lemma resolve_collisions_spec store (fps : list (pref * Plan.t)) groups : ∀ fu,
  NoDup fps.*1 → NoDup groups.*1 →
  (∀ pos g, (pos, g) ∈ groups → g = contenders pos fps ∧ g ≠ []) →
  Forall (λ i, (i < length store)%nat) fps.*1 →
  ∃ fu', resolve_collisions groups store fps fu = Ok fu' ∧
    ∀ i, dict_find i fu'
         = match dict_find i fps with
           | Some plan =>
               if decide (target plan ∈ groups.*1)
               then final_update store fps i else dict_find i fu
           | None => dict_find i fu
           end.
Proof.
  induction groups as [|[pos g] groups IH]; intros fu Hnd Hgnd Hgroups Hvalid.
  - exists fu. split; [done|]. intros i. destruct (dict_find i fps); [|done].
    rewrite decide_False; [done|]. apply not_elem_of_nil.
  - apply NoDup_cons in Hgnd as [Hpos Hgnd]. simpl in Hpos.
    destruct (Hgroups pos g) as [-> Hne]; [left|].
    destruct (resolve_group store fps fu pos groups Hnd Hne Hvalid)
      as (fu1 & -> & Hfu1).
    destruct (IH fu1 Hnd Hgnd) as (fu' & Hres & Hfu'); [|done|].
    { intros pos' g' Hin. apply Hgroups. by right. }
    exists fu'. split; [done|]. intros i. rewrite Hfu'.
    destruct (dict_find i fps) as [plan|] eqn:Hfi.
    + simpl. destruct (decide (target plan ∈ groups.*1)) as [Hin|Hin].
      * rewrite decide_True; [done|]. by right.
      * rewrite Hfu1. destruct (decide (target plan = pos)) as [Ht|Ht].
        -- rewrite decide_True by (rewrite contenders_find by done; eauto).
           rewrite decide_True; [done|]. rewrite Ht. left.
        -- rewrite decide_False.
           2:{ rewrite contenders_find by done. intros (plan' & Hf' & Ht').
               congruence. }
           rewrite decide_False; [done|].
           rewrite elem_of_cons. intros [?|?]; done.
    + rewrite Hfu1. rewrite decide_False; [done|].
      rewrite contenders_find by done. intros (plan' & Hf' & _). congruence.
Qed.

(** [final_updates], as [do_substep] computes it, holds [final_update] for
    every key of [final_plans] and nothing else. *)
Lemma final_updates_spec store (fps : list (pref * Plan.t)) :
  NoDup fps.*1 → Forall (λ i, (i < length store)%nat) fps.*1 →
  ∃ fu, resolve_collisions (build_desired_positions fps) store fps [] = Ok fu ∧
    ∀ i, dict_find i fu = final_update store fps i.
Proof.
  intros Hnd Hvalid.
  destruct (resolve_collisions_spec store fps (build_desired_positions fps) []
              Hnd (build_desired_positions_NoDup fps)) as (fu & Hres & Hfu);
    [apply build_desired_positions_elem|done|].
  exists fu. split; [done|]. intros i. rewrite Hfu.
  destruct (dict_find i fps) as [plan|] eqn:Hfi.
  - rewrite decide_True; [done|].
    apply dict_find_is_Some. rewrite build_desired_positions_find.
    destruct (contenders (target plan) fps) eqn:Hc; [|by eexists].
    assert (Hin : i ∈ contenders (target plan) fps)
      by (rewrite contenders_find by done; eauto).
    rewrite Hc in Hin. by apply elem_of_nil in Hin.
  - unfold final_update. by rewrite Hfi.
Qed.

(** ** Applying the updates *)

Lemma apply_updates_spec (fu : list (pref * Plan.t)) cs : ∀ store b moved,
  NoDup cs →
  Forall (λ i, (i < length store)%nat ∧ is_Some (dict_find i fu)) cs →
  ∃ store' b' moved',
    apply_updates cs fu store b moved = Ok (store', b', moved') ∧
    length store' = length store ∧
    (∀ i, store' !! i
          = if decide (i ∈ cs)
            then q ← store !! i; upd ← dict_find i fu; Some (apply_update q upd)
            else store !! i) ∧
    (b' = true ↔
       b = true ∨ ∃ i q upd, i ∈ cs ∧ store !! i = Some q ∧
                             dict_find i fu = Some upd ∧ moves q upd) ∧
    (∀ i, i ∈ moved' ↔
       i ∈ moved ∨ (i ∈ cs ∧ ∃ q upd, store !! i = Some q ∧
                                       dict_find i fu = Some upd ∧ moves q upd)).
Proof.
  induction cs as [|i cs IH]; intros store b moved Hnd Hcs.
  - exists store, b, moved. split_and!; [done..| | |].
    + intros i. rewrite decide_False; [done|]. apply not_elem_of_nil.
    + split; [by left|]. intros [?|(i&?&?&Hi&_)]; [done|].
      by apply elem_of_nil in Hi.
    + intros i. split; [by left|]. intros [?|[Hi _]]; [done|].
      by apply elem_of_nil in Hi.
  - apply NoDup_cons in Hnd as [Hi Hnd].
    apply Forall_cons in Hcs as [[Hlt [upd Hupd]] Hcs].
    destruct (lookup_lt_is_Some_2 store i Hlt) as [q Hq].
    simpl. unfold dict_get. rewrite Hupd, Hq. simpl.
    set (q' := apply_update q upd).
    assert (Hother : ∀ j, j ∈ cs → <[i := q']> store !! j = store !! j).
    { intros j Hj. apply list_lookup_insert_ne. intros ->. done. }
    assert (Hcs' : Forall (λ j, (j < length (<[i := q']> store))%nat
                               ∧ is_Some (dict_find j fu)) cs).
    { eapply Forall_impl; [exact Hcs|]. intros j. by rewrite length_insert. }
    assert (Hmv : (Passenger.x q', Passenger.y q')
                  ≠ (Passenger.x q, Passenger.y q) ↔ moves q upd) by done.
    case_bool_decide as Hmoved.
    + destruct (IH (<[i := q']> store) true ({[i]} ∪ moved) Hnd Hcs')
        as (store' & b' & moved' & -> & Hlen & Hst & Hb & Hm).
      exists store', b', moved'. split_and!; [done| | | |].
      * by rewrite Hlen, length_insert.
      * intros j. rewrite Hst. destruct (decide (j ∈ cs)) as [Hj|Hj].
        -- rewrite decide_True by (by right). by rewrite Hother.
        -- destruct (decide (j = i)) as [->|Hji].
           ++ rewrite decide_True by left.
              rewrite list_lookup_insert_eq by done. rewrite Hq. simpl.
              by rewrite Hupd.
           ++ rewrite decide_False by (rewrite elem_of_cons; tauto).
              by rewrite list_lookup_insert_ne.
      * rewrite Hb. split; [|by left]. intros _. right.
        exists i, q, upd. split_and!; [left|done..|by apply Hmv].
      * intros j. rewrite Hm, elem_of_union, elem_of_singleton. split.
        -- intros [[->|?]|[Hj (qj & uj & Hqj & ?)]].
           ++ right. split; [left|]. exists q, upd. split_and!; [done..|].
              by apply Hmv.
           ++ by left.
           ++ right. split; [by right|]. exists qj, uj.
              by rewrite <-(Hother j Hj).
        -- intros [?|[Hj (qj & uj & Hqj & Huj & Hmj)]]; [left; by right|].
           apply elem_of_cons in Hj as [->|Hj]; [left; by left|].
           right. split; [done|]. exists qj, uj. by rewrite (Hother j Hj).
    + destruct (IH (<[i := q']> store) b moved Hnd Hcs')
        as (store' & b' & moved' & -> & Hlen & Hst & Hb & Hm).
      assert (Hnm : ¬ moves q upd) by (rewrite <-Hmv; tauto).
      exists store', b', moved'. split_and!; [done| | | |].
      * by rewrite Hlen, length_insert.
      * intros j. rewrite Hst. destruct (decide (j ∈ cs)) as [Hj|Hj].
        -- rewrite decide_True by (by right). by rewrite Hother.
        -- destruct (decide (j = i)) as [->|Hji].
           ++ rewrite decide_True by left.
              rewrite list_lookup_insert_eq by done. rewrite Hq. simpl.
              by rewrite Hupd.
           ++ rewrite decide_False by (rewrite elem_of_cons; tauto).
              by rewrite list_lookup_insert_ne.
      * rewrite Hb. split.
        -- intros [?|(j & qj & uj & Hj & Hqj & ?)]; [by left|]. right.
           exists j, qj, uj. split; [by right|]. by rewrite <-(Hother j Hj).
        -- intros [?|(j & qj & uj & Hj & Hqj & Huj & Hmj)]; [by left|].
           apply elem_of_cons in Hj as [->|Hj]; [congruence|].
           right. exists j, qj, uj. split; [done|]. by rewrite (Hother j Hj).
      * intros j. rewrite Hm. split.
        -- intros [?|[Hj (qj & uj & Hqj & ?)]]; [by left|].
           right. split; [by right|]. exists qj, uj.
           by rewrite <-(Hother j Hj).
        -- intros [?|[Hj (qj & uj & Hqj & Huj & Hmj)]]; [by left|].
           apply elem_of_cons in Hj as [->|Hj]; [congruence|].
           right. split; [done|]. exists qj, uj. by rewrite (Hother j Hj).
Qed.

(** ** The sub-step as a whole *)

Lemma deref_fst (store : list Passenger.t) (refs : list pref) :
  (deref store refs).*1 = filter (λ i, (i < length store)%nat) refs.
Proof.
  unfold deref. induction refs as [|i refs IH]; simpl; [done|].
  rewrite filter_cons. destruct (store !! i) as [p|] eqn:Hi; simpl.
  - rewrite decide_True by (by eapply lookup_lt_Some). f_equal. exact IH.
  - rewrite decide_False; [exact IH|]. apply lookup_ge_None in Hi. lia.
Qed.

Lemma elem_of_deref (store : list Passenger.t) (refs : list pref) i p :
  (i, p) ∈ deref store refs ↔ i ∈ refs ∧ store !! i = Some p.
Proof.
  unfold deref. rewrite list_elem_of_omap. split.
  - intros (j & Hj & Hjp). destruct (store !! j) as [q|] eqn:Hq; [|done].
    simpl in Hjp. by injection Hjp as -> ->.
  - intros [Hi Hp]. exists i. by rewrite Hp.
Qed.

Lemma elem_of_candidates sim moved i :
  i ∈ candidates sim moved ↔
  i ∈ Simulation.passengers_in_aisle sim ∧
  (i < length (Simulation.passengers_queue sim))%nat ∧ i ∉ moved.
Proof.
  unfold candidates. rewrite list_elem_of_filter, deref_fst, list_elem_of_filter.
  tauto.
Qed.

Lemma NoDup_candidates sim moved :
  NoDup (Simulation.passengers_in_aisle sim) → NoDup (candidates sim moved).
Proof.
  intros Hnd. unfold candidates. rewrite deref_fst.
  by apply NoDup_filter, NoDup_filter.
Qed.

Section FinalProposals.
Context (sim : Simulation.t) (moved : gset pref).
Context (I : Plane → list Passenger.t → Prop).

Let store0 := Simulation.passengers_queue sim.
Let aisle := Simulation.passengers_in_aisle sim.
Let tick := Simulation.tick_count sim.

Hypothesis I_step : ∀ lm plane store i self plan plane' self',
  I plane store → store !! i = Some self →
  propose_action plane self (deref store aisle) lm tick
    = Ok (plan, plane', self') →
  I plane' (<[i := self']> store).

Lemma final_proposals_spec cs lm fps plane2 store2 :
  NoDup aisle → I (Simulation.plane sim) store0 →
  final_proposals sim moved = Ok (cs, lm, fps, plane2, store2) →
  cs = sorted_by (qidx store0) (candidates sim moved) ∧
  NoDup cs ∧ fps.*1 = cs ∧
  frame <$> store2 = frame <$> store0 ∧ length store2 = length store0 ∧
  num_rows plane2 = num_rows (Simulation.plane sim) ∧
  I plane2 store2 ∧
  Forall (λ ip, proposed aisle lm tick I ip.1 ip.2) fps.
Proof.
  intros Hnd HI. unfold final_proposals. fold store0 aisle tick.
  set (cs0 := sorted_by (qidx store0) (candidates sim moved)).
  assert (Hcs0 : NoDup cs0) by (by apply NoDup_sorted_by, NoDup_candidates).
  assert (Hvalid : ∀ store : list Passenger.t, length store = length store0 →
            Forall (λ i, (i ∉ (@nil (pref * Plan.t)).*1)
                         ∧ (i < length store)%nat) cs0).
  { intros store Hlen. apply Forall_forall. intros i Hi.
    apply elem_of_sorted_by, elem_of_candidates in Hi as (_ & Hi & _).
    split; [apply not_elem_of_nil|]. by rewrite Hlen. }
  destruct (propose_pass cs0 (Simulation.plane sim) store0 aisle ∅ tick [])
    as [[[drafts plane1] store1]|e] eqn:Hdraft; simpl; [|done].
  apply (propose_pass_spec aisle ∅ tick I (I_step ∅)) in Hdraft
    as (HI1 & Hfr1 & Hrows1 & _); [|done..|by apply Hvalid].
  assert (Hlen1 : length store1 = length store0).
  { apply (f_equal length) in Hfr1. by rewrite !length_fmap in Hfr1. }
  destruct (propose_pass cs0 plane1 store1 aisle _ tick [])
    as [[[fps' plane2'] store2']|e] eqn:Hfinal; simpl; [|done].
  intros [= <- <- <- <- <-].
  apply (propose_pass_spec aisle _ tick I (I_step _)) in Hfinal
    as (HI2 & Hfr2 & Hrows2 & new & -> & Hkeys & Hall);
    [|done..|by apply Hvalid].
  split_and!; [done..| | | |done|done].
  - congruence.
  - apply (f_equal length) in Hfr2. rewrite !length_fmap in Hfr2. congruence.
  - congruence.
Qed.
End FinalProposals.

Lemma framed_step store0 aisle tick lm plane (store : list Passenger.t)
    (i : nat) self plan plane' self' :
  framed store0 plane store → store !! i = Some self →
  propose_action plane self (deref store aisle) lm tick
    = Ok (plan, plane', self') →
  framed store0 plane' (<[i := self']> store).
Proof.
  unfold framed. intros Hfr Hi Hp. rewrite <-Hfr.
  eapply frame_insert; [done|]. by eapply propose_action_frame.
Qed.

(** What a sub-step that has candidates does, in terms of its final plans:
    every candidate gets its [final_update], nobody else changes. *)
Lemma do_substep_spec sim moved cs lm fps plane2 store2 :
  NoDup (Simulation.passengers_in_aisle sim) →
  candidates sim moved ≠ [] →
  final_proposals sim moved = Ok (cs, lm, fps, plane2, store2) →
  ∃ b store' moved',
    do_substep sim moved
      = Ok (b, Simulation.mk plane2 store'
                 (Simulation.passengers_in_aisle sim)
                 (Simulation.tick_count sim)
                 (Simulation.final_tick_count sim), moved') ∧
    length store' = length store2 ∧
    (∀ i, store' !! i
          = if decide (i ∈ cs) then updated store2 fps i else store2 !! i) ∧
    (b = true ↔
       ∃ i q upd, i ∈ cs ∧ store2 !! i = Some q ∧
                  final_update store2 fps i = Some upd ∧ moves q upd) ∧
    (∀ i, i ∈ moved' ↔
       i ∈ moved ∨ (i ∈ cs ∧ ∃ q upd, store2 !! i = Some q ∧
                      final_update store2 fps i = Some upd ∧ moves q upd)).
Proof.
  intros Hnd Hne Hfp.
  pose proof (final_proposals_spec sim moved
                (framed (Simulation.passengers_queue sim))
                (framed_step _ _ _) cs lm fps plane2 store2 Hnd eq_refl Hfp)
    as (Hcs & Hcsnd & Hkeys & Hfr & Hlen & _ & _ & _).
  assert (Hvalid : Forall (λ i, (i < length store2)%nat) fps.*1).
  { rewrite Hkeys, Hcs. apply Forall_forall. intros i Hi.
    apply elem_of_sorted_by, elem_of_candidates in Hi as (_ & Hi & _).
    by rewrite Hlen. }
  destruct (final_updates_spec store2 fps) as (fu & Hres & Hfu);
    [by rewrite Hkeys|done|].
  assert (Hentries : ∀ i, i ∈ cs → is_Some (final_update store2 fps i)).
  { intros i Hi. unfold final_update.
    assert (His : is_Some (dict_find i fps))
      by (apply dict_find_is_Some; by rewrite Hkeys).
    destruct His as [plan ->]. simpl. case_decide; [by eexists|].
    rewrite Forall_forall in Hvalid.
    destruct (lookup_lt_is_Some_2 store2 i) as [q ->]; [|by eexists].
    apply Hvalid. by rewrite Hkeys. }
  destruct (apply_updates_spec fu cs store2 false moved Hcsnd)
    as (store' & b & moved' & Happly & Hlen' & Hst & Hb & Hm).
  { apply Forall_forall. intros i Hi. rewrite Hfu. split; [|by apply Hentries].
    rewrite Forall_forall in Hvalid. apply Hvalid. by rewrite Hkeys. }
  exists b, store', moved'. split_and!.
  - unfold do_substep. rewrite bool_decide_eq_false_2 by done.
    rewrite Hfp. simpl. rewrite Hres. simpl. rewrite Happly. done.
  - done.
  - intros i. rewrite Hst. case_decide as Hi; [|done].
    unfold updated. destruct (store2 !! i) as [q|]; [|done]. simpl.
    rewrite Hfu. by destruct (Hentries i Hi) as [upd ->].
  - rewrite Hb. split.
    + intros [?|(i & q & upd & ? & ? & Hu & ?)]; [done|].
      rewrite Hfu in Hu. by exists i, q, upd.
    + intros (i & q & upd & ? & ? & Hu & ?). right.
      rewrite <-Hfu in Hu. by exists i, q, upd.
  - intros i. rewrite Hm. by setoid_rewrite Hfu.
Qed.

Lemma frame_lookup (store store0 : list Passenger.t) (i : nat) :
  frame <$> store = frame <$> store0 →
  frame <$> store !! i = frame <$> store0 !! i.
Proof. intros H. by rewrite <-!list_lookup_fmap, H. Qed.

Lemma plan_of_frame p : plan_of (frame p) = plan_of p.
Proof. done. Qed.

Lemma plan_of_lookup_frame (store store0 : list Passenger.t) (i : nat) :
  frame <$> store = frame <$> store0 →
  plan_of <$> store !! i = plan_of <$> store0 !! i.
Proof.
  intros H. pose proof (frame_lookup store store0 i H) as Hi.
  destruct (store !! i) as [p|], (store0 !! i) as [p0|]; try done.
  assert (Hf : frame p = frame p0) by (simpl in Hi; congruence).
  simpl. by rewrite <-(plan_of_frame p), <-(plan_of_frame p0), Hf.
Qed.

Lemma qidx_frame (store store0 : list Passenger.t) (i : nat) :
  frame <$> store = frame <$> store0 → qidx store i = qidx store0 i.
Proof.
  intros H. pose proof (frame_lookup store store0 i H) as Hi. unfold qidx.
  destruct (store !! i) as [p|], (store0 !! i) as [p0|]; try done.
  assert (Hf : frame p = frame p0) by (simpl in Hi; congruence).
  change (Passenger.queue_index (frame p) = Passenger.queue_index (frame p0)).
  by rewrite Hf.
Qed.

Lemma plan_of_apply_update q upd : plan_of (apply_update q upd) = upd.
Proof. by destruct upd. Qed.

Lemma apply_update_plan_of q : apply_update q (plan_of q) = q.
Proof. by destruct q. Qed.

(** C2. In a sub-step, whenever two or more final plans ask for the same
    cell, a contender with the least queue index (the first of them in the
    stable order) gets its plan applied, and every other contender keeps
    its position, state, stow countdown, delay countdown and set of
    negotiated occupants as they were before the sub-step. *)
Theorem collision_winner_applied_losers_hold (sim : Simulation.t)
    (moved : gset pref) cs lm fps plane2 store2 b sim' moved' (pos : Z * Z) :
  NoDup (Simulation.passengers_in_aisle sim) →
  final_proposals sim moved = Ok (cs, lm, fps, plane2, store2) →
  do_substep sim moved = Ok (b, sim', moved') →
  (2 ≤ length (contenders pos fps))%nat →
  ∃ w plan,
    w ∈ contenders pos fps ∧
    (∀ q, q ∈ contenders pos fps →
          qidx (Simulation.passengers_queue sim) w
          ≤ qidx (Simulation.passengers_queue sim) q) ∧
    dict_find w fps = Some plan ∧ target plan = pos ∧
    plan_of <$> Simulation.passengers_queue sim' !! w = Some plan ∧
    ∀ q, q ∈ contenders pos fps → q ≠ w →
      is_Some (Simulation.passengers_queue sim !! q) ∧
      plan_of <$> Simulation.passengers_queue sim' !! q
      = plan_of <$> Simulation.passengers_queue sim !! q.
Proof.
  intros Hnd Hfp Hstep Hlen.
  pose proof (final_proposals_spec sim moved
                (framed (Simulation.passengers_queue sim))
                (framed_step _ _ _) cs lm fps plane2 store2 Hnd eq_refl Hfp)
    as (Hcs & Hcsnd & Hkeys & Hfr & Hlen2 & _ & _ & _).
  assert (Hfnd : NoDup fps.*1) by (by rewrite Hkeys).
  assert (Hne : contenders pos fps ≠ []).
  { intros Hc. rewrite Hc in Hlen. simpl in Hlen. lia. }
  assert (Hin_cs : ∀ i, i ∈ contenders pos fps → i ∈ cs).
  { intros i Hi. apply contenders_find in Hi as (plan & Hf & _); [|done].
    rewrite <-Hkeys. apply dict_find_is_Some. by eexists. }
  assert (Hcand : candidates sim moved ≠ []).
  { intros Hc. destruct (contenders pos fps) as [|i ?] eqn:E; [done|].
    assert (Hi : i ∈ cs) by (apply Hin_cs; left).
    rewrite Hcs, Hc in Hi. by apply elem_of_nil in Hi. }
  destruct (do_substep_spec sim moved cs lm fps plane2 store2 Hnd Hcand Hfp)
    as (b0 & store' & moved0 & Hstep' & Hlen' & Hst & _).
  rewrite Hstep in Hstep'. injection Hstep' as -> -> ->. simpl.
  destruct (sorted_by_head (qidx store2) (contenders pos fps) Hne)
    as (w & rest & Hsrt & Hw & Hleast & _).
  assert (Hwin : winner_of store2 (contenders pos fps) = Some w)
    by (unfold winner_of; by rewrite Hsrt).
  destruct (proj1 (contenders_find fps w pos Hfnd) Hw) as (plan & Hfw & Htw).
  assert (Hvalid : ∀ i, i ∈ cs → is_Some (store2 !! i)).
  { intros i Hi. apply lookup_lt_is_Some_2. rewrite Hlen2.
    rewrite Hcs in Hi.
    by apply elem_of_sorted_by, elem_of_candidates in Hi as (_ & Hi & _). }
  exists w, plan. split_and!; [done| |done|done| |].
  - intros q Hq. rewrite <-!(qidx_frame store2 _ _ Hfr). by apply Hleast.
  - rewrite Hst, decide_True by (by apply Hin_cs).
    unfold updated. destruct (Hvalid w (Hin_cs w Hw)) as [qw ->]. simpl.
    unfold final_update. rewrite Hfw. simpl. rewrite Htw, Hwin.
    rewrite decide_True by done. simpl. by rewrite plan_of_apply_update.
  - intros q Hq Hqw.
    destruct (Hvalid q (Hin_cs q Hq)) as [q2 Hq2].
    split.
    { apply lookup_lt_is_Some_2. rewrite <-Hlen2. by eapply lookup_lt_Some. }
    rewrite <-(plan_of_lookup_frame store2 _ q Hfr).
    rewrite Hst, decide_True by (by apply Hin_cs).
    unfold updated. rewrite Hq2. simpl.
    destruct (proj1 (contenders_find fps q pos Hfnd) Hq) as (planq & Hfq & Htq).
    unfold final_update. rewrite Hfq. simpl. rewrite Htq, Hwin.
    rewrite decide_False by congruence. rewrite Hq2. simpl.
    by rewrite apply_update_plan_of.
Qed.

Lemma collision_winner_applied_losers_hold_witness :
  match final_proposals crossing_sim ∅, do_substep crossing_sim ∅ with
  | Ok (_, _, fps, _, _), Ok (_, sim', _) =>
      contenders (1, 3) fps = [0%nat; 1%nat] ∧
      ∃ w plan,
        dict_find w fps = Some plan ∧
        plan_of <$> Simulation.passengers_queue sim' !! w = Some plan ∧
        ∀ q, q ∈ contenders (1, 3) fps → q ≠ w →
          plan_of <$> Simulation.passengers_queue sim' !! q
          = plan_of <$> Simulation.passengers_queue crossing_sim !! q
  | _, _ => False
  end.
Proof.
  destruct (final_proposals crossing_sim ∅)
    as [[[[[cs lm] fps] plane2] store2]|e] eqn:Hfp;
    [|vm_compute in Hfp; discriminate Hfp].
  destruct (do_substep crossing_sim ∅) as [[[b sim'] moved']|e] eqn:Hstep;
    [|vm_compute in Hstep; discriminate Hstep].
  assert (Hc : contenders (1, 3) fps = [0%nat; 1%nat]).
  { vm_compute in Hfp. injection Hfp as <- <- <- <- <-. reflexivity. }
  split; [exact Hc|].
  destruct (collision_winner_applied_losers_hold crossing_sim ∅
              cs lm fps plane2 store2 b sim' moved' (1, 3))
    as (w & plan & _ & _ & Hw & _ & Happlied & Hheld).
  - unfold crossing_sim. simpl.
    apply NoDup_cons. split; [by rewrite list_elem_of_singleton|].
    apply NoDup_singleton.
  - exact Hfp.
  - exact Hstep.
  - rewrite Hc. simpl. lia.
  - exists w, plan. split; [exact Hw|]. split; [exact Happlied|].
    intros q Hq Hqw. exact (proj2 (Hheld q Hq Hqw)).
Defined.

(** ** Who may enter a cell *)


Lemma visible_at_frame row col i p p' :
  frame p = frame p' → visible_at row col (i, p) → visible_at row col (i, p').
Proof.
  intros Hf. unfold visible_at. simpl.
  change (Passenger.y p) with (Passenger.y (frame p)).
  change (Passenger.x p) with (Passenger.x (frame p)).
  change (Passenger.state p) with (Passenger.state (frame p)).
  by rewrite Hf.
Qed.

Lemma find_passenger_at_frame_None (store store0 : list Passenger.t) aisle row col :
  frame <$> store = frame <$> store0 →
  find_passenger_at row col (deref store aisle) = None →
  find_passenger_at row col (deref store0 aisle) = None.
Proof.
  intros Hfr. rewrite !find_passenger_at_None. intros Hnone [i p0] Hin.
  apply elem_of_deref in Hin as [Hi Hp0].
  pose proof (frame_lookup store store0 i Hfr) as Hl. rewrite Hp0 in Hl.
  destruct (store !! i) as [p|] eqn:Hp; [|done].
  assert (Hf : frame p = frame p0) by (simpl in Hl; congruence).
  intros Hv. apply (Hnone (i, p)); [by apply elem_of_deref|].
  by eapply visible_at_frame.
Qed.


Lemma pos_of_apply_update q upd : pos_of (apply_update q upd) = target upd.
Proof. done. Qed.

Lemma moves_target q upd : moves q upd ↔ target upd ≠ pos_of q.
Proof.
  unfold moves, target, pos_of. split; intros H [= ? ?]; apply H; congruence.
Qed.




(** ** Late arrivals *)

Section SortedMore.
Context {A : Type} (key : A → Z).

Lemma insert_by_sorted a l :
  StronglySorted (λ x y, key x ≤ key y) l →
  StronglySorted (λ x y, key x ≤ key y) (insert_by key a l).
Proof.
  induction 1 as [|b l Hl IH Hb]; simpl.
  - repeat constructor.
  - case_bool_decide as Hab.
    + constructor; [by constructor|]. constructor; [done|].
      eapply Forall_impl; [exact Hb|]. simpl. lia.
    + constructor; [done|]. rewrite insert_by_perm.
      constructor; [lia|done].
Qed.

Lemma sorted_by_sorted l :
  StronglySorted (λ x y, key x ≤ key y) (sorted_by key l).
Proof.
  induction l as [|a l IH]; simpl; [constructor|]. by apply insert_by_sorted.
Qed.

(** The sort is stable: passengers of equal key keep their order. *)
Lemma insert_by_stable k a l :
  filter (λ x, key x = k) (insert_by key a l)
  = filter (λ x, key x = k) (a :: l).
Proof.
  induction l as [|b l IH]; simpl; [done|].
  case_bool_decide as Hab; [done|].
  rewrite (filter_cons _ b), IH, !filter_cons.
  repeat case_decide; try done; lia.
Qed.

Lemma sorted_by_stable k l :
  filter (λ x, key x = k) (sorted_by key l) = filter (λ x, key x = k) l.
Proof.
  induction l as [|a l IH]; simpl; [done|].
  rewrite insert_by_stable, !filter_cons, IH. done.
Qed.
End SortedMore.

Lemma renumber_lookup (l : list Passenger.t) (i : nat) :
  renumber l !! i = (λ p, Passenger.set_queue_index p (Z.of_nat i)) <$> l !! i.
Proof. unfold renumber. apply list_lookup_imap. Qed.

Lemma mark_late_length late_indices : ∀ ps marked,
  mark_late late_indices ps = Ok marked → length marked = length ps.
Proof.
  induction late_indices as [|i l IH]; intros ps marked; simpl.
  - by intros [= <-].
  - destruct (ps !! i); [|done]. intros H. apply IH in H.
    by rewrite length_insert in H.
Qed.

Section LateFacts.
Context (R : Random) (HR : RandomOk R).

Lemma get_unique_delay_spec fuel : ∀ (g : rng R) used max_delay d g' used',
  0 ≤ max_delay →
  get_unique_delay R fuel g used max_delay = Ok (d, g', used') →
  (d ∉ used) ∧ used' = {[d]} ∪ used ∧ 0 ≤ d ≤ max_delay.
Proof.
  induction fuel as [|fuel IH]; intros g used max_delay d g' used' Hmax;
    simpl; [done|].
  case_bool_decide as Hd.
  - intros [= <- <- <-]. split; [exact Hd|]. split; [reflexivity|].
    by apply (randint_ok R HR).
  - by apply IH.
Qed.

Lemma assign_delays_spec fuel max_delay ps : ∀ (g : rng R) used arr g',
  0 ≤ max_delay →
  assign_delays R fuel g used max_delay ps = Ok (arr, g') →
  arr.*2 = ps ∧
  Forall (λ x, x.1.1 = Passenger.queue_index x.2 ∧ 0 ≤ x.1.2 ≤ max_delay ∧
               (Passenger.is_late x.2 = false → x.1.2 = 0)) arr ∧
  NoDup (late_offsets arr) ∧
  (∀ d, d ∈ late_offsets arr → d ∉ used).
Proof.
  induction ps as [|p ps IH]; intros g used arr g' Hmax; simpl.
  - intros [= <- <-]. split_and!; [done|constructor|constructor|].
    intros d Hd. by apply elem_of_nil in Hd.
  - destruct (Passenger.is_late p) eqn:Hlate.
    + destruct (get_unique_delay R fuel g used max_delay)
        as [[[extra g1] used1]|e] eqn:Hget; simpl; [|done].
      destruct (assign_delays R fuel g1 used1 max_delay ps)
        as [[arr1 g2]|e] eqn:Hrest; simpl; [|done].
      intros [= <- <-].
      apply get_unique_delay_spec in Hget as (Hfresh & -> & Hrange); [|done].
      apply IH in Hrest as (Hps & Hall & Hnd & Hused); [|done].
      unfold late_offsets in *. rewrite filter_cons. simpl.
      rewrite decide_True by done. simpl.
      split_and!.
      * by f_equal.
      * constructor; [|done]. simpl. split; [done|]. split; [lia|congruence].
      * constructor; [|done]. intros Hin. apply (Hused _ Hin).
        apply elem_of_union. left. by apply elem_of_singleton.
      * intros d [->|Hd]%elem_of_cons; [done|].
        intros Hu. apply (Hused d Hd). apply elem_of_union. by right.
    + destruct (assign_delays R fuel g used max_delay ps)
        as [[arr1 g2]|e] eqn:Hrest; simpl; [|done].
      intros [= <- <-].
      apply IH in Hrest as (Hps & Hall & Hnd & Hused); [|done].
      unfold late_offsets in *. rewrite filter_cons. simpl.
      rewrite decide_False by congruence.
      split_and!; [by f_equal| |done..].
      constructor; [|done]. simpl. split; [done|]. split; [lia|done].
Qed.
End LateFacts.

(** C6, as the code has it. In the immediate mode, with at least one late
    passenger, every late passenger gets an offset between 0 and [n + 10],
    the offsets of the late passengers are pairwise distinct, and the other
    passengers get offset 0. The passengers are then sorted by the key
    (queue index + offset) with a stable sort -- keys may coincide, and
    passengers of equal key keep their order -- and renumbered [0 .. n-1]. *)
Theorem immediate_mode_sorts_by_offset_key (R : Random) (fuel : nat)
    (g : rng R) (base : list Passenger.t) (late_percent : Z)
    (new_list : list Passenger.t) (g' : rng R) :
  RandomOk R →
  0 < late_count_of (length base) late_percent →
  apply_late_arrivals R fuel g base late_percent true = Ok (new_list, g') →
  ∃ arr,
    immediate_passenger_arr R fuel g base late_percent = Ok (arr, g') ∧
    length arr = length base ∧
    Forall (λ x, x.1.1 = Passenger.queue_index x.2 ∧
                 0 ≤ x.1.2 ≤ Z.of_nat (length base) + 10 ∧
                 (Passenger.is_late x.2 = false → x.1.2 = 0)) arr ∧
    NoDup (late_offsets arr) ∧
    new_list = renumber (sorted_by arr_key arr).*2 ∧
    sorted_by arr_key arr ≡ₚ arr ∧
    StronglySorted (λ x y, arr_key x ≤ arr_key y) (sorted_by arr_key arr) ∧
    (∀ k, filter (λ x, arr_key x = k) (sorted_by arr_key arr)
          = filter (λ x, arr_key x = k) arr) ∧
    length new_list = length base ∧
    (∀ (i : nat) p, new_list !! i = Some p →
                    Passenger.queue_index p = Z.of_nat i).
Proof.
  intros HR Hcount. unfold apply_late_arrivals, immediate_passenger_arr.
  rewrite bool_decide_eq_false_2 by lia.
  case_bool_decide as Hmany; [done|].
  set (sg := random_sample R g _ _).
  destruct (mark_late sg.1 base) as [marked|e] eqn:Hmark; simpl; [|done].
  destruct (assign_delays R fuel sg.2 ∅ _ marked) as [[arr g1]|e] eqn:Harr;
    simpl; [|done].
  intros [= <- <-]. exists arr.
  apply (assign_delays_spec R HR) in Harr as (Hps & Hall & Hnd & _); [|lia].
  assert (Hlen : length marked = length base)
    by (by eapply mark_late_length).
  assert (Hlen' : length arr = length base).
  { rewrite <-Hlen, <-Hps. by rewrite length_fmap. }
  split_and!; [done..| | | | | |].
  - done.
  - apply sorted_by_perm.
  - apply sorted_by_sorted.
  - intros k. apply sorted_by_stable.
  - unfold renumber. rewrite length_imap, length_fmap, length_sorted_by. done.
  - intros i p. rewrite renumber_lookup.
    destruct (_ !! i) as [q|]; simpl; [|done]. by intros [= <-].
Qed.

Lemma replay_ok : RandomOk replay.
Proof.
  split.
  - intros g population k Hk Hnd. simpl. split_and!.
    + rewrite length_take. lia.
    + eapply sublist_NoDup; [exact Hnd|apply sublist_take].
    + intros x Hx. apply elem_of_take in Hx as (i & Hi & _).
      by eapply list_elem_of_lookup_2.
  - done.
  - intros [|d g] a b Hab; simpl; lia.
Qed.

Lemma immediate_mode_sorts_by_offset_key_witness :
  match apply_late_arrivals replay 5 [1] two_passengers 50 true with
  | Ok (new_list, _) =>
      length new_list = 2%nat ∧
      ∀ (i : nat) p, new_list !! i = Some p →
                     Passenger.queue_index p = Z.of_nat i
  | Raise _ => False
  end.
Proof.
  destruct (apply_late_arrivals replay 5 [1] two_passengers 50 true)
    as [[new_list g']|e] eqn:Hlate;
    [|vm_compute in Hlate; discriminate Hlate].
  destruct (immediate_mode_sorts_by_offset_key replay 5%nat [1] two_passengers
              50 new_list g')
    as (arr & _ & _ & _ & _ & _ & _ & _ & _ & Hlen & Hidx).
  - exact replay_ok.
  - reflexivity.
  - exact Hlate.
  - split; [exact Hlen|exact Hidx].
Defined.

(** C6, as the specification words it, fails: of two passengers with queue
    indices 0 and 1, the first is late and draws the offset 1; both have the
    sort key 1. *)
Lemma immediate_sort_keys_collide :
  ∃ arr g',
    immediate_passenger_arr replay 5 [1] two_passengers 50 = Ok (arr, g') ∧
    (λ x : Z * Z * Passenger.t, (x.1, Passenger.is_late x.2)) <$> arr
      = [(0, 1, true); (1, 0, false)] ∧
    arr_key <$> arr = [1; 1] ∧
    ¬ distinct_sort_keys arr.
Proof.
  eexists _, _. split; [vm_compute; reflexivity|].
  split; [reflexivity|]. split; [reflexivity|].
  unfold distinct_sort_keys. simpl. intros Hnd.
  apply NoDup_cons in Hnd as [Hin _]. apply Hin. left.
Qed.

(** ** Progress: one call of [propose_action] *)

Lemma can_stow_bag_ok rows plane row bags :
  bins_ok rows plane → 0 ≤ row < rows →
  ∃ fits, can_stow_bag plane row bags = Ok fits.
Proof.
  intros Hok Hrow.
  destruct (total_in_row_ok rows plane row Hok Hrow) as (t & Ht & _).
  rewrite (can_stow_bag_total plane row bags t Ht). by eexists.
Qed.

(** The plan of a call is the hold or one of the steps. *)
Lemma propose_action_step plane self ps lm tick plan plane' self' :
  propose_action plane self ps lm tick = Ok (plan, plane', self') →
  plan = plan_of self ∨ plan_step (num_rows plane) self ps plan.
Proof.
  unfold propose_action. intros H. fold (next_x self) in H.
  destruct (Passenger.state self) eqn:Hst;
    repeat (case_bool_decide || case_match || simplify_eq/=);
    try (by left);
    repeat match goal with
    | H : rbind ?m _ = Ok _ |- _ =>
        let E := fresh "E" in destruct m eqn:E; simpl in H
    end;
    repeat (case_match || simplify_eq/=);
    try (by left); right;
    eauto using plan_step.
Qed.

(** A done occupant is never reported on the next cell of a passenger that
    moves to its seat: that cell is not in the aisle column. *)
Lemma next_x_not_aisle rows self :
  local_ok rows self → Passenger.state self = MoveToSeat →
  Passenger.x self ≠ Passenger.target_col self →
  next_x self ≠ AISLE_COL ∧
  Z.abs (next_x self - Passenger.target_col self)
    < Z.abs (Passenger.x self - Passenger.target_col self) ∧
  Z.min AISLE_COL (Passenger.target_col self) ≤ next_x self
    ≤ Z.max AISLE_COL (Passenger.target_col self).
Proof.
  unfold local_ok, next_x, AISLE_COL. intros (_ & _ & _ & _ & _ & Hst) Hs Hx.
  rewrite Hs in Hst. case_bool_decide; lia.
Qed.

Lemma local_ok_intro rows p :
  0 ≤ Passenger.seat_row p < rows →
  0 ≤ Passenger.target_col p ≤ 6 → Passenger.target_col p ≠ AISLE_COL →
  0 ≤ Passenger.overhead_bags p → Passenger.delay_counter p = 0 →
  match Passenger.state p with
  | Queue => Passenger.x p = AISLE_COL ∧ Passenger.y p = ENTRANCE_ROW
  | Walking =>
      Passenger.x p = AISLE_COL ∧ 0 ≤ Passenger.y p ≤ Passenger.seat_row p
  | Stowing =>
      Passenger.x p = AISLE_COL ∧ 0 ≤ Passenger.y p < rows ∧
      1 ≤ Passenger.ticks_stowing p ≤ TICKS_FOR_OVERHEAD
  | LookingBin => Passenger.x p = AISLE_COL ∧ 0 ≤ Passenger.y p < rows
  | MoveToSeat =>
      0 ≤ Passenger.y p < rows ∧
      Z.min AISLE_COL (Passenger.target_col p) ≤ Passenger.x p
        ≤ Z.max AISLE_COL (Passenger.target_col p)
  | Done => Passenger.x p = Passenger.target_col p ∧ 0 ≤ Passenger.y p < rows
  end →
  local_ok rows p.
Proof. unfold local_ok. tauto. Qed.

(** Every step keeps the passenger as the invariant wants it and leaves it
    with fewer steps. *)
Lemma plan_step_local rows self ps plan :
  local_ok rows self → plan_step rows self ps plan →
  local_ok rows (apply_update self plan) ∧
  steps_left rows (apply_update self plan) < steps_left rows self.
Proof.
  intros Hok Hstep. pose proof Hok as (Hsr & Htc & Htc3 & Hbags & Hdelay & Hst).
  destruct Hstep as [Hs|Hs Hy|Hs Hy|Hs Hy|Hs Hy|Hs Ht Ht'|Hs Ht Ht'|Hs Hy|Hs Hy
                    |Hs Hy|Hs Hd|Hs Hd Hx|occ Hs Hx Hocc Hdone|Hs Hd Hx];
    rewrite Hs in Hst;
    try (split; [apply local_ok_intro; simpl; rewrite ?Hs; try done;
                 unfold AISLE_COL, ENTRANCE_ROW, TICKS_FOR_OVERHEAD in *; lia
                |unfold steps_left; simpl; rewrite ?Hs;
                 unfold AISLE_COL, ENTRANCE_ROW, TICKS_FOR_OVERHEAD in *; lia]).
  - (* a done occupant on the next cell: not outside the aisle column *)
    destruct (next_x_not_aisle rows self Hok Hs Hx) as (Hnx & _).
    apply find_passenger_at_Some in Hocc as (_ & _ & _ & [?|?]); done.
  - destruct (next_x_not_aisle rows self Hok Hs Hx) as (_ & Habs & Hrange).
    split; [apply local_ok_intro; simpl; rewrite ?Hs; try done; lia|].
    unfold steps_left. simpl. rewrite Hs. lia.
Qed.

Lemma local_ok_bags rows p v :
  local_ok rows p → 0 ≤ v → local_ok rows (Passenger.set_overhead_bags p v).
Proof. unfold local_ok. simpl. tauto. Qed.

Lemma apply_update_frame q self plan :
  frame q = frame self →
  apply_update q plan
  = Passenger.set_overhead_bags (apply_update self plan)
      (Passenger.overhead_bags q).
Proof.
  intros Hf. destruct q, self. unfold frame in Hf. simpl in *.
  injection Hf as -> -> -> -> -> -> -> -> -> -> -> ->. done.
Qed.

Lemma steps_left_frame rows q self :
  frame q = frame self → steps_left rows q = steps_left rows self.
Proof.
  intros Hf. change (steps_left rows (frame q) = steps_left rows (frame self)).
  by rewrite Hf.
Qed.

Lemma local_ok_frame rows q self :
  frame q = frame self → 0 ≤ Passenger.overhead_bags q →
  local_ok rows self → local_ok rows q.
Proof.
  intros Hf Hb Hok.
  replace q with (Passenger.set_overhead_bags (frame self)
                    (Passenger.overhead_bags q)).
  - apply local_ok_bags; [|done]. by apply local_ok_bags.
  - rewrite <-Hf. by destruct q.
Qed.

(** The update of a passenger by the plan of a call, or by the hold. *)
Lemma propose_action_local rows plane self ps lm tick plan plane' self' q :
  local_ok rows self → num_rows plane = rows →
  propose_action plane self ps lm tick = Ok (plan, plane', self') →
  frame q = frame self → 0 ≤ Passenger.overhead_bags q →
  local_ok rows (apply_update q plan) ∧
  (plan = plan_of self
   ∨ steps_left rows (apply_update q plan) < steps_left rows q).
Proof.
  intros Hok <- Hp Hf Hb.
  destruct (propose_action_step _ _ _ _ _ _ _ _ Hp) as [->|Hstep].
  - split; [|by left].
    rewrite (apply_update_frame q self _ Hf), apply_update_plan_of.
    by apply local_ok_bags.
  - destruct (plan_step_local _ self ps plan Hok Hstep) as [Hok' Hlt].
    rewrite (apply_update_frame q self _ Hf). split.
    + by apply local_ok_bags.
    + right. rewrite (steps_left_frame _ q self Hf). exact Hlt.
Qed.

Lemma steps_left_nonneg rows p : local_ok rows p → 0 ≤ steps_left rows p.
Proof.
  unfold local_ok, steps_left. intros (? & ? & ? & ? & ? & Hst).
  destruct (Passenger.state p);
    unfold AISLE_COL, ENTRANCE_ROW, TICKS_FOR_OVERHEAD in *; lia.
Qed.

Lemma steps_left_bound rows p :
  local_ok rows p → steps_left rows p ≤ 2 * rows + 8.
Proof.
  unfold local_ok, steps_left. intros (? & ? & ? & ? & ? & Hst).
  destruct (Passenger.state p);
    unfold AISLE_COL, ENTRANCE_ROW, TICKS_FOR_OVERHEAD in *; lia.
Qed.

Lemma steps_left_done rows p :
  local_ok rows p → steps_left rows p = 0 → Passenger.state p = Done.
Proof.
  unfold local_ok, steps_left. intros (? & ? & ? & ? & ? & Hst).
  destruct (Passenger.state p); try done;
    unfold AISLE_COL, ENTRANCE_ROW, TICKS_FOR_OVERHEAD in *; lia.
Qed.

Lemma place_bags_in_bin_ok rows plane row bags :
  bins_ok rows plane → 0 ≤ row < rows → 0 ≤ bags →
  ∃ plane', place_bags_in_bin plane row bags = Ok plane' ∧ bins_ok rows plane'.
Proof.
  intros Hok Hrow Hbags.
  destruct (place_bags_in_bin_spec rows plane row bags Hok)
    as (plane' & t & _ & Hplace & Hok' & _); [lia|done|].
  by exists plane'.
Qed.

(** A call on bins within capacity, for a passenger as the invariant wants
    it, returns, and leaves the bins and the passenger so. *)
Lemma propose_action_total rows plane self ps lm tick :
  bins_ok rows plane → local_ok rows self →
  ∃ r, propose_action plane self ps lm tick = Ok r.
Proof.
  intros Hbins Hok. pose proof Hbins as (Hrows & _).
  pose proof Hok as (Hsr & _ & _ & Hbags & _ & Hst).
  unfold propose_action. destruct (Passenger.state self) eqn:Hs.
  - repeat case_match; by eexists.
  - case_bool_decide; [repeat case_match; by eexists|].
    case_bool_decide; [|by eexists].
    destruct (can_stow_bag_ok rows plane (Passenger.y self)
                (Passenger.overhead_bags self) Hbins) as [fits ->]; [lia|].
    simpl. destruct fits; by eexists.
  - case_bool_decide; [|by eexists]. simpl.
    case_bool_decide; [|by eexists].
    destruct (place_bags_in_bin_ok rows plane (Passenger.y self)
                (Passenger.overhead_bags self) Hbins) as (plane' & -> & _);
      [lia|done|].
    simpl. by eexists.
  - case_bool_decide as Hy; [|by eexists].
    destruct (can_stow_bag_ok rows plane (Passenger.y self + 1)
                (Passenger.overhead_bags self) Hbins) as [fits Hfits]; [lia|].
    rewrite Hfits. simpl. repeat case_match; by eexists.
  - repeat (case_bool_decide || case_match); by eexists.
  - by eexists.
Qed.

Lemma propose_action_keeps rows plane self ps lm tick plan plane' self' :
  bins_ok rows plane → local_ok rows self →
  propose_action plane self ps lm tick = Ok (plan, plane', self') →
  bins_ok rows plane' ∧ local_ok rows self'.
Proof.
  intros Hbins Hok Hp. pose proof Hok as (Hsr & _ & _ & Hbags & _ & Hst).
  unfold propose_action in Hp.
  destruct (Passenger.state self) eqn:Hs;
    repeat (case_bool_decide || case_match || simplify_eq/=); try done;
    repeat match goal with
    | H : rbind ?m _ = Ok _ |- _ =>
        let E := fresh "E" in destruct m eqn:E; simpl in H
    end;
    repeat (case_match || simplify_eq/=); try done.
  destruct (place_bags_in_bin_ok rows plane (Passenger.y self)
              (Passenger.overhead_bags self) Hbins) as (pl & Hpl & Hok');
    [lia|done|].
  split; [congruence|]. by apply local_ok_bags.
Qed.

Lemma pass_ok_step rows store0 aisle tick lm plane (store : list Passenger.t)
    (i : nat) self plan plane' self' :
  pass_ok rows store0 plane store → store !! i = Some self →
  propose_action plane self (deref store aisle) lm tick
    = Ok (plan, plane', self') →
  pass_ok rows store0 plane' (<[i := self']> store).
Proof.
  intros (Hfr & Hbins & Hall) Hi Hp.
  assert (Hself : local_ok rows self).
  { rewrite Forall_lookup in Hall. by eapply Hall. }
  destruct (propose_action_keeps _ _ _ _ _ _ _ _ _ Hbins Hself Hp).
  split_and!; [by eapply framed_step|done|by apply Forall_insert].
Qed.

Lemma pass_ok_total rows store0 aisle tick lm plane (store : list Passenger.t)
    (i : nat) self :
  pass_ok rows store0 plane store → store !! i = Some self →
  ∃ r, propose_action plane self (deref store aisle) lm tick = Ok r.
Proof.
  intros (Hfr & Hbins & Hall) Hi.
  apply (propose_action_total rows); [done|].
  rewrite Forall_lookup in Hall. by eapply Hall.
Qed.

(** ** Progress: one sub-step *)

Lemma final_proposals_total rows sim moved :
  substep_ok rows sim → ∃ r, final_proposals sim moved = Ok r.
Proof.
  intros (Hbins & Hall & Hnd). unfold final_proposals.
  set (store0 := Simulation.passengers_queue sim).
  set (aisle := Simulation.passengers_in_aisle sim).
  set (tick := Simulation.tick_count sim).
  set (cs0 := sorted_by (qidx store0) (candidates sim moved)).
  assert (Hcs0 : NoDup cs0) by (by apply NoDup_sorted_by, NoDup_candidates).
  assert (Hvalid : ∀ store : list Passenger.t, length store = length store0 →
            Forall (λ i, (i ∉ (@nil (pref * Plan.t)).*1)
                         ∧ (i < length store)%nat) cs0).
  { intros store Hlen. apply Forall_forall. intros i Hi.
    apply elem_of_sorted_by, elem_of_candidates in Hi as (_ & Hi & _).
    split; [apply not_elem_of_nil|]. by rewrite Hlen. }
  assert (HI0 : pass_ok rows store0 (Simulation.plane sim) store0) by done.
  destruct (propose_pass_total aisle ∅ tick (pass_ok rows store0)
              (pass_ok_step rows store0 aisle tick ∅)
              (pass_ok_total rows store0 aisle tick ∅)
              cs0 (Simulation.plane sim) store0 [] HI0)
    as [[[drafts plane1] store1] Hdraft].
  { eapply Forall_impl; [by apply Hvalid|]. by intros i [_ ?]. }
  rewrite Hdraft. simpl.
  apply (propose_pass_spec aisle ∅ tick (pass_ok rows store0)
           (pass_ok_step rows store0 aisle tick ∅)) in Hdraft
    as (HI1 & Hfr1 & _); [|done..|by apply Hvalid].
  assert (Hlen1 : length store1 = length store0).
  { apply (f_equal length) in Hfr1. by rewrite !length_fmap in Hfr1. }
  destruct (propose_pass_total aisle (build_leaving_map store1 drafts) tick
              (pass_ok rows store0) (pass_ok_step rows store0 aisle tick _)
              (pass_ok_total rows store0 aisle tick _)
              cs0 plane1 store1 [] HI1)
    as [[[fps plane2] store2] Hfinal].
  { eapply Forall_impl; [by apply Hvalid|]. by intros i [_ ?]. }
  rewrite Hfinal. simpl. by eexists.
Qed.

(** What a sub-step of a boarding gives for every passenger: the update by
    the plan of a call of [propose_action], made on a store that differs
    from the store before the sub-step in [overhead_bags] only, when the
    passenger is a candidate and wins the cell it asks for; the passenger
    as it is otherwise (up to [overhead_bags]). *)
Lemma substep_outcome rows sim moved :
  substep_ok rows sim → candidates sim moved ≠ [] →
  ∃ cs lm fps plane2 store2 b store' moved',
    final_proposals sim moved = Ok (cs, lm, fps, plane2, store2) ∧
    do_substep sim moved
      = Ok (b, Simulation.mk plane2 store'
                 (Simulation.passengers_in_aisle sim)
                 (Simulation.tick_count sim)
                 (Simulation.final_tick_count sim), moved') ∧
    pass_ok rows (Simulation.passengers_queue sim) plane2 store2 ∧
    length store' = length (Simulation.passengers_queue sim) ∧
    (∀ i, i ∈ cs ↔ i ∈ candidates sim moved) ∧
    fps.*1 = cs ∧ NoDup fps.*1 ∧
    (∀ i, i ∈ cs → ∃ plan, dict_find i fps = Some plan ∧
            proposed (Simulation.passengers_in_aisle sim) lm
              (Simulation.tick_count sim)
              (pass_ok rows (Simulation.passengers_queue sim)) i plan) ∧
    (∀ i, store' !! i
          = if decide (i ∈ cs) then updated store2 fps i else store2 !! i).
Proof.
  intros Hok Hne. pose proof Hok as (Hbins & Hall & Hnd).
  destruct (final_proposals_total rows sim moved Hok)
    as [[[[[cs lm] fps] plane2] store2] Hfp].
  pose proof (final_proposals_spec sim moved
                (pass_ok rows (Simulation.passengers_queue sim))
                (λ lm, pass_ok_step rows _ _ _ lm)
                cs lm fps plane2 store2 Hnd) as Hspec.
  destruct Hspec as (Hcs & Hcsnd & Hkeys & Hfr & Hlen & _ & HI2 & Hprop);
    [done|done|].
  destruct (do_substep_spec sim moved cs lm fps plane2 store2 Hnd Hne Hfp)
    as (b & store' & moved' & Hstep & Hlen' & Hst & _).
  exists cs, lm, fps, plane2, store2, b, store', moved'.
  split_and!; [done..|congruence| |done|by rewrite Hkeys| |done].
  - intros i. by rewrite Hcs, elem_of_sorted_by.
  - intros i Hi.
    assert (His : is_Some (dict_find i fps))
      by (apply dict_find_is_Some; by rewrite Hkeys).
    destruct His as [plan Hplan]. exists plan. split; [done|].
    rewrite Forall_forall in Hprop.
    apply (Hprop (i, plan)). by apply dict_find_Some_elem.
Qed.

Lemma total_steps_left_le rows (l l' : list Passenger.t) :
  Forall2 (λ p p', steps_left rows p' ≤ steps_left rows p) l l' →
  total_steps_left rows l' ≤ total_steps_left rows l.
Proof. induction 1; simpl; lia. Qed.

Lemma total_steps_left_lt rows (l l' : list Passenger.t) (i : nat) p p' :
  Forall2 (λ p p', steps_left rows p' ≤ steps_left rows p) l l' →
  l !! i = Some p → l' !! i = Some p' →
  steps_left rows p' < steps_left rows p →
  total_steps_left rows l' < total_steps_left rows l.
Proof.
  intros H. revert i. induction H as [|a a' l l' Ha Hl IH]; intros i; [done|].
  destruct i as [|i]; simpl.
  - intros [= ->] [= ->] Hlt. apply total_steps_left_le in Hl. lia.
  - intros Hp Hp' Hlt. specialize (IH i Hp Hp' Hlt). lia.
Qed.

Lemma total_steps_left_nonneg rows (l : list Passenger.t) :
  Forall (local_ok rows) l → 0 ≤ total_steps_left rows l.
Proof.
  induction 1 as [|p l Hp Hl IH]; simpl; [done|].
  pose proof (steps_left_nonneg rows p Hp). lia.
Qed.

Lemma total_steps_left_bound rows (l : list Passenger.t) :
  Forall (local_ok rows) l →
  total_steps_left rows l ≤ Z.of_nat (length l) * (2 * rows + 8).
Proof.
  induction 1 as [|p l Hp Hl IH]; simpl length; simpl total_steps_left; [lia|].
  pose proof (steps_left_bound rows p Hp). lia.
Qed.

Lemma total_steps_left_zero rows (l : list Passenger.t) :
  Forall (local_ok rows) l → total_steps_left rows l ≤ 0 → all_done l = true.
Proof.
  induction 1 as [|p l Hp Hl IH]; simpl; [done|]. intros Hz.
  pose proof (steps_left_nonneg rows p Hp).
  pose proof (total_steps_left_nonneg rows l Hl).
  rewrite bool_decide_eq_true_2; [apply IH; lia|].
  apply (steps_left_done rows); [done|lia].
Qed.

(** The passengers after a sub-step, one by one. *)
Section Outcome.
Context (rows : Z) (sim : Simulation.t) (moved : gset pref).
Context (cs : list pref) (lm : gmap (Z * Z) bool) (fps : list (pref * Plan.t)).
Context (plane2 : Plane) (store2 store' : list Passenger.t).

Let store0 := Simulation.passengers_queue sim.
Let aisle := Simulation.passengers_in_aisle sim.
Let tick := Simulation.tick_count sim.

Hypothesis Hok : substep_ok rows sim.
Hypothesis Hpass : pass_ok rows store0 plane2 store2.
Hypothesis Hfnd : NoDup fps.*1.
Hypothesis Hprop : ∀ i, i ∈ cs →
  ∃ plan, dict_find i fps = Some plan ∧
          proposed aisle lm tick (pass_ok rows store0) i plan.
Hypothesis Hst : ∀ i,
  store' !! i = if decide (i ∈ cs) then updated store2 fps i else store2 !! i.

Lemma outcome_store2 (i : nat) p0 :
  store0 !! i = Some p0 →
  ∃ q2, store2 !! i = Some q2 ∧ frame q2 = frame p0 ∧ local_ok rows q2.
Proof.
  intros Hp0. destruct Hpass as (Hfr & _ & Hall).
  pose proof (frame_lookup store2 store0 i Hfr) as Hl. rewrite Hp0 in Hl.
  destruct (store2 !! i) as [q2|] eqn:Hq2; [|done].
  exists q2. split_and!; [done|simpl in Hl; congruence|].
  rewrite Forall_lookup in Hall. by eapply Hall.
Qed.

(** A candidate: the call that gave its final plan. *)
Lemma outcome_call (i : nat) p0 :
  i ∈ cs → store0 !! i = Some p0 →
  ∃ plan plane_i store_i self plane_i' self',
    dict_find i fps = Some plan ∧
    frame <$> store_i = frame <$> store0 ∧
    bins_ok rows plane_i ∧
    store_i !! i = Some self ∧ frame self = frame p0 ∧ local_ok rows self ∧
    propose_action plane_i self (deref store_i aisle) lm tick
      = Ok (plan, plane_i', self').
Proof.
  intros Hi Hp0. destruct (Hprop i Hi) as (plan & Hplan & Hcall).
  destruct Hcall as (plane_i & store_i & self & plane_i' & self'
                     & (Hfr & Hbins & Hall) & Hself & Hcall).
  exists plan, plane_i, store_i, self, plane_i', self'.
  split_and!; [done..| | |done].
  - pose proof (frame_lookup store_i store0 i Hfr) as Hl.
    rewrite Hself, Hp0 in Hl. simpl in Hl. congruence.
  - rewrite Forall_lookup in Hall. by eapply Hall.
Qed.

Lemma outcome_passenger (i : nat) p0 p' :
  store0 !! i = Some p0 → store' !! i = Some p' →
  local_ok rows p' ∧
  (frame p' = frame p0 ∨ steps_left rows p' < steps_left rows p0).
Proof.
  intros Hp0 Hp'. destruct (outcome_store2 i p0 Hp0) as (q2 & Hq2 & Hf2 & Hok2).
  rewrite Hst in Hp'. case_decide as Hi.
  2:{ rewrite Hq2 in Hp'. injection Hp' as <-. split; [done|by left]. }
  destruct (outcome_call i p0 Hi Hp0)
    as (plan & plane_i & store_i & self & plane_i' & self'
        & Hplan & Hfr & Hbins & Hself & Hfs & Hoks & Hcall).
  unfold updated in Hp'. rewrite Hq2 in Hp'. simpl in Hp'.
  unfold final_update in Hp'. rewrite Hplan in Hp'. simpl in Hp'.
  case_decide as Hwin.
  - injection Hp' as <-.
    destruct (propose_action_local rows plane_i self (deref store_i aisle) lm
                tick plan plane_i' self' q2 Hoks) as [Hok' Hcases];
      [by destruct Hbins|done|..].
    + congruence.
    + by destruct Hok2 as (_ & _ & _ & ? & _).
    + split; [done|]. destruct Hcases as [->|Hlt].
      * left. rewrite (apply_update_frame q2 self) by congruence.
        rewrite apply_update_plan_of. exact Hfs.
      * right. by rewrite <-(steps_left_frame rows q2 p0 Hf2).
  - rewrite Hq2 in Hp'. simpl in Hp'. injection Hp' as <-.
    rewrite apply_update_plan_of. split; [done|by left].
Qed.

Lemma outcome_steps_le :
  length store' = length store0 →
  Forall2 (λ p p', steps_left rows p' ≤ steps_left rows p) store0 store'.
Proof.
  intros Hlen. apply Forall2_same_length_lookup_2; [done|].
  intros i p0 p' Hp0 Hp'.
  destruct (outcome_passenger i p0 p' Hp0 Hp') as [_ [Hf|Hlt]]; [|lia].
  rewrite (steps_left_frame rows p' p0 Hf). lia.
Qed.

Lemma outcome_local_ok :
  length store' = length store0 → Forall (local_ok rows) store'.
Proof.
  intros Hlen. apply Forall_lookup. intros i p' Hp'.
  destruct (lookup_lt_is_Some_2 store0 i) as [p0 Hp0].
  { rewrite <-Hlen. by eapply lookup_lt_Some. }
  by destruct (outcome_passenger i p0 p' Hp0 Hp').
Qed.

(** The winner of the cell it asks for takes a step when its plan is one. *)
Lemma outcome_winner_steps (i : nat) p0 plan self ps :
  store0 !! i = Some p0 → i ∈ cs →
  dict_find i fps = Some plan →
  winner_of store2 (contenders (target plan) fps) = Some i →
  frame self = frame p0 → local_ok rows self →
  plan_step rows self ps plan →
  ∃ p', store' !! i = Some p' ∧ steps_left rows p' < steps_left rows p0.
Proof.
  intros Hp0 Hi Hplan Hwin Hfs Hoks Hstep.
  destruct (outcome_store2 i p0 Hp0) as (q2 & Hq2 & Hf2 & Hok2).
  exists (apply_update q2 plan). split.
  - rewrite Hst, decide_True by done. unfold updated. rewrite Hq2. simpl.
    unfold final_update. rewrite Hplan. simpl. by rewrite decide_True.
  - destruct (plan_step_local rows self ps plan Hoks Hstep) as [_ Hlt].
    rewrite (apply_update_frame q2 self) by congruence.
    by rewrite <-(steps_left_frame rows self p0 Hfs).
Qed.
End Outcome.

(** ** Progress: somebody is not held back *)

(** A passenger that nothing holds back takes a step, and when the step
    changes its cell, the cell is its next cell. *)
Lemma unblocked_step rows plane self ps lm tick plan plane' self' :
  local_ok rows self → Passenger.state self ≠ Done →
  unblocked rows self ps → num_rows plane = rows →
  propose_action plane self ps lm tick = Ok (plan, plane', self') →
  plan_step rows self ps plan ∧
  (target plan ≠ pos_of self → next_cell rows self = Some (target plan)).
Proof.
  intros Hok Hnd [Hfree Hfirst] Hrows Hp.
  pose proof Hok as (Hsr & Htc & Htc3 & Hbags & Hdelay & Hst).
  unfold next_cell in Hfree. unfold propose_action in Hp.
  unfold next_cell, target, pos_of.
  destruct (Passenger.state self) eqn:Hs; [| | | | |done].
  - (* queue *)
    destruct Hst as [Hx Hy].
    assert (Hex : existsb (λ other : pref * Passenger.t,
                bool_decide (Passenger.state other.2 = Queue)
                && bool_decide (Passenger.queue_index other.2
                                < Passenger.queue_index self)) ps = false).
    { apply not_true_is_false. intros Hex.
      apply existsb_exists in Hex as (other & Hin & Hb).
      apply andb_true_iff in Hb as [Hq Hlt].
      apply bool_decide_eq_true in Hq, Hlt.
      specialize (Hfirst eq_refl other).
      rewrite list_elem_of_In in Hfirst. specialize (Hfirst Hin Hq). lia. }
    rewrite Hex in Hp. unfold is_tile_occupied in Hp.
    pose proof (Hfree (0, AISLE_COL) eq_refl) as Hf.
    simpl in Hf. rewrite Hf in Hp. simpl in Hp.
    injection Hp as <- _ _. split; [by constructor|].
    simpl. intros _. by rewrite Hx.
  - (* walking *)
    destruct Hst as [Hx Hy]. case_bool_decide as Hrow.
    + pose proof (Hfree (Passenger.y self + 1, AISLE_COL) eq_refl) as Hf.
      simpl in Hf. rewrite Hf in Hp.
      injection Hp as <- _ _. split; [by constructor|].
      simpl. intros _. by rewrite Hx.
    + case_bool_decide.
      * destruct (can_stow_bag _ _ _) as [[|]|e]; simpl in Hp; [| |done];
          injection Hp as <- _ _; (split; [by constructor|done]).
      * injection Hp as <- _ _. split; [by constructor|done].
  - (* stowing *)
    destruct Hst as (Hx & Hy & Ht).
    rewrite bool_decide_eq_true_2 in Hp by lia. simpl in Hp.
    case_bool_decide as Hz.
    + destruct (place_bags_in_bin _ _ _) as [pl|e]; simpl in Hp; [|done].
      injection Hp as <- _ _. split; [constructor; [done|lia|done]|done].
    + injection Hp as <- _ _. split; [constructor; [done|lia|done]|done].
  - (* looking for a bin *)
    destruct Hst as [Hx Hy]. rewrite Hrows in Hp. case_bool_decide as Hrow.
    + pose proof (Hfree (Passenger.y self + 1, AISLE_COL) eq_refl) as Hf.
      simpl in Hf. rewrite Hf in Hp.
      destruct (can_stow_bag _ _ _) as [[|]|e]; simpl in Hp; [| |done];
        injection Hp as <- _ _;
        (split; [by constructor|simpl; intros _; by rewrite Hx]).
    + injection Hp as <- _ _. split; [by constructor|done].
  - (* moving to the seat *)
    rewrite bool_decide_eq_false_2 in Hp by lia.
    fold (next_x self) in Hp. case_bool_decide as Hx.
    + injection Hp as <- _ _. split; [constructor; [done|lia|done]|done].
    + pose proof (Hfree (Passenger.y self, next_x self) eq_refl) as Hf.
      simpl in Hf. rewrite Hf in Hp.
      injection Hp as <- _ _. split; [constructor; [done|lia|done]|done].
Qed.

(** Nothing that holds a passenger back depends on [overhead_bags]. *)
Lemma unblocked_frame rows (store store0 : list Passenger.t) aisle self self0 :
  frame <$> store = frame <$> store0 → frame self = frame self0 →
  unblocked rows self0 (deref store0 aisle) →
  unblocked rows self (deref store aisle).
Proof.
  intros Hfr Hfs [Hfree Hfirst].
  assert (Hnc : next_cell rows self = next_cell rows self0).
  { change (next_cell rows (frame self) = next_cell rows (frame self0)).
    by rewrite Hfs. }
  split.
  - intros c Hc. rewrite Hnc in Hc.
    eapply find_passenger_at_frame_None; [symmetry; exact Hfr|]. by apply Hfree.
  - intros Hq [i other] Hin Hoq.
    apply elem_of_deref in Hin as [Hi Ho].
    pose proof (frame_lookup store store0 i Hfr) as Hl. rewrite Ho in Hl.
    destruct (store0 !! i) as [other0|] eqn:Ho0; [|done].
    assert (Hfo : frame other = frame other0) by (simpl in Hl; congruence).
    assert (Heq : Passenger.state self = Passenger.state self0 ∧
                  Passenger.queue_index self = Passenger.queue_index self0 ∧
                  Passenger.state other = Passenger.state other0 ∧
                  Passenger.queue_index other = Passenger.queue_index other0).
    { change (Passenger.state (frame self) = Passenger.state (frame self0) ∧
              Passenger.queue_index (frame self)
                = Passenger.queue_index (frame self0) ∧
              Passenger.state (frame other) = Passenger.state (frame other0) ∧
              Passenger.queue_index (frame other)
                = Passenger.queue_index (frame other0)).
      by rewrite Hfs, Hfo. }
    destruct Heq as (Hs & Hqi & Hso & Hqo). simpl in *.
    rewrite Hqi, Hqo. apply (Hfirst (eq_trans (eq_sym Hs) Hq) (i, other0)).
    + by apply elem_of_deref.
    + simpl. congruence.
Qed.

Lemma list_argmax {A} (f : A → Z) (l : list A) :
  l ≠ [] → ∃ m, m ∈ l ∧ ∀ v, v ∈ l → f v ≤ f m.
Proof.
  induction l as [|a l IH]; [done|]. intros _.
  destruct l as [|b l].
  - exists a. split; [left|]. intros v Hv.
    apply list_elem_of_singleton in Hv as ->. lia.
  - destruct IH as (m & Hm & Hmax); [done|].
    destruct (decide (f m ≤ f a)) as [Hle|Hgt].
    + exists a. split; [left|]. intros v [->|Hv]%elem_of_cons; [lia|].
      specialize (Hmax v Hv). lia.
    + exists m. split; [by right|]. intros v [->|Hv]%elem_of_cons; [lia|].
      by apply Hmax.
Qed.

Lemma depth_next_cell rows p c :
  local_ok rows p → next_cell rows p = Some c →
  c.1 + Z.abs (c.2 - AISLE_COL) = depth p + 1.
Proof.
  intros (Hsr & Htc & Htc3 & Hbags & Hdelay & Hst).
  unfold next_cell, depth, next_x.
  destruct (Passenger.state p); try done;
    repeat case_bool_decide; intros [= <-]; simpl;
    unfold AISLE_COL, ENTRANCE_ROW in *; lia.
Qed.

Lemma depth_queue rows p :
  local_ok rows p → Passenger.state p ≠ Done →
  (Passenger.state p = Queue ∧ depth p = -1)
  ∨ (Passenger.state p ≠ Queue ∧ 0 ≤ depth p ∧ 0 ≤ Passenger.y p).
Proof.
  intros (Hsr & Htc & Htc3 & Hbags & Hdelay & Hst) Hnd. unfold depth.
  destruct (Passenger.state p); try done;
    [left|right..]; (split; [done|]);
    unfold AISLE_COL, ENTRANCE_ROW in *; lia.
Qed.

(** Among passengers that are not done there is one that nothing holds
    back: the deepest in the plane, or, when all are waiting in front of
    the plane, the first of the queue. Unless it waits in front of the
    plane, nothing holds back those that stand on its cell either. *)
Lemma exists_unblocked rows (ps : list (pref * Passenger.t)) :
  ps ≠ [] →
  (∀ v, v ∈ ps → local_ok rows v.2 ∧ Passenger.state v.2 ≠ Done) →
  ∃ m, m ∈ ps ∧ unblocked rows m.2 ps ∧
       (Passenger.state m.2 ≠ Queue →
        ∀ w, w ∈ ps → pos_of w.2 = pos_of m.2 → unblocked rows w.2 ps).
Proof.
  intros Hne Hall.
  destruct (list_argmax (λ v : pref * Passenger.t, depth v.2) ps Hne)
    as (m1 & Hm1 & Hmax).
  assert (Hdeep : ∀ w, w ∈ ps → depth m1.2 ≤ depth w.2 →
            Passenger.state w.2 ≠ Queue → unblocked rows w.2 ps).
  { intros w Hw Hdw Hwq. split; [|done]. intros c Hc.
    destruct (Hall w Hw) as [Hokw _].
    pose proof (depth_next_cell rows w.2 c Hokw Hc) as Hdc.
    apply find_passenger_at_None. intros v Hv (Hy & Hx & _).
    specialize (Hmax v Hv). simpl in Hmax. unfold depth in Hmax at 1.
    rewrite Hy, Hx in Hmax. lia. }
  destruct (Hall m1 Hm1) as [Hok1 Hnd1].
  destruct (depth_queue rows m1.2 Hok1 Hnd1) as [[Hq1 Hd1]|(Hq1 & Hd1 & _)].
  - (* everybody waits in front of the plane *)
    assert (Hallq : ∀ v, v ∈ ps → Passenger.state v.2 = Queue
                                  ∧ Passenger.y v.2 = ENTRANCE_ROW).
    { intros v Hv. destruct (Hall v Hv) as [Hokv Hndv].
      specialize (Hmax v Hv). simpl in Hmax.
      destruct (depth_queue rows v.2 Hokv Hndv) as [[Hq _]|(_ & ? & _)]; [|lia].
      split; [done|]. destruct Hokv as (_ & _ & _ & _ & _ & Hst).
      rewrite Hq in Hst. tauto. }
    destruct (list_argmax (λ v : pref * Passenger.t,
                             - Passenger.queue_index v.2) ps Hne)
      as (m & Hm & Hmin).
    exists m. destruct (Hallq m Hm) as [Hqm _].
    split_and!; [done| |done].
    split.
    + unfold next_cell. rewrite Hqm. intros c [= <-]. simpl.
      apply find_passenger_at_None. intros v Hv (Hy & _ & _).
      destruct (Hallq v Hv) as [_ Hyv]. unfold ENTRANCE_ROW in Hyv. lia.
    + intros _ other Ho _. specialize (Hmin other Ho). simpl in Hmin. lia.
  - exists m1. split_and!; [done|by apply Hdeep|].
    intros _ w Hw Hpos. apply Hdeep; [done| |].
    + unfold depth. unfold pos_of in Hpos. injection Hpos as -> ->. lia.
    + destruct (Hall w Hw) as [Hokw Hndw].
      destruct (depth_queue rows w.2 Hokw Hndw) as [[Hq Hd]|(Hq & _)]; [|done].
      unfold depth in Hd, Hd1. unfold pos_of in Hpos.
      injection Hpos as Hy Hx. rewrite Hy, Hx in Hd. lia.
Qed.

(** ** Progress: a sub-step, a tick, a boarding *)

(** A sub-step of a boarding returns, keeps the invariant, and leaves no
    passenger with more steps than before. *)
Lemma substep_keeps rows sim moved :
  substep_ok rows sim →
  ∃ b sim' moved',
    do_substep sim moved = Ok (b, sim', moved') ∧
    substep_ok rows sim' ∧
    Simulation.passengers_in_aisle sim' = Simulation.passengers_in_aisle sim ∧
    Simulation.tick_count sim' = Simulation.tick_count sim ∧
    Simulation.final_tick_count sim' = Simulation.final_tick_count sim ∧
    Forall2 (λ p p', steps_left rows p' ≤ steps_left rows p)
      (Simulation.passengers_queue sim) (Simulation.passengers_queue sim').
Proof.
  intros Hok. destruct (decide (candidates sim moved = [])) as [Hc|Hc].
  - exists false, sim, moved. unfold do_substep.
    rewrite bool_decide_eq_true_2 by done. split_and!; [done..|].
    apply Forall2_same_length_lookup_2; [done|].
    intros i p p' Hp Hp'. rewrite Hp in Hp'. injection Hp' as <-. lia.
  - destruct (substep_outcome rows sim moved Hok Hc)
      as (cs & lm & fps & plane2 & store2 & b & store' & moved'
          & Hfp & Hstep & Hpass & Hlen & Hcs & Hkeys & Hfnd & Hprop & Hst).
    eexists _, _, _. split; [exact Hstep|]. simpl.
    split_and!; [|done..|].
    + destruct Hok as (_ & _ & Hnd). pose proof Hpass as (_ & Hbins & _).
      split_and!; simpl; [done| |done].
      exact (outcome_local_ok rows sim cs lm fps plane2 store2 store'
               Hpass Hprop Hst Hlen).
    + exact (outcome_steps_le rows sim cs lm fps plane2 store2 store'
               Hpass Hprop Hst Hlen).
Qed.

Lemma plan_step_queue_moves rows self ps plan :
  local_ok rows self → Passenger.state self = Queue →
  plan_step rows self ps plan → target plan ≠ pos_of self.
Proof.
  intros (_ & _ & _ & _ & _ & Hst) Hs Hstep. rewrite Hs in Hst.
  destruct Hstep; try congruence.
  unfold target, pos_of, ENTRANCE_ROW in *. simpl. intros [= Hy]. lia.
Qed.

(** The first sub-step of a tick, in which every passenger that is not done
    is a candidate: somebody takes a step. *)
Lemma substep_progress rows sim :
  substep_ok rows sim →
  (∀ (i : nat) p, Simulation.passengers_queue sim !! i = Some p →
     (i ∈ Simulation.passengers_in_aisle sim ↔ Passenger.state p ≠ Done)) →
  all_done (Simulation.passengers_queue sim) = false →
  ∃ b sim' moved',
    do_substep sim ∅ = Ok (b, sim', moved') ∧
    total_steps_left rows (Simulation.passengers_queue sim')
      < total_steps_left rows (Simulation.passengers_queue sim).
Proof.
  intros Hok Haisle Hnot. pose proof Hok as (Hbins0 & Hall0 & Hnd).
  set (store0 := Simulation.passengers_queue sim) in *.
  set (aisle := Simulation.passengers_in_aisle sim) in *.
  (* the passengers of the aisle list *)
  assert (Hview : ∀ v, v ∈ deref store0 aisle →
            local_ok rows v.2 ∧ Passenger.state v.2 ≠ Done).
  { intros [i p] [Hi Hp]%elem_of_deref. simpl. split.
    - rewrite Forall_lookup in Hall0. by eapply Hall0.
    - by apply (Haisle i p Hp). }
  assert (Hne : deref store0 aisle ≠ []).
  { unfold all_done in Hnot. apply not_true_iff_false in Hnot.
    intros Hnil. apply Hnot. apply forallb_forall. intros p Hp.
    apply bool_decide_eq_true. apply list_elem_of_In in Hp.
    apply list_elem_of_lookup in Hp as [i Hp].
    destruct (decide (Passenger.state p = Done)) as [|Hs]; [done|].
    apply (Haisle i p Hp) in Hs.
    assert (Hin : (i, p) ∈ deref store0 aisle) by (by apply elem_of_deref).
    rewrite Hnil in Hin. by apply elem_of_nil in Hin. }
  assert (Hcand : ∀ i, i ∈ candidates sim ∅ ↔
                       ∃ p, (i, p) ∈ deref store0 aisle).
  { intros i. rewrite elem_of_candidates. split.
    - intros (Hi & Hlt & _).
      destruct (lookup_lt_is_Some_2 store0 i Hlt) as [p Hp].
      exists p. by apply elem_of_deref.
    - intros [p [Hi Hp]%elem_of_deref]. split_and!; [done| |set_solver].
      by eapply lookup_lt_Some. }
  destruct (exists_unblocked rows (deref store0 aisle) Hne Hview)
    as ([im pm] & Hm & Hunb & Hsame). simpl in Hunb, Hsame.
  assert (Hc : candidates sim ∅ ≠ []).
  { intros Hnil. assert (Hi : im ∈ candidates sim ∅).
    { apply Hcand. by exists pm. }
    rewrite Hnil in Hi. by apply elem_of_nil in Hi. }
  destruct (substep_outcome rows sim ∅ Hok Hc)
    as (cs & lm & fps & plane2 & store2 & b & store' & moved'
        & Hfp & Hstep & Hpass & Hlen & Hcs & Hkeys & Hfnd & Hprop & Hst).
  eexists _, _, _. split; [exact Hstep|]. simpl.
  (* it is enough that one passenger takes a step *)
  cut (∃ (i : nat) p0 p', store0 !! i = Some p0 ∧ store' !! i = Some p' ∧
                          steps_left rows p' < steps_left rows p0).
  { intros (i & p0 & p' & Hp0 & Hp' & Hlt).
    eapply total_steps_left_lt; [|exact Hp0|exact Hp'|exact Hlt].
    exact (outcome_steps_le rows sim cs lm fps plane2 store2 store'
             Hpass Hprop Hst Hlen). }
  assert (Hin_cs : ∀ i p, (i, p) ∈ deref store0 aisle → i ∈ cs).
  { intros i p Hip. apply Hcs, Hcand. by exists p. }
  (* the call of a candidate, with what holds it back read off [store0] *)
  assert (Hcall : ∀ i p0, (i, p0) ∈ deref store0 aisle →
            unblocked rows p0 (deref store0 aisle) →
            ∃ plan self ps,
              dict_find i fps = Some plan ∧ frame self = frame p0 ∧
              local_ok rows self ∧ plan_step rows self ps plan ∧
              (target plan ≠ pos_of p0 →
               next_cell rows p0 = Some (target plan) ∧
               find_passenger_at (target plan).1 (target plan).2
                 (deref store0 aisle) = None)).
  { intros i p0 Hip Hu. pose proof Hip as [Hi Hp0]%elem_of_deref.
    destruct (outcome_call rows sim cs lm fps Hprop i p0 (Hin_cs i p0 Hip) Hp0)
      as (plan & plane_i & store_i & self & plane_i' & self'
          & Hplan & Hfr & Hbins & Hself & Hfs & Hoks & Hpa).
    assert (Hus : unblocked rows self (deref store_i aisle))
      by (by eapply unblocked_frame).
    destruct (unblocked_step rows plane_i self (deref store_i aisle) lm
                (Simulation.tick_count sim) plan plane_i' self' Hoks)
      as [Hps Hnext]; [|done|by destruct Hbins|exact Hpa|].
    { change (Passenger.state (frame self) ≠ Done). rewrite Hfs.
      by destruct (Hview _ Hip). }
    exists plan, self, (deref store_i aisle). split_and!; [done..|].
    assert (Hpos : pos_of self = pos_of p0 ∧
                   next_cell rows self = next_cell rows p0).
    { change (pos_of (frame self) = pos_of (frame p0) ∧
              next_cell rows (frame self) = next_cell rows (frame p0)).
      by rewrite Hfs. }
    destruct Hpos as [Hpos Hnc]. intros Hmv. rewrite <-Hpos in Hmv.
    specialize (Hnext Hmv). rewrite <-Hnc. split; [done|].
    destruct Hu as [Hfree _]. apply (Hfree (target plan)). congruence. }
  destruct (Hcall im pm Hm Hunb)
    as (planm & selfm & psm & Hplanm & Hfm & Hokm & Hstepm & Hmovem).
  pose proof Hm as [Him Hpm]%elem_of_deref.
  (* the winner of the cell the passenger asks for *)
  assert (Hcm : im ∈ contenders (target planm) fps)
    by (apply contenders_find; [done|]; by exists planm).
  destruct (sorted_by_head (qidx store2) (contenders (target planm) fps))
    as (w & rest & Hsrt & Hw & _); [by intros Hnil; rewrite Hnil in Hcm;
                                      apply elem_of_nil in Hcm|].
  assert (Hwin : winner_of store2 (contenders (target planm) fps) = Some w)
    by (unfold winner_of; by rewrite Hsrt).
  destruct (decide (w = im)) as [->|Hwm].
  { destruct (outcome_winner_steps rows sim cs fps plane2 store2 store' Hpass
                Hst im pm planm selfm psm Hpm (Hin_cs _ _ Hm) Hplanm Hwin
                Hfm Hokm Hstepm) as (p' & Hp' & Hlt).
    by exists im, pm, p'. }
  apply contenders_find in Hw as (planw & Hplanw & Htw); [|done].
  assert (Hwcs : w ∈ cs).
  { rewrite <-Hkeys. apply dict_find_is_Some. by eexists. }
  destruct (proj1 (Hcand w) (proj1 (Hcs w) Hwcs)) as [pw Hwin_view].
  pose proof Hwin_view as [Hwa Hpw]%elem_of_deref.
  rewrite <-Htw in Hwin.
  (* the winner takes a step as soon as its plan is one *)
  assert (Hdone : ∀ selfw psw, frame selfw = frame pw → local_ok rows selfw →
            plan_step rows selfw psw planw →
            ∃ (i : nat) p0 p', store0 !! i = Some p0 ∧ store' !! i = Some p' ∧
                               steps_left rows p' < steps_left rows p0).
  { intros selfw psw Hfw Hokw Hstepw.
    destruct (outcome_winner_steps rows sim cs fps plane2 store2 store' Hpass
                Hst w pw planw selfw psw Hpw Hwcs Hplanw Hwin Hfw Hokw Hstepw)
      as (p' & Hp' & Hlt).
    by exists w, pw, p'. }
  destruct (decide (target planm = pos_of pm)) as [Hstay|Hgo].
  - (* the passenger keeps its cell: it is not in front of the plane *)
    assert (Hnq : Passenger.state pm ≠ Queue).
    { intros Hq. apply (plan_step_queue_moves rows selfm psm planm Hokm);
        [|done|].
      - change (Passenger.state (frame selfm) = Queue). by rewrite Hfm.
      - change (target planm = pos_of (frame selfm)). by rewrite Hfm. }
    destruct (decide (target planw = pos_of pw)) as [Hwstay|Hwgo].
    + (* the winner stands on the same cell: nothing holds it back *)
      assert (Huw : unblocked rows pw (deref store0 aisle)).
      { apply (Hsame Hnq (w, pw) Hwin_view). simpl. congruence. }
      destruct (Hcall w pw Hwin_view Huw)
        as (planw' & selfw & psw & Hplanw' & Hfw & Hokw & Hstepw & _).
      rewrite Hplanw in Hplanw'. injection Hplanw' as <-.
      by eapply Hdone.
    + (* the winner enters the cell *)
      destruct (outcome_call rows sim cs lm fps Hprop w pw Hwcs Hpw)
        as (planw' & plane_w & store_w & selfw & plane_w' & selfw'
            & Hplanw' & _ & (Hrw & _) & _ & Hfw & Hokw & Hpa).
      rewrite Hplanw in Hplanw'. injection Hplanw' as <-.
      destruct (propose_action_step _ _ _ _ _ _ _ _ Hpa) as [Hhold|Hstepw];
        [|rewrite Hrw in Hstepw].
      * exfalso. apply Hwgo. rewrite Hhold.
        change (pos_of (frame selfw) = pos_of (frame pw)). by rewrite Hfw.
      * by eapply Hdone.
  - (* the passenger asks for its next cell, on which nobody is reported *)
    destruct (Hmovem Hgo) as [_ Hnone].
    destruct (outcome_call rows sim cs lm fps Hprop w pw Hwcs Hpw)
      as (planw' & plane_w & store_w & selfw & plane_w' & selfw'
          & Hplanw' & _ & (Hrw & _) & _ & Hfw & Hokw & Hpa).
    rewrite Hplanw in Hplanw'. injection Hplanw' as <-.
    destruct (propose_action_step _ _ _ _ _ _ _ _ Hpa) as [Hhold|Hstepw];
      [|rewrite Hrw in Hstepw; by eapply Hdone].
    exfalso.
    assert (Hwpos : pos_of pw = target planm).
    { rewrite <-Htw, Hhold.
      change (pos_of (frame pw) = pos_of (frame selfw)). by rewrite Hfw. }
    rewrite find_passenger_at_None in Hnone.
    apply (Hnone (w, pw) Hwin_view). unfold visible_at.
    rewrite <-Hwpos. simpl.
    split_and!; [done..|]. left. by destruct (Hview _ Hwin_view).
Qed.

Lemma join_aisle_fold (l : list (pref * Passenger.t)) : ∀ acc : list pref,
  NoDup acc →
  NoDup (foldl (λ (acc : list pref) (ip : pref * Passenger.t),
                  if bool_decide (Passenger.state ip.2 ≠ Done)
                     && bool_decide (ip.1 ∉ acc)
                  then acc ++ [ip.1] else acc) acc l) ∧
  ∀ i, i ∈ foldl (λ (acc : list pref) (ip : pref * Passenger.t),
                    if bool_decide (Passenger.state ip.2 ≠ Done)
                       && bool_decide (ip.1 ∉ acc)
                    then acc ++ [ip.1] else acc) acc l
       ↔ i ∈ acc ∨ ∃ p, (i, p) ∈ l ∧ Passenger.state p ≠ Done.
Proof.
  induction l as [|[j q] l IH]; intros acc Hnd; simpl.
  - split; [done|]. intros i. split; [by left|].
    intros [?|(p & Hp & _)]; [done|]. by apply elem_of_nil in Hp.
  - destruct (decide (Passenger.state q ≠ Done ∧ j ∉ acc)) as [[Hq Hj]|Hno].
    + rewrite !bool_decide_eq_true_2 by done. simpl.
      destruct (IH (acc ++ [j])) as [Hnd' Hin].
      { apply NoDup_app. split_and!; [done| |apply NoDup_singleton].
        intros k Hk Hk'. apply list_elem_of_singleton in Hk'. by subst. }
      split; [done|]. intros i.
      rewrite Hin, elem_of_app, list_elem_of_singleton. split.
      * intros [[?| ->]|(p & Hp & Hs)]; [by left| |].
        -- right. exists q. split; [left|done].
        -- right. exists p. split; [by right|done].
      * intros [?|(p & Hp & Hs)]; [left; by left|].
        apply elem_of_cons in Hp as [[= -> ->]|Hp]; [left; by right|].
        right. by exists p.
    + assert (Hb : bool_decide (Passenger.state q ≠ Done)
                   && bool_decide (j ∉ acc) = false).
      { apply andb_false_iff.
        destruct (decide (Passenger.state q ≠ Done)) as [Hq|Hq].
        - right. apply bool_decide_eq_false_2. tauto.
        - left. by apply bool_decide_eq_false_2. }
      rewrite Hb. destruct (IH acc Hnd) as [Hnd' Hin]. split; [done|].
      intros i. rewrite Hin. split.
      * intros [?|(p & Hp & Hs)]; [by left|]. right. exists p.
        split; [by right|done].
      * intros [?|(p & Hp & Hs)]; [by left|].
        apply elem_of_cons in Hp as [[= -> ->]|Hp]; [|right; by exists p].
        left. apply dec_stable. tauto.
Qed.

Lemma join_aisle_spec (store : list Passenger.t) (aisle : list pref) :
  NoDup aisle →
  NoDup (join_aisle store aisle) ∧
  ∀ i, i ∈ join_aisle store aisle
       ↔ i ∈ aisle ∨ ∃ p, store !! i = Some p ∧ Passenger.state p ≠ Done.
Proof.
  intros Hnd. unfold join_aisle.
  destruct (join_aisle_fold (imap (λ i p, (i, p)) store) aisle Hnd)
    as [Hnd' Hin].
  split; [done|]. intros i. rewrite Hin.
  split; (intros [?|(p & Hp & Hs)]; [by left|right; exists p; split; [|done]]).
  - apply elem_of_lookup_imap in Hp as (k & p' & [= -> ->] & Hk). done.
  - apply elem_of_lookup_imap. by exists i, p.
Qed.

Lemma run_substeps_S n sim moved :
  run_substeps (S n) sim moved
  = '(any_move, sim', moved') ←! do_substep sim moved;
    if any_move : bool then run_substeps n sim' moved' else Ok sim'.
Proof. done. Qed.

(** The sub-steps of a tick return, keep the invariant and raise no count of
    steps. *)
Lemma run_substeps_keeps rows n : ∀ sim moved,
  substep_ok rows sim →
  ∃ sim', run_substeps n sim moved = Ok sim' ∧ substep_ok rows sim' ∧
    Simulation.passengers_in_aisle sim' = Simulation.passengers_in_aisle sim ∧
    length (Simulation.passengers_queue sim')
      = length (Simulation.passengers_queue sim) ∧
    total_steps_left rows (Simulation.passengers_queue sim')
      ≤ total_steps_left rows (Simulation.passengers_queue sim).
Proof.
  induction n as [|n IH]; intros sim moved Hok.
  - exists sim. split_and!; [done..|lia].
  - rewrite run_substeps_S.
    destruct (substep_keeps rows sim moved Hok)
      as (b & sim1 & moved1 & -> & Hok1 & Ha1 & _ & _ & Hle1). cbn [rbind].
    pose proof (Forall2_length _ _ _ Hle1) as Hlen1.
    apply total_steps_left_le in Hle1.
    destruct b.
    + destruct (IH sim1 moved1 Hok1) as (sim' & -> & Hok' & Ha' & Hlen' & Hle').
      exists sim'. split_and!; [done..|congruence|congruence|lia].
    + exists sim1. split_and!; [done..|congruence|lia].
Qed.

(** A tick of a boarding: it returns, keeps the invariant, and as long as
    somebody is not done the count of steps goes down. *)
Lemma tick_progress rows sim :
  tick_ok rows sim →
  ∃ sim', update_in_parallel sim = Ok sim' ∧ tick_ok rows sim' ∧
    (all_done (Simulation.passengers_queue sim) = false →
     total_steps_left rows (Simulation.passengers_queue sim')
       < total_steps_left rows (Simulation.passengers_queue sim)).
Proof.
  intros [Hok Haisle]. pose proof Hok as (Hbins & Hall & Hnd).
  unfold update_in_parallel.
  set (store := Simulation.passengers_queue sim) in *.
  set (aisle1 := join_aisle store (Simulation.passengers_in_aisle sim)).
  set (sim1 := Simulation.mk _ store aisle1 _ _).
  destruct (join_aisle_spec store (Simulation.passengers_in_aisle sim) Hnd)
    as [Hnd1 Hin1]. fold aisle1 in Hnd1, Hin1.
  assert (Hok1 : substep_ok rows sim1) by done.
  assert (Hexact : ∀ (i : nat) p, store !! i = Some p →
            (i ∈ aisle1 ↔ Passenger.state p ≠ Done)).
  { intros i p Hp. rewrite Hin1. split.
    - intros [Hi|(p' & Hp' & Hs)]; [|congruence].
      destruct (Haisle i Hi) as (p' & Hp' & Hs). fold store in Hp'. congruence.
    - intros Hs. right. by exists p. }
  assert (Hvalid : ∀ i, i ∈ aisle1 → (i < length store)%nat).
  { intros i [Hi|(p & Hp & _)]%Hin1; [|by eapply lookup_lt_Some].
    destruct (Haisle i Hi) as (p & Hp & _). by eapply lookup_lt_Some. }
  (* the sub-steps *)
  assert (Hrun : ∃ sim2, run_substeps max_substeps sim1 ∅ = Ok sim2 ∧
            substep_ok rows sim2 ∧
            Simulation.passengers_in_aisle sim2 = aisle1 ∧
            length (Simulation.passengers_queue sim2) = length store ∧
            (all_done store = false →
             total_steps_left rows (Simulation.passengers_queue sim2)
               < total_steps_left rows store)).
  { destruct (all_done store) eqn:Hdone.
    - destruct (run_substeps_keeps rows max_substeps sim1 ∅ Hok1)
        as (sim2 & Hrun & Hok2 & Ha2 & Hlen2 & _).
      exists sim2. by split_and!.
    - destruct (substep_progress rows sim1 Hok1 Hexact Hdone)
        as (b & sim' & moved' & Hstep & Hlt).
      destruct (substep_keeps rows sim1 ∅ Hok1)
        as (b0 & sim0 & moved0 & Hstep0 & Hok' & Ha' & _ & _ & Hle').
      rewrite Hstep in Hstep0. injection Hstep0 as <- <- <-.
      pose proof (Forall2_length _ _ _ Hle') as Hlen'.
      change max_substeps with (S 9). rewrite run_substeps_S, Hstep.
      cbn [rbind].
      destruct b.
      + destruct (run_substeps_keeps rows 9 sim' moved' Hok')
          as (sim2 & -> & Hok2 & Ha2 & Hlen2 & Hle2).
        exists sim2.
        split_and!; [done|done|by rewrite Ha2, Ha'|by rewrite Hlen2, <-Hlen'|].
        intros _. simpl in Hlt. lia.
      + exists sim'. split_and!; [done|done|done|by rewrite <-Hlen'|].
        intros _. exact Hlt. }
  destruct Hrun as (sim2 & -> & Hok2 & Ha2 & Hlen2 & Hlt). simpl.
  eexists. split; [done|]. simpl. split; [|exact Hlt].
  destruct Hok2 as (Hbins2 & Hall2 & Hnd2).
  split; [split_and!; simpl; [done..|by apply NoDup_filter]|]. simpl.
  intros i [Hs Hi]%list_elem_of_filter. rewrite Ha2 in Hi.
  destruct (lookup_lt_is_Some_2 (Simulation.passengers_queue sim2) i)
    as [p Hp]; [rewrite Hlen2; by apply Hvalid|].
  exists p. split; [done|]. unfold qstate in Hs. rewrite Hp in Hs.
  simpl in Hs. congruence.
Qed.

(** A boarding is done within as many ticks as steps are left. *)
Lemma run_ticks_terminates rows (k : nat) : ∀ sim,
  tick_ok rows sim →
  total_steps_left rows (Simulation.passengers_queue sim) ≤ Z.of_nat k →
  ∃ (n : nat) sim', (n ≤ k)%nat ∧ run_ticks n sim = Ok sim' ∧
    tick_ok rows sim' ∧
    all_done (Simulation.passengers_queue sim') = true.
Proof.
  induction k as [|k IH]; intros sim Hok Hle.
  - exists 0%nat, sim. split_and!; [done..|].
    destruct Hok as [(_ & Hall & _) _].
    by apply (total_steps_left_zero rows).
  - destruct (all_done (Simulation.passengers_queue sim)) eqn:Hdone.
    + exists 0%nat, sim. split_and!; [lia|done..].
    + destruct (tick_progress rows sim Hok) as (sim1 & Htick & Hok1 & Hlt).
      specialize (Hlt Hdone).
      destruct (IH sim1 Hok1) as (n & sim' & Hn & Hrun & Hok' & Hdone');
        [lia|].
      exists (S n), sim'. split_and!; [lia| |done..].
      simpl. rewrite Htick. simpl. exact Hrun.
Qed.

(** ** The boarding methods hand out seats of the plane *)

Lemma letter_to_col_letters l :
  l ∈ letters →
  ∃ c, letter_to_col l = Ok c ∧ 0 ≤ c ≤ 6 ∧ c ≠ AISLE_COL.
Proof.
  unfold letters. rewrite !elem_of_cons, elem_of_nil.
  intros [->|[->|[->|[->|[->|[->|[]]]]]]];
    (eexists; split; [reflexivity|unfold AISLE_COL; lia]).
Qed.

Lemma Passenger_init_local rows s bags i :
  seat_ok rows s →
  ∃ p, Passenger_init s.1 s.2 bags i false = Ok p ∧ local_ok rows p.
Proof.
  intros [Hr Hl]. destruct (letter_to_col_letters _ Hl) as (c & Hc & Hc1 & Hc2).
  unfold Passenger_init. rewrite Hc. simpl. eexists; split; [done|].
  unfold local_ok; simpl. split_and!; try done; lia.
Qed.

Lemma board_spec (R : Random) rows seats : ∀ (g : rng R) i,
  Forall (seat_ok rows) seats →
  ∃ ps g', board R g i seats = Ok (ps, g') ∧
    length ps = length seats ∧ Forall (local_ok rows) ps.
Proof.
  induction seats as [|s seats IH]; intros g i Hs.
  - exists [], g. by split_and!.
  - apply Forall_cons in Hs as [Hs Hss].
    destruct (Passenger_init_local rows s (random_randint R g 1 MAX_BAGS).1 i Hs)
      as (p & Hp & Hok).
    destruct (IH (random_randint R g 1 MAX_BAGS).2 (i + 1) Hss)
      as (ps & g' & Hb & Hlen & Hps).
    exists (p :: ps), g'. cbn [board]. rewrite Hp. cbn [rbind]. rewrite Hb.
    split_and!; [done|by simpl; rewrite Hlen|by constructor].
Qed.

Lemma py_slice_to_Forall {A} (P : A → Prop) l n :
  Forall P l → Forall P (py_slice_to l n).
Proof. unfold py_slice_to. case_bool_decide; apply Forall_take. Qed.

Lemma py_slice_to_length {A} (l : list A) n :
  0 ≤ n → (length (py_slice_to l n) ≤ Z.to_nat n)%nat.
Proof.
  intros Hn. unfold py_slice_to. rewrite bool_decide_eq_true_2 by done.
  rewrite length_take. lia.
Qed.

Lemma py_range_ok rows : Forall (row_ok rows) (py_range rows).
Proof.
  apply Forall_forall. intros r Hr. apply elem_of_seqZ in Hr.
  unfold row_ok. lia.
Qed.

Lemma py_range_down_ok rows : Forall (row_ok rows) (py_range_down rows).
Proof. apply Forall_reverse, py_range_ok. Qed.

Lemma row_seats_ok rows ls r :
  row_ok rows r → ls ⊆ letters → Forall (seat_ok rows) (row_seats ls r).
Proof.
  intros Hr Hls. unfold row_seats. apply Forall_fmap, Forall_forall.
  intros l Hl. split; [exact Hr|]. simpl. by apply Hls.
Qed.

Lemma rows_seats_ok rows ls rs :
  ls ⊆ letters → Forall (row_ok rows) rs →
  Forall (seat_ok rows) (concat (row_seats ls <$> rs)).
Proof.
  intros Hls. induction 1 as [|r rs Hr _ IH]; simpl; [constructor|].
  apply Forall_app. split; [by apply row_seats_ok|exact IH].
Qed.

Section Generators.
Context (R : Random) (HR : RandomOk R).

Lemma shuffle_Forall {A} (P : A → Prop) (g : rng R) l :
  Forall P l → Forall P (random_shuffle R g l).1.
Proof. intros H. by rewrite (shuffle_ok R HR). Qed.

Lemma shuffle_subseteq {A} (g : rng R) (l k : list A) :
  l ⊆ k → (random_shuffle R g l).1 ⊆ k.
Proof. intros H x Hx. apply H. by rewrite (shuffle_ok R HR) in Hx. Qed.

Lemma shuffled_rows_ok rows ls rs : ∀ g : rng R,
  ls ⊆ letters → Forall (row_ok rows) rs →
  Forall (seat_ok rows) (shuffled_rows R g rs ls).1.
Proof.
  intros g Hls Hrs. revert g.
  induction Hrs as [|r rs Hr _ IH]; intros g; simpl; [constructor|].
  apply Forall_app. split; [|apply IH].
  apply row_seats_ok; [done|by apply shuffle_subseteq].
Qed.

Lemma build_group_seats_ok rows fuel : ∀ (g : rng R) row left_first,
  row < rows →
  Forall (seat_ok rows) (build_group_seats R fuel g row left_first).1.
Proof.
  induction fuel as [|fuel IH]; intros g row left_first Hrow; simpl;
    [constructor|].
  case_bool_decide; [|constructor]. simpl.
  apply Forall_app. split; [|apply IH; lia].
  apply row_seats_ok; [unfold row_ok; lia|].
  apply shuffle_subseteq. unfold letters.
  destruct left_first; intros l; rewrite !elem_of_cons, !elem_of_nil; tauto.
Qed.

(** The loop of [build_group_seats] ends by its own test: more runs than
    [row + 1] change nothing. *)
Lemma build_group_seats_fuel fuel : ∀ (g : rng R) row left_first fuel',
  row + 1 ≤ Z.of_nat fuel → row + 1 ≤ Z.of_nat fuel' →
  build_group_seats R fuel g row left_first
  = build_group_seats R fuel' g row left_first.
Proof.
  induction fuel as [|fuel IH]; intros g row left_first fuel' H1 H2.
  - destruct fuel' as [|fuel']; [done|]. simpl.
    by rewrite bool_decide_eq_false_2 by lia.
  - destruct fuel' as [|fuel']; simpl.
    + by rewrite bool_decide_eq_false_2 by lia.
    + case_bool_decide; [|done].
      by rewrite (IH _ (row - 2) (negb left_first) fuel') by lia.
Qed.

Lemma generate_boarding_spec method (g : rng R) rows n :
  0 ≤ n →
  ∃ base g1,
    generate_boarding R method g (Plane_init rows) n = Ok (base, g1) ∧
    (length base ≤ Z.to_nat n)%nat ∧ Forall (local_ok rows) base.
Proof.
  intros Hn.
  assert (Hboard : ∀ (g' : rng R) seats,
    Forall (seat_ok rows) seats →
    ∃ base g1, board R g' 0 (py_slice_to seats n) = Ok (base, g1) ∧
      (length base ≤ Z.to_nat n)%nat ∧ Forall (local_ok rows) base).
  { intros g' seats Hs.
    destruct (board_spec R rows (py_slice_to seats n) g' 0) as (ps & g1 & Hb & Hl & Hps);
      [by apply py_slice_to_Forall|].
    exists ps, g1. split_and!; [done| |done].
    rewrite Hl. by apply py_slice_to_length. }
  unfold generate_boarding.
  repeat case_bool_decide.
  - unfold generate_boarding_0_random, generate_unique_seats.
    cbn [fst snd Plane_init num_rows]. apply Hboard.
    apply shuffle_Forall. apply rows_seats_ok; [done|apply py_range_ok].
  - unfold generate_boarding_1_back_to_front. cbn [Plane_init num_rows].
    apply Hboard. apply shuffled_rows_ok; [done|apply py_range_down_ok].
  - unfold generate_boarding_2_back_to_front_window_to_aisle.
    cbn [Plane_init num_rows]. apply Hboard.
    apply rows_seats_ok; [|apply py_range_down_ok].
    unfold letters. intros l; rewrite !elem_of_cons, !elem_of_nil; tauto.
  - unfold generate_boarding_3_skip_rows. cbn [Plane_init num_rows].
    apply Hboard. apply Forall_app.
    split; (apply shuffled_rows_ok; [done|]);
      apply Forall_forall; intros r [_ Hr]%list_elem_of_filter;
      revert r Hr; apply Forall_forall, py_range_down_ok.
  - unfold generate_boarding_4_zones. cbn [Plane_init num_rows].
    assert (Hrows : Forall (row_ok rows) (sorted_by Z.opp (py_range rows))).
    { rewrite sorted_by_perm. apply py_range_ok. }
    apply Hboard. rewrite !Forall_app.
    split_and!; apply shuffle_Forall; (apply rows_seats_ok; [done|]).
    + by apply Forall_take.
    + by apply Forall_drop, Forall_take.
    + by apply Forall_drop.
  - unfold generate_boarding_5_4groups. cbn [Plane_init num_rows].
    apply Hboard. rewrite !Forall_app.
    split_and!; apply build_group_seats_ok; lia.
Qed.
End Generators.

(** ** Late arrivals keep the passengers as they are *)

Lemma local_ok_set_is_late rows p b :
  local_ok rows p → local_ok rows (Passenger.set_is_late p b).
Proof. by destruct p. Qed.

Lemma local_ok_set_queue_index rows p i :
  local_ok rows p → local_ok rows (Passenger.set_queue_index p i).
Proof. by destruct p. Qed.

Lemma mark_late_Forall rows late_indices : ∀ ps marked,
  mark_late late_indices ps = Ok marked →
  Forall (local_ok rows) ps → Forall (local_ok rows) marked.
Proof.
  induction late_indices as [|i l IH]; intros ps marked; simpl.
  - by intros [= <-].
  - destruct (ps !! i) as [p|] eqn:Hp; [|done]. intros H Hps.
    apply (IH _ _ H). apply Forall_insert; [done|].
    apply local_ok_set_is_late. by eapply Forall_lookup_1.
Qed.

Lemma mark_late_total late_indices : ∀ ps,
  Forall (λ i, (i < length ps)%nat) late_indices →
  ∃ marked, mark_late late_indices ps = Ok marked.
Proof.
  induction late_indices as [|i l IH]; intros ps Hl; simpl; [by eexists|].
  apply Forall_cons in Hl as [Hi Hl].
  destruct (lookup_lt_is_Some_2 ps i Hi) as [p ->].
  apply IH. by rewrite length_insert.
Qed.

Lemma renumber_Forall rows l :
  Forall (local_ok rows) l → Forall (local_ok rows) (renumber l).
Proof.
  intros Hl. apply Forall_lookup. intros i p. rewrite renumber_lookup.
  intros (q & Hq & ->)%fmap_Some. apply local_ok_set_queue_index.
  by eapply Forall_lookup_1.
Qed.

Lemma length_renumber l : length (renumber l) = length l.
Proof. apply length_imap. Qed.

Lemma filter_Forall {A} (P Q : A → Prop) `{!∀ x, Decision (Q x)} l :
  Forall P l → Forall P (filter Q l).
Proof.
  rewrite !Forall_forall. intros HP x [_ Hx]%list_elem_of_filter. by apply HP.
Qed.

Lemma length_filter_is_late (l : list Passenger.t) :
  (length (filter (λ p, Passenger.is_late p = false) l)
   + length (filter (λ p, Passenger.is_late p = true) l))%nat = length l.
Proof.
  induction l as [|p l IH]; [done|]. rewrite !filter_cons.
  destruct (Passenger.is_late p); repeat case_decide; try done; simpl; lia.
Qed.

Lemma late_count_of_le n late_percent :
  late_percent ≤ 100 → late_count_of n late_percent ≤ Z.of_nat n.
Proof.
  intros H. unfold late_count_of.
  rewrite <- (Z.quot_mul (Z.of_nat n) 100) at 2 by done.
  apply Z.quot_le_mono; [lia|nia].
Qed.

Section LateKeeps.
Context (R : Random) (HR : RandomOk R).

Lemma apply_late_arrivals_keeps rows fuel (g : rng R) base late_percent
    late_immediate queue g2 :
  apply_late_arrivals R fuel g base late_percent late_immediate
    = Ok (queue, g2) →
  Forall (local_ok rows) base →
  Forall (local_ok rows) queue ∧ length queue = length base.
Proof.
  unfold apply_late_arrivals. intros Hlate Hbase.
  case_bool_decide; [by simplify_eq|].
  case_bool_decide; [done|].
  destruct (mark_late _ base) as [marked|] eqn:Hmark; [|done].
  pose proof (mark_late_Forall rows _ _ _ Hmark Hbase) as Hmarked.
  pose proof (mark_late_length _ _ _ Hmark) as Hlen.
  cbn [rbind] in Hlate. destruct late_immediate; cbn [negb] in Hlate.
  - destruct (assign_delays _ _ _ _ _ _) as [[arr g']|] eqn:Harr; [|done].
    cbn [rbind] in Hlate. injection Hlate as <- <-.
    apply (assign_delays_spec R HR) in Harr as (Harr & _); [|lia].
    split.
    + apply renumber_Forall. by rewrite sorted_by_perm, Harr.
    + by rewrite length_renumber, length_fmap, length_sorted_by,
        <- (length_fmap snd), Harr.
  - injection Hlate as <- <-. split.
    + apply renumber_Forall, Forall_app. split.
      * by apply filter_Forall.
      * rewrite (shuffle_ok R HR). by apply filter_Forall.
    + rewrite length_renumber, length_app, (shuffle_ok R HR).
      by rewrite length_filter_is_late.
Qed.

(** Without the offsets of the immediate mode, [apply_late_arrivals]
    returns for every percentage up to 100. *)
Lemma apply_late_arrivals_deferred_total fuel (g : rng R) base late_percent :
  late_percent ≤ 100 →
  is_ok (apply_late_arrivals R fuel g base late_percent false).
Proof.
  intros Hp. unfold apply_late_arrivals.
  pose proof (late_count_of_le (length base) late_percent Hp) as Hle.
  case_bool_decide; [by eexists|].
  rewrite bool_decide_eq_false_2 by lia.
  destruct (sample_ok R HR g (seq 0 (length base))
              (Z.to_nat (late_count_of (length base) late_percent)))
    as (_ & _ & Hsub); [rewrite length_seq; lia|apply NoDup_seq|].
  destruct (mark_late_total
              (random_sample R g (seq 0 (length base))
                 (Z.to_nat (late_count_of (length base) late_percent))).1 base)
    as [marked ->]; [|by eexists].
  apply Forall_forall. intros i Hi. apply Hsub, elem_of_seq in Hi. lia.
Qed.
End LateKeeps.

Lemma tick_ok_init rows queue :
  Forall (local_ok rows) queue → tick_ok rows (Simulation_init rows queue).
Proof.
  intros Hq. unfold tick_ok, substep_ok, Simulation_init. simpl.
  split_and!; [apply bins_ok_init|done|apply NoDup_nil_2|].
  intros i Hi. by apply elem_of_nil in Hi.
Qed.

(** * Further properties of the code *)

(** ** Seat letters *)

Lemma letter_to_col_cases (l : ascii) :
  (l = "A"%char ∧ letter_to_col l = Ok 0) ∨
  (l = "B"%char ∧ letter_to_col l = Ok 1) ∨
  (l = "C"%char ∧ letter_to_col l = Ok 2) ∨
  (l = "D"%char ∧ letter_to_col l = Ok 4) ∨
  (l = "E"%char ∧ letter_to_col l = Ok 5) ∨
  (l = "F"%char ∧ letter_to_col l = Ok 6) ∨
  ((l ∉ letters) ∧ letter_to_col l = Raise KeyError).
Proof.
  unfold letter_to_col.
  destruct (Ascii.eqb_spec l "A") as [->|HA]; [tauto|].
  destruct (Ascii.eqb_spec l "B") as [->|HB]; [tauto|].
  destruct (Ascii.eqb_spec l "C") as [->|HC]; [tauto|].
  destruct (Ascii.eqb_spec l "D") as [->|HD]; [tauto|].
  destruct (Ascii.eqb_spec l "E") as [->|HE]; [tauto|].
  destruct (Ascii.eqb_spec l "F") as [->|HF]; [tauto|].
  do 6 right. split; [|done].
  unfold letters. rewrite !elem_of_cons, elem_of_nil. tauto.
Qed.

Lemma letter_to_col_inj l l' c :
  letter_to_col l = Ok c → letter_to_col l' = Ok c → l' = l.
Proof.
  intros Hl Hl'.
  destruct (letter_to_col_cases l)
    as [[-> H]|[[-> H]|[[-> H]|[[-> H]|[[-> H]|[[-> H]|[_ H]]]]]]];
    rewrite H in Hl; try discriminate Hl; injection Hl as <-;
    destruct (letter_to_col_cases l')
      as [[-> H']|[[-> H']|[[-> H']|[[-> H']|[[-> H']|[[-> H']|[_ H']]]]]]];
    rewrite H' in Hl'; try discriminate Hl'; reflexivity.
Qed.

(** X1. [letter_to_col] answers for the six seat letters and for nothing
    else (any other character raises [KeyError]); the answer is a column of
    the plane other than the aisle, and two letters never share a column. *)
Theorem letter_to_col_columns (l l' : ascii) :
  (l ∈ letters ↔ is_ok (letter_to_col l)) ∧
  (l ∉ letters → letter_to_col l = Raise KeyError) ∧
  (∀ c, letter_to_col l = Ok c →
        0 ≤ c < COLS ∧ c ≠ AISLE_COL ∧ (letter_to_col l' = Ok c → l' = l)).
Proof.
  split_and!.
  - split.
    + intros Hl. destruct (letter_to_col_letters l Hl) as (c & Hc & _).
      by exists c.
    + intros [c Hc].
      destruct (letter_to_col_cases l)
        as [[-> _]|[[-> _]|[[-> _]|[[-> _]|[[-> _]|[[-> _]|[_ H]]]]]]];
        try (unfold letters; rewrite !elem_of_cons; tauto).
      rewrite H in Hc. discriminate Hc.
  - intros Hl.
    destruct (letter_to_col_cases l)
      as [[-> _]|[[-> _]|[[-> _]|[[-> _]|[[-> _]|[[-> _]|[_ H]]]]]]];
      try (exfalso; apply Hl; unfold letters; rewrite !elem_of_cons; tauto).
    exact H.
  - intros c Hc. split; [|split].
    + destruct (letter_to_col_cases l)
        as [[-> H]|[[-> H]|[[-> H]|[[-> H]|[[-> H]|[[-> H]|[_ H]]]]]]];
        rewrite H in Hc; try discriminate Hc; injection Hc as <-;
        unfold COLS; lia.
    + destruct (letter_to_col_cases l)
        as [[-> H]|[[-> H]|[[-> H]|[[-> H]|[[-> H]|[[-> H]|[_ H]]]]]]];
        rewrite H in Hc; try discriminate Hc; injection Hc as <-;
        unfold AISLE_COL; lia.
    + intros Hc'. by eapply letter_to_col_inj.
Qed.

(** ** The row index of the bins *)

Lemma sum_non_aisle_out_of_range ov row :
  py_norm ov row = None →
  sum_non_aisle ov row (seqZ 0 COLS) = Raise IndexError.
Proof.
  intros Hn. change (seqZ 0 COLS) with [0; 1; 2; 3; 4; 5; 6].
  cbn [sum_non_aisle]. rewrite bool_decide_eq_true_2 by (unfold AISLE_COL; lia).
  unfold py_get. by rewrite Hn.
Qed.

Lemma py_norm_None {A} (l : list A) (i : Z) :
  ¬ (- Z.of_nat (length l) ≤ i < Z.of_nat (length l)) → py_norm l i = None.
Proof.
  intros Hi. unfold py_norm.
  rewrite !bool_decide_eq_false_2 by lia. done.
Qed.

Lemma total_in_row_row_of n pl row :
  bins_ok n pl → - n ≤ row < n →
  total_in_row pl row = total_in_row pl (row_of n row).
Proof.
  intros Hok Hrow.
  destruct (bins_ok_norm n pl row Hok Hrow) as [Hnorm Hr].
  destruct (bins_ok_row n pl (row_of n row) Hok Hr)
    as (a & b & c & d & e & f & g & Hlook & _).
  unfold total_in_row.
  rewrite (sum_non_aisle_row _ _ _ a b c d e f g Hnorm Hlook).
  symmetry.
  apply (sum_non_aisle_row _ _ (Z.to_nat (row_of n row)) a b c d e f g);
    [|done].
  destruct Hok as (_ & Hlen & _). apply py_norm_nonneg. lia.
Qed.

(** X2. The row argument of [can_stow_bag] is a Python list index: outside
    [-num_rows, num_rows) the call raises [IndexError]; inside, a negative
    row counts from the last row, and the answer says whether the bags on
    top of the row's total stay within six bins of two. *)
Theorem can_stow_bag_row_index (n : Z) (pl : Plane) (row bags : Z) :
  bins_ok n pl →
  (- n ≤ row < n →
     ∃ t, total_in_row pl (row_of n row) = Ok t ∧
          0 ≤ t ≤ 6 * OVERHEAD_BIN_CAPACITY ∧
          can_stow_bag pl row bags
            = Ok (bool_decide (t + bags ≤ 6 * OVERHEAD_BIN_CAPACITY))) ∧
  (¬ (- n ≤ row < n) → can_stow_bag pl row bags = Raise IndexError).
Proof.
  intros Hok. split.
  - intros Hrow.
    destruct (bins_ok_norm n pl row Hok Hrow) as [_ Hr].
    destruct (total_in_row_ok n pl (row_of n row) Hok Hr) as (t & Ht & Hbound).
    exists t. split; [done|]. split; [done|].
    apply can_stow_bag_total. by rewrite (total_in_row_row_of n).
  - intros Hrow. unfold can_stow_bag.
    rewrite sum_non_aisle_out_of_range; [done|].
    apply py_norm_None. destruct Hok as (_ & Hlen & _). rewrite Hlen. lia.
Qed.

Lemma can_stow_bag_row_index_witness :
  can_stow_bag (Plane_init 2) (-1) 12 = Ok true ∧
  can_stow_bag (Plane_init 2) (-1) 13 = Ok false ∧
  can_stow_bag (Plane_init 2) 2 1 = Raise IndexError.
Proof.
  destruct (can_stow_bag_row_index 2 (Plane_init 2) (-1) 12 (bins_ok_init 2))
    as [Hin _].
  destruct (can_stow_bag_row_index 2 (Plane_init 2) 2 1 (bins_ok_init 2))
    as [_ Hout].
  split_and!; [| |apply Hout; lia].
  - destruct (Hin ltac:(lia)) as (t & Ht & _ & ->).
    vm_compute in Ht. by injection Ht as <-.
  - reflexivity.
Defined.

(** ** Placing bags twice *)

Lemma fill_col_compose cur b1 b2 :
  0 ≤ b1 → 0 ≤ b2 →
  (fill_col (fill_col cur b1).1 b2).1 = (fill_col cur (b1 + b2)).1 ∧
  (fill_col cur (b1 + b2)).2
    = (fill_col cur b1).2 + (fill_col (fill_col cur b1).1 b2).2 ∧
  0 ≤ (fill_col cur b1).2 ∧ 0 ≤ (fill_col (fill_col cur b1).1 b2).2.
Proof.
  intros H1 H2. unfold fill_col, OVERHEAD_BIN_CAPACITY.
  destruct (bool_decide (2 - cur > 0)) eqn:Hcur; cbn [fst snd].
  - apply bool_decide_eq_true in Hcur.
    destruct (bool_decide (2 - (cur + Z.min (2 - cur) b1) > 0)) eqn:Hc2;
      cbn [fst snd]; [apply bool_decide_eq_true in Hc2
                     |apply bool_decide_eq_false in Hc2]; lia.
  - rewrite Hcur. cbn [fst snd]. lia.
Qed.

Lemma fill_cols_unroll a b c d e f g bags :
  fill_cols (seqZ 0 COLS) [a; b; c; d; e; f; g] bags
  = let A := fill_col a bags in
    let B := fill_col b A.2 in
    let C := fill_col c B.2 in
    let E := fill_col e C.2 in
    let F := fill_col f E.2 in
    let G := fill_col g F.2 in
    ([A.1; B.1; C.1; d; E.1; F.1; G.1], G.2).
Proof. reflexivity. Qed.

Lemma fill_cols_compose a b c d e f g b1 b2 :
  0 ≤ b1 → 0 ≤ b2 →
  (fill_cols (seqZ 0 COLS)
     (fill_cols (seqZ 0 COLS) [a; b; c; d; e; f; g] b1).1 b2).1
  = (fill_cols (seqZ 0 COLS) [a; b; c; d; e; f; g] (b1 + b2)).1.
Proof.
  intros H1 H2. rewrite (fill_cols_unroll a b c d e f g b1). cbn zeta.
  cbn [fst]. rewrite !fill_cols_unroll. cbn zeta. cbn [fst].
  destruct (fill_col_compose a b1 b2 H1 H2) as (Ha & Hsa & Ha1 & Ha2).
  rewrite Hsa, Ha.
  destruct (fill_col_compose b _ _ Ha1 Ha2) as (Hb & Hsb & Hb1 & Hb2).
  rewrite Hsb, Hb.
  destruct (fill_col_compose c _ _ Hb1 Hb2) as (Hc & Hsc & Hc1 & Hc2).
  rewrite Hsc, Hc.
  destruct (fill_col_compose e _ _ Hc1 Hc2) as (He & Hse & He1 & He2).
  rewrite Hse, He.
  destruct (fill_col_compose f _ _ He1 He2) as (Hf & Hsf & Hf1 & Hf2).
  rewrite Hsf, Hf.
  destruct (fill_col_compose g _ _ Hf1 Hf2) as (Hg & _).
  by rewrite Hg.
Qed.

(** X3. On a plane with well-formed bins, placing [b1] bags in a row and
    then [b2] more leaves the bins exactly as placing [b1 + b2] bags at
    once, and placing no bag changes nothing. *)
Theorem place_bags_in_bin_adds_up (n : Z) (pl : Plane) (row b1 b2 : Z) :
  bins_ok n pl → - n ≤ row < n → 0 ≤ b1 → 0 ≤ b2 →
  place_bags_in_bin pl row 0 = Ok pl ∧
  ∃ pl1, place_bags_in_bin pl row b1 = Ok pl1 ∧
         place_bags_in_bin pl1 row b2 = place_bags_in_bin pl row (b1 + b2).
Proof.
  intros Hok Hrow H1 H2.
  destruct (bins_ok_norm n pl row Hok Hrow) as [Hnorm Hk].
  destruct (bins_ok_row n pl _ Hok Hk) as (a&b&c&d&e&f&g&Hr&_).
  assert (Hcols : ∀ r : list Z, length r = 7%nat →
            Forall (λ c0, 0 ≤ c0 < Z.of_nat (length r)) (seqZ 0 COLS)).
  { intros r ->. change (seqZ 0 COLS) with [0; 1; 2; 3; 4; 5; 6].
    repeat (apply Forall_cons; split; [simpl; lia|]). done. }
  assert (Hloop : ∀ bags,
    place_bags_loop (seqZ 0 COLS) (overhead pl) row bags
    = Ok (<[Z.to_nat (row_of n row)
            := (fill_cols (seqZ 0 COLS) [a; b; c; d; e; f; g] bags).1]>
            (overhead pl),
          (fill_cols (seqZ 0 COLS) [a; b; c; d; e; f; g] bags).2)).
  { intros bags. apply place_bags_loop_row; [done..|]. by apply Hcols. }
  split.
  - unfold place_bags_in_bin. rewrite Hloop, fill_cols_zero. cbn [rbind fst].
    rewrite list_insert_id by done. by destruct pl.
  - eexists. split.
    + unfold place_bags_in_bin. rewrite Hloop. cbn [rbind]. reflexivity.
    + unfold place_bags_in_bin at 1 2. cbn [overhead num_rows].
      rewrite Hloop. cbn [rbind].
      erewrite (place_bags_loop_row (seqZ 0 COLS) _ row
                  (Z.to_nat (row_of n row)));
        [|by rewrite py_norm_insert
         |apply list_lookup_insert_eq; by eapply py_norm_lt
         |apply Hcols; by rewrite fill_cols_unroll].
      cbn [rbind]. rewrite list_insert_insert_eq.
      by rewrite fill_cols_compose.
Qed.

Lemma place_bags_in_bin_adds_up_witness :
  place_bags_in_bin (Plane_init 2) 1 0 = Ok (Plane_init 2) ∧
  ∃ pl1, place_bags_in_bin (Plane_init 2) 1 3 = Ok pl1 ∧
         place_bags_in_bin pl1 1 11 = place_bags_in_bin (Plane_init 2) 1 14.
Proof.
  apply (place_bags_in_bin_adds_up 2 (Plane_init 2) 1 3 11);
    [apply bins_ok_init|lia..].
Defined.

(** ** The seats the boarding methods hand out *)

Lemma elem_of_rows_seats ls rs (s : Z * ascii) :
  s ∈ concat (row_seats ls <$> rs) ↔ s.1 ∈ rs ∧ s.2 ∈ ls.
Proof.
  induction rs as [|r rs IH]; simpl.
  - rewrite elem_of_nil. split; [done|]. intros [H _]. by apply elem_of_nil in H.
  - rewrite elem_of_app, IH, elem_of_cons. unfold row_seats.
    rewrite list_elem_of_fmap. split.
    + intros [(l & -> & Hl)|[? ?]]; simpl; tauto.
    + intros [[Hr|Hr] Hl]; [left|right; tauto].
      exists s.2. split; [|done]. destruct s; simpl in *. by subst.
Qed.

Lemma NoDup_rows_seats ls rs :
  NoDup ls → NoDup rs → NoDup (concat (row_seats ls <$> rs)).
Proof.
  intros Hls. induction 1 as [|r rs Hr Hrs IH]; simpl; [constructor|].
  apply NoDup_app. split_and!; [|intros s Hs|done].
  - unfold row_seats. apply NoDup_fmap_2_strong; [|done].
    by intros l1 l2 _ _ [= ->].
  - unfold row_seats in Hs. apply list_elem_of_fmap in Hs as (l & -> & _).
    rewrite elem_of_rows_seats. simpl. tauto.
Qed.

Lemma length_rows_seats ls (rs : list Z) :
  length (concat (row_seats ls <$> rs)) = (length rs * length ls)%nat.
Proof.
  induction rs as [|r rs IH]; [done|].
  rewrite fmap_cons. cbn [concat length]. rewrite length_app, IH.
  unfold row_seats. by rewrite length_fmap.
Qed.

Lemma rows_seats_app ls (rs1 rs2 : list Z) :
  concat (row_seats ls <$> (rs1 ++ rs2))
  = concat (row_seats ls <$> rs1) ++ concat (row_seats ls <$> rs2).
Proof. by rewrite fmap_app, concat_app. Qed.

Lemma rows_seats_perm_rows ls (rs rs' : list Z) :
  rs ≡ₚ rs' → concat (row_seats ls <$> rs) ≡ₚ concat (row_seats ls <$> rs').
Proof.
  induction 1 as [|r rs rs' _ IH|r1 r2 rs|rs1 rs2 rs3 _ IH1 _ IH2].
  - done.
  - rewrite !fmap_cons. cbn [concat]. by rewrite IH.
  - rewrite !fmap_cons. cbn [concat]. rewrite !app_assoc.
    f_equiv. apply Permutation_app_comm.
  - by etrans.
Qed.

Lemma rows_seats_perm_letters ls ls' (rs : list Z) :
  ls ≡ₚ ls' → concat (row_seats ls <$> rs) ≡ₚ concat (row_seats ls' <$> rs).
Proof.
  intros Hls. induction rs as [|r rs IH]; [done|].
  rewrite !fmap_cons. cbn [concat].
  apply Permutation_app; [by apply fmap_Permutation|exact IH].
Qed.

Lemma NoDup_letters : NoDup letters.
Proof.
  unfold letters.
  repeat (apply NoDup_cons; split;
          [rewrite ?elem_of_cons, elem_of_nil; intros H;
           repeat (destruct H as [H|H]; [discriminate H|]); done|]).
  apply NoDup_nil_2.
Qed.

Lemma NoDup_plane_seats rows : NoDup (plane_seats rows).
Proof. apply NoDup_rows_seats; [apply NoDup_letters|apply NoDup_seqZ]. Qed.

Lemma length_plane_seats rows :
  length (plane_seats rows) = (6 * Z.to_nat rows)%nat.
Proof.
  unfold plane_seats, py_range. rewrite length_rows_seats, length_seqZ.
  simpl. lia.
Qed.

Lemma elem_of_plane_seats rows s : s ∈ plane_seats rows ↔ seat_ok rows s.
Proof.
  unfold plane_seats, py_range, seat_ok.
  rewrite elem_of_rows_seats, elem_of_seqZ. split; intros [? ?]; (split; [lia|done]).
Qed.

Section GeneratorSeats.
Context (R : Random) (HR : RandomOk R).

Lemma shuffled_rows_perm (rs : list Z) ls : ∀ g : rng R,
  (shuffled_rows R g rs ls).1 ≡ₚ concat (row_seats ls <$> rs).
Proof.
  induction rs as [|r rs IH]; intros g; [done|].
  cbn [shuffled_rows fst]. rewrite fmap_cons. cbn [concat].
  apply Permutation_app; [|apply IH].
  apply fmap_Permutation, (shuffle_ok R HR).
Qed.

Lemma rows_down2_fuel fuel : ∀ row fuel',
  row + 1 ≤ Z.of_nat fuel → row + 1 ≤ Z.of_nat fuel' →
  rows_down2 fuel row = rows_down2 fuel' row.
Proof.
  induction fuel as [|fuel IH]; intros row fuel' H1 H2.
  - destruct fuel' as [|fuel']; [done|]. simpl.
    by rewrite bool_decide_eq_false_2 by lia.
  - destruct fuel' as [|fuel']; simpl.
    + by rewrite bool_decide_eq_false_2 by lia.
    + case_bool_decide; [|done]. f_equal. apply IH; lia.
Qed.

Lemma build_group_seats_pair fuel : ∀ (g g' : rng R) row left_first,
  (build_group_seats R fuel g row left_first).1
    ++ (build_group_seats R fuel g' row (negb left_first)).1
  ≡ₚ concat (row_seats letters <$> rows_down2 fuel row).
Proof.
  induction fuel as [|fuel IH]; intros g g' row left_first; [done|].
  cbn [build_group_seats rows_down2]. case_bool_decide; [|done].
  cbn [fst]. rewrite fmap_cons. cbn [concat].
  rewrite <- (IH (random_shuffle R g
                    (if left_first then ["A"; "B"; "C"]%char
                     else ["D"; "E"; "F"]%char)).2
                 (random_shuffle R g'
                    (if negb left_first then ["A"; "B"; "C"]%char
                     else ["D"; "E"; "F"]%char)).2
                 (row - 2) (negb left_first)).
  rewrite <- !app_assoc. rewrite (app_assoc (row_seats _ row)).
  rewrite (app_assoc _ (row_seats _ row)).
  rewrite (Permutation_app_comm _ (row_seats _ row)).
  rewrite !app_assoc. do 2 f_equiv.
  unfold row_seats. rewrite <- fmap_app. apply fmap_Permutation.
  rewrite !(shuffle_ok R HR). destruct left_first; simpl; [|done].
  unfold letters.
  apply (Permutation_app_comm ["D"; "E"; "F"]%char ["A"; "B"; "C"]%char).
Qed.

Lemma rows_down2_S fuel row :
  rows_down2 (S fuel) row
  = if bool_decide (0 ≤ row) then row :: rows_down2 fuel (row - 2) else [].
Proof. done. Qed.

Lemma rows_down2_cover (k : nat) :
  rows_down2 (S k) (Z.of_nat k - 1) ++ rows_down2 (S k) (Z.of_nat k - 2)
  ≡ₚ seqZ 0 (Z.of_nat k).
Proof.
  induction k as [|k IH]; [done|].
  rewrite (rows_down2_S (S k)), bool_decide_eq_true_2 by lia.
  rewrite (rows_down2_fuel (S (S k)) (Z.of_nat (S k) - 2) (S k)) by lia.
  replace (Z.of_nat (S k) - 1 - 2) with (Z.of_nat k - 2) by lia.
  replace (Z.of_nat (S k) - 2) with (Z.of_nat k - 1) by lia.
  rewrite seqZ_S, <- Permutation_cons_append.
  replace (0 + Z.of_nat k) with (Z.of_nat (S k) - 1) by lia.
  cbn [app]. f_equiv. by rewrite Permutation_app_comm.
Qed.
End GeneratorSeats.

Section GeneratedQueue.
Context (R : Random) (HR : RandomOk R).

(** Whatever the method, the list of seats before the cut [all_seats[:n]]
    is a rearrangement of the seats of the plane. *)
Lemma generate_boarding_all_seats boarding_method (g : rng R) rows n :
  ∃ all_seats g0,
    all_seats ≡ₚ plane_seats rows ∧
    generate_boarding R boarding_method g (Plane_init rows) n
    = board R g0 0 (py_slice_to all_seats n).
Proof.
  unfold generate_boarding. repeat case_bool_decide.
  - unfold generate_boarding_0_random, generate_unique_seats.
    cbn [fst snd Plane_init num_rows]. eexists _, _. split; [|reflexivity].
    apply (shuffle_ok R HR).
  - unfold generate_boarding_1_back_to_front. cbn [Plane_init num_rows].
    eexists _, _. split; [|reflexivity].
    rewrite shuffled_rows_perm by done.
    apply rows_seats_perm_rows, reverse_Permutation.
  - unfold generate_boarding_2_back_to_front_window_to_aisle.
    cbn [Plane_init num_rows]. eexists _, _. split; [|reflexivity].
    etrans; [apply rows_seats_perm_rows, reverse_Permutation|].
    apply rows_seats_perm_letters. unfold letters.
    apply NoDup_Permutation; [|apply NoDup_letters|].
    + repeat (apply NoDup_cons; split;
              [rewrite ?elem_of_cons, elem_of_nil; intros Hin;
               repeat (destruct Hin as [Hin|Hin]; [discriminate Hin|]);
               done|]).
      apply NoDup_nil_2.
    + intros l. rewrite !elem_of_cons, !elem_of_nil. tauto.
  - unfold generate_boarding_3_skip_rows. cbn [Plane_init num_rows].
    eexists _, _. split; [|reflexivity].
    rewrite !shuffled_rows_perm by done. rewrite <- rows_seats_app.
    apply rows_seats_perm_rows.
    etrans; [|apply reverse_Permutation].
    apply (filter_app_complement (λ r, r `mod` 2 = 1)).
  - unfold generate_boarding_4_zones. cbn [Plane_init num_rows].
    eexists _, _. split; [|reflexivity].
    rewrite !(shuffle_ok R HR). rewrite <- !rows_seats_app.
    apply rows_seats_perm_rows.
    set (l := sorted_by Z.opp (py_range rows)).
    set (k := (length l / 3)%nat).
    rewrite app_assoc.
    assert (take k l = take k (take (2 * k) l)) as ->
      by (rewrite take_take; f_equal; lia).
    rewrite !take_drop. unfold l. apply sorted_by_perm.
  - unfold generate_boarding_5_4groups. cbn [Plane_init num_rows].
    eexists _, _. split; [|reflexivity].
    rewrite app_assoc, (app_assoc _ _ (build_group_seats _ _ _ _ _).1).
    rewrite <- app_assoc.
    rewrite (build_group_seats_pair R HR _ _ _ _ true).
    rewrite (build_group_seats_pair R HR _ _ _ _ true).
    rewrite <- rows_seats_app. apply rows_seats_perm_rows.
    destruct (decide (0 ≤ rows)) as [Hrows|Hrows].
    + replace (rows - 1 + 1) with rows by lia.
      destruct (Z.to_nat rows) as [|k] eqn:Hk.
      { replace rows with 0 by lia. done. }
      unfold py_range. replace rows with (Z.of_nat (S k)) by lia.
      rewrite <- rows_down2_cover.
      replace (Z.of_nat (S k) - 1 - 1) with (Z.of_nat (S k) - 2) by lia.
      f_equiv; (erewrite rows_down2_fuel; [reflexivity|lia|lia]).
    + replace (Z.to_nat (rows - 1 + 1)) with 0%nat by lia.
      unfold py_range. rewrite seqZ_nil by lia. done.
Qed.

Lemma board_fields seats : ∀ (g : rng R) i ps g',
  board R g i seats = Ok (ps, g') →
  seats_of ps = seats ∧
  ∀ (k : nat) p, ps !! k = Some p →
    Passenger.queue_index p = i + Z.of_nat k ∧
    Passenger.is_late p = false ∧ fresh_passenger p.
Proof.
  induction seats as [|s seats IH]; intros g i ps g' Hb; cbn [board] in Hb.
  - injection Hb as <- <-. split; [done|]. intros k p Hk.
    by rewrite lookup_nil in Hk.
  - pose proof (randint_ok R HR g 1 MAX_BAGS ltac:(unfold MAX_BAGS; lia))
      as Hbags.
    unfold Passenger_init in Hb.
    destruct (letter_to_col s.2) as [c|] eqn:Hc; [|done]. cbn [rbind] in Hb.
    destruct (board R _ (i + 1) seats) as [[ps' g'']|] eqn:Hb'; [|done].
    cbn [rbind] in Hb. injection Hb as <- <-.
    apply IH in Hb' as [Hseats Hps]. split.
    + unfold seats_of in *. rewrite fmap_cons, Hseats. simpl. by destruct s.
    + intros [|k] p Hk.
      * injection Hk as <-. simpl. split; [lia|]. split; [done|].
        unfold fresh_passenger. simpl. split_and!; try done; lia.
      * apply Hps in Hk as (Hq & Hl & Hf). split; [lia|by split].
Qed.
End GeneratedQueue.

Lemma py_slice_to_sublist {A} (l : list A) n : py_slice_to l n `sublist_of` l.
Proof. unfold py_slice_to. case_bool_decide; apply sublist_take. Qed.

Lemma generate_boarding_queue (R : Random) boarding_method (g : rng R) rows n :
  RandomOk R →
  ∃ all_seats base g1,
    all_seats ≡ₚ plane_seats rows ∧
    generate_boarding R boarding_method g (Plane_init rows) n = Ok (base, g1) ∧
    seats_of base = py_slice_to all_seats n ∧
    Forall (local_ok rows) base ∧
    ∀ (k : nat) p, base !! k = Some p →
      Passenger.queue_index p = Z.of_nat k ∧
      Passenger.is_late p = false ∧ fresh_passenger p.
Proof.
  intros HR.
  destruct (generate_boarding_all_seats R HR boarding_method g rows n)
    as (all_seats & g0 & Hperm & ->).
  assert (Hall : Forall (seat_ok rows) all_seats).
  { rewrite Hperm. apply Forall_forall. intros s. apply elem_of_plane_seats. }
  destruct (board_spec R rows (py_slice_to all_seats n) g0 0)
    as (base & g1 & Hb & _ & Hlocal); [by apply py_slice_to_Forall|].
  destruct (board_fields R HR _ _ _ _ _ Hb) as [Hseats Hfields].
  exists all_seats, base, g1. split_and!; [done..|].
  intros k p Hk. destruct (Hfields k p Hk) as (Hq & Hl & Hf).
  split; [lia|by split].
Qed.

(** X4. Whatever the boarding method and the random draws, the generator
    returns a list of passengers that sit on seats of the plane, no two on
    the same seat; for a count [n >= 0] it holds [min(n, 6 * rows)]
    passengers, for a negative [n] all but the last [-n] of the [6 * rows]
    (the cut is the Python slice [all_seats[:n]]); and with [n >= 6 * rows]
    every seat of the plane is taken. *)
Theorem generate_boarding_each_seat_once (R : Random) (boarding_method : Z)
    (g : rng R) (rows n : Z) :
  RandomOk R →
  ∃ base g1,
    generate_boarding R boarding_method g (Plane_init rows) n = Ok (base, g1) ∧
    NoDup (seats_of base) ∧
    Forall (seat_ok rows) (seats_of base) ∧
    (0 ≤ n → Z.of_nat (length base) = Z.min n (6 * Z.max 0 rows)) ∧
    (n < 0 → Z.of_nat (length base) = Z.max 0 (6 * Z.max 0 rows + n)) ∧
    (6 * rows ≤ n → 0 ≤ n → seats_of base ≡ₚ plane_seats rows).
Proof.
  intros HR.
  destruct (generate_boarding_queue R boarding_method g rows n HR)
    as (all_seats & base & g1 & Hperm & Hgen & Hseats & _ & _).
  assert (Hlen : length all_seats = (6 * Z.to_nat rows)%nat)
    by (by rewrite Hperm, length_plane_seats).
  assert (Hlb : length base = length (py_slice_to all_seats n))
    by (by rewrite <- Hseats; unfold seats_of; rewrite length_fmap).
  exists base, g1. split_and!; [done| | | | |].
  - rewrite Hseats. eapply sublist_NoDup; [|apply py_slice_to_sublist].
    rewrite Hperm. apply NoDup_plane_seats.
  - rewrite Hseats. apply py_slice_to_Forall. rewrite Hperm.
    apply Forall_forall. intros s. apply elem_of_plane_seats.
  - intros Hn. rewrite Hlb. unfold py_slice_to.
    rewrite bool_decide_eq_true_2 by done. rewrite length_take, Hlen. lia.
  - intros Hn. rewrite Hlb. unfold py_slice_to.
    rewrite bool_decide_eq_false_2 by lia. rewrite length_take, Hlen. lia.
  - intros Hn Hn0. rewrite Hseats, <- Hperm. unfold py_slice_to.
    rewrite bool_decide_eq_true_2 by done. rewrite take_ge; [done|].
    rewrite Hlen. lia.
Qed.

Lemma generate_boarding_each_seat_once_witness :
  ∃ base g1,
    generate_boarding replay 5 [3; 1; 2] (Plane_init 3) 18 = Ok (base, g1) ∧
    NoDup (seats_of base) ∧ length base = 18%nat ∧
    seats_of base ≡ₚ plane_seats 3.
Proof.
  destruct (generate_boarding_each_seat_once replay 5 [3; 1; 2] 3 18 replay_ok)
    as (base & g1 & Hgen & Hnd & _ & Hlen & _ & Hall).
  exists base, g1. split_and!; [done|done|lia|apply Hall; lia].
Defined.

(** X5. Every passenger a boarding method returns is as
    [Passenger.__init__] builds it: between 1 and [MAX_BAGS] bags of which
    all but one go overhead, waiting in the queue in front of the plane,
    not late, with the column of its seat letter as target and its position
    in the list as [queue_index]. *)
Theorem generate_boarding_fresh_queue (R : Random) (boarding_method : Z)
    (g : rng R) (rows n : Z) :
  RandomOk R →
  ∃ base g1,
    generate_boarding R boarding_method g (Plane_init rows) n = Ok (base, g1) ∧
    ∀ (k : nat) p, base !! k = Some p →
      Passenger.queue_index p = Z.of_nat k ∧
      Passenger.is_late p = false ∧ fresh_passenger p.
Proof.
  intros HR.
  destruct (generate_boarding_queue R boarding_method g rows n HR)
    as (all_seats & base & g1 & _ & Hgen & _ & _ & Hfields).
  by exists base, g1.
Qed.

Lemma generate_boarding_fresh_queue_witness :
  ∃ base g1,
    generate_boarding replay 1 [3; 1; 7] (Plane_init 1) 3 = Ok (base, g1) ∧
    (λ p, (Passenger.queue_index p, Passenger.bags_count p,
           Passenger.overhead_bags p, Passenger.state p)) <$> base
    = [(0, 3, 2, Queue); (1, 1, 0, Queue); (2, 3, 2, Queue)].
Proof.
  destruct (generate_boarding_fresh_queue replay 1 [3; 1; 7] 1 3 replay_ok)
    as (base & g1 & Hgen & _).
  exists base, g1. split; [done|].
  vm_compute in Hgen. by injection Hgen as <- _.
Defined.

(** ** The order in which the boarding methods call the passengers *)

Lemma StronglySorted_lookup_lt {A} (Rel : relation A) (l : list A) :
  StronglySorted Rel l →
  ∀ (i j : nat) x y, (i < j)%nat → l !! i = Some x → l !! j = Some y → Rel x y.
Proof.
  induction 1 as [|a l _ IH Hall]; intros i j x y Hij Hi Hj.
  - by rewrite lookup_nil in Hi.
  - destruct j as [|j]; [lia|]. destruct i as [|i]; simpl in *.
    + injection Hi as <-. rewrite Forall_forall in Hall.
      apply Hall. by eapply list_elem_of_lookup_2.
    + eapply (IH i j); [lia|done..].
Qed.

Lemma StronglySorted_all {A} (Rel : relation A) (l : list A) :
  (∀ x y, x ∈ l → y ∈ l → Rel x y) → StronglySorted Rel l.
Proof.
  induction l as [|a l IH]; intros Hall; constructor.
  - apply IH. intros x y Hx Hy. apply Hall; by right.
  - apply Forall_forall. intros y Hy. apply Hall; [by left|by right].
Qed.

Lemma StronglySorted_py_slice_to {A} (Rel : relation A) (l : list A) n :
  StronglySorted Rel l → StronglySorted Rel (py_slice_to l n).
Proof.
  intros Hl. unfold py_slice_to.
  case_bool_decide.
  - rewrite <- (take_drop (Z.to_nat n) l) in Hl.
    by apply StronglySorted_app_1_l in Hl.
  - rewrite <- (take_drop (length l - Z.to_nat (- n)) l) in Hl.
    by apply StronglySorted_app_1_l in Hl.
Qed.

Lemma py_range_down_sorted rows :
  StronglySorted (λ r r', r' < r) (py_range_down rows).
Proof.
  unfold py_range_down.
  destruct (decide (rows ≤ 0)) as [Hr|Hr];
    [rewrite seqZ_nil by done; constructor|].
  replace rows with (Z.of_nat (Z.to_nat rows)) by lia.
  induction (Z.to_nat rows) as [|k IH]; [constructor|].
  rewrite seqZ_S, reverse_app. simpl. constructor; [exact IH|].
  apply Forall_forall. intros r Hr'.
  apply elem_of_reverse, elem_of_seqZ in Hr'. lia.
Qed.

Lemma lookup_py_range_down rows (i : nat) r :
  py_range_down rows !! i = Some r ↔ r = rows - 1 - Z.of_nat i ∧ Z.of_nat i < rows.
Proof.
  unfold py_range_down. destruct (decide (Z.of_nat i < rows)) as [Hi|Hi].
  - rewrite reverse_lookup by (rewrite length_seqZ; lia).
    rewrite lookup_seqZ, length_seqZ. split; intros [-> ?]; split; lia.
  - split; [|lia]. intros Hl. apply lookup_lt_Some in Hl.
    rewrite length_reverse, length_seqZ in Hl. lia.
Qed.

Lemma insert_by_last {A} (key : A → Z) a (l : list A) :
  Forall (λ b, key b < key a) l → insert_by key a l = l ++ [a].
Proof.
  induction 1 as [|b l Hb _ IH]; [done|]. simpl.
  rewrite bool_decide_eq_false_2 by lia. by rewrite IH.
Qed.

Lemma sorted_by_opp_range m n :
  sorted_by Z.opp (seqZ m n) = reverse (seqZ m n).
Proof.
  destruct (decide (n ≤ 0)) as [Hn|Hn]; [by rewrite seqZ_nil by done|].
  replace n with (Z.of_nat (Z.to_nat n)) by lia. clear Hn.
  revert m. induction (Z.to_nat n) as [|k IH]; intros m; [done|].
  rewrite seqZ_cons by lia.
  replace (Z.pred (Z.of_nat (S k))) with (Z.of_nat k) by lia.
  cbn [sorted_by foldr]. fold (sorted_by Z.opp (seqZ (Z.succ m) (Z.of_nat k))).
  rewrite IH, reverse_cons. apply insert_by_last.
  apply Forall_forall. intros r Hr.
  apply elem_of_reverse, elem_of_seqZ in Hr. lia.
Qed.

Lemma StronglySorted_filter_list {A} (Rel : relation A) (P : A → Prop)
    `{!∀ x, Decision (P x)} (l : list A) :
  StronglySorted Rel l → StronglySorted Rel (filter P l).
Proof.
  induction 1 as [|a l _ IH Hall]; [constructor|].
  rewrite filter_cons. case_decide; [|exact IH].
  constructor; [exact IH|]. by apply filter_Forall.
Qed.

Lemma seats_sorted_lookup (Rel : relation (Z * ascii)) (base : list Passenger.t) :
  StronglySorted Rel (seats_of base) →
  ∀ (i j : nat) p q, (i < j)%nat → base !! i = Some p → base !! j = Some q →
    Rel (Passenger.seat_row p, Passenger.seat_letter p)
        (Passenger.seat_row q, Passenger.seat_letter q).
Proof.
  intros Hs i j p q Hij Hi Hj.
  apply (StronglySorted_lookup_lt Rel _ Hs i j); [done| |];
    unfold seats_of; rewrite list_lookup_fmap; [by rewrite Hi|by rewrite Hj].
Qed.

Lemma rows_seats_sorted (Rel : relation (Z * ascii)) ls (rs : list Z) :
  StronglySorted (λ r r', r' < r) rs →
  (∀ s s', s'.1 < s.1 → Rel s s') →
  (∀ r, StronglySorted Rel (row_seats ls r)) →
  StronglySorted Rel (concat (row_seats ls <$> rs)).
Proof.
  intros Hrs Hlt Hrow. induction Hrs as [|r rs _ IH Hall]; [constructor|].
  rewrite fmap_cons. cbn [concat]. apply StronglySorted_app_2; [|done..].
  intros s s' Hs Hs'. apply Hlt.
  unfold row_seats in Hs. apply list_elem_of_fmap in Hs as (l & -> & _).
  apply elem_of_rows_seats in Hs' as [Hs' _]. rewrite Forall_forall in Hall.
  simpl. by apply Hall.
Qed.

Section Orders.
Context (R : Random) (HR : RandomOk R).

Lemma board_slice rows all_seats (g0 : rng R) n :
  Forall (seat_ok rows) all_seats →
  ∃ base g1,
    board R g0 0 (py_slice_to all_seats n) = Ok (base, g1) ∧
    seats_of base = py_slice_to all_seats n ∧
    ∀ (k : nat) p, base !! k = Some p → fresh_passenger p.
Proof.
  intros Hall.
  destruct (board_spec R rows (py_slice_to all_seats n) g0 0)
    as (base & g1 & Hb & _ & _); [by apply py_slice_to_Forall|].
  destruct (board_fields R HR _ _ _ _ _ Hb) as [Hseats Hfields].
  exists base, g1. split_and!; [done..|].
  intros k p Hk. by destruct (Hfields k p Hk) as (_ & _ & Hf).
Qed.

Lemma elem_of_shuffled_rows (rs : list Z) ls (g : rng R) s :
  s ∈ (shuffled_rows R g rs ls).1 ↔ s.1 ∈ rs ∧ s.2 ∈ ls.
Proof. by rewrite shuffled_rows_perm, elem_of_rows_seats by done. Qed.

Lemma shuffled_rows_sorted (rs : list Z) ls : ∀ g : rng R,
  StronglySorted (λ r r', r' < r) rs →
  StronglySorted (λ s s' : Z * ascii, s'.1 ≤ s.1) (shuffled_rows R g rs ls).1.
Proof.
  intros g Hrs. revert g.
  induction Hrs as [|r rs _ IH Hall]; intros g; [constructor|].
  cbn [shuffled_rows fst]. apply StronglySorted_app_2; [| |apply IH].
  - intros s s' Hs Hs'.
    unfold row_seats in Hs. apply list_elem_of_fmap in Hs as (l & -> & _).
    apply elem_of_shuffled_rows in Hs' as [Hs' _].
    rewrite Forall_forall in Hall. simpl. specialize (Hall _ Hs'). lia.
  - apply StronglySorted_all. intros s s' Hs Hs'. unfold row_seats in *.
    apply list_elem_of_fmap in Hs as (l & -> & _).
    apply list_elem_of_fmap in Hs' as (l' & -> & _). done.
Qed.

Lemma seat_ok_range_down rows ls (g : rng R) :
  ls ⊆ letters →
  Forall (seat_ok rows) (shuffled_rows R g (py_range_down rows) ls).1.
Proof. intros Hls. apply shuffled_rows_ok; [done..|apply py_range_down_ok]. Qed.
End Orders.

(** X6. Method 1 (back to front) calls the rows from the last to the
    first: whoever stands further back in the list sits in the same row or
    in a row nearer the entrance. *)
Theorem back_to_front_rows_descend (R : Random) (g : rng R) (rows n : Z) :
  RandomOk R →
  ∃ base g1,
    generate_boarding_1_back_to_front R g (Plane_init rows) n
      = Ok (base, g1) ∧
    ∀ (i j : nat) p q, (i < j)%nat → base !! i = Some p → base !! j = Some q →
      Passenger.seat_row q ≤ Passenger.seat_row p.
Proof.
  intros HR. unfold generate_boarding_1_back_to_front.
  cbn [Plane_init num_rows].
  destruct (board_slice R HR rows
              (shuffled_rows R g (py_range_down rows) letters).1
              (shuffled_rows R g (py_range_down rows) letters).2 n)
    as (base & g1 & Hb & Hseats & _); [by apply seat_ok_range_down|].
  exists base, g1. split; [done|]. intros i j p q Hij Hi Hj.
  apply (seats_sorted_lookup (λ s s', s'.1 ≤ s.1) base) with i j; [|done..].
  rewrite Hseats. apply StronglySorted_py_slice_to.
  apply shuffled_rows_sorted; [done|apply py_range_down_sorted].
Qed.

Lemma back_to_front_rows_descend_witness :
  ∃ base g1,
    generate_boarding_1_back_to_front replay [2; 2] (Plane_init 2) 7
      = Ok (base, g1) ∧
    Passenger.seat_row <$> base = [1; 1; 1; 1; 1; 1; 0].
Proof.
  destruct (back_to_front_rows_descend replay [2; 2] 2 7 replay_ok)
    as (base & g1 & Hgen & _).
  exists base, g1. split; [done|].
  vm_compute in Hgen. by injection Hgen as <- _.
Defined.

(** X7. Method 2 (back to front, window to aisle) calls the rows from the
    last to the first and, within a row, the window seats before the middle
    seats before the aisle seats: of two passengers of one row, the one
    further back in the list has a target column at most as far from the
    aisle. *)
Theorem window_to_aisle_order (R : Random) (g : rng R) (rows n : Z) :
  RandomOk R →
  ∃ base g1,
    generate_boarding_2_back_to_front_window_to_aisle R g (Plane_init rows) n
      = Ok (base, g1) ∧
    ∀ (i j : nat) p q, (i < j)%nat → base !! i = Some p → base !! j = Some q →
      Passenger.seat_row q < Passenger.seat_row p ∨
      (Passenger.seat_row q = Passenger.seat_row p ∧
       Z.abs (Passenger.target_col q - AISLE_COL)
         ≤ Z.abs (Passenger.target_col p - AISLE_COL)).
Proof.
  intros HR. unfold generate_boarding_2_back_to_front_window_to_aisle.
  cbn [Plane_init num_rows].
  set (seat_order := ["A"; "F"; "B"; "E"; "C"; "D"]%char).
  assert (Hsub : seat_order ⊆ letters).
  { intros l. unfold seat_order, letters.
    rewrite !elem_of_cons, !elem_of_nil. tauto. }
  destruct (board_slice R HR rows
              (concat (row_seats seat_order <$> py_range_down rows)) g n)
    as (base & g1 & Hb & Hseats & Hfresh).
  { apply rows_seats_ok; [done|apply py_range_down_ok]. }
  exists base, g1. split; [done|]. intros i j p q Hij Hi Hj.
  set (Rel := λ s s' : Z * ascii,
         s'.1 < s.1 ∨
         (s'.1 = s.1 ∧ ∀ c c', letter_to_col s.2 = Ok c →
                               letter_to_col s'.2 = Ok c' →
                               Z.abs (c' - AISLE_COL) ≤ Z.abs (c - AISLE_COL))).
  assert (Hrel : Rel (Passenger.seat_row p, Passenger.seat_letter p)
                     (Passenger.seat_row q, Passenger.seat_letter q)).
  { apply (seats_sorted_lookup Rel base) with i j; [|done..].
    rewrite Hseats. apply StronglySorted_py_slice_to.
    apply rows_seats_sorted; [apply py_range_down_sorted|by left|].
    intros r. unfold row_seats, seat_order. simpl.
    repeat (apply SSorted_cons; [|
      repeat (apply Forall_cons; split;
              [right; split; [done|];
               intros c c' Hc Hc'; vm_compute in Hc, Hc';
               injection Hc as <-; injection Hc' as <-;
               unfold AISLE_COL; lia|]);
      apply Forall_nil_2]).
    apply SSorted_nil. }
  destruct Hrel as [Hlt|[Heq Hcol]]; [by left|right]. split; [done|].
  destruct (Hfresh i p Hi) as (_ & _ & _ & _ & _ & _ & _ & _ & Hp).
  destruct (Hfresh j q Hj) as (_ & _ & _ & _ & _ & _ & _ & _ & Hq).
  by apply Hcol.
Qed.

Lemma window_to_aisle_order_witness :
  ∃ base g1,
    generate_boarding_2_back_to_front_window_to_aisle replay [] (Plane_init 2) 8
      = Ok (base, g1) ∧
    (λ p, (Passenger.seat_row p, Passenger.target_col p)) <$> base
    = [(1, 0); (1, 6); (1, 1); (1, 5); (1, 2); (1, 4); (0, 0); (0, 6)].
Proof.
  destruct (window_to_aisle_order replay [] 2 8 replay_ok)
    as (base & g1 & Hgen & _).
  exists base, g1. split; [done|].
  vm_compute in Hgen. by injection Hgen as <- _.
Defined.

(** X8. Method 3 (skip rows) calls all the odd rows before the even rows,
    and the rows of each kind from the last to the first. *)
Theorem skip_rows_order (R : Random) (g : rng R) (rows n : Z) :
  RandomOk R →
  ∃ base g1,
    generate_boarding_3_skip_rows R g (Plane_init rows) n = Ok (base, g1) ∧
    ∀ (i j : nat) p q, (i < j)%nat → base !! i = Some p → base !! j = Some q →
      (Passenger.seat_row p `mod` 2 = 1 ∧ Passenger.seat_row q `mod` 2 ≠ 1) ∨
      ((Passenger.seat_row p `mod` 2 = 1 ↔ Passenger.seat_row q `mod` 2 = 1) ∧
       Passenger.seat_row q ≤ Passenger.seat_row p).
Proof.
  intros HR. unfold generate_boarding_3_skip_rows. cbn [Plane_init num_rows].
  set (odd_rows := filter (λ r, r `mod` 2 = 1) (py_range_down rows)).
  set (even_rows := filter (λ r, r `mod` 2 ≠ 1) (py_range_down rows)).
  set (og := shuffled_rows R g odd_rows letters).
  set (eg := shuffled_rows R og.2 even_rows letters).
  assert (Hodd : Forall (row_ok rows) odd_rows)
    by apply filter_Forall, py_range_down_ok.
  assert (Heven : Forall (row_ok rows) even_rows)
    by apply filter_Forall, py_range_down_ok.
  destruct (board_slice R HR rows (og.1 ++ eg.1) eg.2 n)
    as (base & g1 & Hb & Hseats & _).
  { apply Forall_app. split; by apply shuffled_rows_ok. }
  exists base, g1. split; [done|]. intros i j p q Hij Hi Hj.
  apply (seats_sorted_lookup
           (λ s s', (s.1 `mod` 2 = 1 ∧ s'.1 `mod` 2 ≠ 1)
                    ∨ ((s.1 `mod` 2 = 1 ↔ s'.1 `mod` 2 = 1) ∧ s'.1 ≤ s.1))
           base) with i j; [|done..].
  rewrite Hseats. apply StronglySorted_py_slice_to.
  assert (Ho : ∀ s, s ∈ og.1 → s.1 `mod` 2 = 1).
  { intros s [Hs _]%elem_of_shuffled_rows; [|done].
    by apply list_elem_of_filter in Hs as [Hs _]. }
  assert (He : ∀ s, s ∈ eg.1 → s.1 `mod` 2 ≠ 1).
  { intros s [Hs _]%elem_of_shuffled_rows; [|done].
    by apply list_elem_of_filter in Hs as [Hs _]. }
  apply StronglySorted_app_2.
  - intros s s' Hs Hs'. left. split; [by apply Ho|by apply He].
  - pose proof (shuffled_rows_sorted R HR odd_rows letters g
                  (StronglySorted_filter_list _ _ _ (py_range_down_sorted rows)))
      as Hsorted.
    fold og in Hsorted.
    assert (Hall := Ho). clear -Hsorted Hall.
    induction Hsorted as [|s l _ IH Hfa]; constructor.
    + apply IH. intros s' Hs'. apply Hall. by right.
    + apply Forall_forall. intros s' Hs'. rewrite Forall_forall in Hfa.
      right. split; [|by apply Hfa].
      split; intros _; apply Hall; [by right|by left].
  - pose proof (shuffled_rows_sorted R HR even_rows letters og.2
                  (StronglySorted_filter_list _ _ _ (py_range_down_sorted rows)))
      as Hsorted.
    fold eg in Hsorted.
    assert (Hall := He). clear -Hsorted Hall.
    induction Hsorted as [|s l _ IH Hfa]; constructor.
    + apply IH. intros s' Hs'. apply Hall. by right.
    + apply Forall_forall. intros s' Hs'. rewrite Forall_forall in Hfa.
      right. split; [|by apply Hfa].
      split; intros Hodd; exfalso; [apply (Hall s)|apply (Hall s')];
        [by left|done|by right|done].
Qed.

Lemma skip_rows_order_witness :
  ∃ base g1,
    generate_boarding_3_skip_rows replay [] (Plane_init 4) 24 = Ok (base, g1) ∧
    (λ k, Passenger.seat_row <$> base !! k) <$> [0; 6; 12; 18]%nat
    = [Some 3; Some 1; Some 2; Some 0].
Proof.
  destruct (skip_rows_order replay [] 4 24 replay_ok)
    as (base & g1 & Hgen & _).
  exists base, g1. split; [done|].
  vm_compute in Hgen. by injection Hgen as <- _.
Defined.

Lemma StronglySorted_classes {A} (cls : A → Z) (l1 l2 : list A) (c1 c2 : Z) :
  c1 ≤ c2 →
  Forall (λ x, cls x = c1) l1 → StronglySorted (λ x y, cls x ≤ cls y) l2 →
  Forall (λ x, c2 ≤ cls x) l2 →
  StronglySorted (λ x y, cls x ≤ cls y) (l1 ++ l2).
Proof.
  intros Hc H1 H2 Hge. rewrite Forall_forall in H1. rewrite Forall_forall in Hge.
  apply StronglySorted_app_2; [|apply StronglySorted_all|done].
  - intros x y Hx Hy. rewrite (H1 x Hx). specialize (Hge y Hy). lia.
  - intros x y Hx Hy. rewrite (H1 x Hx), (H1 y Hy). lia.
Qed.

(** X9. Method 4 (zones) calls the back third of the rows first, then the
    middle third, then the rows left at the front: the zone of a passenger
    never comes before the zone of somebody earlier in the list. *)
Theorem zones_order (R : Random) (g : rng R) (rows n : Z) :
  RandomOk R →
  ∃ base g1,
    generate_boarding_4_zones R g (Plane_init rows) n = Ok (base, g1) ∧
    ∀ (i j : nat) p q, (i < j)%nat → base !! i = Some p → base !! j = Some q →
      zone_of rows (Passenger.seat_row p) ≤ zone_of rows (Passenger.seat_row q).
Proof.
  intros HR. unfold generate_boarding_4_zones. cbn [Plane_init num_rows].
  unfold py_range. rewrite sorted_by_opp_range, length_reverse, length_seqZ.
  fold (py_range_down rows).
  set (k := (Z.to_nat rows / 3)%nat).
  set (z1 := random_shuffle R g
               (concat (row_seats letters <$> take k (py_range_down rows)))).
  set (z2 := random_shuffle R z1.2
               (concat (row_seats letters
                          <$> drop k (take (2 * k) (py_range_down rows))))).
  set (z3 := random_shuffle R z2.2
               (concat (row_seats letters
                          <$> drop (2 * k) (py_range_down rows)))).
  assert (Hk : 0 ≤ rows → Z.of_nat k = rows `div` 3).
  { intros Hr. unfold k. rewrite Nat2Z.inj_div. f_equal. lia. }
  assert (Hk0 : rows < 0 → k = 0%nat).
  { intros Hr. unfold k. by replace (Z.to_nat rows) with 0%nat by lia. }
  assert (H1 : ∀ s, s ∈ z1.1 → seat_ok rows s ∧ zone_of rows s.1 = 1).
  { intros s Hs. unfold z1 in Hs. rewrite (shuffle_ok R HR) in Hs.
    apply elem_of_rows_seats in Hs as [Hr Hl].
    apply elem_of_take in Hr as (i & Hi & Hik).
    apply lookup_py_range_down in Hi as [Hi Hlt].
    split; [split; [lia|done]|]. unfold zone_of.
    rewrite bool_decide_eq_true_2; [done|]. rewrite <- Hk by lia. lia. }
  assert (H2 : ∀ s, s ∈ z2.1 → seat_ok rows s ∧ zone_of rows s.1 = 2).
  { intros s Hs. unfold z2 in Hs. rewrite (shuffle_ok R HR) in Hs.
    apply elem_of_rows_seats in Hs as [Hr Hl].
    apply list_elem_of_lookup in Hr as (i & Hi).
    rewrite lookup_drop in Hi. apply lookup_take_Some in Hi as [Hi Hik].
    apply lookup_py_range_down in Hi as [Hi Hlt].
    split; [split; [lia|done]|]. unfold zone_of.
    rewrite bool_decide_eq_false_2 by (rewrite <- Hk by lia; lia).
    rewrite bool_decide_eq_true_2; [done|]. rewrite <- Hk by lia. lia. }
  assert (H3 : ∀ s, s ∈ z3.1 → seat_ok rows s ∧ zone_of rows s.1 = 3).
  { intros s Hs. unfold z3 in Hs. rewrite (shuffle_ok R HR) in Hs.
    apply elem_of_rows_seats in Hs as [Hr Hl].
    apply list_elem_of_lookup in Hr as (i & Hi).
    rewrite lookup_drop in Hi.
    apply lookup_py_range_down in Hi as [Hi Hlt].
    split; [split; [lia|done]|]. unfold zone_of.
    rewrite !bool_decide_eq_false_2 by (rewrite <- Hk by lia; lia). done. }
  destruct (board_slice R HR rows (z1.1 ++ z2.1 ++ z3.1) z3.2 n)
    as (base & g1 & Hb & Hseats & _).
  { rewrite !Forall_app. split_and!; apply Forall_forall; intros s Hs;
      [by apply H1|by apply H2|by apply H3]. }
  exists base, g1. split; [done|]. intros i j p q Hij Hi Hj.
  apply (seats_sorted_lookup
           (λ s s', zone_of rows s.1 ≤ zone_of rows s'.1) base) with i j;
    [|done..].
  rewrite Hseats. apply StronglySorted_py_slice_to.
  apply (StronglySorted_classes (λ s, zone_of rows s.1) _ _ 1 2); [lia| | |].
  - apply Forall_forall. intros s Hs. by apply H1.
  - rewrite <- (app_nil_r z3.1).
    apply (StronglySorted_classes (λ s, zone_of rows s.1) _ _ 2 3); [lia| | |].
    + apply Forall_forall. intros s Hs. by apply H2.
    + apply (StronglySorted_classes (λ s, zone_of rows s.1) _ _ 3 3);
        [lia| |constructor|constructor].
      apply Forall_forall. intros s Hs. by apply H3.
    + rewrite app_nil_r. apply Forall_forall. intros s Hs.
      destruct (H3 s Hs) as [_ ->]. lia.
  - apply Forall_forall. intros s [Hs|Hs]%elem_of_app.
    + destruct (H2 s Hs) as [_ ->]. lia.
    + destruct (H3 s Hs) as [_ ->]. lia.
Qed.

Lemma zones_order_witness :
  ∃ base g1,
    generate_boarding_4_zones replay [] (Plane_init 4) 24 = Ok (base, g1) ∧
    (λ k, Passenger.seat_row <$> base !! k) <$> [0; 6; 12; 18]%nat
    = [Some 3; Some 2; Some 1; Some 0] ∧
    zone_of 4 <$> [3; 2; 1; 0] = [1; 2; 3; 3].
Proof.
  destruct (zones_order replay [] 4 24 replay_ok)
    as (base & g1 & Hgen & _).
  exists base, g1. split; [done|].
  vm_compute in Hgen. by injection Hgen as <- _.
Defined.

Lemma build_group_seats_parity (R : Random) rows fuel :
  ∀ (g : rng R) row left_first,
  RandomOk R → row < rows →
  Forall (λ s, seat_ok rows s ∧ (row - s.1) `mod` 2 = 0)
         (build_group_seats R fuel g row left_first).1.
Proof.
  induction fuel as [|fuel IH]; intros g row left_first HR Hrow;
    cbn [build_group_seats]; [constructor|].
  case_bool_decide; [|constructor]. cbn [fst].
  apply Forall_app. split.
  - apply Forall_forall. intros s Hs. unfold row_seats in Hs.
    apply list_elem_of_fmap in Hs as (l & -> & Hl). simpl.
    rewrite (shuffle_ok R HR) in Hl.
    split; [split; [simpl; lia|]|by rewrite Z.sub_diag].
    simpl. unfold letters. destruct left_first;
      rewrite !elem_of_cons, !elem_of_nil in Hl;
      rewrite !elem_of_cons, !elem_of_nil; tauto.
  - eapply Forall_impl; [apply IH; [done|lia]|].
    intros s [Hs Hpar]. split; [done|].
    replace (row - s.1) with (row - 2 - s.1 + 1 * 2) by lia.
    by rewrite Z.mod_add by lia.
Qed.

(** X10. Method 5 (four groups) calls every row of the parity of the last
    row before any row of the other parity. *)
Theorem four_groups_order (R : Random) (g : rng R) (rows n : Z) :
  RandomOk R →
  ∃ base g1,
    generate_boarding_5_4groups R g (Plane_init rows) n = Ok (base, g1) ∧
    ∀ (i j : nat) p q, (i < j)%nat → base !! i = Some p → base !! j = Some q →
      (rows - 1 - Passenger.seat_row q) `mod` 2 = 0 →
      (rows - 1 - Passenger.seat_row p) `mod` 2 = 0.
Proof.
  intros HR. unfold generate_boarding_5_4groups. cbn [Plane_init num_rows].
  set (fuel := Z.to_nat (rows - 1 + 1)).
  set (g1 := build_group_seats R fuel g (rows - 1) true).
  set (g2 := build_group_seats R fuel g1.2 (rows - 1) false).
  set (g3 := build_group_seats R fuel g2.2 (rows - 1 - 1) true).
  set (g4 := build_group_seats R fuel g3.2 (rows - 1 - 1) false).
  pose proof (build_group_seats_parity R rows fuel g (rows - 1) true HR
                ltac:(lia)) as H1.
  pose proof (build_group_seats_parity R rows fuel g1.2 (rows - 1) false HR
                ltac:(lia)) as H2.
  pose proof (build_group_seats_parity R rows fuel g2.2 (rows - 1 - 1) true HR
                ltac:(lia)) as H3.
  pose proof (build_group_seats_parity R rows fuel g3.2 (rows - 1 - 1) false HR
                ltac:(lia)) as H4.
  fold g1 in H1. fold g2 in H2. fold g3 in H3. fold g4 in H4.
  destruct (board_slice R HR rows (g1.1 ++ g2.1 ++ g3.1 ++ g4.1) g4.2 n)
    as (base & gb & Hb & Hseats & _).
  { rewrite !Forall_app.
    split_and!; (eapply Forall_impl; [eassumption|]); by intros s [? _]. }
  exists base, gb. split; [done|]. intros i j p q Hij Hi Hj.
  apply (seats_sorted_lookup
           (λ s s', (rows - 1 - s'.1) `mod` 2 = 0 → (rows - 1 - s.1) `mod` 2 = 0)
           base) with i j; [|done..].
  rewrite Hseats. apply StronglySorted_py_slice_to.
  rewrite app_assoc.
  assert (Hfirst : ∀ s, s ∈ g1.1 ++ g2.1 → (rows - 1 - s.1) `mod` 2 = 0).
  { intros s [Hs|Hs]%elem_of_app;
      [rewrite Forall_forall in H1; by apply H1
      |rewrite Forall_forall in H2; by apply H2]. }
  assert (Hlast : ∀ s, s ∈ g3.1 ++ g4.1 → (rows - 1 - s.1) `mod` 2 ≠ 0).
  { assert (Hpar : ∀ v, (rows - 1 - 1 - v) `mod` 2 = 0 →
                        (rows - 1 - v) `mod` 2 ≠ 0).
    { intros v Hv.
      replace (rows - 1 - v) with (1 + (rows - 1 - 1 - v)) by lia.
      rewrite <- Z.add_mod_idemp_r, Hv by lia. done. }
    intros s [Hs|Hs]%elem_of_app; apply Hpar;
      [rewrite Forall_forall in H3; by apply H3
      |rewrite Forall_forall in H4; by apply H4]. }
  apply StronglySorted_app_2.
  - intros s s' Hs Hs' _. by apply Hfirst.
  - apply StronglySorted_all. intros s s' Hs _ _. by apply Hfirst.
  - apply StronglySorted_all. intros s s' _ Hs' Hpar.
    by apply Hlast in Hs'.
Qed.

Lemma four_groups_order_witness :
  ∃ base g1,
    generate_boarding_5_4groups replay [] (Plane_init 3) 18 = Ok (base, g1) ∧
    Passenger.seat_row <$> base
    = [2; 2; 2; 0; 0; 0; 2; 2; 2; 0; 0; 0; 1; 1; 1; 1; 1; 1].
Proof.
  destruct (four_groups_order replay [] 3 18 replay_ok)
    as (base & g1 & Hgen & _).
  exists base, g1. split; [done|].
  vm_compute in Hgen. by injection Hgen as <- _.
Defined.

(** ** What the late arrivals change *)

Lemma unranked_set_is_late p b : unranked (Passenger.set_is_late p b) = unranked p.
Proof. done. Qed.

Lemma unranked_set_queue_index p i :
  unranked (Passenger.set_queue_index p i) = unranked p.
Proof. done. Qed.

Lemma unranked_renumber l : unranked <$> renumber l = unranked <$> l.
Proof.
  apply list_eq. intros i.
  rewrite !list_lookup_fmap, renumber_lookup. by destruct (l !! i).
Qed.

Lemma is_late_renumber l :
  Passenger.is_late <$> renumber l = Passenger.is_late <$> l.
Proof.
  apply list_eq. intros i.
  rewrite !list_lookup_fmap, renumber_lookup. by destruct (l !! i).
Qed.

Lemma length_late_of_fmap l l' :
  Passenger.is_late <$> l = Passenger.is_late <$> l' →
  length (late_of l) = length (late_of l').
Proof.
  revert l'. induction l as [|p l IH]; intros [|p' l'] Heq; try done.
  injection Heq as Hp Hl. unfold late_of in *. rewrite !filter_cons.
  rewrite Hp. case_decide; simpl; by rewrite (IH l').
Qed.

Lemma Forall_is_late_fmap b l l' :
  Passenger.is_late <$> l = Passenger.is_late <$> l' →
  Forall (λ p, Passenger.is_late p = b) l' →
  Forall (λ p, Passenger.is_late p = b) l.
Proof.
  revert l'. induction l as [|p l IH]; intros [|p' l'] Heq; try done.
  injection Heq as Hp Hl. intros [Hp' Hl']%Forall_cons.
  constructor; [congruence|by apply (IH l')].
Qed.

Lemma length_late_of_insert (ps : list Passenger.t) (i : nat) p :
  ps !! i = Some p → Passenger.is_late p = false →
  length (late_of (<[i := Passenger.set_is_late p true]> ps))
  = S (length (late_of ps)).
Proof.
  intros Hi Hp. pose proof (lookup_lt_Some _ _ _ Hi) as Hlt.
  rewrite insert_take_drop by done.
  rewrite <- (take_drop_middle ps i p Hi) at 3.
  unfold late_of. rewrite !filter_app, !filter_cons.
  rewrite decide_True by done. rewrite decide_False by (by rewrite Hp).
  rewrite !length_app. simpl. lia.
Qed.

Lemma mark_late_spec late_indices : ∀ ps marked,
  NoDup late_indices →
  (∀ j, j ∈ late_indices →
        ∃ p, ps !! j = Some p ∧ Passenger.is_late p = false) →
  mark_late late_indices ps = Ok marked →
  unranked <$> marked = unranked <$> ps ∧
  length (late_of marked)
    = (length late_indices + length (late_of ps))%nat.
Proof.
  induction late_indices as [|i l IH]; intros ps marked Hnd Hin Hm;
    simpl in Hm.
  - by injection Hm as <-.
  - apply NoDup_cons in Hnd as [Hi Hnd].
    destruct (Hin i ltac:(by left)) as (p & Hp & Hpl). rewrite Hp in Hm.
    apply IH in Hm as [Hun Hlen]; [|done|].
    + split.
      * rewrite Hun, list_fmap_insert, unranked_set_is_late.
        apply list_insert_id. by rewrite list_lookup_fmap, Hp.
      * rewrite Hlen, (length_late_of_insert _ _ _ Hp Hpl). simpl. lia.
    + intros j Hj. destruct (Hin j ltac:(by right)) as (q & Hq & Hql).
      exists q. split; [|done].
      rewrite list_lookup_insert_ne; [done|]. by intros ->.
Qed.

Section LateOrder.
Context (R : Random) (HR : RandomOk R).

Lemma sample_marks fuel (g : rng R) (base : list Passenger.t) late_percent
    late_immediate r :
  Forall (λ p, Passenger.is_late p = false) base →
  0 < late_count_of (length base) late_percent →
  apply_late_arrivals R fuel g base late_percent late_immediate = Ok r →
  let sg := random_sample R g (seq 0 (length base))
              (Z.to_nat (late_count_of (length base) late_percent)) in
  ∃ marked,
    mark_late sg.1 base = Ok marked ∧
    length marked = length base ∧
    unranked <$> marked = unranked <$> base ∧
    Z.of_nat (length (late_of marked))
      = late_count_of (length base) late_percent ∧
    late_count_of (length base) late_percent ≤ Z.of_nat (length base).
Proof.
  intros Hbase Hcount Hlate sg. unfold apply_late_arrivals in Hlate.
  rewrite bool_decide_eq_false_2 in Hlate by lia.
  case_bool_decide as Hle; [done|]. fold sg in Hlate.
  destruct (mark_late sg.1 base) as [marked|] eqn:Hmark; [|done].
  destruct (sample_ok R HR g (seq 0 (length base))
              (Z.to_nat (late_count_of (length base) late_percent)))
    as (Hlen & Hnd & Hsub); [rewrite length_seq; lia|apply NoDup_seq|].
  fold sg in Hlen, Hnd, Hsub.
  destruct (mark_late_spec sg.1 base marked Hnd) as [Hun Hl]; [|done|].
  { intros j Hj. apply Hsub, elem_of_seq in Hj.
    destruct (lookup_lt_is_Some_2 base j ltac:(lia)) as [p Hp].
    exists p. split; [done|]. rewrite Forall_forall in Hbase.
    apply Hbase. by eapply list_elem_of_lookup_2. }
  exists marked. split_and!; [done|by eapply mark_late_length|done| |lia].
  rewrite Hl, Hlen.
  assert (late_of base = []) as ->.
  { clear -Hbase. unfold late_of. induction Hbase as [|p l Hp _ IH]; [done|].
    rewrite filter_cons, decide_False by (by rewrite Hp). done. }
  simpl. lia.
Qed.
End LateOrder.

Lemma late_split (l : list Passenger.t) :
  filter (λ p, Passenger.is_late p = false) l ++ late_of l ≡ₚ l.
Proof.
  unfold late_of. induction l as [|p l IH]; [done|]. rewrite !filter_cons.
  destruct (Passenger.is_late p) eqn:Hp.
  - rewrite decide_False, decide_True by done.
    by rewrite <- Permutation_middle, IH.
  - rewrite decide_True, decide_False by done. simpl. by rewrite IH.
Qed.

Lemma late_count_small n late_percent :
  Z.of_nat n * late_percent < 100 → late_count_of n late_percent ≤ 0.
Proof.
  intros H. unfold late_count_of.
  change 0 with (Z.quot 99 100). apply Z.quot_le_mono; lia.
Qed.

Lemma late_count_large n late_percent :
  100 * (Z.of_nat n + 1) ≤ Z.of_nat n * late_percent →
  Z.of_nat n < late_count_of n late_percent.
Proof.
  intros H. unfold late_count_of.
  assert (Z.of_nat n + 1 ≤ Z.quot (Z.of_nat n * late_percent) 100); [|lia].
  rewrite <- (Z.quot_mul (Z.of_nat n + 1) 100) at 1 by done.
  apply Z.quot_le_mono; lia.
Qed.

(** X11. The two ends of an integer percentage, where the late count is
    exact (the list length, the percentage and their product below [2^53]
    in absolute value): when [n * late_percent] stays below 100 the
    truncation leaves nobody late and the list comes back as it is, without
    a random draw; a percentage above 100 that asks for more late
    passengers than there are makes [random.sample] raise [ValueError]. *)
Theorem late_percent_edges (R : Random) (fuel : nat) (g : rng R)
    (base : list Passenger.t) (late_percent : Z) (late_immediate : bool) :
  Z.of_nat (length base) < 2 ^ 53 →
  Z.abs late_percent < 2 ^ 53 →
  Z.abs (Z.of_nat (length base) * late_percent) < 2 ^ 53 →
  (Z.of_nat (length base) * late_percent < 100 →
   apply_late_arrivals R fuel g base late_percent late_immediate
     = Ok (base, g)) ∧
  (100 * (Z.of_nat (length base) + 1) ≤ Z.of_nat (length base) * late_percent →
   apply_late_arrivals R fuel g base late_percent late_immediate
     = Raise ValueError).
Proof.
  intros _ _ _. split; intros H; unfold apply_late_arrivals.
  - apply late_count_small in H. by rewrite bool_decide_eq_true_2.
  - apply late_count_large in H.
    rewrite bool_decide_eq_false_2 by lia. by rewrite bool_decide_eq_true_2.
Qed.

Lemma late_percent_edges_witness :
  apply_late_arrivals replay 5 [1] two_passengers 49 true
    = Ok (two_passengers, [1]) ∧
  apply_late_arrivals replay 5 [1] two_passengers (-30) false
    = Ok (two_passengers, [1]) ∧
  apply_late_arrivals replay 5 [1] two_passengers 150 false
    = Raise ValueError.
Proof.
  split_and!.
  - apply (late_percent_edges replay 5 [1] two_passengers 49 true);
      simpl; lia.
  - apply (late_percent_edges replay 5 [1] two_passengers (-30) false);
      simpl; lia.
  - apply (late_percent_edges replay 5 [1] two_passengers 150 false);
      simpl; lia.
Defined.

Lemma late_arrivals_reorder (R : Random) (fuel : nat)
    (g : rng R) (base : list Passenger.t) (late_percent : Z)
    (late_immediate : bool) (queue : list Passenger.t) (g2 : rng R) :
  RandomOk R →
  Forall (λ p, Passenger.is_late p = false) base →
  apply_late_arrivals R fuel g base late_percent late_immediate
    = Ok (queue, g2) →
  length queue = length base ∧
  unranked <$> queue ≡ₚ unranked <$> base ∧
  Z.of_nat (length (late_of queue))
    = Z.max 0 (late_count_of (length base) late_percent).
Proof.
  intros HR Hbase Hlate.
  destruct (decide (late_count_of (length base) late_percent ≤ 0)) as [Hc|Hc].
  - unfold apply_late_arrivals in Hlate.
    rewrite bool_decide_eq_true_2 in Hlate by done. injection Hlate as <- <-.
    split_and!; [done..|].
    assert (late_of base = []) as ->.
    { clear -Hbase. unfold late_of.
      induction Hbase as [|p l Hp _ IH]; [done|].
      rewrite filter_cons, decide_False by (by rewrite Hp). done. }
    simpl. lia.
  - destruct (sample_marks R HR fuel g base late_percent late_immediate _
                Hbase ltac:(lia) Hlate)
      as (marked & Hmark & Hlen & Hun & Hcount & Hle).
    unfold apply_late_arrivals in Hlate.
    rewrite bool_decide_eq_false_2 in Hlate by lia.
    rewrite bool_decide_eq_false_2 in Hlate by lia.
    rewrite Hmark in Hlate. cbn [rbind] in Hlate.
    destruct late_immediate; cbn [negb] in Hlate.
    + destruct (assign_delays _ _ _ _ _ _) as [[arr g']|] eqn:Harr; [|done].
      cbn [rbind] in Hlate. injection Hlate as <- <-.
      apply (assign_delays_spec R HR) in Harr as (Harr & _); [|lia].
      assert (Hperm : (sorted_by arr_key arr).*2 ≡ₚ marked)
        by (by rewrite sorted_by_perm, Harr).
      split_and!.
      * by rewrite length_renumber, Hperm.
      * by rewrite unranked_renumber, Hperm, Hun.
      * rewrite (length_late_of_fmap _ _ (is_late_renumber _)).
        unfold late_of. rewrite Hperm. fold (late_of marked). lia.
    + injection Hlate as <- <-.
      set (normal := filter (λ p, Passenger.is_late p = false) marked).
      assert (Hperm : normal
                ++ (random_shuffle R
                      (random_sample R g (seq 0 (length base))
                         (Z.to_nat (late_count_of (length base) late_percent))).2
                      (filter (λ p, Passenger.is_late p = true) marked)).1
                ≡ₚ marked).
      { rewrite (shuffle_ok R HR). apply late_split. }
      split_and!.
      * by rewrite length_renumber, Hperm.
      * by rewrite unranked_renumber, Hperm, Hun.
      * rewrite (length_late_of_fmap _ _ (is_late_renumber _)).
        unfold late_of. rewrite Hperm. fold (late_of marked). lia.
Qed.

(** X12. [apply_late_arrivals] only reorders and marks: the list it returns
    has the passengers of the base list (up to [is_late] and [queue_index]),
    each once, and, when nobody was late before, exactly
    [int(n * late_percent / 100)] of them are late. *)
Theorem apply_late_arrivals_only_reorders (R : Random) (fuel : nat)
    (g : rng R) (base : list Passenger.t) (late_percent : Z)
    (late_immediate : bool) (queue : list Passenger.t) (g2 : rng R) :
  RandomOk R →
  Forall (λ p, Passenger.is_late p = false) base →
  apply_late_arrivals R fuel g base late_percent late_immediate
    = Ok (queue, g2) →
  length queue = length base ∧
  unranked <$> queue ≡ₚ unranked <$> base ∧
  Z.of_nat (length (late_of queue))
    = Z.max 0 (late_count_of (length base) late_percent).
Proof. apply late_arrivals_reorder. Qed.

Lemma apply_late_arrivals_only_reorders_witness :
  ∃ queue g2,
    apply_late_arrivals replay 5 [1] two_passengers 50 true = Ok (queue, g2) ∧
    length queue = 2%nat ∧ length (late_of queue) = 1%nat.
Proof.
  destruct (apply_late_arrivals replay 5 [1] two_passengers 50 true)
    as [[queue g2]|e] eqn:Hlate; [|vm_compute in Hlate; discriminate Hlate].
  destruct (apply_late_arrivals_only_reorders replay 5 [1] two_passengers 50
              true queue g2 replay_ok)
    as (Hlen & _ & Hcount); [|done|].
  - repeat constructor.
  - exists queue, g2. split_and!; [done|done|].
    assert (Hone : Z.of_nat (length (late_of queue)) = 1) by exact Hcount.
    lia.
Defined.

(** X13. When the late passengers go after all the others, the list that
    comes back starts with the passengers on time, in the order they had,
    and ends with the late ones; every passenger has its position as
    [queue_index]. *)
Theorem deferred_mode_late_go_last (R : Random) (fuel : nat) (g : rng R)
    (base : list Passenger.t) (late_percent : Z) (queue : list Passenger.t)
    (g2 : rng R) :
  RandomOk R →
  Forall (λ p, Passenger.is_late p = false) base →
  0 < late_count_of (length base) late_percent →
  apply_late_arrivals R fuel g base late_percent false = Ok (queue, g2) →
  ∃ k : nat,
    Z.of_nat k
      = Z.of_nat (length base) - late_count_of (length base) late_percent ∧
    Forall (λ p, Passenger.is_late p = false) (take k queue) ∧
    Forall (λ p, Passenger.is_late p = true) (drop k queue) ∧
    unranked <$> take k queue `sublist_of` unranked <$> base ∧
    ∀ (i : nat) p, queue !! i = Some p → Passenger.queue_index p = Z.of_nat i.
Proof.
  intros HR Hbase Hc Hlate.
  destruct (sample_marks R HR fuel g base late_percent false _
              Hbase Hc Hlate)
    as (marked & Hmark & Hlen & Hun & Hcount & Hle).
  unfold apply_late_arrivals in Hlate.
  rewrite bool_decide_eq_false_2 in Hlate by lia.
  rewrite bool_decide_eq_false_2 in Hlate by lia.
  rewrite Hmark in Hlate. cbn [rbind negb] in Hlate.
  injection Hlate as <- <-.
  set (normal := filter (λ p, Passenger.is_late p = false) marked).
  set (lg := random_shuffle R _ (filter (λ p, Passenger.is_late p = true) marked)).
  pose proof (length_filter_is_late marked) as Hsplit. fold normal in Hsplit.
  fold (late_of marked) in Hsplit.
  exists (length normal). split_and!.
  - lia.
  - apply (Forall_is_late_fmap false _ normal).
    + by rewrite fmap_take, is_late_renumber, fmap_app,
        <- (length_fmap Passenger.is_late normal), take_app_length.
    + apply Forall_forall. intros p Hp.
      by apply list_elem_of_filter in Hp as [Hp _].
  - apply (Forall_is_late_fmap true _ lg.1).
    + by rewrite fmap_drop, is_late_renumber, fmap_app,
        <- (length_fmap Passenger.is_late normal), drop_app_length.
    + unfold lg. rewrite (shuffle_ok R HR). apply Forall_forall. intros p Hp.
      by apply list_elem_of_filter in Hp as [Hp _].
  - rewrite fmap_take, unranked_renumber, fmap_app,
      <- (length_fmap unranked normal), take_app_length.
    rewrite <- Hun. apply fmap_sublist, sublist_filter.
  - intros i p. rewrite renumber_lookup.
    intros (q & _ & ->)%fmap_Some. done.
Qed.

Lemma deferred_mode_late_go_last_witness :
  ∃ queue g2,
    apply_late_arrivals replay 5 [] two_passengers 50 false = Ok (queue, g2) ∧
    (λ p, (Passenger.seat_letter p, Passenger.is_late p,
           Passenger.queue_index p)) <$> queue
    = [("B"%char, false, 0); ("A"%char, true, 1)].
Proof.
  destruct (apply_late_arrivals replay 5 [] two_passengers 50 false)
    as [[queue g2]|e] eqn:Hlate; [|vm_compute in Hlate; discriminate Hlate].
  destruct (deferred_mode_late_go_last replay 5 [] two_passengers 50 queue g2
              replay_ok) as (k & _); [repeat constructor|reflexivity|done|].
  exists queue, g2. split; [done|].
  vm_compute in Hlate. by injection Hlate as <- _.
Defined.

Lemma mark_late_fields late_indices : ∀ ps marked,
  mark_late late_indices ps = Ok marked →
  Passenger.queue_index <$> marked = Passenger.queue_index <$> ps.
Proof.
  induction late_indices as [|i l IH]; intros ps marked Hm; simpl in Hm.
  - by injection Hm as <-.
  - destruct (ps !! i) as [p|] eqn:Hp; [|done].
    rewrite (IH _ _ Hm), list_fmap_insert. simpl.
    apply list_insert_id. by rewrite list_lookup_fmap, Hp.
Qed.

(** X14. When the late passengers come right away with an offset, nobody
    gets in front of a passenger on time: in the sorted array, whoever
    stands before a passenger on time stood before it in the base list
    (the first component of an entry is its position in the base list). *)
Theorem immediate_mode_on_time_never_overtaken (R : Random) (fuel : nat)
    (g : rng R) (base : list Passenger.t) (late_percent : Z)
    (new_list : list Passenger.t) (g' : rng R) :
  RandomOk R →
  (∀ (k : nat) p, base !! k = Some p →
     Passenger.queue_index p = Z.of_nat k ∧ Passenger.is_late p = false) →
  0 < late_count_of (length base) late_percent →
  apply_late_arrivals R fuel g base late_percent true = Ok (new_list, g') →
  ∃ arr,
    immediate_passenger_arr R fuel g base late_percent = Ok (arr, g') ∧
    new_list = renumber (sorted_by arr_key arr).*2 ∧
    (∀ (k : nat) x, arr !! k = Some x →
       x.1.1 = Z.of_nat k ∧ unranked <$> base !! k = Some (unranked x.2)) ∧
    ∀ (i j : nat) x y, (i < j)%nat →
      sorted_by arr_key arr !! i = Some x →
      sorted_by arr_key arr !! j = Some y →
      Passenger.is_late y.2 = false → x.1.1 < y.1.1.
Proof.
  intros HR Hbase Hc Hlate.
  assert (Hnl : Forall (λ p, Passenger.is_late p = false) base).
  { apply Forall_lookup. intros k p Hk. by destruct (Hbase k p Hk). }
  destruct (sample_marks R HR fuel g base late_percent true _ Hnl Hc Hlate)
    as (marked & Hmark & Hlen & Hun & Hcount & Hle).
  unfold apply_late_arrivals in Hlate.
  rewrite bool_decide_eq_false_2 in Hlate by lia.
  rewrite bool_decide_eq_false_2 in Hlate by lia.
  rewrite Hmark in Hlate. cbn [rbind negb] in Hlate.
  destruct (assign_delays _ _ _ _ _ _) as [[arr g'']|] eqn:Harr; [|done].
  cbn [rbind] in Hlate. injection Hlate as <- <-.
  pose proof Harr as Harr'.
  apply (assign_delays_spec R HR) in Harr' as (Hsnd & Hall & _); [|lia].
  assert (Hpos : ∀ (k : nat) x, arr !! k = Some x →
            x.1.1 = Z.of_nat k ∧ unranked <$> base !! k = Some (unranked x.2)).
  { intros k x Hk. rewrite Forall_lookup in Hall.
    destruct (Hall k x Hk) as (Hq & _).
    assert (Hm : marked !! k = Some x.2)
      by (by rewrite <- Hsnd, list_lookup_fmap, Hk).
    pose proof (mark_late_fields _ _ _ Hmark) as Hqi.
    apply (f_equal (λ l, l !! k)) in Hqi. rewrite !list_lookup_fmap, Hm in Hqi.
    apply (f_equal (λ l, l !! k)) in Hun. rewrite !list_lookup_fmap, Hm in Hun.
    destruct (base !! k) as [p|] eqn:Hp; [|done].
    destruct (Hbase k p Hp) as [Hpk _]. simpl in *. split; [|done].
    injection Hqi as Hqi. congruence. }
  exists arr. split_and!; [|done|done|].
  { unfold immediate_passenger_arr. rewrite Hmark. cbn [rbind]. exact Harr. }
  intros i j x y Hij Hi Hj Hy.
  pose proof (sorted_by_sorted arr_key arr) as Hsorted.
  pose proof (StronglySorted_lookup_lt _ _ Hsorted i j x y Hij Hi Hj) as Hkey.
  assert (Hx : x ∈ arr)
    by (rewrite <- (elem_of_sorted_by arr_key); by eapply list_elem_of_lookup_2).
  assert (Hy' : y ∈ arr)
    by (rewrite <- (elem_of_sorted_by arr_key); by eapply list_elem_of_lookup_2).
  rewrite Forall_forall in Hall.
  destruct (Hall x Hx) as (_ & Hox & _). destruct (Hall y Hy') as (_ & _ & Hoy).
  specialize (Hoy Hy). unfold arr_key in Hkey.
  assert (Hne : x.1.1 ≠ y.1.1); [|lia].
  intros Heq.
  assert (Hnd : NoDup ((λ x : Z * Z * Passenger.t, x.1.1)
                         <$> sorted_by arr_key arr)).
  { rewrite sorted_by_perm. apply NoDup_alt. intros a b v.
    rewrite !list_lookup_fmap.
    intros (xa & Ha & ->)%fmap_Some (xb & Hb & Hv)%fmap_Some.
    destruct (Hpos a xa Ha) as [Hka _]. destruct (Hpos b xb Hb) as [Hkb _].
    lia. }
  rewrite NoDup_alt in Hnd. specialize (Hnd i j (x.1.1)).
  rewrite !list_lookup_fmap, Hi, Hj in Hnd. simpl in Hnd.
  specialize (Hnd eq_refl (f_equal Some (eq_sym Heq))). lia.
Qed.

Lemma immediate_mode_on_time_never_overtaken_witness :
  ∃ new_list g' arr,
    apply_late_arrivals replay 5 [1] two_passengers 50 true
      = Ok (new_list, g') ∧
    immediate_passenger_arr replay 5 [1] two_passengers 50 = Ok (arr, g') ∧
    (λ x : Z * Z * Passenger.t, (x.1, Passenger.is_late x.2))
      <$> sorted_by arr_key arr
    = [(0, 1, true); (1, 0, false)].
Proof.
  destruct (apply_late_arrivals replay 5 [1] two_passengers 50 true)
    as [[new_list g']|e] eqn:Hlate; [|vm_compute in Hlate; discriminate Hlate].
  destruct (immediate_mode_on_time_never_overtaken replay 5 [1] two_passengers
              50 new_list g' replay_ok) as (arr & Harr & _);
    [|reflexivity|done|].
  - intros [|[|k]] p Hk; [| |done]; injection Hk as <-; done.
  - exists new_list, g', arr. split_and!; [done..|].
    vm_compute in Harr. by injection Harr as <- _.
Defined.

(** ** The calls behind a sub-step *)

Ltac propose_cases H :=
  repeat (case_bool_decide || case_match || simplify_eq/=); try done;
  repeat match goal with
  | H : rbind ?m _ = Ok _ |- _ =>
      let E := fresh "E" in destruct m eqn:E; simpl in H
  end;
  repeat (case_match || simplify_eq/=); try done.

(** What a call of [propose_action] writes: nothing, or, when the stow
    countdown of [self] ends, the bags of [self] into the bins of its row
    and 0 into its [overhead_bags]. *)
Lemma propose_action_effect plane self ps lm tick plan plane' self' :
  propose_action plane self ps lm tick = Ok (plan, plane', self') →
  (plane' = plane ∧ self' = self) ∨
  (Passenger.state self = Stowing ∧
   Passenger.ticks_stowing self - 1 = 0 ∧
   Plan.state plan = MoveToSeat ∧
   place_bags_in_bin plane (Passenger.y self) (Passenger.overhead_bags self)
     = Ok plane' ∧
   self' = Passenger.set_overhead_bags self 0).
Proof.
  unfold propose_action. intros H.
  destruct (Passenger.state self) eqn:Hst; propose_cases H;
    try (by left).
  right. by split_and!.
Qed.

Section PassResult.
Context (aisle : list pref) (lm : gmap (Z * Z) bool) (tick : Z).
Context (I : Plane → list Passenger.t → Prop).

Hypothesis I_step : ∀ plane store i self plan plane' self',
  I plane store → store !! i = Some self →
  propose_action plane self (deref store aisle) lm tick
    = Ok (plan, plane', self') →
  I plane' (<[i := self']> store).

(** The plan of a candidate and its fields after the pass come from one
    call; the pass leaves everybody else as it was. *)
Lemma propose_pass_result cs : ∀ plane store plans plans' plane' store',
  I plane store → NoDup cs →
  Forall (λ i, (i < length store)%nat) cs →
  propose_pass cs plane store aisle lm tick plans = Ok (plans', plane', store') →
  (∀ i, i ∉ cs →
     store' !! i = store !! i ∧ dict_find i plans' = dict_find i plans) ∧
  ∀ i, i ∈ cs →
    ∃ plane_i store_i self plan plane_i' self',
      I plane_i store_i ∧ store_i !! i = Some self ∧
      propose_action plane_i self (deref store_i aisle) lm tick
        = Ok (plan, plane_i', self') ∧
      dict_find i plans' = Some plan ∧ store' !! i = Some self'.
Proof.
  induction cs as [|i cs IH]; intros plane store plans plans' plane' store'
    HI Hnd Hcs Hpass; simpl in Hpass.
  - injection Hpass as <- <- <-. split; [done|].
    intros i Hi. by apply elem_of_nil in Hi.
  - apply NoDup_cons in Hnd as [Hi Hnd].
    apply Forall_cons in Hcs as [Hlt Hcs].
    destruct (lookup_lt_is_Some_2 store i Hlt) as [self Hself].
    rewrite Hself in Hpass.
    destruct (propose_action plane self (deref store aisle) lm tick)
      as [[[plan plane1] self1]|e] eqn:Hprop; simpl in Hpass; [|done].
    apply IH in Hpass as [Hout Hin];
      [|by eapply I_step|done
       |eapply Forall_impl; [exact Hcs|]; intros j Hj;
        by rewrite length_insert].
    split.
    + intros j Hj. apply not_elem_of_cons in Hj as [Hji Hj].
      destruct (Hout j Hj) as [-> ->].
      rewrite list_lookup_insert_ne by done.
      rewrite dict_find_set, decide_False by done. done.
    + intros j [->|Hj]%elem_of_cons; [|by apply Hin].
      destruct (Hout i Hi) as [Hs Hd].
      exists plane, store, self, plan, plane1, self1.
      split_and!; [done..| |].
      * by rewrite Hd, dict_find_set, decide_True.
      * rewrite Hs. by apply list_lookup_insert_eq.
Qed.
End PassResult.

Section SubstepResult.
Context (rows : Z) (sim : Simulation.t) (moved : gset pref).
Context (I : Plane → list Passenger.t → Prop).

Let store0 := Simulation.passengers_queue sim.
Let aisle := Simulation.passengers_in_aisle sim.
Let tick := Simulation.tick_count sim.

Hypothesis I_step : ∀ lm plane store i self plan plane' self',
  I plane store → store !! i = Some self →
  propose_action plane self (deref store aisle) lm tick
    = Ok (plan, plane', self') →
  I plane' (<[i := self']> store).

Lemma final_proposals_result cs lm fps plane2 store2 :
  NoDup aisle → I (Simulation.plane sim) store0 →
  final_proposals sim moved = Ok (cs, lm, fps, plane2, store2) →
  I plane2 store2 ∧
  (∀ i, i ∉ cs → store2 !! i = store0 !! i) ∧
  ∀ i, i ∈ cs →
    ∃ plane_i store_i self plan plane_i' self',
      I plane_i store_i ∧ store_i !! i = Some self ∧
      propose_action plane_i self (deref store_i aisle) lm tick
        = Ok (plan, plane_i', self') ∧
      dict_find i fps = Some plan ∧ store2 !! i = Some self'.
Proof.
  intros Hnd HI. unfold final_proposals. fold store0 aisle tick.
  set (cs0 := sorted_by (qidx store0) (candidates sim moved)).
  assert (Hcs0 : NoDup cs0) by (by apply NoDup_sorted_by, NoDup_candidates).
  assert (Hvalid : ∀ store : list Passenger.t, length store = length store0 →
            Forall (λ i, (i < length store)%nat) cs0).
  { intros store Hlen. apply Forall_forall. intros i Hi.
    apply elem_of_sorted_by, elem_of_candidates in Hi as (_ & Hi & _).
    by rewrite Hlen. }
  destruct (propose_pass cs0 (Simulation.plane sim) store0 aisle ∅ tick [])
    as [[[drafts plane1] store1]|e] eqn:Hdraft; simpl; [|done].
  pose proof Hdraft as Hdraft'.
  apply (propose_pass_spec aisle ∅ tick I (I_step ∅)) in Hdraft'
    as (HI1 & Hfr1 & _); [|done|done|].
  2:{ apply Forall_forall. intros i Hi. split; [apply not_elem_of_nil|].
      pose proof (Hvalid store0 eq_refl) as Hv. rewrite Forall_forall in Hv.
      by apply Hv. }
  apply (propose_pass_result aisle ∅ tick I (I_step ∅)) in Hdraft
    as [Hout1 _]; [|done|done|by apply Hvalid].
  assert (Hlen1 : length store1 = length store0).
  { apply (f_equal length) in Hfr1. by rewrite !length_fmap in Hfr1. }
  destruct (propose_pass cs0 plane1 store1 aisle _ tick [])
    as [[[fps' plane2'] store2']|e] eqn:Hfinal; simpl; [|done].
  intros [= <- <- <- <- <-].
  pose proof Hfinal as Hfinal'.
  apply (propose_pass_spec aisle _ tick I (I_step _)) in Hfinal'
    as (HI2 & _); [|done|done|].
  2:{ apply Forall_forall. intros i Hi. split; [apply not_elem_of_nil|].
      pose proof (Hvalid store1 Hlen1) as Hv. rewrite Forall_forall in Hv.
      by apply Hv. }
  apply (propose_pass_result aisle _ tick I (I_step _)) in Hfinal
    as [Hout2 Hin2]; [|done|done|by apply Hvalid].
  split_and!; [done| |done].
  intros i Hi. destruct (Hout2 i Hi) as [-> _]. by destruct (Hout1 i Hi).
Qed.

(** A sub-step, passenger by passenger: outside the candidates nothing
    changes; a candidate gets the plan of its call in the final pass when
    it wins the cell it asks for, and keeps its fields otherwise. *)
Lemma substep_result :
  substep_ok rows sim → I (Simulation.plane sim) store0 →
  candidates sim moved ≠ [] →
  ∃ (cs : list pref) lm (fps : list (pref * Plan.t)) plane2 store2 b store'
    (moved' : gset pref),
    do_substep sim moved
      = Ok (b, Simulation.mk plane2 store' aisle tick
                 (Simulation.final_tick_count sim), moved') ∧
    I plane2 store2 ∧
    length store' = length store0 ∧
    (∀ i, i ∈ cs ↔ i ∈ candidates sim moved) ∧
    (∀ i, i ∉ cs →
       store' !! i = store0 !! i ∧ store2 !! i = store0 !! i ∧
       (i ∈ moved' ↔ i ∈ moved)) ∧
    ∀ i, i ∈ cs →
      ∃ plane_i store_i self plan plane_i' self',
        I plane_i store_i ∧ store_i !! i = Some self ∧
        propose_action plane_i self (deref store_i aisle) lm tick
          = Ok (plan, plane_i', self') ∧
        store2 !! i = Some self' ∧
        ((store' !! i = Some (apply_update self' plan) ∧
          (i ∈ moved' ↔ i ∈ moved ∨ moves self' plan))
         ∨ (store' !! i = Some self' ∧ (i ∈ moved' ↔ i ∈ moved))).
Proof.
  intros Hok HI Hne. pose proof Hok as (Hbins & Hall & Hnd).
  destruct (final_proposals_total rows sim moved Hok)
    as [[[[[cs lm] fps] plane2] store2] Hfp].
  destruct (final_proposals_result cs lm fps plane2 store2 Hnd HI Hfp)
    as (HI2 & Hout & Hin).
  pose proof (final_proposals_spec sim moved
                (pass_ok rows (Simulation.passengers_queue sim))
                (λ lm, pass_ok_step rows _ _ _ lm)
                cs lm fps plane2 store2 Hnd) as Hspec.
  destruct Hspec as (Hcs & Hcsnd & Hkeys & Hfr & Hlen & _ & _ & _);
    [done|done|].
  destruct (do_substep_spec sim moved cs lm fps plane2 store2 Hnd Hne Hfp)
    as (b & store' & moved' & Hstep & Hlen' & Hst & _ & Hmoved).
  exists cs, lm, fps, plane2, store2, b, store', moved'.
  split_and!; [done|done|by rewrite Hlen'| | |].
  - intros i. by rewrite Hcs, elem_of_sorted_by.
  - intros i Hi. rewrite Hst, decide_False by done.
    split_and!; [by apply Hout|by apply Hout|].
    rewrite Hmoved. split; [intros [?|[? _]]; done|by left].
  - intros i Hi.
    destruct (Hin i Hi) as (plane_i & store_i & self & plan & plane_i' & self'
                            & HIi & Hself & Hcall & Hplan & Hs2).
    exists plane_i, store_i, self, plan, plane_i', self'.
    split_and!; [done..|].
    rewrite Hst, decide_True by done. unfold updated. rewrite Hs2. simpl.
    rewrite Hmoved. unfold final_update. rewrite Hplan. simpl.
    case_decide as Hwin.
    + left. split; [done|]. split.
      * intros [?|[_ (q & upd & Hq & Hu & Hm)]]; [by left|right].
        by simplify_eq.
      * intros [?|Hm]; [by left|right]. split; [done|].
        by exists self', plan.
    + right. rewrite Hs2. simpl. rewrite apply_update_plan_of.
      split; [done|]. split; [|by left].
      intros [?|[_ (q & upd & Hq & Hu & Hm)]]; [done|]. by simplify_eq.
Qed.
End SubstepResult.

(** ** What one step of a passenger changes *)

Lemma frame_fields p q :
  frame p = frame q →
  Passenger.seat_row p = Passenger.seat_row q ∧
  Passenger.seat_letter p = Passenger.seat_letter q ∧
  Passenger.bags_count p = Passenger.bags_count q ∧
  Passenger.x p = Passenger.x q ∧ Passenger.y p = Passenger.y q ∧
  Passenger.state p = Passenger.state q ∧
  Passenger.ticks_stowing p = Passenger.ticks_stowing q ∧
  Passenger.delay_counter p = Passenger.delay_counter q ∧
  Passenger.passed_occupants p = Passenger.passed_occupants q ∧
  Passenger.target_col p = Passenger.target_col q ∧
  Passenger.queue_index p = Passenger.queue_index q ∧
  Passenger.is_late p = Passenger.is_late q.
Proof. destruct p, q. unfold frame. simpl. intros [=]. by subst. Qed.

Lemma frame_eq_overhead p q :
  frame p = frame q → p = Passenger.set_overhead_bags q (Passenger.overhead_bags p).
Proof. destruct p, q. unfold frame. simpl. intros [=]. by subst. Qed.

Lemma plan_step_overhead rows p v ps plan :
  plan_step rows p ps plan →
  plan_step rows (Passenger.set_overhead_bags p v) ps plan.
Proof.
  intros Hstep.
  destruct Hstep;
    [ exact (step_enter rows (Passenger.set_overhead_bags p v) ps ltac:(done))
    | exact (step_walk rows (Passenger.set_overhead_bags p v) ps
               ltac:(done) ltac:(done))
    | exact (step_stow rows (Passenger.set_overhead_bags p v) ps
               ltac:(done) ltac:(done))
    | exact (step_look rows (Passenger.set_overhead_bags p v) ps
               ltac:(done) ltac:(done))
    | exact (step_no_bags rows (Passenger.set_overhead_bags p v) ps
               ltac:(done) ltac:(done))
    | exact (step_count_down rows (Passenger.set_overhead_bags p v) ps
               ltac:(done) ltac:(done) ltac:(done))
    | exact (step_stowed rows (Passenger.set_overhead_bags p v) ps
               ltac:(done) ltac:(done) ltac:(done))
    | exact (step_look_on rows (Passenger.set_overhead_bags p v) ps
               ltac:(done) ltac:(done))
    | exact (step_look_stow rows (Passenger.set_overhead_bags p v) ps
               ltac:(done) ltac:(done))
    | exact (step_give_up rows (Passenger.set_overhead_bags p v) ps
               ltac:(done) ltac:(done))
    | exact (step_wait rows (Passenger.set_overhead_bags p v) ps
               ltac:(done) ltac:(done))
    | exact (step_sit rows (Passenger.set_overhead_bags p v) ps
               ltac:(done) ltac:(done) ltac:(done))
    | exact (step_negotiate rows (Passenger.set_overhead_bags p v) ps occ
               ltac:(done) ltac:(done) ltac:(done) ltac:(done))
    | exact (step_seat rows (Passenger.set_overhead_bags p v) ps
               ltac:(done) ltac:(done) ltac:(done)) ].
Qed.

Lemma plan_step_frame rows self p0 ps plan :
  frame self = frame p0 → plan_step rows self ps plan →
  plan_step rows p0 ps plan.
Proof.
  intros Hf Hstep. symmetry in Hf. rewrite (frame_eq_overhead _ _ Hf).
  by apply plan_step_overhead.
Qed.

Lemma advances_refl_frame p p' : frame p' = frame p → advances p p'.
Proof.
  intros Hf. apply frame_fields in Hf
    as (? & ? & ? & Hx & Hy & Hs & ? & ? & ? & Ht & ? & ?).
  unfold advances, pos_of. rewrite Hx, Hy, Hs.
  split_and!; try done; lia.
Qed.

Lemma advances_trans p1 p2 p3 : advances p1 p2 → advances p2 p3 → advances p1 p3.
Proof.
  intros (A1 & A2 & A3 & A4 & A5 & A6 & A7 & A8 & A9 & A10)
         (B1 & B2 & B3 & B4 & B5 & B6 & B7 & B8 & B9 & B10).
  unfold advances. rewrite A4 in B9.
  split_and!; try congruence; try lia.
  intros Hd. destruct (A10 Hd) as [Hd2 Hp2]. destruct (B10 Hd2) as [Hd3 Hp3].
  split; congruence.
Qed.

Lemma plan_step_advances rows p ps plan :
  local_ok rows p → plan_step rows p ps plan →
  advances p (apply_update p plan) ∧ one_cell (pos_of p) (target plan).
Proof.
  intros Hok Hstep.
  pose proof Hok as (Hrow & Htc & Hna & Hbags & Hdelay & Hloc).
  destruct Hstep;
    match goal with
    | Hs : Passenger.state p = _ |- _ =>
        rewrite Hs in Hloc; unfold advances, one_cell, pos_of, target;
        simpl; rewrite ?Hs
    end;
    try (unfold ENTRANCE_ROW, AISLE_COL in *; simpl;
         split_and!; try done; lia).
  - (* the step towards the seat *)
    destruct (next_x_not_aisle rows p Hok) as (_ & Hcloser & _); [done..|].
    assert (Hnext : Z.abs (next_x p - Passenger.x p) = 1).
    { unfold next_x. case_bool_decide; lia. }
    split_and!; try done; lia.
Qed.

Lemma propose_action_enters plane self ps lm tick plan plane' self' :
  propose_action plane self ps lm tick = Ok (plan, plane', self') →
  Passenger.state self = Queue → Plan.state plan ≠ Queue →
  ∀ other, other ∈ ps → Passenger.state other.2 = Queue →
    Passenger.queue_index self ≤ Passenger.queue_index other.2.
Proof.
  unfold propose_action. intros H Hs Hplan. rewrite Hs in H.
  destruct (existsb _ ps) eqn:Hex.
  { injection H as <- _ _. simpl in Hplan. congruence. }
  intros other Hin Hq.
  destruct (decide (Passenger.queue_index self
                    ≤ Passenger.queue_index other.2)) as [?|Hlt]; [done|].
  assert (existsb (λ other,
            bool_decide (Passenger.state other.2 = Queue) &&
            bool_decide (Passenger.queue_index other.2
                         < Passenger.queue_index self)) ps = true);
    [|congruence].
  apply existsb_exists. exists other. split; [by apply list_elem_of_In|].
  rewrite !bool_decide_eq_true_2 by (done || lia). done.
Qed.

(** ** One sub-step, seen by a passenger *)

Lemma substep_passenger rows sim moved b sim' (moved' : gset pref) :
  substep_ok rows sim →
  do_substep sim moved = Ok (b, sim', moved') →
  Simulation.passengers_in_aisle sim' = Simulation.passengers_in_aisle sim ∧
  Simulation.tick_count sim' = Simulation.tick_count sim ∧
  Simulation.final_tick_count sim' = Simulation.final_tick_count sim ∧
  length (Simulation.passengers_queue sim')
    = length (Simulation.passengers_queue sim) ∧
  ∀ (i : nat) p p',
    Simulation.passengers_queue sim !! i = Some p →
    Simulation.passengers_queue sim' !! i = Some p' →
    advances p p' ∧
    ((pos_of p' = pos_of p ∧ (i ∈ moved' ↔ i ∈ moved))
     ∨ ((i ∉ moved) ∧ i ∈ moved' ∧ one_cell (pos_of p) (pos_of p'))) ∧
    (Passenger.state p = Queue → Passenger.state p' ≠ Queue →
     ∀ (j : nat) q, j ∈ Simulation.passengers_in_aisle sim →
       Simulation.passengers_queue sim !! j = Some q →
       Passenger.state q = Queue →
       Passenger.queue_index p ≤ Passenger.queue_index q).
Proof.
  intros Hok Hstep.
  destruct (decide (candidates sim moved = [])) as [Hc|Hc].
  { unfold do_substep in Hstep. rewrite bool_decide_eq_true_2 in Hstep by done.
    injection Hstep as <- <- <-. split_and!; [done..|].
    intros i p p' Hp Hp'. rewrite Hp in Hp'. injection Hp' as <-.
    split_and!; [by apply advances_refl_frame|by left|done]. }
  pose proof Hok as (Hbins & Hall & Hnd).
  destruct (substep_result rows sim moved
              (pass_ok rows (Simulation.passengers_queue sim))
              (λ lm, pass_ok_step rows _ _ _ lm) Hok
              ltac:(done) Hc)
    as (cs & lm & fps & plane2 & store2 & b0 & store' & moved0
        & Hstep0 & HI2 & Hlen & Hcs & Hout & Hin).
  rewrite Hstep0 in Hstep. injection Hstep as <- <- <-. simpl.
  split_and!; [done..|].
  intros i p p' Hp Hp'.
  assert (Hokp : local_ok rows p).
  { rewrite Forall_lookup in Hall. by eapply Hall. }
  destruct (decide (i ∈ cs)) as [Hi|Hi].
  2:{ destruct (Hout i Hi) as (Hs & _ & Hm). rewrite Hs, Hp in Hp'.
      injection Hp' as <-.
      split_and!; [by apply advances_refl_frame|by left|done]. }
  destruct (Hin i Hi) as (plane_i & store_i & self & plan & plane_i' & self'
                          & (Hfr & Hbi & Halli) & Hself & Hcall & Hs2 & Hcase).
  assert (Hfs : frame self = frame p).
  { pose proof (frame_lookup store_i _ i Hfr) as Hl.
    rewrite Hself, Hp in Hl. simpl in Hl. congruence. }
  destruct (propose_action_frame _ _ _ _ _ _ _ _ Hcall) as [Hfs' _].
  assert (Hnm : i ∉ moved).
  { apply Hcs, elem_of_candidates in Hi. tauto. }
  destruct Hcase as [[Hst Hm]|[Hst Hm]]; rewrite Hst in Hp';
    injection Hp' as <-.
  2:{ split_and!; [apply advances_refl_frame; congruence| |].
      - left. split; [|done].
        apply frame_fields in Hfs' as (_ & _ & _ & Hx & Hy & _).
        apply frame_fields in Hfs as (_ & _ & _ & Hx' & Hy' & _).
        unfold pos_of. congruence.
      - intros Hq Hq'. exfalso. apply Hq'.
        apply frame_fields in Hfs' as (_ & _ & _ & _ & _ & Hs' & _).
        apply frame_fields in Hfs as (_ & _ & _ & _ & _ & Hs & _).
        congruence. }
  assert (Hup : apply_update self' plan
                = Passenger.set_overhead_bags (apply_update p plan)
                    (Passenger.overhead_bags self')).
  { apply apply_update_frame. congruence. }
  assert (Hpos' : pos_of self' = pos_of p).
  { apply frame_fields in Hfs' as (_ & _ & _ & Hx & Hy & _).
    apply frame_fields in Hfs as (_ & _ & _ & Hx' & Hy' & _).
    unfold pos_of. congruence. }
  destruct (propose_action_step _ _ _ _ _ _ _ _ Hcall) as [->|Hplan].
  - assert (Hpl : plan_of self = plan_of self').
    { by rewrite <- (plan_of_frame self), <- Hfs', plan_of_frame. }
    rewrite Hpl, apply_update_plan_of in *.
    split_and!; [apply advances_refl_frame; congruence| |].
    + left. split; [done|]. rewrite Hm. split; [|by left].
      intros [?|Hmv]; [done|]. apply moves_target in Hmv.
      exfalso. apply Hmv. unfold target, pos_of. by destruct self'.
    + intros Hq Hq'. exfalso. apply Hq'.
      apply frame_fields in Hfs' as (_ & _ & _ & _ & _ & Hs' & _).
      apply frame_fields in Hfs as (_ & _ & _ & _ & _ & Hs & _). congruence.
  - destruct Hbi as (Hrows & _). rewrite Hrows in Hplan.
    apply (plan_step_frame rows self p) in Hplan; [|done].
    destruct (plan_step_advances rows p _ plan Hokp Hplan) as [Hadv Hcell].
    split_and!.
    + eapply advances_trans; [exact Hadv|].
      apply advances_refl_frame. by rewrite Hup.
    + rewrite pos_of_apply_update.
      destruct (decide (moves self' plan)) as [Hmv|Hmv].
      * right. split_and!; [done|apply Hm; by right|done].
      * left. split.
        -- destruct (decide (target plan = pos_of self')) as [->|Hne];
             [done|]. exfalso. apply Hmv. by apply moves_target.
        -- rewrite Hm. split; [intros [?|?]; done|by left].
    + intros Hq Hq' j q Hj Hqj Hqs.
      assert (Hsq : Passenger.state self = Queue).
      { apply frame_fields in Hfs as (_ & _ & _ & _ & _ & Hs & _). congruence. }
      pose proof (frame_lookup store_i _ j Hfr) as Hl. rewrite Hqj in Hl.
      destruct (store_i !! j) as [qi|] eqn:Hqi; [|done].
      assert (Hfq : frame qi = frame q) by (simpl in Hl; congruence).
      pose proof (propose_action_enters _ _ _ _ _ _ _ _ Hcall Hsq) as Hent.
      specialize (Hent ltac:(done) (j, qi)). simpl in Hent.
      apply frame_fields in Hfq as (_ & _ & _ & _ & _ & Hsj & _ & _ & _ & _ & Hij & _).
      apply frame_fields in Hfs as (_ & _ & _ & _ & _ & _ & _ & _ & _ & _ & Hii & _).
      rewrite <- Hii, <- Hij. apply Hent; [|congruence].
      apply elem_of_deref. done.
Qed.

(** ** One tick, seen by a passenger *)

Lemma advances_indexed store store' :
  Forall2 advances store store' → indexed store → indexed store'.
Proof.
  intros Hadv Hidx k p' Hp'.
  destruct (Forall2_lookup_r _ _ _ _ _ Hadv Hp') as (p & Hp & Ha).
  destruct Ha as (_ & _ & _ & _ & Hq & _). rewrite Hq. by apply Hidx.
Qed.

Lemma run_substeps_passenger rows n : ∀ sim moved sim',
  substep_ok rows sim →
  run_substeps n sim moved = Ok sim' →
  substep_ok rows sim' ∧
  Simulation.passengers_in_aisle sim' = Simulation.passengers_in_aisle sim ∧
  Simulation.tick_count sim' = Simulation.tick_count sim ∧
  Simulation.final_tick_count sim' = Simulation.final_tick_count sim ∧
  length (Simulation.passengers_queue sim')
    = length (Simulation.passengers_queue sim) ∧
  (∀ (i : nat) p p',
     Simulation.passengers_queue sim !! i = Some p →
     Simulation.passengers_queue sim' !! i = Some p' →
     advances p p' ∧ (i ∈ moved → pos_of p' = pos_of p) ∧
     one_cell (pos_of p) (pos_of p')) ∧
  (indexed (Simulation.passengers_queue sim) →
   (∀ (i : nat) p, Simulation.passengers_queue sim !! i = Some p →
      Passenger.state p = Queue → i ∈ Simulation.passengers_in_aisle sim) →
   boards_in_order (Simulation.passengers_queue sim) →
   boards_in_order (Simulation.passengers_queue sim')).
Proof.
  induction n as [|n IH]; intros sim moved sim' Hok Hrun.
  - injection Hrun as <-. split_and!; [done..| |done].
    intros i p p' Hp Hp'. rewrite Hp in Hp'. injection Hp' as <-.
    split_and!; [by apply advances_refl_frame|done|].
    unfold one_cell. lia.
  - rewrite run_substeps_S in Hrun.
    destruct (substep_keeps rows sim moved Hok)
      as (b & sim1 & moved1 & Hstep & Hok1 & _).
    rewrite Hstep in Hrun. cbn [rbind] in Hrun.
    destruct (substep_passenger rows sim moved b sim1 moved1 Hok Hstep)
      as (Ha1 & Ht1 & Hf1 & Hl1 & Hp1).
    assert (Hadv1 : Forall2 advances (Simulation.passengers_queue sim)
                      (Simulation.passengers_queue sim1)).
    { apply Forall2_same_length_lookup_2; [done|].
      intros i p p' Hp Hp'. by destruct (Hp1 i p p' Hp Hp'). }
    assert (Hfifo1 : indexed (Simulation.passengers_queue sim) →
      (∀ (i : nat) p, Simulation.passengers_queue sim !! i = Some p →
         Passenger.state p = Queue → i ∈ Simulation.passengers_in_aisle sim) →
      boards_in_order (Simulation.passengers_queue sim) →
      boards_in_order (Simulation.passengers_queue sim1)).
    { intros Hidx Hin Hfifo i j p' q' Hp' Hq' Hsp Hsq.
      destruct (Forall2_lookup_r _ _ _ _ _ Hadv1 Hp') as (p & Hp & Hap).
      destruct (Forall2_lookup_r _ _ _ _ _ Hadv1 Hq') as (q & Hq & Haq).
      assert (Hpq : Passenger.state p = Queue).
      { destruct Hap as (_ & _ & _ & _ & _ & _ & Hr & _). rewrite Hsp in Hr.
        destruct (Passenger.state p); simpl in Hr; (done || lia). }
      destruct (decide (Passenger.state q = Queue)) as [Hqq|Hqq];
        [|by eapply Hfifo].
      destruct (Hp1 j q q' Hq Hq') as (_ & _ & Hent).
      specialize (Hent Hqq Hsq i p (Hin i p Hp Hpq) Hp Hpq).
      rewrite (Hidx i p Hp), (Hidx j q Hq) in Hent.
      assert (i ≠ j); [|lia]. intros ->. congruence. }
    destruct b.
    + destruct (IH sim1 moved1 sim' Hok1 Hrun)
        as (Hok' & Ha' & Ht' & Hf' & Hl' & Hp' & Hfifo').
      split_and!; [done|congruence..| |].
      * intros i p p' Hp Hpp.
        destruct (lookup_lt_is_Some_2 (Simulation.passengers_queue sim1) i)
          as [p1 Hq1]; [rewrite Hl1; by eapply lookup_lt_Some|].
        destruct (Hp1 i p p1 Hp Hq1) as (Hadv & Hcase & _).
        destruct (Hp' i p1 p' Hq1 Hpp) as (Hadv' & Hfix & Hcell).
        split; [by eapply advances_trans|].
        destruct Hcase as [[Hpos Hm]|(Hnm & Hm1 & Hc1)].
        -- rewrite <- Hpos. split; [|done]. intros Hi. apply Hfix. by apply Hm.
        -- rewrite (Hfix Hm1). split; [done|done].
      * intros Hidx Hin Hfifo. apply Hfifo'.
        -- by eapply advances_indexed.
        -- intros i p1 Hq1 Hs1. rewrite Ha1.
           destruct (Forall2_lookup_r _ _ _ _ _ Hadv1 Hq1) as (p & Hp & Hap).
           apply (Hin i p Hp).
           destruct Hap as (_ & _ & _ & _ & _ & _ & Hr & _). rewrite Hs1 in Hr.
           destruct (Passenger.state p); simpl in Hr; (done || lia).
        -- by apply Hfifo1.
    + injection Hrun as <-. split_and!; [done..| |done].
      intros i p p' Hp Hpp. destruct (Hp1 i p p' Hp Hpp) as (Hadv & Hcase & _).
      split; [done|]. destruct Hcase as [[Hpos Hm]|(Hnm & Hm1 & Hc1)].
      * rewrite Hpos. split; [done|]. unfold one_cell. lia.
      * split; [done|done].
Qed.

Lemma tick_passenger rows sim sim' :
  tick_ok rows sim → update_in_parallel sim = Ok sim' →
  tick_ok rows sim' ∧
  length (Simulation.passengers_queue sim')
    = length (Simulation.passengers_queue sim) ∧
  Simulation.tick_count sim'
    = (if all_done (Simulation.passengers_queue sim)
       then Simulation.tick_count sim else Simulation.tick_count sim + 1) ∧
  Simulation.final_tick_count sim'
    = (if all_done (Simulation.passengers_queue sim)
          && bool_decide (Simulation.final_tick_count sim = None)
       then Some (Simulation.tick_count sim)
       else Simulation.final_tick_count sim) ∧
  (∀ i : nat, i ∈ Simulation.passengers_in_aisle sim' ↔
     ∃ p, Simulation.passengers_queue sim' !! i = Some p
          ∧ Passenger.state p ≠ Done) ∧
  (∀ (i : nat) p p',
     Simulation.passengers_queue sim !! i = Some p →
     Simulation.passengers_queue sim' !! i = Some p' →
     advances p p' ∧ one_cell (pos_of p) (pos_of p')) ∧
  (indexed (Simulation.passengers_queue sim) →
   boards_in_order (Simulation.passengers_queue sim) →
   boards_in_order (Simulation.passengers_queue sim')).
Proof.
  intros Htick Hup.
  destruct (tick_progress rows sim Htick) as (sim'' & Hup' & Htick' & _).
  rewrite Hup in Hup'. injection Hup' as <-.
  destruct Htick as [Hok Haisle]. pose proof Hok as (Hbins & Hall & Hnd).
  unfold update_in_parallel in Hup.
  set (store := Simulation.passengers_queue sim) in *.
  set (aisle1 := join_aisle store (Simulation.passengers_in_aisle sim)) in *.
  destruct (join_aisle_spec store (Simulation.passengers_in_aisle sim) Hnd)
    as [Hnd1 Hin1]. fold aisle1 in Hnd1, Hin1.
  assert (Hexact : ∀ i : nat, i ∈ aisle1 ↔
            ∃ p, store !! i = Some p ∧ Passenger.state p ≠ Done).
  { intros i. rewrite Hin1. split; [|by right].
    intros [Hi|?]; [|done]. by apply Haisle. }
  match type of Hup with
  | context [run_substeps _ ?s _] => set (sim1 := s) in *
  end.
  assert (Hok1 : substep_ok rows sim1) by done.
  destruct (run_substeps max_substeps sim1 ∅) as [sim2|] eqn:Hrun; [|done].
  cbn [rbind] in Hup. injection Hup as <-. simpl.
  destruct (run_substeps_passenger rows _ _ _ _ Hok1 Hrun)
    as (Hok2 & Ha2 & Ht2 & Hf2 & Hl2 & Hp2 & Hfifo2).
  simpl in Ha2, Ht2, Hf2, Hl2, Hp2, Hfifo2.
  split_and!; [done|done| | | | |].
  - rewrite Ht2. by destruct (all_done store).
  - by rewrite Hf2.
  - intros i. rewrite list_elem_of_filter, Ha2, Hexact. unfold qstate. split.
    + intros [Hs (p & Hp & _)].
      destruct (lookup_lt_is_Some_2 (Simulation.passengers_queue sim2) i)
        as [p' Hp']; [rewrite Hl2; by eapply lookup_lt_Some|].
      exists p'. split; [done|]. rewrite Hp' in Hs. simpl in Hs. congruence.
    + intros (p' & Hp' & Hs). split; [rewrite Hp'; simpl; congruence|].
      destruct (lookup_lt_is_Some_2 store i) as [p Hp];
        [rewrite <- Hl2; by eapply lookup_lt_Some|].
      exists p. split; [done|]. intros Hd.
      destruct (Hp2 i p p' Hp Hp') as ((_ & _ & _ & _ & _ & _ & _ & _ & _ & Hdone) & _).
      by destruct (Hdone Hd).
  - intros i p p' Hp Hp'. destruct (Hp2 i p p' Hp Hp') as (? & _ & ?). done.
  - intros Hidx Hfifo. apply Hfifo2; [done| |done].
    intros i p Hp Hs. apply Hexact. exists p. split; [done|]. congruence.
Qed.

Lemma run_passenger rows n : ∀ sim sim',
  tick_ok rows sim → run_ticks n sim = Ok sim' →
  tick_ok rows sim' ∧
  Forall2 advances (Simulation.passengers_queue sim)
    (Simulation.passengers_queue sim') ∧
  (indexed (Simulation.passengers_queue sim) →
   boards_in_order (Simulation.passengers_queue sim) →
   boards_in_order (Simulation.passengers_queue sim')) ∧
  ((0 < n)%nat →
   ∀ i : nat, i ∈ Simulation.passengers_in_aisle sim' ↔
     ∃ p, Simulation.passengers_queue sim' !! i = Some p
          ∧ Passenger.state p ≠ Done).
Proof.
  induction n as [|n IH]; intros sim sim' Htick Hrun; simpl in Hrun.
  - injection Hrun as <-. split_and!; [done| |done|lia].
    apply Forall2_same_length_lookup_2; [done|].
    intros i p p' Hp Hp'. rewrite Hp in Hp'. injection Hp' as <-.
    by apply advances_refl_frame.
  - destruct (update_in_parallel sim) as [sim1|] eqn:Hup; [|done].
    cbn [rbind] in Hrun.
    destruct (tick_passenger rows sim sim1 Htick Hup)
      as (Htick1 & Hl1 & _ & _ & Ha1 & Hp1 & Hfifo1).
    assert (Hadv1 : Forall2 advances (Simulation.passengers_queue sim)
                      (Simulation.passengers_queue sim1)).
    { apply Forall2_same_length_lookup_2; [done|].
      intros i p p' Hp Hp'. by destruct (Hp1 i p p' Hp Hp'). }
    destruct (IH sim1 sim' Htick1 Hrun) as (Htick' & Hadv' & Hfifo' & Ha').
    split_and!; [done| | |].
    + apply Forall2_same_length_lookup_2.
      { rewrite <- (Forall2_length _ _ _ Hadv'). by rewrite Hl1. }
      intros i p p' Hp Hp'.
      destruct (Forall2_lookup_l _ _ _ _ _ Hadv1 Hp) as (p1 & Hq1 & A1).
      destruct (Forall2_lookup_l _ _ _ _ _ Hadv' Hq1) as (p2 & Hq2 & A2).
      rewrite Hp' in Hq2. injection Hq2 as <-. by eapply advances_trans.
    + intros Hidx Hfifo. apply Hfifo'; [by eapply advances_indexed|].
      by apply Hfifo1.
    + intros _. destruct n as [|n]; [|apply Ha'; lia].
      simpl in Hrun. by injection Hrun as <-.
Qed.

(** ** The queue at the start *)

Lemma fresh_unranked p q :
  unranked p = unranked q → fresh_passenger q → fresh_passenger p.
Proof.
  destruct p, q. unfold unranked. simpl. intros [=]. subst. done.
Qed.

Lemma seats_of_unranked l : seats_of (unranked <$> l) = seats_of l.
Proof.
  unfold seats_of. rewrite <- list_fmap_compose.
  apply list_fmap_ext. by intros _ [] _.
Qed.

Lemma late_arrivals_indexed (R : Random) fuel (g : rng R) base late_percent
    late_immediate queue g2 :
  indexed base →
  apply_late_arrivals R fuel g base late_percent late_immediate
    = Ok (queue, g2) →
  indexed queue.
Proof.
  intros Hidx Hlate. unfold apply_late_arrivals in Hlate.
  case_bool_decide; [by simplify_eq|].
  case_bool_decide; [done|].
  destruct (mark_late _ base) as [marked|]; [|done]. cbn [rbind] in Hlate.
  destruct late_immediate; cbn [negb] in Hlate.
  - destruct (assign_delays _ _ _ _ _ _) as [[arr g']|]; [|done].
    cbn [rbind] in Hlate. injection Hlate as <- <-.
    intros k p. rewrite renumber_lookup. by intros (q & _ & ->)%fmap_Some.
  - injection Hlate as <- <-.
    intros k p. rewrite renumber_lookup. by intros (q & _ & ->)%fmap_Some.
Qed.

Lemma queue_start_ok (R : Random) boarding_method fuel (g : rng R) rows n
    late_percent late_immediate base g1 queue g2 :
  RandomOk R →
  generate_boarding R boarding_method g (Plane_init rows) n = Ok (base, g1) →
  apply_late_arrivals R fuel g1 base late_percent late_immediate
    = Ok (queue, g2) →
  start_ok rows queue.
Proof.
  intros HR Hgen0 Hlate.
  destruct (generate_boarding_queue R boarding_method g rows n HR)
    as (all_seats & base' & g1' & Hperm & Hgen & Hseats & Hlocal & Hfields).
  rewrite Hgen0 in Hgen. injection Hgen as <- <-.
  assert (Hnl : Forall (λ p, Passenger.is_late p = false) base).
  { apply Forall_lookup. intros k p Hk. by destruct (Hfields k p Hk) as (_ & ? & _). }
  destruct (late_arrivals_reorder R fuel g1 base late_percent late_immediate
              queue g2 HR Hnl Hlate) as (Hlen & Hun & _).
  split_and!.
  - by destruct (apply_late_arrivals_keeps R HR rows _ _ _ _ _ _ _ Hlate Hlocal).
  - intros k p Hk. split.
    + eapply late_arrivals_indexed; [|exact Hlate|exact Hk].
      intros k' p' Hk'. by destruct (Hfields k' p' Hk').
    + assert (Hin : unranked p ∈ unranked <$> base).
      { rewrite <- Hun. apply list_elem_of_fmap. exists p. split; [done|].
        by eapply list_elem_of_lookup_2. }
      apply list_elem_of_fmap in Hin as (p0 & Hp0 & Hin0).
      apply list_elem_of_lookup in Hin0 as (k0 & Hk0).
      destruct (Hfields k0 p0 Hk0) as (_ & _ & Hf).
      by eapply fresh_unranked.
  - rewrite <- seats_of_unranked. unfold seats_of at 1. rewrite Hun.
    fold (seats_of (unranked <$> base)). rewrite seats_of_unranked, Hseats.
    eapply sublist_NoDup; [|apply py_slice_to_sublist].
    rewrite Hperm. apply NoDup_plane_seats.
Qed.

Lemma init_start_ok (R : Random) fuel (g : rng R) rows late_percent
    late_immediate boarding_method sim0 g' :
  RandomOk R →
  Simulation__init__ R fuel g rows late_percent late_immediate boarding_method
    = Ok (sim0, g') →
  ∃ queue, sim0 = Simulation_init rows queue ∧ start_ok rows queue.
Proof.
  intros HR Hinit. unfold Simulation__init__ in Hinit.
  destruct (generate_boarding R boarding_method g (Plane_init rows) (rows * 6))
    as [[base g1]|] eqn:Hgen; [|done].
  cbn [rbind] in Hinit.
  destruct (apply_late_arrivals R fuel g1 base late_percent late_immediate)
    as [[queue g2]|] eqn:Hlate; [|done].
  cbn [rbind] in Hinit. injection Hinit as <- <-.
  exists queue. split; [done|]. by eapply queue_start_ok.
Qed.

Lemma start_tick_ok rows queue :
  start_ok rows queue → tick_ok rows (Simulation_init rows queue).
Proof. intros (Hl & _). by apply tick_ok_init. Qed.

Lemma start_indexed rows queue : start_ok rows queue → indexed queue.
Proof. intros (_ & Hf & _) k p Hk. by destruct (Hf k p Hk). Qed.

Lemma start_boards_in_order rows queue :
  start_ok rows queue → boards_in_order queue.
Proof.
  intros (_ & Hf & _) i j p q Hp Hq _ Hs. exfalso. apply Hs.
  by destruct (Hf j q Hq) as (_ & _ & _ & _ & _ & ? & _).
Qed.

(** ** Properties of every run *)

Lemma run_from_init (R : Random) fuel (g : rng R) rows late_percent
    late_immediate boarding_method sim0 g' (n : nat) sim :
  RandomOk R →
  Simulation__init__ R fuel g rows late_percent late_immediate boarding_method
    = Ok (sim0, g') →
  run_ticks n sim0 = Ok sim →
  tick_ok rows sim0 ∧ tick_ok rows sim ∧
  indexed (Simulation.passengers_queue sim) ∧
  boards_in_order (Simulation.passengers_queue sim) ∧
  Simulation.passengers_in_aisle sim0 = [] ∧
  ((0 < n)%nat →
   ∀ i : nat, i ∈ Simulation.passengers_in_aisle sim ↔
     ∃ p, Simulation.passengers_queue sim !! i = Some p
          ∧ Passenger.state p ≠ Done).
Proof.
  intros HR Hinit Hrun.
  destruct (init_start_ok R fuel g rows late_percent late_immediate
              boarding_method sim0 g' HR Hinit) as (queue & -> & Hstart).
  pose proof (start_tick_ok rows queue Hstart) as Htick0.
  destruct (run_passenger rows n _ _ Htick0 Hrun) as (Htick & Hadv & Hfifo & Ha).
  split_and!; [done|done| | |done|done].
  - eapply advances_indexed; [exact Hadv|]. by eapply start_indexed.
  - apply Hfifo; [by eapply start_indexed|by eapply start_boards_in_order].
Qed.

(** X15. Between two states of a run, a passenger keeps its seat, its bags
    count, its target column, its queue index and its lateness; its state
    is the same or a later one (queue, walking, looking_bin, stowing,
    move_to_seat, done); it is in the same row or further in, at most as
    far from its target column; and once done it stays where it is. *)
Theorem passengers_only_advance (R : Random) (fuel : nat) (g : rng R)
    (rows late_percent : Z) (late_immediate : bool) (boarding_method : Z)
    (sim0 : Simulation.t) (g' : rng R) (n m : nat) (sim sim' : Simulation.t) :
  RandomOk R →
  Simulation__init__ R fuel g rows late_percent late_immediate boarding_method
    = Ok (sim0, g') →
  run_ticks n sim0 = Ok sim → run_ticks m sim = Ok sim' →
  Forall2 advances (Simulation.passengers_queue sim)
    (Simulation.passengers_queue sim').
Proof.
  intros HR Hinit Hrun Hrun'.
  destruct (run_from_init R fuel g rows late_percent late_immediate
              boarding_method sim0 g' n sim HR Hinit Hrun) as (_ & Htick & _).
  by destruct (run_passenger rows m _ _ Htick Hrun') as (_ & Hadv & _).
Qed.

Lemma passengers_only_advance_witness :
  ∃ sim0 g' sim sim',
    Simulation__init__ replay 5 [2; 1; 3; 1; 2; 1] 1 0 false 2 = Ok (sim0, g') ∧
    run_ticks 3 sim0 = Ok sim ∧ run_ticks 4 sim = Ok sim' ∧
    Forall2 advances (Simulation.passengers_queue sim)
      (Simulation.passengers_queue sim').
Proof.
  destruct (Simulation__init__ replay 5 [2; 1; 3; 1; 2; 1] 1 0 false 2)
    as [[sim0 g']|e] eqn:Hinit; [|vm_compute in Hinit; discriminate Hinit].
  destruct (run_ticks 3 sim0) as [sim|e] eqn:Hrun.
  2:{ vm_compute in Hinit. injection Hinit as <- <-.
      vm_compute in Hrun. discriminate Hrun. }
  destruct (run_ticks 4 sim) as [sim'|e] eqn:Hrun'.
  2:{ vm_compute in Hinit. injection Hinit as <- <-.
      vm_compute in Hrun. injection Hrun as <-.
      vm_compute in Hrun'. discriminate Hrun'. }
  exists sim0, g', sim, sim'. split_and!; [done..|].
  exact (passengers_only_advance replay 5 [2; 1; 3; 1; 2; 1] 1 0 false 2
           sim0 g' 3 4 sim sim' replay_ok Hinit Hrun Hrun').
Defined.

(** X16. In one tick ([update_in_parallel], with its up to ten sub-steps) no
    passenger gets further than the next cell: the tick returns, and the
    cell of every passenger after it is its cell before it or a cell next
    to it. *)
Theorem one_cell_per_tick (R : Random) (fuel : nat) (g : rng R)
    (rows late_percent : Z) (late_immediate : bool) (boarding_method : Z)
    (sim0 : Simulation.t) (g' : rng R) (n : nat) (sim : Simulation.t) :
  RandomOk R →
  Simulation__init__ R fuel g rows late_percent late_immediate boarding_method
    = Ok (sim0, g') →
  run_ticks n sim0 = Ok sim →
  ∃ sim',
    update_in_parallel sim = Ok sim' ∧
    Forall2 (λ p p', one_cell (pos_of p) (pos_of p'))
      (Simulation.passengers_queue sim) (Simulation.passengers_queue sim').
Proof.
  intros HR Hinit Hrun.
  destruct (run_from_init R fuel g rows late_percent late_immediate
              boarding_method sim0 g' n sim HR Hinit Hrun) as (_ & Htick & _).
  destruct (tick_progress rows sim Htick) as (sim' & Hup & _).
  exists sim'. split; [done|].
  destruct (tick_passenger rows sim sim' Htick Hup) as (_ & Hlen & _ & _ & _ & Hp & _).
  apply Forall2_same_length_lookup_2; [done|].
  intros i p p' Hi Hi'. by destruct (Hp i p p' Hi Hi').
Qed.

Lemma one_cell_per_tick_witness :
  ∃ sim0 g' sim sim',
    Simulation__init__ replay 5 [2; 1; 3; 1; 2; 1] 1 0 false 2 = Ok (sim0, g') ∧
    run_ticks 3 sim0 = Ok sim ∧ update_in_parallel sim = Ok sim' ∧
    Forall2 (λ p p', one_cell (pos_of p) (pos_of p'))
      (Simulation.passengers_queue sim) (Simulation.passengers_queue sim').
Proof.
  destruct (Simulation__init__ replay 5 [2; 1; 3; 1; 2; 1] 1 0 false 2)
    as [[sim0 g']|e] eqn:Hinit; [|vm_compute in Hinit; discriminate Hinit].
  destruct (run_ticks 3 sim0) as [sim|e] eqn:Hrun.
  2:{ vm_compute in Hinit. injection Hinit as <- <-.
      vm_compute in Hrun. discriminate Hrun. }
  destruct (one_cell_per_tick replay 5 [2; 1; 3; 1; 2; 1] 1 0 false 2
              sim0 g' 3 sim replay_ok Hinit Hrun) as (sim' & Hup & Hcell).
  by exists sim0, g', sim, sim'.
Defined.

(** X17. After every tick [passengers_in_aisle] holds the passengers that
    are not done, all of them and each once (those still waiting in front
    of the plane as well). *)
Theorem aisle_list_holds_the_not_done (R : Random) (fuel : nat) (g : rng R)
    (rows late_percent : Z) (late_immediate : bool) (boarding_method : Z)
    (sim0 : Simulation.t) (g' : rng R) (n : nat) (sim : Simulation.t) :
  RandomOk R →
  Simulation__init__ R fuel g rows late_percent late_immediate boarding_method
    = Ok (sim0, g') →
  run_ticks (S n) sim0 = Ok sim →
  NoDup (Simulation.passengers_in_aisle sim) ∧
  ∀ i : nat, i ∈ Simulation.passengers_in_aisle sim ↔
    ∃ p, Simulation.passengers_queue sim !! i = Some p
         ∧ Passenger.state p ≠ Done.
Proof.
  intros HR Hinit Hrun.
  destruct (run_from_init R fuel g rows late_percent late_immediate
              boarding_method sim0 g' (S n) sim HR Hinit Hrun)
    as (_ & ((_ & _ & Hnd) & _) & _ & _ & _ & Ha).
  split; [done|]. apply Ha. lia.
Qed.

Lemma aisle_list_holds_the_not_done_witness :
  ∃ sim0 g' sim,
    Simulation__init__ replay 5 [2; 1; 3; 1; 2; 1] 1 0 false 2 = Ok (sim0, g') ∧
    run_ticks 9 sim0 = Ok sim ∧
    NoDup (Simulation.passengers_in_aisle sim) ∧
    Simulation.passengers_in_aisle sim = [2; 3; 4; 5]%nat.
Proof.
  destruct (Simulation__init__ replay 5 [2; 1; 3; 1; 2; 1] 1 0 false 2)
    as [[sim0 g']|e] eqn:Hinit; [|vm_compute in Hinit; discriminate Hinit].
  destruct (run_ticks 9 sim0) as [sim|e] eqn:Hrun.
  2:{ vm_compute in Hinit. injection Hinit as <- <-.
      vm_compute in Hrun. discriminate Hrun. }
  destruct (aisle_list_holds_the_not_done replay 5 [2; 1; 3; 1; 2; 1] 1 0
              false 2 sim0 g' 8 sim replay_ok Hinit Hrun) as [Hnd _].
  exists sim0, g', sim. split_and!; [done..|].
  vm_compute in Hinit. injection Hinit as <- <-.
  vm_compute in Hrun. by injection Hrun as <-.
Defined.

(** X18. The passengers leave the queue in the order of the queue: in every
    state of a run, whoever is no longer in the queue state stands in the
    list before everybody who still is. *)
Theorem passengers_enter_in_queue_order (R : Random) (fuel : nat)
    (g : rng R) (rows late_percent : Z) (late_immediate : bool)
    (boarding_method : Z) (sim0 : Simulation.t) (g' : rng R) (n : nat)
    (sim : Simulation.t) :
  RandomOk R →
  Simulation__init__ R fuel g rows late_percent late_immediate boarding_method
    = Ok (sim0, g') →
  run_ticks n sim0 = Ok sim →
  ∀ (i j : nat) p q,
    Simulation.passengers_queue sim !! i = Some p →
    Simulation.passengers_queue sim !! j = Some q →
    Passenger.state p = Queue → Passenger.state q ≠ Queue →
    (j < i)%nat ∧ Passenger.queue_index q < Passenger.queue_index p.
Proof.
  intros HR Hinit Hrun i j p q Hp Hq Hsp Hsq.
  destruct (run_from_init R fuel g rows late_percent late_immediate
              boarding_method sim0 g' n sim HR Hinit Hrun)
    as (_ & _ & Hidx & Hfifo & _).
  pose proof (Hfifo i j p q Hp Hq Hsp Hsq) as Hlt.
  split; [done|]. rewrite (Hidx i p Hp), (Hidx j q Hq). lia.
Qed.

Lemma passengers_enter_in_queue_order_witness :
  ∃ sim0 g' sim,
    Simulation__init__ replay 5 [2; 1; 3; 1; 2; 1] 1 0 false 2 = Ok (sim0, g') ∧
    run_ticks 4 sim0 = Ok sim ∧
    (∀ (i j : nat) p q,
       Simulation.passengers_queue sim !! i = Some p →
       Simulation.passengers_queue sim !! j = Some q →
       Passenger.state p = Queue → Passenger.state q ≠ Queue →
       (j < i)%nat ∧ Passenger.queue_index q < Passenger.queue_index p) ∧
    Passenger.state <$> Simulation.passengers_queue sim
    = [MoveToSeat; Queue; Queue; Queue; Queue; Queue].
Proof.
  destruct (Simulation__init__ replay 5 [2; 1; 3; 1; 2; 1] 1 0 false 2)
    as [[sim0 g']|e] eqn:Hinit; [|vm_compute in Hinit; discriminate Hinit].
  destruct (run_ticks 4 sim0) as [sim|e] eqn:Hrun.
  2:{ vm_compute in Hinit. injection Hinit as <- <-.
      vm_compute in Hrun. discriminate Hrun. }
  pose proof (passengers_enter_in_queue_order replay 5 [2; 1; 3; 1; 2; 1] 1 0
                false 2 sim0 g' 4 sim replay_ok Hinit Hrun) as Horder.
  exists sim0, g', sim. split_and!; [done..|].
  vm_compute in Hinit. injection Hinit as <- <-.
  vm_compute in Hrun. by injection Hrun as <-.
Defined.

(** ** The tick counter *)

Lemma all_done_Forall store :
  all_done store = true ↔ Forall (λ p, Passenger.state p = Done) store.
Proof.
  unfold all_done. induction store as [|p l IH]; simpl; [done|].
  rewrite andb_true_iff, IH, Forall_cons, bool_decide_eq_true. done.
Qed.

Lemma all_done_freeze rows sim :
  tick_ok rows sim → all_done (Simulation.passengers_queue sim) = true →
  update_in_parallel sim = Ok (freeze sim).
Proof.
  intros [(Hbins & Hall & Hnd) Haisle] Hdone.
  assert (Hd : ∀ (i : nat) p, Simulation.passengers_queue sim !! i = Some p →
                 Passenger.state p = Done).
  { intros i p Hp. apply all_done_Forall in Hdone.
    rewrite Forall_lookup in Hdone. by eapply Hdone. }
  assert (Ha : Simulation.passengers_in_aisle sim = []).
  { destruct (Simulation.passengers_in_aisle sim) as [|i l] eqn:E; [done|].
    destruct (Haisle i ltac:(by left)) as (p & Hp & Hs).
    by rewrite (Hd i p Hp) in Hs. }
  assert (Hj : join_aisle (Simulation.passengers_queue sim) [] = []).
  { destruct (join_aisle_spec (Simulation.passengers_queue sim) []
                (NoDup_nil_2)) as [_ Hin].
    destruct (join_aisle _ []) as [|i l]; [done|].
    destruct (proj1 (Hin i) ltac:(by left)) as [Hi|(p & Hp & Hs)].
    - by apply elem_of_nil in Hi.
    - by rewrite (Hd i p Hp) in Hs. }
  unfold update_in_parallel. rewrite Ha, Hj, Hdone.
  change max_substeps with (S 9). rewrite run_substeps_S.
  unfold do_substep, candidates. cbn [Simulation.passengers_in_aisle].
  rewrite bool_decide_eq_true_2 by done. cbn [rbind]. simpl.
  unfold freeze. rewrite Ha.
  by destruct (Simulation.final_tick_count sim).
Qed.

Lemma tick_ok_freeze rows sim : tick_ok rows sim → tick_ok rows (freeze sim).
Proof. by intros [(? & ? & ?) ?]. Qed.

Lemma freeze_freeze sim : freeze (freeze sim) = freeze sim.
Proof. unfold freeze. simpl. by destruct (Simulation.final_tick_count sim). Qed.

Lemma run_ticks_snoc n : ∀ sim,
  run_ticks (S n) sim = (s ←! run_ticks n sim; update_in_parallel s).
Proof.
  induction n as [|n IH]; intros sim.
  - simpl. by destruct (update_in_parallel sim).
  - change (run_ticks (S (S n)) sim)
      with (s1 ←! update_in_parallel sim; run_ticks (S n) s1).
    change (run_ticks (S n) sim)
      with (s1 ←! update_in_parallel sim; run_ticks n s1).
    destruct (update_in_parallel sim) as [s1|]; [|done]. cbn [rbind].
    apply IH.
Qed.

Lemma tick_count_inv rows (sim0 : Simulation.t) (n : nat) : ∀ sim,
  tick_ok rows sim0 →
  Simulation.tick_count sim0 = 0 → Simulation.final_tick_count sim0 = None →
  run_ticks n sim0 = Ok sim →
  tick_ok rows sim ∧
  (all_done (Simulation.passengers_queue sim) = false →
   Simulation.tick_count sim = Z.of_nat n ∧
   Simulation.final_tick_count sim = None ∧
   ∀ (m : nat) s, (m ≤ n)%nat → run_ticks m sim0 = Ok s →
     all_done (Simulation.passengers_queue s) = false) ∧
  (all_done (Simulation.passengers_queue sim) = true →
   ∃ t : nat, (t ≤ n)%nat ∧ Simulation.tick_count sim = Z.of_nat t ∧
     (∃ s, run_ticks t sim0 = Ok s ∧
           all_done (Simulation.passengers_queue s) = true) ∧
     (∀ (m : nat) s, (m < t)%nat → run_ticks m sim0 = Ok s →
        all_done (Simulation.passengers_queue s) = false) ∧
     ((Simulation.final_tick_count sim = None ∧ t = n)
      ∨ (Simulation.final_tick_count sim = Some (Z.of_nat t) ∧ (t < n)%nat))).
Proof.
  induction n as [|n IH]; intros sim Htick0 Ht0 Hf0 Hrun.
  - simpl in Hrun. injection Hrun as <-. split_and!; [done| |].
    + intros Hnd. split_and!; [done..|].
      intros m s Hm Hs. replace m with 0%nat in Hs by lia.
      simpl in Hs. by injection Hs as <-.
    + intros Hd. exists 0%nat. split_and!; [done|done| | |by left].
      * by exists sim0.
      * intros m s Hm. lia.
  - rewrite run_ticks_snoc in Hrun.
    destruct (run_ticks n sim0) as [sn|] eqn:Hn; [|done]. cbn [rbind] in Hrun.
    destruct (IH sn Htick0 Ht0 Hf0 eq_refl) as (Htickn & Hnot & Hyes).
    destruct (tick_passenger rows sn sim Htickn Hrun)
      as (Htick & _ & Htc & Hfc & _).
    split; [done|].
    destruct (all_done (Simulation.passengers_queue sn)) eqn:Hdn.
    + rewrite (all_done_freeze rows sn Htickn Hdn) in Hrun.
      injection Hrun as <-.
      destruct (Hyes eq_refl) as (t & Htn & Htt & Hfirst & Hbefore & Hfin).
      change (Simulation.passengers_queue (freeze sn))
        with (Simulation.passengers_queue sn). rewrite Hdn.
      split; [done|]. intros _. exists t.
      split_and!; [lia|done|done|done|].
      right. split; [|lia]. unfold freeze. simpl.
      destruct Hfin as [[-> ->]|[-> _]]; by rewrite ?Htt.
    + destruct (Hnot eq_refl) as (Hcount & Hnone & Hearlier).
      simpl in Htc, Hfc. rewrite Hnone in Hfc.
      split.
      * intros Hnd. split_and!; [lia|done|].
        intros m s Hm Hs. destruct (decide (m = S n)) as [->|Hne].
        -- rewrite run_ticks_snoc, Hn in Hs. cbn [rbind] in Hs.
           rewrite Hrun in Hs. by injection Hs as <-.
        -- apply (Hearlier m s); [lia|done].
      * intros Hd. exists (S n). split_and!; [done|lia| | |by left].
        -- exists sim. split; [|done]. rewrite run_ticks_snoc, Hn. done.
        -- intros m s Hm Hs. apply (Hearlier m s); [lia|done].
Qed.

(** X19. Once every passenger is done, [update_in_parallel] only freezes the
    tick counter: the first call stores [tick_count] in [final_tick_count]
    (if it was not yet stored) and changes nothing else, and every further
    call changes nothing at all. *)
Theorem tick_counter_freezes (R : Random) (fuel : nat) (g : rng R)
    (rows late_percent : Z) (late_immediate : bool) (boarding_method : Z)
    (sim0 : Simulation.t) (g' : rng R) (n : nat) (sim : Simulation.t) :
  RandomOk R →
  Simulation__init__ R fuel g rows late_percent late_immediate boarding_method
    = Ok (sim0, g') →
  run_ticks n sim0 = Ok sim →
  all_done (Simulation.passengers_queue sim) = true →
  update_in_parallel sim = Ok (freeze sim) ∧
  ∀ m : nat, run_ticks m (freeze sim) = Ok (freeze sim).
Proof.
  intros HR Hinit Hrun Hdone.
  destruct (run_from_init R fuel g rows late_percent late_immediate
              boarding_method sim0 g' n sim HR Hinit Hrun) as (_ & Htick & _).
  split; [by eapply all_done_freeze|].
  induction m as [|m IH]; [done|].
  rewrite run_ticks_snoc, IH. cbn [rbind].
  rewrite (all_done_freeze rows); [by rewrite freeze_freeze| |done].
  by apply tick_ok_freeze.
Qed.

Lemma tick_counter_freezes_witness :
  ∃ sim0 g' sim,
    Simulation__init__ replay 5 [2; 1; 3; 1; 2; 1] 1 0 false 2 = Ok (sim0, g') ∧
    run_ticks 15 sim0 = Ok sim ∧
    Simulation.final_tick_count sim = None ∧
    update_in_parallel sim = Ok (freeze sim) ∧
    Simulation.final_tick_count (freeze sim) = Some 15.
Proof.
  destruct (Simulation__init__ replay 5 [2; 1; 3; 1; 2; 1] 1 0 false 2)
    as [[sim0 g']|e] eqn:Hinit; [|vm_compute in Hinit; discriminate Hinit].
  destruct (run_ticks 15 sim0) as [sim|e] eqn:Hrun.
  2:{ vm_compute in Hinit. injection Hinit as <- <-.
      vm_compute in Hrun. discriminate Hrun. }
  assert (Hstate : all_done (Simulation.passengers_queue sim) = true
                   ∧ Simulation.final_tick_count sim = None
                   ∧ Simulation.tick_count sim = 15).
  { vm_compute in Hinit. injection Hinit as <- <-.
    vm_compute in Hrun. by injection Hrun as <-. }
  destruct Hstate as (Hdone & Hnone & Htc).
  destruct (tick_counter_freezes replay 5 [2; 1; 3; 1; 2; 1] 1 0 false 2
              sim0 g' 15 sim replay_ok Hinit Hrun Hdone) as [Hup _].
  exists sim0, g', sim. split_and!; [done..|].
  unfold freeze. simpl. by rewrite Hnone, Htc.
Defined.

(** X20. The tick counter counts the ticks of the boarding: as long as
    somebody is not done, [tick_count] is the number of calls of
    [update_in_parallel] and [final_tick_count] is unset; and when
    [final_tick_count] is set, it is the number of the first tick after
    which every passenger was done, and [tick_count] has stopped there. *)
Theorem final_tick_count_is_boarding_time (R : Random) (fuel : nat)
    (g : rng R) (rows late_percent : Z) (late_immediate : bool)
    (boarding_method : Z) (sim0 : Simulation.t) (g' : rng R) (n : nat)
    (sim : Simulation.t) :
  RandomOk R →
  Simulation__init__ R fuel g rows late_percent late_immediate boarding_method
    = Ok (sim0, g') →
  run_ticks n sim0 = Ok sim →
  (all_done (Simulation.passengers_queue sim) = false →
   Simulation.tick_count sim = Z.of_nat n ∧
   Simulation.final_tick_count sim = None) ∧
  (∀ t, Simulation.final_tick_count sim = Some t →
     Simulation.tick_count sim = t ∧
     ∃ k : nat, t = Z.of_nat k ∧ (k < n)%nat ∧
       (∃ s, run_ticks k sim0 = Ok s ∧
             all_done (Simulation.passengers_queue s) = true) ∧
       ∀ (m : nat) s, (m < k)%nat → run_ticks m sim0 = Ok s →
         all_done (Simulation.passengers_queue s) = false).
Proof.
  intros HR Hinit Hrun.
  destruct (init_start_ok R fuel g rows late_percent late_immediate
              boarding_method sim0 g' HR Hinit) as (queue & -> & Hstart).
  pose proof (start_tick_ok rows queue Hstart) as Htick0.
  destruct (tick_count_inv rows _ n sim Htick0 eq_refl eq_refl Hrun)
    as (_ & Hnot & Hyes).
  split.
  - intros Hnd. by destruct (Hnot Hnd) as (? & ? & _).
  - intros t Ht.
    destruct (all_done (Simulation.passengers_queue sim)) eqn:Hd.
    + destruct (Hyes eq_refl) as (k & Hkn & Htk & Hfirst & Hbefore & Hfin).
      destruct Hfin as [[Hnone _]|[Hsome Hlt]]; [congruence|].
      rewrite Hsome in Ht. injection Ht as <-.
      split; [done|]. by exists k.
    + destruct (Hnot eq_refl) as (_ & Hnone & _). congruence.
Qed.

Lemma final_tick_count_is_boarding_time_witness :
  ∃ sim0 g' sim,
    Simulation__init__ replay 5 [2; 1; 3; 1; 2; 1] 1 0 false 2 = Ok (sim0, g') ∧
    run_ticks 20 sim0 = Ok sim ∧
    Simulation.final_tick_count sim = Some 15 ∧
    Simulation.tick_count sim = 15 ∧
    ∃ s, run_ticks 15 sim0 = Ok s ∧
         all_done (Simulation.passengers_queue s) = true.
Proof.
  destruct (Simulation__init__ replay 5 [2; 1; 3; 1; 2; 1] 1 0 false 2)
    as [[sim0 g']|e] eqn:Hinit; [|vm_compute in Hinit; discriminate Hinit].
  destruct (run_ticks 20 sim0) as [sim|e] eqn:Hrun.
  2:{ vm_compute in Hinit. injection Hinit as <- <-.
      vm_compute in Hrun. discriminate Hrun. }
  assert (Hfinal : Simulation.final_tick_count sim = Some 15).
  { vm_compute in Hinit. injection Hinit as <- <-.
    vm_compute in Hrun. by injection Hrun as <-. }
  destruct (final_tick_count_is_boarding_time replay 5 [2; 1; 3; 1; 2; 1] 1 0
              false 2 sim0 g' 20 sim replay_ok Hinit Hrun) as [_ Hset].
  destruct (Hset 15 Hfinal) as (Htc & k & Hk & _ & (s & Hs & Hd) & _).
  exists sim0, g', sim. split_and!; [done..|].
  exists s. split; [|done]. by replace 15%nat with k by lia.
Defined.

(** ** The overhead bags: what the bins hold and what is still carried *)

Lemma pending_cons r p store :
  pending r (p :: store)
  = (if bool_decide (Passenger.seat_row p = r)
     then Passenger.overhead_bags p else 0) + pending r store.
Proof. done. Qed.

Lemma pending_nonneg rows r store :
  Forall (local_ok rows) store → 0 ≤ pending r store.
Proof.
  induction 1 as [|p l Hp _ IH]; [done|]. rewrite pending_cons.
  destruct Hp as (_ & _ & _ & Hb & _). case_bool_decide; lia.
Qed.

Lemma pending_insert r (store : list Passenger.t) (i : nat) self self' :
  store !! i = Some self →
  pending r (<[i := self']> store)
  = pending r store
    - (if bool_decide (Passenger.seat_row self = r)
       then Passenger.overhead_bags self else 0)
    + (if bool_decide (Passenger.seat_row self' = r)
       then Passenger.overhead_bags self' else 0).
Proof.
  revert i. induction store as [|p l IH]; intros i Hi; [done|].
  destruct i as [|i]; simpl in Hi.
  - injection Hi as ->. unfold pending. simpl. lia.
  - pose proof (IH i Hi) as IHi. unfold pending in *. simpl. lia.
Qed.

Lemma pending_lookup_le rows r (store : list Passenger.t) (i : nat) self :
  Forall (local_ok rows) store → store !! i = Some self →
  (if bool_decide (Passenger.seat_row self = r)
   then Passenger.overhead_bags self else 0) ≤ pending r store.
Proof.
  intros Hall. revert i. induction Hall as [|p l Hp Hl IH]; intros i Hi;
    [done|].
  rewrite pending_cons. destruct i as [|i]; simpl in Hi.
  - injection Hi as ->. pose proof (pending_nonneg rows r l Hl). lia.
  - specialize (IH i Hi). destruct Hp as (_ & _ & _ & Hb & _).
    repeat case_bool_decide; lia.
Qed.

Lemma pending_ext r (store store' : list Passenger.t) :
  Forall2 (λ p q, Passenger.seat_row p = Passenger.seat_row q ∧
                  Passenger.overhead_bags p = Passenger.overhead_bags q)
    store store' →
  pending r store = pending r store'.
Proof.
  induction 1 as [|p q l l' [Hs Hb] _ IH]; [done|].
  by rewrite !pending_cons, Hs, Hb, IH.
Qed.

Lemma row_quota_ext r (store store' : list Passenger.t) :
  Forall2 advances store store' → row_quota r store' = row_quota r store.
Proof.
  induction 1 as [|p q l l' Ha _ IH]; [done|].
  destruct Ha as (Hs & _ & Hb & _). unfold row_quota in *. simpl.
  by rewrite Hs, Hb, IH.
Qed.

Lemma pending_fresh r (store : list Passenger.t) :
  Forall fresh_passenger store → pending r store = row_quota r store.
Proof.
  induction 1 as [|p l Hp _ IH]; [done|].
  rewrite pending_cons, IH. unfold row_quota. simpl.
  destruct Hp as (Hb & -> & _). case_bool_decide; lia.
Qed.

(** At most six passengers sit in a row, with at most two overhead bags
    each: what a row has to take fits its bins. *)
Lemma row_quota_fits rows r (queue : list Passenger.t) :
  start_ok rows queue → row_quota r queue ≤ 6 * OVERHEAD_BIN_CAPACITY.
Proof.
  intros (Hlocal & Hfresh & Hnd).
  set (inrow := filter (λ p, Passenger.seat_row p = r) queue).
  assert (Hle : row_quota r queue ≤ 2 * Z.of_nat (length inrow)).
  { unfold inrow. clear Hnd Hlocal.
    assert (Hf : Forall fresh_passenger queue).
    { apply Forall_lookup. intros k p Hk. by destruct (Hfresh k p Hk). }
    clear Hfresh. induction Hf as [|p l Hp _ IH]; [done|].
    unfold row_quota in *. simpl. rewrite filter_cons.
    destruct Hp as (Hb & _). unfold MAX_BAGS in Hb.
    case_bool_decide; case_decide; try done; simpl length; lia. }
  assert (Hlen : (length inrow ≤ 6)%nat); [|unfold OVERHEAD_BIN_CAPACITY; lia].
  change 6%nat with (length letters).
  rewrite <- (length_fmap Passenger.seat_letter inrow).
  apply submseteq_length, NoDup_submseteq.
  - assert (Hsub : seats_of inrow `sublist_of` seats_of queue)
      by apply fmap_sublist, sublist_filter.
    pose proof (sublist_NoDup _ _ Hnd Hsub) as Hnd'.
    assert (Heq : seats_of inrow
                  = (λ l, (r, l)) <$> (Passenger.seat_letter <$> inrow)).
    { unfold seats_of. rewrite <- list_fmap_compose.
      apply list_fmap_ext. intros k p Hk. simpl.
      apply list_elem_of_lookup_2, list_elem_of_filter in Hk as [-> _]. done. }
    rewrite Heq in Hnd'. by apply NoDup_fmap_1 in Hnd'.
  - intros l (p & -> & Hp)%list_elem_of_fmap.
    apply list_elem_of_filter in Hp as [_ Hp].
    apply list_elem_of_lookup in Hp as (k & Hk).
    destruct (Hfresh k p Hk) as (_ & _ & _ & _ & _ & _ & _ & _ & _ & Hcol).
    destruct (letter_to_col_cases (Passenger.seat_letter p))
      as [[-> _]|[[-> _]|[[-> _]|[[-> _]|[[-> _]|[[-> _]|[_ H]]]]]]];
      try (unfold letters; rewrite !elem_of_cons; tauto).
    rewrite H in Hcol. discriminate Hcol.
Qed.

Ltac settle_goal Hst :=
  unfold settled; simpl; rewrite ?Hst; split_and!; try done; intros;
  repeat match goal with H : _ ∨ _ |- _ => destruct H end;
  try discriminate; try split; try done; try lia.

Section Stow.
Context (rows : Z) (quota : Z → Z).
Hypothesis quota_fits : ∀ r, quota r ≤ 6 * OVERHEAD_BIN_CAPACITY.

Lemma stow_pass_step store0 aisle tick lm plane (store : list Passenger.t)
    (i : nat) self plan plane' self' :
  stow_pass rows quota store0 plane store → store !! i = Some self →
  propose_action plane self (deref store aisle) lm tick
    = Ok (plan, plane', self') →
  stow_pass rows quota store0 plane' (<[i := self']> store).
Proof.
  intros (Hpass & Hsettled & Hcons) Hself Hcall.
  split; [by eapply pass_ok_step|].
  destruct (propose_action_effect _ _ _ _ _ _ _ _ Hcall)
    as [[-> ->]|(Hst & Hticks & Hplan & Hplace & ->)].
  { by rewrite list_insert_id. }
  destruct Hpass as (_ & Hbins & Hall).
  assert (Hok : local_ok rows self).
  { rewrite Forall_lookup in Hall. by eapply Hall. }
  assert (Hset : settled self).
  { rewrite Forall_lookup in Hsettled. by eapply Hsettled. }
  pose proof Hok as (_ & _ & _ & Hbags & _ & Hloc). rewrite Hst in Hloc.
  destruct Hloc as (_ & Hy & _).
  destruct Hset as (_ & Hrow & _). specialize (Hrow Hst).
  destruct (place_bags_in_bin_spec rows plane (Passenger.y self)
              (Passenger.overhead_bags self) Hbins ltac:(lia) Hbags)
    as (pl & t & Ht & Hpl & _ & Ht' & Hother & _).
  rewrite Hplace in Hpl. injection Hpl as <-.
  assert (Hrof : row_of rows (Passenger.y self) = Passenger.y self).
  { unfold row_of. by rewrite bool_decide_eq_false_2 by lia. }
  rewrite Hrof in Ht, Ht', Hother.
  split.
  - apply Forall_insert; [done|]. unfold settled. simpl. rewrite Hst.
    split_and!; [done|done|]. intros [?|?]; done.
  - intros r Hr. destruct (Hcons r Hr) as (t0 & Ht0 & Hsum).
    rewrite (pending_insert r store i self _ Hself). simpl.
    destruct (decide (r = Passenger.y self)) as [->|Hne].
    + rewrite Ht in Ht0. injection Ht0 as <-.
      pose proof (pending_lookup_le rows (Passenger.y self) store i self
                    Hall Hself) as Hle.
      rewrite !bool_decide_eq_true_2 in * by done.
      pose proof (quota_fits (Passenger.y self)).
      eexists. split; [exact Ht'|]. lia.
    + rewrite (Hother r Hr Hne).
      rewrite !bool_decide_eq_false_2 by congruence.
      exists t0. split; [done|]. lia.
Qed.

Lemma can_stow_own_row store0 plane (store : list Passenger.t) (i : nat) self :
  stow_pass rows quota store0 plane store → store !! i = Some self →
  0 ≤ Passenger.seat_row self < rows →
  can_stow_bag plane (Passenger.seat_row self) (Passenger.overhead_bags self)
    = Ok true.
Proof.
  intros ((_ & Hbins & Hall) & _ & Hcons) Hself Hrow.
  destruct (Hcons _ Hrow) as (t & Ht & Hsum).
  rewrite (can_stow_bag_total _ _ _ t Ht). f_equal.
  apply bool_decide_eq_true_2.
  pose proof (pending_lookup_le rows (Passenger.seat_row self) store i self
                Hall Hself) as Hle.
  rewrite bool_decide_eq_true_2 in Hle by done.
  pose proof (quota_fits (Passenger.seat_row self)). lia.
Qed.

Lemma propose_action_settles store0 aisle tick lm plane
    (store : list Passenger.t) (i : nat) self plan plane' self' :
  stow_pass rows quota store0 plane store → store !! i = Some self →
  propose_action plane self (deref store aisle) lm tick
    = Ok (plan, plane', self') →
  settled (apply_update self' plan).
Proof.
  intros HI Hself Hcall.
  pose proof HI as ((_ & Hbins & Hall) & Hsettled & _).
  assert (Hok : local_ok rows self).
  { rewrite Forall_lookup in Hall. by eapply Hall. }
  assert (Hset : settled self).
  { rewrite Forall_lookup in Hsettled. by eapply Hsettled. }
  pose proof Hok as (Hrow & _ & _ & Hbags & _ & Hloc).
  pose proof (can_stow_own_row store0 plane store i self HI Hself Hrow)
    as Hcan.
  destruct Hset as (Hnl & Hstow & Hseat).
  unfold propose_action in Hcall.
  destruct (Passenger.state self) eqn:Hst; [| | | by destruct Hnl | |].
  - (* queue *)
    propose_cases Hcall; settle_goal Hst.
  - (* walking *)
    destruct Hloc as (_ & Hy).
    destruct (decide (Passenger.y self < Passenger.seat_row self)) as [Hlt|Hge].
    + rewrite bool_decide_eq_true_2 in Hcall by done.
      propose_cases Hcall; settle_goal Hst.
    + rewrite bool_decide_eq_false_2 in Hcall by done.
      assert (Hyr : Passenger.y self = Passenger.seat_row self) by lia.
      rewrite Hyr, Hcan in Hcall.
      propose_cases Hcall; settle_goal Hst.
  - (* stowing *)
    specialize (Hstow eq_refl).
    propose_cases Hcall; settle_goal Hst.
  - (* move to seat *)
    destruct (Hseat ltac:(by left)) as [Hy Hb].
    propose_cases Hcall; settle_goal Hst.
  - (* done *)
    destruct (Hseat ltac:(by right)) as [Hy Hb].
    injection Hcall as <- <- <-. settle_goal Hst.
Qed.
End Stow.

Section StowRun.
Context (rows : Z) (quota : Z → Z).
Hypothesis quota_fits : ∀ r, quota r ≤ 6 * OVERHEAD_BIN_CAPACITY.

Lemma substep_stowed sim moved b sim' (moved' : gset pref) :
  substep_ok rows sim →
  stowed_ok rows quota (Simulation.plane sim) (Simulation.passengers_queue sim) →
  do_substep sim moved = Ok (b, sim', moved') →
  stowed_ok rows quota (Simulation.plane sim')
    (Simulation.passengers_queue sim').
Proof.
  intros Hok Hstowed Hstep.
  destruct (decide (candidates sim moved = [])) as [Hc|Hc].
  { unfold do_substep in Hstep. rewrite bool_decide_eq_true_2 in Hstep by done.
    by injection Hstep as <- <- <-. }
  pose proof Hok as (Hbins & Hall & Hnd).
  destruct (substep_result rows sim moved
              (stow_pass rows quota (Simulation.passengers_queue sim))
              (λ lm, stow_pass_step rows quota quota_fits _ _ _ lm) Hok
              ltac:(done) Hc)
    as (cs & lm & fps & plane2 & store2 & b0 & store' & moved0
        & Hstep0 & HI2 & Hlen & Hcs & Hout & Hin).
  rewrite Hstep0 in Hstep. injection Hstep as <- <- <-. simpl.
  destruct HI2 as (Hpass2 & Hsettled2 & Hcons2).
  assert (Hlen2 : length store2 = length (Simulation.passengers_queue sim)).
  { destruct Hpass2 as (Hfr & _). apply (f_equal length) in Hfr.
    by rewrite !length_fmap in Hfr. }
  assert (Hcases : ∀ (i : nat) p' q2, store' !! i = Some p' →
            store2 !! i = Some q2 →
            (settled p' ∧
             Passenger.seat_row p' = Passenger.seat_row q2 ∧
             Passenger.overhead_bags p' = Passenger.overhead_bags q2)).
  { intros i p' q2 Hp' Hq2.
    assert (Hsq : settled q2).
    { rewrite Forall_lookup in Hsettled2. by eapply Hsettled2. }
    destruct (decide (i ∈ cs)) as [Hi|Hi].
    - destruct (Hin i Hi) as (plane_i & store_i & self & plan & plane_i' & self'
                              & HIi & Hself & Hcall & Hs2 & Hcase).
      rewrite Hs2 in Hq2. injection Hq2 as <-.
      destruct Hcase as [[Hst _]|[Hst _]]; rewrite Hst in Hp';
        injection Hp' as <-; [|done].
      split; [|done].
      by eapply (propose_action_settles rows quota quota_fits).
    - destruct (Hout i Hi) as (Hs & Hs2 & _). rewrite Hs, <- Hs2, Hq2 in Hp'.
      by injection Hp' as <-. }
  split.
  - apply Forall_lookup. intros i p' Hp'.
    destruct (lookup_lt_is_Some_2 store2 i) as [q2 Hq2].
    { rewrite Hlen2, <- Hlen. by eapply lookup_lt_Some. }
    by destruct (Hcases i p' q2 Hp' Hq2).
  - intros r Hr. destruct (Hcons2 r Hr) as (t & Ht & Hsum).
    exists t. split; [done|].
    rewrite (pending_ext r store' store2); [done|].
    apply Forall2_same_length_lookup_2; [congruence|].
    intros i p' q2 Hp' Hq2. by destruct (Hcases i p' q2 Hp' Hq2).
Qed.

Lemma run_substeps_stowed n : ∀ sim moved sim',
  substep_ok rows sim →
  stowed_ok rows quota (Simulation.plane sim) (Simulation.passengers_queue sim) →
  run_substeps n sim moved = Ok sim' →
  stowed_ok rows quota (Simulation.plane sim')
    (Simulation.passengers_queue sim').
Proof.
  induction n as [|n IH]; intros sim moved sim' Hok Hst Hrun.
  - by injection Hrun as <-.
  - rewrite run_substeps_S in Hrun.
    destruct (substep_keeps rows sim moved Hok)
      as (b & sim1 & moved1 & Hstep & Hok1 & _).
    rewrite Hstep in Hrun. cbn [rbind] in Hrun.
    pose proof (substep_stowed sim moved b sim1 moved1 Hok Hst Hstep) as Hst1.
    destruct b; [by eapply IH|by injection Hrun as <-].
Qed.

Lemma tick_stowed sim sim' :
  tick_ok rows sim →
  stowed_ok rows quota (Simulation.plane sim) (Simulation.passengers_queue sim) →
  update_in_parallel sim = Ok sim' →
  stowed_ok rows quota (Simulation.plane sim')
    (Simulation.passengers_queue sim').
Proof.
  intros [Hok Haisle] Hst Hup. pose proof Hok as (Hbins & Hall & Hnd).
  unfold update_in_parallel in Hup.
  match type of Hup with
  | context [run_substeps _ ?s _] => set (sim1 := s) in *
  end.
  assert (Hok1 : substep_ok rows sim1).
  { split_and!; [done..|]. simpl. by apply join_aisle_spec. }
  destruct (run_substeps max_substeps sim1 ∅) as [sim2|] eqn:Hrun; [|done].
  cbn [rbind] in Hup. injection Hup as <-. simpl.
  by apply (run_substeps_stowed max_substeps sim1 ∅ sim2 Hok1).
Qed.

Lemma run_stowed n : ∀ sim sim',
  tick_ok rows sim →
  stowed_ok rows quota (Simulation.plane sim) (Simulation.passengers_queue sim) →
  run_ticks n sim = Ok sim' →
  stowed_ok rows quota (Simulation.plane sim')
    (Simulation.passengers_queue sim').
Proof.
  induction n as [|n IH]; intros sim sim' Htick Hst Hrun; simpl in Hrun.
  - by injection Hrun as <-.
  - destruct (update_in_parallel sim) as [sim1|] eqn:Hup; [|done].
    cbn [rbind] in Hrun.
    destruct (tick_passenger rows sim sim1 Htick Hup) as (Htick1 & _).
    eapply IH; [exact Htick1| |exact Hrun].
    exact (tick_stowed sim sim1 Htick Hst Hup).
Qed.
End StowRun.

Lemma start_stowed rows queue :
  start_ok rows queue →
  stowed_ok rows (λ r, row_quota r queue) (Plane_init rows) queue.
Proof.
  intros (Hlocal & Hfresh & Hnd).
  assert (Hf : Forall fresh_passenger queue).
  { apply Forall_lookup. intros k p Hk. by destruct (Hfresh k p Hk). }
  split.
  - eapply Forall_impl; [exact Hf|]. intros p (_ & _ & _ & _ & Hs & _).
    unfold settled. rewrite Hs. split_and!; [done|done|by intros [?|?]].
  - intros r Hr. exists 0. split; [by apply total_in_row_init|].
    by rewrite (pending_fresh r queue Hf).
Qed.

Lemma run_stowed_from_start rows queue (n : nat) sim :
  start_ok rows queue →
  run_ticks n (Simulation_init rows queue) = Ok sim →
  tick_ok rows sim ∧
  Forall2 advances queue (Simulation.passengers_queue sim) ∧
  (∀ r, row_quota r queue ≤ 6 * OVERHEAD_BIN_CAPACITY) ∧
  stowed_ok rows (λ r, row_quota r queue)
    (Simulation.plane sim) (Simulation.passengers_queue sim).
Proof.
  intros Hstart Hrun.
  pose proof (start_tick_ok rows queue Hstart) as Htick0.
  destruct (run_passenger rows n _ _ Htick0 Hrun) as (Htick & Hadv & _).
  assert (Hfits : ∀ r, row_quota r queue ≤ 6 * OVERHEAD_BIN_CAPACITY).
  { intros r. by eapply row_quota_fits. }
  split_and!; [done..|].
  apply (run_stowed rows (λ r, row_quota r queue) Hfits n
           (Simulation_init rows queue) sim Htick0); [|done].
  by apply start_stowed.
Qed.

Lemma run_stowed_from_init (R : Random) fuel (g : rng R) rows late_percent
    late_immediate boarding_method sim0 g' (n : nat) sim :
  RandomOk R →
  Simulation__init__ R fuel g rows late_percent late_immediate boarding_method
    = Ok (sim0, g') →
  run_ticks n sim0 = Ok sim →
  start_ok rows (Simulation.passengers_queue sim0) ∧
  tick_ok rows sim ∧
  Forall2 advances (Simulation.passengers_queue sim0)
    (Simulation.passengers_queue sim) ∧
  (∀ r, row_quota r (Simulation.passengers_queue sim0)
        ≤ 6 * OVERHEAD_BIN_CAPACITY) ∧
  stowed_ok rows (λ r, row_quota r (Simulation.passengers_queue sim0))
    (Simulation.plane sim) (Simulation.passengers_queue sim).
Proof.
  intros HR Hinit Hrun.
  destruct (init_start_ok R fuel g rows late_percent late_immediate
              boarding_method sim0 g' HR Hinit) as (queue & -> & Hstart).
  split; [done|].
  exact (run_stowed_from_start rows queue n sim Hstart Hrun).
Qed.

(** X21. In a boarding nobody ever has to look for a bin in another row:
    no passenger is ever in the state looking_bin, and whoever stows, moves
    to its seat or is done, is in the row of its seat. *)
Theorem nobody_looks_for_a_bin (R : Random) (fuel : nat) (g : rng R)
    (rows late_percent : Z) (late_immediate : bool) (boarding_method : Z)
    (sim0 : Simulation.t) (g' : rng R) (n : nat) (sim : Simulation.t) :
  RandomOk R →
  Simulation__init__ R fuel g rows late_percent late_immediate boarding_method
    = Ok (sim0, g') →
  run_ticks n sim0 = Ok sim →
  Forall (λ p, Passenger.state p ≠ LookingBin ∧
               (Passenger.state p = Stowing ∨ Passenger.state p = MoveToSeat
                ∨ Passenger.state p = Done →
                Passenger.y p = Passenger.seat_row p))
    (Simulation.passengers_queue sim).
Proof.
  intros HR Hinit Hrun.
  destruct (run_stowed_from_init R fuel g rows late_percent late_immediate
              boarding_method sim0 g' n sim HR Hinit Hrun)
    as (_ & _ & _ & _ & Hsettled & _).
  eapply Forall_impl; [exact Hsettled|].
  intros p (Hnl & Hstow & Hseat). split; [done|].
  intros [Hs|[Hs|Hs]]; [by apply Hstow| |];
    (destruct Hseat as [? _]; [tauto|done]).
Qed.

Lemma nobody_looks_for_a_bin_witness :
  ∃ sim0 g' sim,
    Simulation__init__ replay 5 [2; 1; 3; 1; 2; 1] 1 0 false 2 = Ok (sim0, g') ∧
    run_ticks 12 sim0 = Ok sim ∧
    Forall (λ p, Passenger.state p ≠ LookingBin ∧
                 (Passenger.state p = Stowing ∨ Passenger.state p = MoveToSeat
                  ∨ Passenger.state p = Done →
                  Passenger.y p = Passenger.seat_row p))
      (Simulation.passengers_queue sim).
Proof.
  destruct (Simulation__init__ replay 5 [2; 1; 3; 1; 2; 1] 1 0 false 2)
    as [[sim0 g']|e] eqn:Hinit; [|vm_compute in Hinit; discriminate Hinit].
  destruct (run_ticks 12 sim0) as [sim|e] eqn:Hrun.
  2:{ vm_compute in Hinit. injection Hinit as <- <-.
      vm_compute in Hrun. discriminate Hrun. }
  exists sim0, g', sim. split_and!; [done..|].
  exact (nobody_looks_for_a_bin replay 5 [2; 1; 3; 1; 2; 1] 1 0 false 2
           sim0 g' 12 sim replay_ok Hinit Hrun).
Defined.

(** X22. No overhead bag gets lost, and every row can take the bags of its
    passengers: at every moment of a boarding, what the bins of a row hold
    and what the passengers of that row still carry add up to the overhead
    bags these passengers came with, which are at most twelve. *)
Theorem overhead_bags_are_conserved (R : Random) (fuel : nat) (g : rng R)
    (rows late_percent : Z) (late_immediate : bool) (boarding_method : Z)
    (sim0 : Simulation.t) (g' : rng R) (n : nat) (sim : Simulation.t) (r : Z) :
  RandomOk R →
  Simulation__init__ R fuel g rows late_percent late_immediate boarding_method
    = Ok (sim0, g') →
  run_ticks n sim0 = Ok sim →
  0 ≤ r < rows →
  ∃ t, total_in_row (Simulation.plane sim) r = Ok t ∧
       t + pending r (Simulation.passengers_queue sim)
         = row_quota r (Simulation.passengers_queue sim0) ∧
       row_quota r (Simulation.passengers_queue sim0)
         ≤ 6 * OVERHEAD_BIN_CAPACITY.
Proof.
  intros HR Hinit Hrun Hr.
  destruct (run_stowed_from_init R fuel g rows late_percent late_immediate
              boarding_method sim0 g' n sim HR Hinit Hrun)
    as (_ & _ & _ & Hfits & _ & Hcons).
  destruct (Hcons r Hr) as (t & Ht & Hsum). exists t. by split_and!.
Qed.

Lemma overhead_bags_are_conserved_witness :
  ∃ sim0 g' sim,
    Simulation__init__ replay 5 [2; 1; 3; 1; 2; 1] 1 0 false 2 = Ok (sim0, g') ∧
    run_ticks 9 sim0 = Ok sim ∧
    ∃ t, total_in_row (Simulation.plane sim) 0 = Ok t ∧
         t + pending 0 (Simulation.passengers_queue sim)
           = row_quota 0 (Simulation.passengers_queue sim0) ∧
         row_quota 0 (Simulation.passengers_queue sim0)
           ≤ 6 * OVERHEAD_BIN_CAPACITY.
Proof.
  destruct (Simulation__init__ replay 5 [2; 1; 3; 1; 2; 1] 1 0 false 2)
    as [[sim0 g']|e] eqn:Hinit; [|vm_compute in Hinit; discriminate Hinit].
  destruct (run_ticks 9 sim0) as [sim|e] eqn:Hrun.
  2:{ vm_compute in Hinit. injection Hinit as <- <-.
      vm_compute in Hrun. discriminate Hrun. }
  exists sim0, g', sim. split_and!; [done..|].
  exact (overhead_bags_are_conserved replay 5 [2; 1; 3; 1; 2; 1] 1 0 false
           2 sim0 g' 9 sim 0 replay_ok Hinit Hrun ltac:(lia)).
Defined.

Lemma pending_zero r (store : list Passenger.t) :
  Forall (λ p, Passenger.overhead_bags p = 0) store → pending r store = 0.
Proof.
  induction 1 as [|p l Hp _ IH]; [done|].
  rewrite pending_cons, IH, Hp. by case_bool_decide.
Qed.

(** X23. When everybody is done, everybody sits on its own seat (in the row
    of its seat, in the column of its seat letter), no two passengers on
    the same cell, and the bins of every row hold exactly the overhead
    bags of the passengers of that row. *)
Theorem everyone_ends_in_own_seat (R : Random) (fuel : nat) (g : rng R)
    (rows late_percent : Z) (late_immediate : bool) (boarding_method : Z)
    (sim0 : Simulation.t) (g' : rng R) (n : nat) (sim : Simulation.t) :
  RandomOk R →
  Simulation__init__ R fuel g rows late_percent late_immediate boarding_method
    = Ok (sim0, g') →
  run_ticks n sim0 = Ok sim →
  all_done (Simulation.passengers_queue sim) = true →
  Forall (λ p, Passenger.y p = Passenger.seat_row p ∧
               letter_to_col (Passenger.seat_letter p) = Ok (Passenger.x p))
    (Simulation.passengers_queue sim) ∧
  (∀ (i j : nat) p q,
     Simulation.passengers_queue sim !! i = Some p →
     Simulation.passengers_queue sim !! j = Some q →
     pos_of p = pos_of q → i = j) ∧
  ∀ r, 0 ≤ r < rows →
    total_in_row (Simulation.plane sim) r
    = Ok (row_quota r (Simulation.passengers_queue sim0)).
Proof.
  intros HR Hinit Hrun Hdone.
  destruct (run_stowed_from_init R fuel g rows late_percent late_immediate
              boarding_method sim0 g' n sim HR Hinit Hrun)
    as ((_ & Hfresh & Hnd) & ((_ & Hlocal & _) & _) & Hadv & _
        & Hsettled & Hcons).
  apply all_done_Forall in Hdone.
  assert (Hseat : ∀ (i : nat) p, Simulation.passengers_queue sim !! i = Some p →
            Passenger.y p = Passenger.seat_row p ∧
            letter_to_col (Passenger.seat_letter p) = Ok (Passenger.x p) ∧
            Passenger.overhead_bags p = 0 ∧
            seats_of (Simulation.passengers_queue sim0) !! i
              = Some (Passenger.seat_row p, Passenger.seat_letter p)).
  { intros i p Hp.
    rewrite Forall_lookup in Hdone. specialize (Hdone i p Hp).
    rewrite Forall_lookup in Hsettled.
    destruct (Hsettled i p Hp) as (_ & _ & Hs).
    destruct (Hs ltac:(by right)) as [Hy Hb].
    rewrite Forall_lookup in Hlocal.
    destruct (Hlocal i p Hp) as (_ & _ & _ & _ & _ & Hloc).
    rewrite Hdone in Hloc. destruct Hloc as [Hx _].
    destruct (Forall2_lookup_r _ _ _ _ _ Hadv Hp) as (p0 & Hp0 & Ha).
    destruct Ha as (Hrow & Hlet & _ & Htc & _).
    destruct (Hfresh i p0 Hp0) as (_ & _ & _ & _ & _ & _ & _ & _ & _ & Hcol).
    split_and!; [done| |done|].
    - rewrite Hlet, Hx, Htc. done.
    - unfold seats_of. rewrite list_lookup_fmap, Hp0. simpl. congruence. }
  split_and!.
  - apply Forall_lookup. intros i p Hp.
    by destruct (Hseat i p Hp) as (? & ? & _).
  - intros i j p q Hp Hq Hpos.
    destruct (Hseat i p Hp) as (Hyp & Hcp & _ & Hsp).
    destruct (Hseat j q Hq) as (Hyq & Hcq & _ & Hsq).
    unfold pos_of in Hpos. injection Hpos as Hy Hx.
    rewrite Hx in Hcp.
    pose proof (letter_to_col_inj _ _ _ Hcp Hcq) as Hl.
    eapply NoDup_lookup; [exact Hnd|exact Hsp|].
    rewrite Hsq. f_equal. f_equal; congruence.
  - intros r Hr. destruct (Hcons r Hr) as (t & Ht & Hsum).
    rewrite (pending_zero r) in Hsum.
    + rewrite Ht. f_equal. lia.
    + apply Forall_lookup. intros i p Hp.
      by destruct (Hseat i p Hp) as (_ & _ & ? & _).
Qed.

Lemma everyone_ends_in_own_seat_witness :
  ∃ sim0 g' sim,
    Simulation__init__ replay 5 [2; 1; 3; 1; 2; 1] 1 0 false 2 = Ok (sim0, g') ∧
    run_ticks 40 sim0 = Ok sim ∧
    all_done (Simulation.passengers_queue sim) = true ∧
    total_in_row (Simulation.plane sim) 0
      = Ok (row_quota 0 (Simulation.passengers_queue sim0)) ∧
    Forall (λ p, Passenger.y p = Passenger.seat_row p ∧
                 letter_to_col (Passenger.seat_letter p) = Ok (Passenger.x p))
      (Simulation.passengers_queue sim).
Proof.
  destruct (Simulation__init__ replay 5 [2; 1; 3; 1; 2; 1] 1 0 false 2)
    as [[sim0 g']|e] eqn:Hinit; [|vm_compute in Hinit; discriminate Hinit].
  destruct (run_ticks 40 sim0) as [sim|e] eqn:Hrun.
  2:{ vm_compute in Hinit. injection Hinit as <- <-.
      vm_compute in Hrun. discriminate Hrun. }
  assert (Hdone : all_done (Simulation.passengers_queue sim) = true).
  { vm_compute in Hinit. injection Hinit as <- <-.
    vm_compute in Hrun. by injection Hrun as <-. }
  destruct (everyone_ends_in_own_seat replay 5 [2; 1; 3; 1; 2; 1] 1 0 false 2
              sim0 g' 40 sim replay_ok Hinit Hrun Hdone)
    as (Hseats & _ & Hbins).
  exists sim0, g', sim. split_and!; [done..| |done].
  apply Hbins. lia.
Defined.

(** ** Every boarding ends *)

Lemma run_ends_seated rows queue (n : nat) sim :
  start_ok rows queue →
  run_ticks n (Simulation_init rows queue) = Ok sim →
  all_done (Simulation.passengers_queue sim) = true →
  Forall2 (λ p p', advances p p' ∧ Passenger.state p' = Done ∧
                   Passenger.y p' = Passenger.seat_row p ∧
                   Passenger.x p' = Passenger.target_col p)
    queue (Simulation.passengers_queue sim).
Proof.
  intros Hstart Hrun Hdone.
  destruct (run_stowed_from_start rows queue n sim Hstart Hrun)
    as (((_ & Hlocal & _) & _) & Hadv & _ & Hsettled & _).
  apply all_done_Forall in Hdone.
  apply Forall2_same_length_lookup. split; [by eapply Forall2_length|].
  intros i p p' Hp Hp'.
  pose proof (Forall2_lookup_lr _ _ _ _ _ _ Hadv Hp Hp') as Ha.
  rewrite Forall_lookup in Hdone. specialize (Hdone i p' Hp').
  rewrite Forall_lookup in Hsettled.
  destruct (Hsettled i p' Hp') as (_ & _ & Hs).
  destruct (Hs ltac:(by right)) as [Hy _].
  rewrite Forall_lookup in Hlocal.
  destruct (Hlocal i p' Hp') as (_ & _ & _ & _ & _ & Hloc).
  rewrite Hdone in Hloc. destruct Hloc as [Hx _].
  pose proof Ha as (Hrow & _ & _ & Htc & _).
  split; [exact Ha|]. split; [exact Hdone|]. split; congruence.
Qed.

(** C8. For a plane of [rows > 0] rows and [0 <= n <= 6 * rows]
    passengers, each of the six boarding methods returns a base list of
    [n] passengers; the late arrivals that go after all the others are put
    in place for every integer percentage from 0 to 100 (with [100 * n]
    below [2^53], where the late count is exact); and for the queue that
    [apply_late_arrivals] returns in either mode, which has the [n]
    passengers, some number of calls of [update_in_parallel], at most
    [6 * rows * (2 * rows + 8)], brings the boarding without an error to a
    state where everybody is done: the queue then holds every one of these
    passengers, with the seat, bags and queue index it had, in the state
    done, in the row of its seat and in its target column. *)
Theorem boarding_reaches_all_done (R : Random) (boarding_method n rows : Z)
    (g : rng R) :
  RandomOk R → 0 < rows → 0 ≤ n ≤ 6 * rows →
  ∃ base g1,
    generate_boarding R boarding_method g (Plane_init rows) n = Ok (base, g1) ∧
    length base = Z.to_nat n ∧
    (∀ fuel late_percent, 0 ≤ late_percent ≤ 100 → 100 * n < 2 ^ 53 →
       is_ok (apply_late_arrivals R fuel g1 base late_percent false)) ∧
    ∀ fuel late_percent late_immediate queue g2,
      apply_late_arrivals R fuel g1 base late_percent late_immediate
        = Ok (queue, g2) →
      length queue = Z.to_nat n ∧
      ∃ (ticks : nat) sim,
        Z.of_nat ticks ≤ ticks_bound rows ∧
        run_ticks ticks (Simulation_init rows queue) = Ok sim ∧
        all_done (Simulation.passengers_queue sim) = true ∧
        Forall2 (λ p p', advances p p' ∧ Passenger.state p' = Done ∧
                         Passenger.y p' = Passenger.seat_row p ∧
                         Passenger.x p' = Passenger.target_col p)
          queue (Simulation.passengers_queue sim).
Proof.
  intros HR Hrows Hn.
  destruct (generate_boarding_queue R boarding_method g rows n HR)
    as (all_seats & base & g1 & Hperm & Hgen & Hseats & Hbase & _).
  assert (Hlen : length base = Z.to_nat n).
  { rewrite <- (length_fmap (λ p, (Passenger.seat_row p, Passenger.seat_letter p))).
    fold (seats_of base). rewrite Hseats. unfold py_slice_to.
    rewrite bool_decide_eq_true_2 by lia.
    rewrite length_take, Hperm, length_plane_seats. lia. }
  exists base, g1. split_and!; [exact Hgen|exact Hlen| |].
  - intros fuel late_percent Hp _.
    apply apply_late_arrivals_deferred_total; [done|lia].
  - intros fuel late_percent late_immediate queue g2 Hlate.
    pose proof (queue_start_ok R boarding_method fuel g rows n late_percent
                  late_immediate base g1 queue g2 HR Hgen Hlate) as Hstart.
    destruct (apply_late_arrivals_keeps R HR rows _ _ _ _ _ _ _ Hlate Hbase)
      as [Hqueue Hqlen].
    split; [congruence|].
    pose proof (total_steps_left_bound rows queue Hqueue) as Hbound.
    pose proof (tick_ok_init rows queue Hqueue) as Htick.
    destruct (run_ticks_terminates rows
                (Z.to_nat (Z.of_nat (length queue) * (2 * rows + 8)))
                (Simulation_init rows queue) Htick)
      as (ticks & sim & Hticks & Hrun & _ & Hdone); [simpl; lia|].
    exists ticks, sim. split_and!; [|exact Hrun|exact Hdone|].
    + unfold ticks_bound. nia.
    + by eapply run_ends_seated.
Qed.

Lemma boarding_reaches_all_done_witness :
  ∃ base g1 queue g2 (ticks : nat) sim,
    generate_boarding replay 2 [1; 2; 3; 1; 2; 3; 1; 2; 3; 1; 2; 3;
                                0; 5; 2; 7; 1; 3] (Plane_init 2) 12
      = Ok (base, g1) ∧
    length base = 12%nat ∧
    is_ok (apply_late_arrivals replay 5 g1 base 50 false) ∧
    apply_late_arrivals replay 5 g1 base 50 true = Ok (queue, g2) ∧
    length queue = 12%nat ∧
    Z.of_nat ticks ≤ ticks_bound 2 ∧
    run_ticks ticks (Simulation_init 2 queue) = Ok sim ∧
    all_done (Simulation.passengers_queue sim) = true ∧
    Forall2 (λ p p', advances p p' ∧ Passenger.state p' = Done ∧
                     Passenger.y p' = Passenger.seat_row p ∧
                     Passenger.x p' = Passenger.target_col p)
      queue (Simulation.passengers_queue sim).
Proof.
  destruct (boarding_reaches_all_done replay 2 12 2
              [1; 2; 3; 1; 2; 3; 1; 2; 3; 1; 2; 3; 0; 5; 2; 7; 1; 3]
              replay_ok ltac:(lia) ltac:(lia))
    as (base & g1 & Hgen & Hlen & Hdeferred & Hrun).
  destruct (apply_late_arrivals replay 5 g1 base 50 true)
    as [[queue g2]|e] eqn:Hlate.
  - destruct (Hrun 5%nat 50 true queue g2 Hlate)
      as (Hqlen & ticks & sim & Hticks & Hsim & Hdone & Hadv).
    exists base, g1, queue, g2, ticks, sim.
    split_and!; [exact Hgen|exact Hlen| |exact Hlate|exact Hqlen|exact Hticks
                |exact Hsim|exact Hdone|exact Hadv].
    apply Hdeferred; [lia|reflexivity].
  - vm_compute in Hgen. injection Hgen as <- <-.
    vm_compute in Hlate. discriminate Hlate.
Defined.
